(* ===== verification/_CoqProject ===== *)
-Q . S2P
Prelude.v
Logger.v
Queue.v
Api.v
Float.v
Client.v
FloatBounds.v
Xlating.v
FilterTypes.v
Simd.v
Config.v
Lpf.v
DspWorker.v
Pipeline.v
TcpServer.v
EndToEnd.v
Lifecycle.v
Io.v
Lib.v
Rtlsdr.v
Airspy.v
Hackrf.v
Msisdr.v
Driver.v
FilterMemory.v
ConfigMemory.v
SdrDevice.v
Startup.v
RtlTcp.v
RtlTcpServer.v
RtlTcpMain.v
