(* ===== verification/Prelude.v ===== *)
(** * sdr-server: a verification development

    sdr-server shares one radio receiver between TCP clients: the receiver
    streams a wide band, each client asks for a channel of it, and a worker per
    client filters, decimates and sends (or saves) that channel.  This library
    models the C sources of the server (src/*.c), of its four receiver drivers
    (src/sdr/*.c), of its client library and program (src/client/*.c) and of the
    independent rtl_tcp server for MSi receivers (src/rtltcp_server.c), and proves
    what makes each part correct.

    ** Parts and how they interact

    src/main.c reads the configuration and starts the server; an acceptor thread
    reads the request of each connection, validates it, creates a DSP worker and,
    for the first client of a band, starts the receiver through the driver of its
    type.  The driver's callback copies each buffer of samples into the queue of
    every live client; the worker of a client takes buffers from its queue, passes
    them through its frequency-translating filter and writes the output.  The last
    client to leave makes a shutdown thread stop the receiver.

    - Prelude.v: undefined behaviour as [option], machine integers as [Z] with
      [wrap] and [swrap], C buffers as lists with checked access, runs of a
      labelled step relation, shared lemmas and tactics.
    - Queue.v (queue.c): the queue with its three lists as linked nodes on an
      explicit heap.  Each call holds the mutex, so that it is one step.  The
      calls refine a bounded FIFO that overwrites its newest buffer when full;
      stability of the detached buffer, order and loss, poisoning.
    - Api.v (api.h, the framing loops of tcp_server.c and client/tcp_client.c):
      structs as bytes, [read_struct], [write_data], requests and responses; round
      trips under any fragmentation.
    - Float.v, FloatBounds.v: the [float] and [double] operations, on SpecFloat;
      exactness of integers, quotients, and bounds through rounded operations.
    - Xlating.v (xlating.c): creation of the filter and the portable processing of
      both sample formats; a stream cut into calls in any way is the FIR filter,
      decimated and mixed, of the whole, bit for bit.  FilterTypes.v: what a
      well-formed filter is, and that the twelve processing functions keep it.
      FilterMemory.v: its blocks of memory, in the constructor and the
      destructor.  Simd.v: the AVX and NEON variants, which sum a window in lanes.
    - Config.v, ConfigMemory.v (config.c): the configuration, on libconfig's
      answers; its memory, with every early return.  Lpf.v (lpf.c): the number of
      taps, for every rate and width, and the low-pass design.
    - DspWorker.v (dsp_worker.c): the worker loop, its start with every failure,
      its destruction.
    - Pipeline.v (dsp_worker.c, sdr_device.c, tcp_server.c): the receiver that puts
      buffers, the worker that takes, filters and writes them and the thread that
      interrupts it, as a step relation over the queue; [sdr_callback] over all the
      clients.
    - TcpServer.v (tcp_server.c): one connection, from the header to the
      registration of the client.
    - EndToEnd.v: a session, from the options of the client program to the bytes in
      its file: the pipeline with the two threads that write to the socket.
    - Lifecycle.v (tcp_server.c): the acceptor, the client threads and the shutdown
      thread as a step relation on the shared state; safety, service, and the
      deadlocks there are.
    - Io.v, Lib.v (sdr/*_lib.c): code that calls libraries, as a monad over an
      oracle that answers each call; [live] replays the record of the calls and
      fails on the misuse of a handle; weakest preconditions; [holding], the open
      handles up to their order.
    - Rtlsdr.v, Airspy.v, Hackrf.v, Msisdr.v (sdr/*_device.c): the drivers.
      Driver.v is the interface ([Class Driver]) with its laws ([DriverLaws],
      [DriverRecovers]), which the drivers instantiate; SdrDevice.v (sdr_device.c)
      is proved against the interface.
    - Startup.v (tcp_server.c, main.c): start, stop and join of the server, and
      [main] over what it owns itself: ConfigMemory.v, the start, SdrDevice.v, the
      stop and the join; what the clients own is in TcpServer.v and DspWorker.v.
    - Client.v (client/tcp_client_main.c, tcp_client.c): the client program.
    - RtlTcp.v, RtlTcpServer.v, RtlTcpMain.v (rtltcp_server.c): commands and DC
      filter; slots, threads, signal and shutdown; options, listening socket,
      device, USB thread and [main], composed with the run of the accept loop and the
      command threads.  Logger.v (logger.c): its log file, with failing prints,
      renames and opens.

    A C function has the name of its definition; a struct is a [Record] with the
    C fields that matter; functions that can fail return their code; what the
    environment decides (malloc, the network, files, threads) is an argument or an
    answer of the oracle.

    ** What the theorems show

    - The data path: queue, filter, worker, framing and client
      ([queue_refines_fifo], [cf32_stream_correct], [cs16_stream_exact],
      [optimized_equivalent], [request_roundtrip], [response_roundtrip],
      [client_saves_stream]), and their composition under every interleaving:
      [client_receives_its_stream], [clients_do_not_interfere], [end_to_end]; for
      the rtl_tcp server [commands_applied], [clients_receive_stream].
    - Undefined behaviour excluded, types and bounds: [queue_calls_defined],
      [create_filter_correct], [filter_type_soundness], [computeNtaps_exact],
      [dc_filter_in_range].
    - Resources: [filter_memory_balanced], [configuration_owned],
      [dsp_worker_start_balanced], [device_lifetime_balanced], [server_resources],
      [main_resources].
    - Concurrency: [held_buffer_stable], [worker_refines_callback],
      [pipeline_never_stuck], [poisoned_worker_ends], [lifecycle_safe],
      [orderly_client_registered], [signal_stops_server].
    - Errors: what becomes of every connection ([handle_connection_outcome]); every
      failure of a start is cleaned up or the leak is exactly stated; where the code does go wrong a theorem says
      exactly how ([join_deadlock_exact], [abandoned_device_starves],
      [early_samples_break_client], [failed_start_reads_uninitialised],
      [DspWorker.msi_client_receives_nothing], [stale_thread_evicts],
      [evicted_client_blocks_shutdown]).

    ** Bounds and fuel

    Loops that are not structural take fuel, and the theorems give an amount that
    is enough: one more than the number of windows for the filters, the number of
    bytes for commands and copies, one more than the number of calls before the
    signal for the USB thread.  A poisoned worker ends within [4 * queue_size + 1]
    of its steps.  Lengths of buffers are [nat]; 32-bit and 16-bit quantities are
    [Z] with their range.

    ** Not modelled

    - -ffast-math and fused operations of the Release build, which license other
      roundings.
    - The vendored libmsisdr and the vendor libraries, libconfig, zlib, libm: they
      are parameters or oracles, with documented behaviour as hypotheses.
    - The shell command that searches the local address for rtltcp_server.c (what
      it prints is an argument), usage texts and other output, the unit tests.
    - Data races: a step of a thread is a critical section, one call, or a function
      whose shared accesses are volatile reads ([RtlTcpMain.peek]).  In a session
      the response of the acceptor is one step ([EndToEnd.Answer]), and the end of
      a worker closes its socket in the step of its last completion.  The handler
      of a signal acts where the interrupted code next looks ([RtlTcpMain]): its
      use of a device between its closing and the reset of the pointer is left out.
      The rtl_tcp server is granted the memory and the threads of its command
      threads, and takes a slot and starts its thread in one step; the server joins
      a worker in one step ([Lifecycle.tcp_worker_end]), as if its write returned.
    - The clients of [Startup.main]: a run of the server starts and stops the
      receiver for any sequence of bands.
    - [process_optimized_*] in FilterTypes.v and DspWorker.v (where the pointers of a
      worker select them, [filter_input_selected]) are those of a build without AVX
      or NEON; the vector variants are in Simd.v. *)
From Stdlib Require Export ZArith Lia.
From stdpp Require Export base numbers option gmap strings list.

(** ** Undefined behaviour

    A C operation that can run into undefined behaviour (a null or dangling
    pointer, an access out of bounds, an overflowing signed operation, a
    division by zero) is a function into [option]: [None] is the undefined
    behaviour, [Some v] the value the operation yields.  The option monad of
    stdpp ([x ← m; k]) sequences such operations. *)
Abbreviation UB := None (only parsing).

(** [ensure b] continues when the condition [b] the C code relies on holds. *)
Definition ensure (b : bool) : option unit := if b then Some tt else UB.

(** ** Machine integers

    A [w]-bit C integer is a [Z]; [wrap w] is the conversion to the unsigned
    type of width [w] and [swrap w] the (two's complement) conversion to the
    signed one. *)
Definition wrap (w x : Z) : Z := x `mod` 2 ^ w.

Definition swrap (w x : Z) : Z := (x + 2 ^ (w - 1)) `mod` 2 ^ w - 2 ^ (w - 1).

Declare Scope cint_scope.
Delimit Scope cint_scope with cint.
Notation "'u8'" := (wrap 8) : cint_scope.
Notation "'u16'" := (wrap 16) : cint_scope.
Notation "'u32'" := (wrap 32) : cint_scope.
Notation "'u64'" := (wrap 64) : cint_scope.
Notation "'i16'" := (swrap 16) : cint_scope.
Notation "'i32'" := (swrap 32) : cint_scope.
Notation "'i64'" := (swrap 64) : cint_scope.
Open Scope cint_scope.

(** Membership in the range of a type. *)
Definition is_unsigned (w x : Z) : Prop := (0 <= x < 2 ^ w)%Z.
Definition is_signed (w x : Z) : Prop := (- 2 ^ (w - 1) <= x < 2 ^ (w - 1))%Z.

(** ** [errno] values the code returns or tests (Linux numbering) *)
Definition EINTR : Z := 4.
Definition EBADF : Z := 9.
Definition EAGAIN : Z := 11.
Definition EWOULDBLOCK : Z := 11.
Definition ENOMEM : Z := 12.
Definition EINVAL : Z := 22.

(** ** Buffers

    A C array is the list of its cells.  [write_at dst off src] is a store of
    the consecutive cells [src] at offset [off] ([memcpy], or a loop that
    stores cell by cell) and [read_at src off len] a load; both are undefined
    outside the array. *)
Definition write_at {A} (dst : list A) (off : nat) (src : list A) : option (list A) :=
  if decide (off + length src <= length dst)
  then Some (take off dst ++ src ++ drop (off + length src) dst)
  else UB.

Definition read_at {A} (src : list A) (off len : nat) : option (list A) :=
  if decide (off + len <= length src) then Some (take len (drop off src)) else UB.

(** ** Reflexive transitive closure of a labelled step relation *)
Section run.
Context {S L : Type} (step : S -> L -> S -> Prop).

Inductive run : S -> list L -> S -> Prop :=
| run_nil s : run s [] s
| run_snoc s1 ls s2 l s3 : run s1 ls s2 -> step s2 l s3 -> run s1 (ls ++ [l]) s3.
End run.

(** The run of a step function. *)
Fixpoint exec_trace {S L} (exec : S -> L -> option S) (s : S) (tr : list L) : option S :=
  match tr with
  | [] => Some s
  | l :: tr' => s' ← exec s l; exec_trace exec s' tr'
  end.

(** ** Lemmas *)

Lemma wrap_small w x : is_unsigned w x -> wrap w x = x.
Proof. intros. by apply Z.mod_small. Qed.

Lemma wrap_range w x : (0 <= w)%Z -> is_unsigned w (wrap w x).
Proof. intros. apply Z.mod_pos_bound. lia. Qed.

Lemma swrap_small w x : is_signed w x -> (0 < w)%Z -> swrap w x = x.
Proof.
  unfold is_signed, swrap. intros H Hw.
  assert (2 ^ w = 2 * 2 ^ (w - 1))%Z as Hp.
  { rewrite <- Z.pow_succ_r by lia. f_equal. lia. }
  rewrite Z.mod_small by lia. lia.
Qed.

Lemma swrap_range w x : (0 < w)%Z -> is_signed w (swrap w x).
Proof.
  intros Hw. unfold is_signed, swrap.
  assert (2 ^ w = 2 * 2 ^ (w - 1))%Z as Hp.
  { rewrite <- Z.pow_succ_r by lia. f_equal. lia. }
  pose proof (Z.mod_pos_bound (x + 2 ^ (w - 1)) (2 ^ w)). lia.
Qed.

Lemma wrap_wrap w x : wrap w (wrap w x) = wrap w x.
Proof. apply Zmod_mod. Qed.

(** Bitwise operations as arithmetic. *)
Lemma lor_add a b n :
  (0 <= n -> 0 <= a < 2 ^ n -> b `mod` 2 ^ n = 0 -> Z.lor a b = a + b)%Z.
Proof.
  intros Hn Ha Hb. assert (Z.land a b = 0)%Z as Hland.
  { apply Z.bits_inj'. intros i Hi. rewrite Z.land_spec, Z.bits_0.
    destruct (decide (i < n)%Z).
    - rewrite <- (Z.mod_pow2_bits_low b n i), Hb, Z.bits_0 by lia. apply andb_false_r.
    - rewrite <- (Z.mod_small a (2 ^ n)), Z.mod_pow2_bits_high by lia. done. }
  by rewrite <- Z.lxor_lor, <- Z.add_nocarry_lxor by done.
Qed.

Lemma land_ones_mod x n : (0 <= n)%Z -> Z.land x (2 ^ n - 1) = (x `mod` 2 ^ n)%Z.
Proof. intros. rewrite <- Z.land_ones, Z.ones_equiv. f_equal. lia. Qed.

Lemma land_255 x : Z.land x 255 = (x `mod` 256)%Z.
Proof. apply (land_ones_mod x 8). lia. Qed.

Lemma shiftl_mul x n : (0 <= n)%Z -> Z.shiftl x n = (x * 2 ^ n)%Z.
Proof. apply Z.shiftl_mul_pow2. Qed.

Lemma shiftr_div x n : (0 <= n)%Z -> Z.shiftr x n = (x `div` 2 ^ n)%Z.
Proof. apply Z.shiftr_div_pow2. Qed.

Lemma mul_pow2_mod_0 x n m : (0 <= n <= m)%Z -> ((x * 2 ^ m) `mod` 2 ^ n = 0)%Z.
Proof.
  intros H. replace m with ((m - n) + n)%Z by lia.
  rewrite Z.pow_add_r, Z.mul_assoc by lia. apply Z.mod_mul. lia.
Qed.

Lemma write_at_length {A} (dst : list A) off src dst' :
  write_at dst off src = Some dst' -> length dst' = length dst.
Proof.
  unfold write_at. intros H. case_decide; simplify_eq.
  rewrite !length_app, length_take, length_drop. lia.
Qed.

Lemma write_at_is_Some {A} (dst : list A) off src :
  off + length src <= length dst ->
  write_at dst off src = Some (take off dst ++ src ++ drop (off + length src) dst).
Proof. intros. unfold write_at. by rewrite decide_True. Qed.

Lemma write_at_read {A} (dst : list A) off src dst' :
  write_at dst off src = Some dst' -> take (off + length src) dst' = take off dst ++ src.
Proof.
  unfold write_at. intros H. case_decide; simplify_eq.
  rewrite app_assoc. rewrite take_app_length'; [done|].
  rewrite length_app, length_take. lia.
Qed.

Lemma read_at_is_Some {A} (src : list A) off len :
  off + len <= length src -> read_at src off len = Some (take len (drop off src)).
Proof. intros. unfold read_at. by rewrite decide_True. Qed.

Lemma run_invariant {S L} (step : S -> L -> S -> Prop) (I : S -> Prop) :
  (forall s l s', I s -> step s l s' -> I s') ->
  forall s ls s', run step s ls s' -> I s -> I s'.
Proof. intros Hstep s ls s' Hrun HI. induction Hrun; eauto. Qed.

Lemma run_app {S L} (step : S -> L -> S -> Prop) s1 ls1 s2 ls2 s3 :
  run step s1 ls1 s2 -> run step s2 ls2 s3 -> run step s1 (ls1 ++ ls2) s3.
Proof.
  intros H1 H2. induction H2; [by rewrite app_nil_r|].
  rewrite app_assoc. econstructor; eauto.
Qed.

Lemma run_nil_inv {S L} (step : S -> L -> S -> Prop) s1 s2 : run step s1 [] s2 -> s2 = s1.
Proof. intros H. remember [] as tr eqn:E. destruct H as [|? ls]; [done|by destruct ls]. Qed.

Lemma run_snoc_inv {S L} (step : S -> L -> S -> Prop) s1 ls l s3 :
  run step s1 (ls ++ [l]) s3 -> exists s2, run step s1 ls s2 /\ step s2 l s3.
Proof.
  intros H. remember (ls ++ [l]) as tr eqn:E.
  destruct H as [|s1 ls' s2 l' s3 Hrun Hstep]; [by destruct ls|].
  apply app_inj_tail in E as [-> ->]. eauto.
Qed.

Lemma exec_trace_run {S L} (exec : S -> L -> option S) tr : forall s s',
  exec_trace exec s tr = Some s' -> run (fun s l s' => exec s l = Some s') s tr s'.
Proof.
  induction tr as [|l tr IH]; intros s s' H; cbn [exec_trace] in H; [simplify_eq; constructor|].
  apply bind_Some in H as (s1 & H1 & H). apply (run_app _ _ [l] s1); [|by apply IH].
  by apply (run_snoc _ _ []) with s; [constructor|].
Qed.

(** Deciding a property of all the integers of a range by computation. *)
Fixpoint all_from (p : Z -> bool) (n : nat) (z : Z) : bool :=
  match n with
  | O => true
  | S n' => p z && all_from p n' (z + 1)
  end.

Lemma all_from_spec p n : forall lo,
  all_from p n lo = true -> forall z, (lo <= z < lo + Z.of_nat n)%Z -> p z = true.
Proof.
  induction n as [|n IH]; intros lo H z Hz; [lia|].
  simpl in H. apply andb_prop in H as [H1 H2].
  destruct (decide (z = lo)) as [->|Hne]; [done|]. apply (IH (lo + 1)%Z H2). lia.
Qed.

Create HintDb sdr.
Create Rewrite HintDb sdr_len.
#[export] Hint Resolve wrap_range swrap_range : sdr.
#[export] Hint Rewrite @length_app @length_take @length_drop @length_replicate @length_insert @length_fmap : sdr_len.

(** [len] normalises lengths and closes the arithmetic that remains. *)
Ltac len := autorewrite with sdr_len; simpl; try lia.

(** [pow2] evaluates the powers of two with a constant exponent everywhere. *)
Ltac is_Z_literal n :=
  match n with Z0 => idtac | Zpos _ => idtac | Zneg _ => idtac end.
Ltac pow2 :=
  repeat match goal with
  | |- context [(2 ^ ?n)%Z] =>
      is_Z_literal n; let v := eval vm_compute in (2 ^ n)%Z in change (2 ^ n)%Z with v
  | H : context [(2 ^ ?n)%Z] |- _ =>
      is_Z_literal n; let v := eval vm_compute in (2 ^ n)%Z in change (2 ^ n)%Z with v in H
  end.
Ltac plia := unfold is_unsigned, is_signed in *; simpl Z.sub in *; pow2; lia.
