(* ===== verification/Logger.v ===== *)
(** * The log of the rtl_tcp server: src/logger.c

    The entries go to syslog and to a file that is rotated once: when the bytes
    written reach the limit, the file is renamed to [<path>.old] and a new one is
    started.  The file system is a map from paths to contents; what the calls on it
    answer is given, as are the formatted texts (time, message).  A print that fails
    writes nothing.  Every function but [log_init] and [log_close] holds [s_mtx]. *)
From Stdlib Require Import Ascii.
From S2P Require Import Prelude.

Module Logger.

Definition LOG_MAX_BYTES_DEFAULT : nat := 5 * 1024 * 1024.

Abbreviation text := (list ascii).

(** The static variables, with the path of the open [s_file], and the files. *)
Record logger := MkLogger {
  s_file : option string;
  s_path : string;
  s_max_bytes : nat;
  s_written : nat;
  files : gmap string text;
}.

(** [strncpy(s_path, path, sizeof(s_path) - 1)] *)
Definition copy_path (path : string) : string := String.substring 0 511 path.

(** [fopen] with mode "a", which keeps the contents, or "w", which empties them. *)
Definition open_append (path : string) (fs : gmap string text) : gmap string text :=
  match fs !! path with Some _ => fs | None => <[path := []]> fs end.
Definition open_write (path : string) (fs : gmap string text) : gmap string text := <[path := []]> fs.

(** [rename]: [renamed] says whether it succeeds. *)
Definition rename (renamed : bool) (old new : string) (fs : gmap string text) : gmap string text :=
  match fs !! old with
  | Some content => if renamed then <[new := content]> (delete old fs) else fs
  | None => fs
  end.

(** What the calls for one entry answer: the two prints, [fputc], and, when the
    file is rotated, [rename] and [fopen]. *)
Record answers := MkAnswers {
  head_ok : bool;
  message_ok : bool;
  newline_ok : bool;
  rename_ok : bool;
  reopen_ok : bool;
}.

Definition log_init (path : option string) (max_bytes : nat) (fopen_ok : bool) (l : logger) : logger :=
  let max := if (max_bytes =? 0)%nat then LOG_MAX_BYTES_DEFAULT else max_bytes in
  match path with
  | None => MkLogger (s_file l) "" max 0 (files l)
  | Some path =>
      if fopen_ok then MkLogger (Some path) (copy_path path) max 0 (open_append path (files l))
      else MkLogger None (copy_path path) max 0 (files l)
  end.

Definition log_close (l : logger) : logger := MkLogger None (s_path l) (s_max_bytes l) (s_written l) (files l).

Definition old_path (path : string) : string := (path ++ ".old")%string.

Definition maybe_rotate (a : answers) (l : logger) : logger :=
  if (match s_file l with None => true | Some _ => false end) || (s_written l <? s_max_bytes l)%nat then l
  else
    let fs := rename (rename_ok a) (s_path l) (old_path (s_path l)) (files l) in
    if reopen_ok a then MkLogger (Some (s_path l)) (s_path l) (s_max_bytes l) 0 (open_write (s_path l) fs)
    else MkLogger None (s_path l) (s_max_bytes l) 0 fs.

(** The [LOG_ERR] of syslog. *)
Definition LOG_ERR : nat := 3.
Definition LOG_INFO : nat := 6.

(** The parts of the line of an entry. *)
Definition head (priority : nat) (ts : string) : text :=
  String.list_ascii_of_string ("[" ++ ts ++ "] " ++ (if (priority <=? LOG_ERR)%nat then "ERR " else "INFO") ++ "  ").

Definition newline : ascii := "010"%char.

(** What is written of an entry, and what [s_written] counts: a newline counts
    whether [fputc] succeeds or not. *)
Definition entry (priority : nat) (ts message : string) (a : answers) : text :=
  (if head_ok a then head priority ts else []) ++
  (if message_ok a then String.list_ascii_of_string message else []) ++ (if newline_ok a then [newline] else []).

Definition counted (priority : nat) (ts message : string) (a : answers) : nat :=
  (if head_ok a then length (head priority ts) else 0) + (if message_ok a then String.length message else 0) + 1.

(** A write to the open file. *)
Definition append (path : string) (t : text) (fs : gmap string text) : gmap string text :=
  <[path := default [] (fs !! path) ++ t]> fs.

Definition write_entry (priority : nat) (ts message : string) (a : answers) (l : logger) : logger :=
  match s_file l with
  | None => l
  | Some path =>
      maybe_rotate a
        (MkLogger (Some path) (s_path l) (s_max_bytes l) (s_written l + counted priority ts message a)
           (append path (entry priority ts message a) (files l)))
  end.

Definition log_info := write_entry LOG_INFO.
Definition log_err := write_entry LOG_ERR.

(** A sequence of entries, with the answers. *)
Definition log_all (entries : list (nat * string * string * answers)) (l : logger) : logger :=
  fold_left (fun l e => let '(priority, ts, message, a) := e in write_entry priority ts message a l) entries l.

Definition entries_text (entries : list (nat * string * string * answers)) : text :=
  concat (map (fun e => let '(priority, ts, message, a) := e in entry priority ts message a) entries).

(** The file system lets the log rotate, and takes the newlines. *)
Definition rotates (a : answers) : Prop := rename_ok a = true /\ reopen_ok a = true /\ newline_ok a = true.

(** What the files hold when [total] was written to a log that began with [init]:
    everything, or, after a rotation, an end of it of at least [s_max_bytes] bytes. *)
Definition holds_recent (path : string) (init total : text) (l : logger) : Prop :=
  s_file l = Some path /\ s_path l = path /\ s_written l < s_max_bytes l /\
  exists current, files l !! path = Some current /\
    ((current = init ++ total /\ s_written l = length total) \/
     exists dropped old, files l !! old_path path = Some old /\ init ++ total = dropped ++ old ++ current /\
       s_written l = length current /\ s_max_bytes l <= length old).

(** ** Lemmas *)

Lemma old_path_ne path : old_path path <> path.
Proof.
  unfold old_path. induction path as [|c path IH]; [done|]. intros [= H]. by apply IH.
Qed.

Lemma copy_path_short path : (String.length path < 512)%nat -> copy_path path = path.
Proof.
  intros H. unfold copy_path. enough (forall n, String.length path <= n -> String.substring 0 n path = path)%nat as Hx by (apply Hx; lia).
  clear H. induction path as [|c path IH]; intros n Hn; [by destruct n|]. cbn in Hn. destruct n as [|n]; [lia|].
  cbn. f_equal. apply IH. lia.
Qed.

Lemma holds_recent_init path max init fs (l : logger) : (String.length path < 512)%nat -> 0 < max ->
  files l = fs -> default [] (fs !! path) = init -> holds_recent path init [] (log_init (Some path) max true l).
Proof.
  intros Hp Hm Hf Hi. unfold log_init. rewrite copy_path_short by done. rewrite (proj2 (Nat.eqb_neq max 0)) by lia. rewrite Hf.
  split; [done|]. split; [done|]. split; [done|]. exists init. cbn [files s_written]. split.
  - unfold open_append. destruct (fs !! path) as [c|] eqn:E; [cbn in Hi; by subst|]. cbn in Hi. subst. by rewrite lookup_insert_eq.
  - left. by rewrite app_nil_r.
Qed.

Lemma length_string_list s : length (String.list_ascii_of_string s) = String.length s.
Proof. induction s as [|c s IH]; [done|]. cbn. by rewrite IH. Qed.

Lemma counted_length priority ts message a : newline_ok a = true ->
  counted priority ts message a = length (entry priority ts message a).
Proof.
  intros Hn. unfold counted, entry. rewrite Hn, !length_app.
  destruct (head_ok a), (message_ok a); rewrite ?length_string_list; cbn; lia.
Qed.

Lemma holds_recent_entry path init total priority ts message a l : rotates a -> holds_recent path init total l ->
  s_max_bytes (write_entry priority ts message a l) = s_max_bytes l /\
  holds_recent path init (total ++ entry priority ts message a) (write_entry priority ts message a l).
Proof.
  intros (Hren & Hopen & Hnl) (Hf & Hp & Hw & current & Hc & Hcases). unfold write_entry. rewrite Hf, counted_length by done.
  set (t := entry priority ts message a). clearbody t.
  unfold maybe_rotate. cbn [s_file s_path s_written s_max_bytes files orb].
  assert (append path t (files l) !! path = Some (current ++ t)) as Ha.
  { unfold append. by rewrite lookup_insert_eq, Hc. }
  destruct (s_written l + length t <? s_max_bytes l)%nat eqn:E.
  - apply Nat.ltb_lt in E. split; [done|]. split; [done|]. split; [done|]. split; [done|].
    exists (current ++ t). split; [done|]. cbn [s_written s_max_bytes files].
    destruct Hcases as [[-> Hs]|(dropped & old & Ho & Ht & Hs & Hl)]; [left|right].
    + rewrite length_app, app_assoc. split; [done|lia].
    + exists dropped, old. split; [|split; [|split; [|done]]].
      * unfold append. by rewrite lookup_insert_ne by (by intros ?%eq_sym%old_path_ne).
      * by rewrite app_assoc, Ht, <- !app_assoc.
      * rewrite length_app. lia.
  - apply Nat.ltb_ge in E. rewrite Hp, Hren, Hopen. split; [done|]. split; [done|]. split; [done|]. split; [cbn; lia|].
    exists []. cbn [files s_written]. split; [by apply lookup_insert_eq|]. right.
    assert (exists dropped, init ++ total ++ t = dropped ++ current ++ t /\ s_written l <= length current) as (dropped & Ht & Hlen).
    { destruct Hcases as [[-> Hs]|(dropped & old & Ho & Ht & Hs & Hl)].
      - exists []. rewrite <- !app_assoc. split; [done|]. rewrite length_app. lia.
      - exists (dropped ++ old). rewrite app_assoc, Ht, <- !app_assoc. split; [done|lia]. }
    exists dropped, (current ++ t). split; [|split; [|split; [done|]]].
    + unfold open_write, rename. rewrite Ha. rewrite lookup_insert_ne by (by intros ?%eq_sym%old_path_ne).
      apply lookup_insert_eq.
    + by rewrite app_nil_r.
    + cbn [s_max_bytes]. rewrite length_app. lia.
Qed.

(** ** Properties *)

(** C40. The log keeps the recent entries.  While the file system lets it rotate
    ([rename] and [fopen] succeed, and the newlines are written; the prints may
    fail), after any sequence of entries the file, or the file of the last rotation
    followed by it, is the end of everything that was written (what the file held
    before included); it is all of it until the first rotation, and at least
    [max_bytes] bytes from then on.  The bytes counted since the last rotation stay
    below the limit (what the file held before is not counted).  A rotation whose
    [rename] fails empties the log without a copy; one whose [fopen] fails ends the
    logging to files. *)
Theorem log_keeps_recent path max entries l
    (short : (String.length path < 512)%nat) (limit : 0 < max) (orderly : Forall (fun e => rotates (snd e)) entries) :
  let l' := log_all entries (log_init (Some path) max true l) in
  holds_recent path (default [] (files l !! path)) (entries_text entries) l' /\
  forall priority ts message a,
    s_max_bytes l' <= s_written l' + counted priority ts message a ->
    let l'' := write_entry priority ts message a l' in
    (rename_ok a = false -> reopen_ok a = true ->
       files l'' !! path = Some [] /\ files l'' !! old_path path = files l' !! old_path path) /\
    (reopen_ok a = false ->
       s_file l'' = None /\ forall priority' ts' message' a', write_entry priority' ts' message' a' l'' = l'').
Proof.
  cbn zeta. pose proof (holds_recent_init path max _ _ l short limit eq_refl eq_refl) as H0.
  assert (forall total l1, holds_recent path (default [] (files l !! path)) total l1 ->
    holds_recent path (default [] (files l !! path)) (total ++ entries_text entries) (log_all entries l1)) as Hx.
  { clear H0. unfold log_all. induction orderly as [|[[[priority ts] message] a] entries Ha Hall IH]; intros total l1 H; [by rewrite app_nil_r|].
    unfold entries_text. cbn [map concat fold_left]. rewrite app_assoc. apply IH. by apply holds_recent_entry. }
  specialize (Hx [] _ H0). split; [exact Hx|]. destruct Hx as (Hf & Hp & _ & current & Hc & _).
  set (l' := log_all _ _) in *. intros priority ts message a Hfull.
  set (l'' := write_entry priority ts message a l').
  assert (l'' = if reopen_ok a then MkLogger (Some path) path (s_max_bytes l') 0
      (open_write path (rename (rename_ok a) path (old_path path) (append path (entry priority ts message a) (files l'))))
    else MkLogger None path (s_max_bytes l') 0
      (rename (rename_ok a) path (old_path path) (append path (entry priority ts message a) (files l')))) as El.
  { unfold l'', write_entry. rewrite Hf. unfold maybe_rotate. cbn [s_file s_path s_written s_max_bytes files orb].
    by rewrite (proj2 (Nat.ltb_ge _ _)), Hp. }
  clearbody l''. subst l''. split.
  - intros Hr ->. rewrite Hr. unfold rename, open_write, append. cbn [files].
    rewrite (lookup_insert_eq (files l') path). split; [by rewrite lookup_insert_eq|].
    by rewrite !lookup_insert_ne by (by intros ?%eq_sym%old_path_ne).
  - by intros ->.
Qed.

Definition granted : answers := MkAnswers true true true true true.

(** Three entries with a rotation after the second; a fourth whose rotation cannot
    rename the file empties it. *)
Lemma log_keeps_recent_witness :
  let l := log_all [(6, "t1", "one", granted); (3, "t2", "two", granted); (6, "t3", "three", granted)]
             (log_init (Some "log") 30 true (MkLogger None "" 0 0 ∅)) in
  files l !! "log.old" = Some (entry 6 "t1" "one" granted ++ entry 3 "t2" "two" granted) /\
  files l !! "log" = Some (entry 6 "t3" "three" granted) /\ s_written l < 30 /\
  files (write_entry 3 "t4" "four" (MkAnswers true true true false true) l) !! "log" = Some [].
Proof.
  assert (Forall (fun e => rotates (snd e)) [(6, "t1", "one", granted); (3, "t2", "two", granted); (6, "t3", "three", granted)])
    as Hr by (by repeat constructor).
  destruct (log_keeps_recent "log" 30 _ (MkLogger None "" 0 0 ∅) ltac:(cbn; lia) ltac:(lia) Hr) as ((_ & _ & Hw & _) & Hfail).
  destruct (Hfail 3 "t4" "four" (MkAnswers true true true false true)) as [He _]; [vm_compute; lia|].
  cbn zeta. split; [by vm_compute|]. split; [by vm_compute|]. split; [exact Hw|]. by destruct (He eq_refl eq_refl).
Defined.

End Logger.
