(* ===== verification/Queue.v ===== *)
(** * The bounded queue between the receiver and a DSP worker (src/queue.c)

    The nodes of the three singly linked lists (free, filled, detached) live
    in an explicit heap; a pointer is an [option loc] with [None] for [NULL].
    Each function runs under [queue->mutex] from its first to its last
    access, so it is one atomic step; [pthread_cond_wait] gives the mutex
    back, which is the [TakeWait] outcome of a take. *)
From S2P Require Import Prelude.

Module Queue.

Abbreviation loc := nat (only parsing).
Abbreviation ptr := (option nat) (only parsing).
Abbreviation byte := Z (only parsing).

(** [struct queue_node]: the allocated buffer, the number of valid bytes in
    it, and the link. *)
Record queue_node := QueueNode {
  node_buffer : list byte;
  node_len : nat;
  node_next : ptr;
}.

(** [struct queue_t], less the mutex and the condition variable. *)
Record queue := MkQueue {
  first_free_node : ptr;
  last_free_node : ptr;
  first_filled_node : ptr;
  last_filled_node : ptr;
  detached_node : ptr;
  poison_pill : bool;
}.

Abbreviation heap := (gmap nat queue_node) (only parsing).

(** Dereferencing a pointer: undefined on [NULL] and on freed memory. *)
Definition load (h : heap) (p : ptr) : option queue_node :=
  l ← p; h !! l.

(** [p->next = v]. *)
Definition store_next (h : heap) (p : ptr) (v : ptr) : option heap :=
  l ← p; n ← h !! l;
  Some (<[l := QueueNode (node_buffer n) (node_len n) v]> h).

(** [memcpy(p->buffer, buffer, len); p->len = len;] *)
Definition store_payload (h : heap) (p : ptr) (buffer : list byte) (len : nat) : option heap :=
  l ← p; n ← h !! l;
  src ← read_at buffer 0 len;
  buf ← write_at (node_buffer n) 0 src;
  Some (<[l := QueueNode buf len (node_next n)]> h).

(** [destroy_nodes]: frees every node reachable from [nodes]; the fuel bounds
    the traversal by the number of live nodes. *)
Fixpoint destroy_nodes_loop (fuel : nat) (cur_node : ptr) (h : heap) : option heap :=
  match cur_node with
  | None => Some h
  | Some l =>
      match fuel with
      | O => UB
      | S fuel' =>
          n ← h !! l;
          destroy_nodes_loop fuel' (node_next n) (delete l h)
      end
  end.

Definition destroy_nodes (nodes : ptr) (h : heap) : option heap :=
  destroy_nodes_loop (size h) nodes h.

(** ** Creation

    [malloc_ok k] tells whether the [k]-th [malloc] of the call succeeds, and
    [garbage k] is what the memory it returns contains.  New nodes get the
    locations [base], [base + 1], ... *)
Section create.
Context (malloc_ok : nat -> bool) (garbage : nat -> list byte).

(** The loop of [create_queue] from its iteration [i] on, [k] being the number
    of calls of [malloc] made so far.  The result is the code and, on success,
    the two ends of the list. *)
Fixpoint create_loop (buffer_size base i remaining k : nat) (first_node last_node : ptr)
    (h : heap) : option (Z * ptr * ptr * heap) :=
  match remaining with
  | O => Some (0%Z, first_node, last_node, h)
  | S remaining' =>
      if negb (malloc_ok k) then
        h' ← destroy_nodes first_node h;
        Some ((- ENOMEM)%Z, None, None, h')
      else
        let cur := base + i in
        if negb (malloc_ok (S k)) then
          h' ← destroy_nodes first_node h;
          Some ((- ENOMEM)%Z, None, None, h')
        else
          let node := QueueNode (resize buffer_size 0%Z (garbage (S k))) 0 None in
          h1 ← match last_node with
               | None => Some (<[cur := node]> h)
               | Some _ => store_next (<[cur := node]> h) last_node (Some cur)
               end;
          create_loop buffer_size base (S i) remaining' (S (S k))
            (match last_node with None => Some cur | Some _ => first_node end)
            (Some cur) h1
  end.

(** [create_queue]; the first [malloc] is the one of [struct queue_t].  A
    [queue_size] that is not positive makes no iteration. *)
Definition create_queue (buffer_size : nat) (queue_size : Z) (base : nat) (h : heap)
    : option (Z * option queue * heap) :=
  if negb (malloc_ok 0) then Some ((- ENOMEM)%Z, None, h) else
  r ← create_loop buffer_size base 0 (Z.to_nat queue_size) 1 None None h;
  let '(code, first_node, last_node, h') := r in
  if decide (code = 0%Z)
  then Some (0%Z, Some (MkQueue first_node last_node None None None false), h')
  else Some (code, None, h').
End create.

(** ** Operations *)

(** The four-line idiom [if (last == NULL) first = node; else last->next = node;
    last = node;] of [queue_put] and [complete_buffer_processing]: the new
    [first] and the heap (the new [last] is [node]). *)
Definition append_node (first_ last_ node : ptr) (h : heap) : option (ptr * heap) :=
  match last_ with
  | None => Some (node, h)
  | Some _ => h' ← store_next h last_ node; Some (first_, h')
  end.

(** [queue_put]: the node to fill is the first free one, moved to the end of
    the filled list, or the last filled one when no node is free. *)
Definition queue_put (buffer : list byte) (len : nat) (q : queue) (h : heap)
    : option (queue * heap) :=
  match first_free_node q with
  | None =>
      h' ← store_payload h (last_filled_node q) buffer len;
      Some (q, h')
  | Some l =>
      n ← load h (Some l);
      let first_free := node_next n in
      h1 ← store_next h (Some l) None;
      let last_free := match first_free with None => None | Some _ => last_free_node q end in
      fh ← append_node (first_filled_node q) (last_filled_node q) (Some l) h1;
      h3 ← store_payload (snd fh) (Some l) buffer len;
      Some (MkQueue first_free last_free (fst fh) (Some l) (detached_node q)
              (poison_pill q), h3)
  end.

(** What one pass through [take_buffer_for_processing] yields: a [NULL]
    buffer, the caller blocked on the condition variable, or the detached
    buffer (as a location) with its length. *)
Inductive take_result :=
| TakeNull
| TakeWait
| TakeBuffer (node : loc) (len : nat).

(** The guard before the loop and the body of the loop test the same
    conditions in the same order, so a fresh call and a wake-up are the same
    step. *)
Definition take_buffer_for_processing (q : queue) (h : heap)
    : option (take_result * queue * heap) :=
  match first_filled_node q with
  | None => Some (if poison_pill q then TakeNull else TakeWait, q, h)
  | Some l =>
      n ← load h (Some l);
      let first_filled := node_next n in
      h1 ← store_next h (Some l) None;
      let last_filled := match first_filled with None => None | Some _ => last_filled_node q end in
      Some (TakeBuffer l (node_len n),
            MkQueue (first_free_node q) (last_free_node q) first_filled last_filled (Some l)
              (poison_pill q), h1)
  end.

Definition complete_buffer_processing (q : queue) (h : heap) : option (queue * heap) :=
  fh ← append_node (first_free_node q) (last_free_node q) (detached_node q) h;
  Some (MkQueue (fst fh) (detached_node q) (first_filled_node q) (last_filled_node q) None
          (poison_pill q), snd fh).

(** [interrupt_waiting_the_data]; a [NULL] queue is left alone. *)
Definition interrupt_waiting_the_data (q : option queue) : option queue :=
  match q with
  | None => None
  | Some q => Some (MkQueue (first_free_node q) (last_free_node q) (first_filled_node q)
                      (last_filled_node q) (detached_node q) true)
  end.

(** [destroy_queue]: all the nodes go back to the allocator. *)
Definition destroy_queue (q : queue) (h : heap) : option heap :=
  h1 ← destroy_nodes (first_free_node q) h;
  h2 ← destroy_nodes (first_filled_node q) h1;
  match detached_node q with
  | None => Some h2
  | Some l => _ ← h2 !! l; Some (delete l h2)
  end.

(** The bytes a consumer reads from a buffer it was given. *)
Definition payload (h : heap) (l : loc) : option (list byte) :=
  n ← h !! l; read_at (node_buffer n) 0 (node_len n).

(** ** The queue as the threads use it

    One producer (the receiver callback) puts buffers of at most the
    configured size, one consumer (the DSP thread) alternates takes and
    completions and reads the detached buffer only in between, and any thread
    may poison the queue.  The state remembers which buffer the consumer
    holds. *)
Record system := MkSystem {
  sys_queue : queue;
  sys_heap : heap;
  sys_held : option loc;
}.

Inductive event :=
| EvPut (data : list byte)
| EvTake (data : list byte)
| EvTakeNull
| EvWait
| EvComplete
| EvInterrupt.

Inductive sys_step (buffer_size : nat) : system -> event -> system -> Prop :=
| step_put q h held data q' h' :
    length data <= buffer_size ->
    queue_put data (length data) q h = Some (q', h') ->
    sys_step buffer_size (MkSystem q h held) (EvPut data) (MkSystem q' h' held)
| step_take q h l len q' h' data :
    take_buffer_for_processing q h = Some (TakeBuffer l len, q', h') ->
    payload h' l = Some data ->
    sys_step buffer_size (MkSystem q h None) (EvTake data) (MkSystem q' h' (Some l))
| step_null q h q' h' :
    take_buffer_for_processing q h = Some (TakeNull, q', h') ->
    sys_step buffer_size (MkSystem q h None) EvTakeNull (MkSystem q' h' None)
| step_wait q h q' h' :
    take_buffer_for_processing q h = Some (TakeWait, q', h') ->
    sys_step buffer_size (MkSystem q h None) EvWait (MkSystem q' h' None)
| step_complete q h l q' h' :
    complete_buffer_processing q h = Some (q', h') ->
    sys_step buffer_size (MkSystem q h (Some l)) EvComplete (MkSystem q' h' None)
| step_interrupt q h held q' :
    interrupt_waiting_the_data (Some q) = Some q' ->
    sys_step buffer_size (MkSystem q h held) EvInterrupt (MkSystem q' h held).

(** The same steps as a function, to run the model. *)
Definition sys_exec (buffer_size : nat) (s : system) (e : event) : option system :=
  match e, sys_held s with
  | EvPut data, _ =>
      _ ← ensure (bool_decide (length data <= buffer_size));
      r ← queue_put data (length data) (sys_queue s) (sys_heap s);
      Some (MkSystem (fst r) (snd r) (sys_held s))
  | EvInterrupt, _ =>
      q ← interrupt_waiting_the_data (Some (sys_queue s));
      Some (MkSystem q (sys_heap s) (sys_held s))
  | EvComplete, Some _ =>
      r ← complete_buffer_processing (sys_queue s) (sys_heap s);
      Some (MkSystem (fst r) (snd r) None)
  | _, Some _ => None
  | EvComplete, None => None
  | _, None =>
      r ← take_buffer_for_processing (sys_queue s) (sys_heap s);
      match r, e with
      | (TakeBuffer l _, q', h'), EvTake data =>
          data' ← payload h' l;
          if decide (data' = data) then Some (MkSystem q' h' (Some l)) else None
      | (TakeNull, q', h'), EvTakeNull => Some (MkSystem q' h' None)
      | (TakeWait, q', h'), EvWait => Some (MkSystem q' h' None)
      | _, _ => None
      end
  end.

Fixpoint sys_exec_all (buffer_size : nat) (s : system) (tr : list event) : option system :=
  match tr with
  | [] => Some s
  | e :: tr' => s' ← sys_exec buffer_size s e; sys_exec_all buffer_size s' tr'
  end.

(** ** Specification: a bounded FIFO that overwrites its newest element *)
Record fifo := MkFifo {
  free_slots : nat;
  filled : list (list byte);
  held : option (list byte);
  poisoned : bool;
}.

Definition overwrite_last (x : list byte) (l : list (list byte)) : list (list byte) :=
  take (length l - 1) l ++ [x].

Definition fifo_put (data : list byte) (f : fifo) : fifo :=
  match free_slots f with
  | O => MkFifo 0 (overwrite_last data (filled f)) (held f) (poisoned f)
  | S n => MkFifo n (filled f ++ [data]) (held f) (poisoned f)
  end.

Inductive fifo_step (buffer_size : nat) : fifo -> event -> fifo -> Prop :=
| fstep_put f data :
    length data <= buffer_size ->
    fifo_step buffer_size f (EvPut data) (fifo_put data f)
| fstep_take n data rest p :
    fifo_step buffer_size (MkFifo n (data :: rest) None p) (EvTake data)
      (MkFifo n rest (Some data) p)
| fstep_null n :
    fifo_step buffer_size (MkFifo n [] None true) EvTakeNull (MkFifo n [] None true)
| fstep_wait n :
    fifo_step buffer_size (MkFifo n [] None false) EvWait (MkFifo n [] None false)
| fstep_complete n l data p :
    fifo_step buffer_size (MkFifo n l (Some data) p) EvComplete (MkFifo (S n) l None p)
| fstep_interrupt n l d p :
    fifo_step buffer_size (MkFifo n l d p) EvInterrupt (MkFifo n l d true).

(** The buffers put and the buffers taken along a trace. *)
Definition puts (tr : list event) : list (list byte) :=
  omap (fun e => match e with EvPut d => Some d | _ => None end) tr.
Definition takes (tr : list event) : list (list byte) :=
  omap (fun e => match e with EvTake d => Some d | _ => None end) tr.

(** The number of buffers the consumer has completed along a trace. *)
Definition completions (tr : list event) : nat :=
  length (omap (fun e => match e with EvComplete => Some tt | _ => None end) tr).

(** The producer is never ahead of the consumer by more than [n] buffers. *)
Definition never_overruns (n : nat) (tr : list event) : Prop :=
  forall tr1 data tr2, tr = tr1 ++ EvPut data :: tr2 ->
    length (puts tr1) < completions tr1 + n.

(** ** Representation invariant *)

(** [chain h p ls]: the nodes [ls], linked by [next], start at [p]. *)
Fixpoint chain (h : heap) (p : ptr) (ls : list loc) : Prop :=
  match ls with
  | [] => p = None
  | l :: ls' => p = Some l /\ exists n, h !! l = Some n /\ chain h (node_next n) ls'
  end.

(** A list with pointers to its two ends. *)
Definition is_list (h : heap) (first last_ : ptr) (ls : list loc) : Prop :=
  chain h first ls /\ last_ = last ls.

(** The buffer has the configured size and [len] does not exceed it. *)
Definition node_ok (buffer_size : nat) (n : queue_node) : Prop :=
  length (node_buffer n) = buffer_size /\ node_len n <= buffer_size.

(** [queue_rep]: the free, filled and detached nodes are disjoint, they are
    exactly the nodes of the heap, and their number is [queue_size]. *)
Record queue_rep (buffer_size queue_size : nat) (q : queue) (h : heap)
    (fs xs : list loc) (d : option loc) : Prop := {
  rep_free : is_list h (first_free_node q) (last_free_node q) fs;
  rep_filled : is_list h (first_filled_node q) (last_filled_node q) xs;
  rep_detached : is_list h (detached_node q) d (option_list d);
  rep_nodup : NoDup (fs ++ xs ++ option_list d);
  rep_dom : dom h = list_to_set (fs ++ xs ++ option_list d);
  rep_size : length (fs ++ xs ++ option_list d) = queue_size;
  rep_nodes : map_Forall (fun _ n => node_ok buffer_size n) h;
}.

(** The abstraction relation between the threads' view and the FIFO. *)
Definition abstracts (buffer_size queue_size : nat) (s : system) (f : fifo) : Prop :=
  exists fs xs,
    queue_rep buffer_size queue_size (sys_queue s) (sys_heap s) fs xs (sys_held s) /\
    free_slots f = length fs /\
    Forall2 (fun l data => payload (sys_heap s) l = Some data) xs (filled f) /\
    match sys_held s, held f with
    | Some l, Some data => payload (sys_heap s) l = Some data
    | None, None => True
    | _, _ => False
    end /\
    poisoned f = poison_pill (sys_queue s).

(** ** Lemmas: linked lists in the heap *)
#[local] Arguments load : simpl never.
#[local] Arguments store_next : simpl never.
#[local] Arguments store_payload : simpl never.

(** [relinked h h' ls]: [h'] differs from [h] at most in the links of [ls]. *)
Definition relinked (h h' : heap) (ls : list loc) : Prop :=
  forall k,
    (k ∉ ls -> h' !! k = h !! k) /\
    option_Forall2 (fun n n' => node_buffer n = node_buffer n' /\ node_len n = node_len n')
      (h !! k) (h' !! k).

Lemma relinked_refl h : relinked h h [].
Proof. intros k. split; [done|]. destruct (h !! k); by constructor. Qed.

Lemma relinked_trans h1 h2 h3 ls1 ls2 :
  relinked h1 h2 ls1 -> relinked h2 h3 ls2 -> relinked h1 h3 (ls1 ++ ls2).
Proof.
  intros H1 H2 k. destruct (H1 k) as [E1 F1], (H2 k) as [E2 F2]. split.
  - intros Hk. apply not_elem_of_app in Hk as [??]. rewrite E2, E1; done.
  - inversion F1; inversion F2; try congruence; constructor. simplify_eq.
    destruct_and!. split; congruence.
Qed.

Lemma relinked_dom h h' ls : relinked h h' ls -> dom h' = dom h.
Proof.
  intros H. apply set_eq. intros k. rewrite !elem_of_dom.
  destruct (H k) as [_ F]. inversion F; split; intros [??]; try congruence; eauto.
Qed.

Lemma relinked_payload h h' ls l data :
  relinked h h' ls -> payload h l = Some data -> payload h' l = Some data.
Proof.
  intros H. unfold payload. destruct (H l) as [_ F].
  inversion F as [n n' [E1 E2] |]; simpl; [by rewrite E1, E2 | done].
Qed.

Lemma relinked_nodes_ok h h' ls size :
  relinked h h' ls -> map_Forall (fun _ n => node_ok size n) h ->
  map_Forall (fun _ n => node_ok size n) h'.
Proof.
  intros H Hok k n' Hk. destruct (H k) as [_ F].
  inversion F as [n ? [E1 E2] Hn Hn' |Hn Hn']; [|congruence].
  rewrite Hk in Hn'. simplify_eq. destruct (Hok k n) as [? ?]; [done|].
  split; congruence.
Qed.

Lemma load_Some h l n : h !! l = Some n -> load h (Some l) = Some n.
Proof. done. Qed.

Lemma store_next_relinked h l n v :
  h !! l = Some n ->
  store_next h (Some l) v = Some (<[l := QueueNode (node_buffer n) (node_len n) v]> h) /\
  relinked h (<[l := QueueNode (node_buffer n) (node_len n) v]> h) [l].
Proof.
  intros Hl. unfold store_next. simpl. rewrite Hl. split; [done|].
  intros k. destruct (decide (k = l)) as [->|Hk].
  - rewrite lookup_insert_eq, Hl. split; [set_solver|]. by constructor.
  - rewrite lookup_insert_ne by done. split; [done|].
    destruct (h !! k); by constructor.
Qed.

Lemma chain_insert h p ls l n :
  l ∉ ls -> chain h p ls -> chain (<[l := n]> h) p ls.
Proof.
  revert p. induction ls as [|k ls IH]; simpl; intros p Hl; [done|].
  apply not_elem_of_cons in Hl as [Hne Hl].
  intros (-> & m & Hm & Hc). split; [done|]. exists m.
  rewrite lookup_insert_ne by done. eauto.
Qed.

Lemma chain_same_next h p ls l n n' :
  h !! l = Some n -> node_next n' = node_next n -> chain h p ls ->
  chain (<[l := n']> h) p ls.
Proof.
  intros Hl Hn. revert p. induction ls as [|k ls IH]; simpl; intros p; [done|].
  intros (-> & m & Hm & Hc). split; [done|].
  destruct (decide (l = k)) as [->|Hne].
  - exists n'. rewrite lookup_insert_eq. split; [done|]. rewrite Hn. simplify_eq. eauto.
  - exists m. rewrite lookup_insert_ne by done. eauto.
Qed.

Lemma chain_append h p ls l m n nm :
  chain h p (ls ++ [l]) -> NoDup ((ls ++ [l]) ++ [m]) ->
  h !! l = Some n -> h !! m = Some nm -> node_next nm = None ->
  chain (<[l := QueueNode (node_buffer n) (node_len n) (Some m)]> h) p ((ls ++ [l]) ++ [m]).
Proof.
  revert p. induction ls as [|k ls IH]; simpl; intros p Hc Hnd Hl Hm Hnm.
  - destruct Hc as (-> & n' & Hn' & Hnext). simplify_eq.
    apply NoDup_cons in Hnd as [Hnd _].
    split; [done|]. eexists. rewrite lookup_insert_eq. split; [done|]. simpl.
    split; [done|]. exists nm. rewrite lookup_insert_ne by set_solver. done.
  - destruct Hc as (-> & n' & Hn' & Hc). apply NoDup_cons in Hnd as [Hk Hnd].
    split; [done|]. exists n'. rewrite lookup_insert_ne by set_solver. eauto.
Qed.

Lemma chain_elem h p ls l : chain h p ls -> l ∈ ls -> is_Some (h !! l).
Proof.
  revert p. induction ls as [|k ls IH]; simpl; intros p Hc Hl; [set_solver|].
  destruct Hc as (-> & n & Hn & Hc). apply elem_of_cons in Hl as [->|Hl]; eauto.
Qed.

Lemma append_node_spec h f la ls m nm :
  is_list h f la ls -> NoDup (ls ++ [m]) -> h !! m = Some nm -> node_next nm = None ->
  exists f' h', append_node f la (Some m) h = Some (f', h') /\
    is_list h' f' (Some m) (ls ++ [m]) /\ relinked h h' ls.
Proof.
  intros [Hc ->] Hnd Hm Hnm. unfold append_node.
  destruct (last ls) as [l|] eqn:Hlast.
  - apply last_Some in Hlast as [ls' ->].
    destruct (chain_elem h f (ls' ++ [l]) l) as [n Hn]; [done|set_solver|].
    destruct (store_next_relinked h l n (Some m) Hn) as [-> Hrel]. simpl.
    do 2 eexists. split; [done|]. split; [split|].
    + eapply chain_append; eauto.
    + by rewrite last_snoc.
    + intros k. destruct (Hrel k) as [E F]. split; [set_solver|done].
  - apply last_None in Hlast as ->. simpl in *. subst f.
    do 2 eexists. split; [done|]. split; [split; simpl; eauto|]. apply relinked_refl.
Qed.

(** Unlinking the head, as [queue_put] and [take_buffer_for_processing] do. *)
Lemma unlink_head_spec h f la l ls :
  is_list h f la (l :: ls) -> NoDup (l :: ls) ->
  f = Some l /\ exists n,
    h !! l = Some n /\
    let h' := <[l := QueueNode (node_buffer n) (node_len n) None]> h in
    store_next h (Some l) None = Some h' /\
    is_list h' (node_next n) (match node_next n with None => None | Some _ => la end) ls /\
    relinked h h' [l].
Proof.
  intros [(-> & n & Hn & Hc) ->] Hnd. split; [done|]. exists n. split; [done|].
  apply NoDup_cons in Hnd as [Hl Hnd].
  destruct (store_next_relinked h l n None Hn) as [-> Hrel].
  split; [done|]. split; [|done]. split; [by apply chain_insert|].
  destruct ls as [|k ls]; simpl in *.
  - by rewrite Hc.
  - by destruct Hc as [-> _].
Qed.


Lemma is_list_relinked h h' f la ls ks :
  relinked h h' ks -> ks ## ls -> is_list h f la ls -> is_list h' f la ls.
Proof.
  intros Hrel Hdisj [Hc ->]. split; [|done]. revert f Hc.
  induction ls as [|k ls IH]; simpl; intros f; [done|].
  intros (-> & n & Hn & Hc). split; [done|]. exists n.
  destruct (Hrel k) as [E _]. rewrite E by set_solver.
  split; [done|]. apply IH; [set_solver|done].
Qed.

Lemma is_list_same_next h f la ls l n n' :
  h !! l = Some n -> node_next n' = node_next n -> is_list h f la ls ->
  is_list (<[l := n']> h) f la ls.
Proof. intros Hl Hn [Hc ->]. split; [by eapply chain_same_next|done]. Qed.

Lemma is_list_nil h f la : is_list h f la [] -> f = None /\ la = None.
Proof. by intros [-> ->]. Qed.

Lemma is_list_elem h f la ls l : is_list h f la ls -> l ∈ ls -> is_Some (h !! l).
Proof. intros [Hc _]. by eapply chain_elem. Qed.

(** The node after [store_payload]. *)
Definition filled_node (n : queue_node) (data : list byte) : queue_node :=
  QueueNode (data ++ drop (length data) (node_buffer n)) (length data) (node_next n).

Lemma store_payload_spec h l n data :
  h !! l = Some n -> length data <= length (node_buffer n) ->
  store_payload h (Some l) data (length data) = Some (<[l := filled_node n data]> h).
Proof.
  intros Hl Hlen. unfold store_payload. simpl. rewrite Hl. simpl.
  rewrite read_at_is_Some by lia. simpl. rewrite drop_0, firstn_all.
  rewrite write_at_is_Some by (simpl; lia). done.
Qed.

Lemma filled_node_payload h l n data :
  payload (<[l := filled_node n data]> h) l = Some data.
Proof.
  unfold payload. rewrite lookup_insert_eq. simpl.
  rewrite read_at_is_Some by len. rewrite drop_0. simpl. by rewrite take_app_length.
Qed.

Lemma payload_insert_ne h l k n :
  l <> k -> payload (<[l := n]> h) k = payload h k.
Proof. intros. unfold payload. by rewrite lookup_insert_ne. Qed.

Lemma filled_node_ok size n data :
  node_ok size n -> length data <= size -> node_ok size (filled_node n data).
Proof. intros [H1 H2] Hd. split; simpl; len. Qed.

Lemma Forall2_payload_relinked h h' ks xs datas :
  relinked h h' ks ->
  Forall2 (fun l data => payload h l = Some data) xs datas ->
  Forall2 (fun l data => payload h' l = Some data) xs datas.
Proof. intros Hrel H. eapply Forall2_impl; [done|]. intros. by eapply relinked_payload. Qed.

Lemma Forall2_payload_insert h l n xs datas :
  l ∉ xs ->
  Forall2 (fun k data => payload h k = Some data) xs datas ->
  Forall2 (fun k data => payload (<[l := n]> h) k = Some data) xs datas.
Proof.
  intros Hl H. induction H; constructor.
  - rewrite payload_insert_ne; [done|set_solver].
  - apply IHForall2. set_solver.
Qed.

Lemma held_payload_relinked h h' ks (hl : option loc) (hd : option (list byte)) :
  relinked h h' ks ->
  match hl, hd with
  | Some l, Some data => payload h l = Some data
  | None, None => True
  | _, _ => False
  end ->
  match hl, hd with
  | Some l, Some data => payload h' l = Some data
  | None, None => True
  | _, _ => False
  end.
Proof. intros Hrel. destruct hl, hd; try done. by eapply relinked_payload. Qed.

(** ** The operations on the representation *)

Section rep.
Context (buffer_size queue_size : nat).

Abbreviation rep := (queue_rep buffer_size queue_size).

(** What an operation keeps: the content of every node but the one named. *)
Definition keeps_payloads (h h' : heap) (except : list loc) : Prop :=
  forall k data, k ∉ except -> payload h k = Some data -> payload h' k = Some data.

Lemma rep_free_nodup q h fs xs d : rep q h fs xs d -> NoDup fs.
Proof. intros R. pose proof (rep_nodup _ _ _ _ _ _ _ R) as H. by apply NoDup_app in H as [? _]. Qed.

Lemma rep_filled_nodup q h fs xs d : rep q h fs xs d -> NoDup xs.
Proof.
  intros R. pose proof (rep_nodup _ _ _ _ _ _ _ R) as H.
  apply NoDup_app in H as (_ & _ & H). by apply NoDup_app in H as [? _].
Qed.

Lemma rep_disjoint q h fs xs d :
  rep q h fs xs d -> fs ## xs /\ fs ## option_list d /\ xs ## option_list d.
Proof.
  intros R. pose proof (rep_nodup _ _ _ _ _ _ _ R) as H.
  apply NoDup_app in H as (_ & Hf & H). apply NoDup_app in H as (_ & Hx & _).
  set_solver.
Qed.

(** Building the representation of a new state from the one of the old: the
    nodes are the same up to order and the heap has the same domain. *)
Lemma rep_update q h fs xs d q' h' fs' xs' d' :
  rep q h fs xs d ->
  is_list h' (first_free_node q') (last_free_node q') fs' ->
  is_list h' (first_filled_node q') (last_filled_node q') xs' ->
  is_list h' (detached_node q') d' (option_list d') ->
  fs' ++ xs' ++ option_list d' ≡ₚ fs ++ xs ++ option_list d ->
  dom h' = dom h ->
  map_Forall (fun _ n => node_ok buffer_size n) h' ->
  rep q' h' fs' xs' d'.
Proof.
  intros [Rf Rx Rd Rnd Rdom Rsz Rok] Hf Hx Hd Hperm Hdom Hok. split; try done.
  - by rewrite Hperm.
  - rewrite Hdom, Rdom. apply list_to_set_perm_L. by symmetry.
  - by rewrite Hperm.
Qed.

Lemma rep_node q h fs xs d l :
  rep q h fs xs d -> l ∈ fs ++ xs ++ option_list d ->
  exists n, h !! l = Some n /\ node_ok buffer_size n.
Proof.
  intros R Hl. assert (l ∈ dom h) as Hdom.
  { rewrite (rep_dom _ _ _ _ _ _ _ R). by apply elem_of_list_to_set. }
  apply elem_of_dom in Hdom as [n Hn]. exists n. split; [done|].
  by apply (rep_nodes _ _ _ _ _ _ _ R l).
Qed.

(** Writing a payload into a node of the queue. *)
Lemma store_payload_rep q h fs xs d l data :
  rep q h fs xs d -> l ∈ fs ++ xs ++ option_list d -> length data <= buffer_size ->
  exists h', store_payload h (Some l) data (length data) = Some h' /\
    rep q h' fs xs d /\ payload h' l = Some data /\ keeps_payloads h h' [l].
Proof.
  intros R Hl Hlen. destruct (rep_node _ _ _ _ _ _ R Hl) as (n & Hn & Hok).
  exists (<[l := filled_node n data]> h). split_and!.
  - apply store_payload_spec; [done|]. destruct Hok as [-> _]. done.
  - destruct R as [Rf Rx Rd Rnd Rdom Rsz Rok]. split; try done; try by eapply is_list_same_next.
    + rewrite dom_insert_L, Rdom. apply (elem_of_list_to_set (C := gset nat)) in Hl. set_solver.
    + apply map_Forall_insert_2; [by apply filled_node_ok|done].
  - apply filled_node_payload.
  - intros k x Hk Hx. rewrite payload_insert_ne by set_solver. done.
Qed.

Lemma relinked_keeps h h' ks ls : relinked h h' ks -> keeps_payloads h h' ls.
Proof. intros Hrel k x _ Hx. by eapply relinked_payload. Qed.

Lemma keeps_payloads_trans h1 h2 h3 ls :
  keeps_payloads h1 h2 ls -> keeps_payloads h2 h3 ls -> keeps_payloads h1 h3 ls.
Proof. intros H1 H2 k x Hk Hx. eauto. Qed.

(** The part of [queue_put] that moves the first free node to the end of the
    filled list. *)
Lemma move_free_to_filled q h l fs xs d :
  rep q h (l :: fs) xs d ->
  first_free_node q = Some l /\ exists n h1 f' h2,
    h !! l = Some n /\
    store_next h (Some l) None = Some h1 /\
    append_node (first_filled_node q) (last_filled_node q) (Some l) h1 = Some (f', h2) /\
    rep (MkQueue (node_next n) (match node_next n with None => None | Some _ => last_free_node q end)
           f' (Some l) (detached_node q) (poison_pill q)) h2 fs (xs ++ [l]) d /\
    keeps_payloads h h2 [].
Proof.
  intros R. pose proof (rep_disjoint _ _ _ _ _ R) as (Hfx & Hfd & Hxd).
  pose proof (rep_free_nodup _ _ _ _ _ R) as Hndf.
  pose proof (rep_filled_nodup _ _ _ _ _ R) as Hndx.
  destruct (unlink_head_spec _ _ _ _ _ (rep_free _ _ _ _ _ _ _ R) Hndf)
    as (Hff & n & Hn & Hst & Rf1 & Hrel1).
  split; [done|]. set (h1 := <[l := _]> h) in *.
  assert (is_list h1 (first_filled_node q) (last_filled_node q) xs) as Rx1.
  { eapply is_list_relinked; [done| |exact (rep_filled _ _ _ _ _ _ _ R)]. set_solver. }
  destruct (append_node_spec h1 _ _ xs l (QueueNode (node_buffer n) (node_len n) None) Rx1)
    as (f' & h2 & Happ & Rx2 & Hrel2); [|apply lookup_insert_eq|done|].
  { apply NoDup_app. split_and!; [done|set_solver|apply NoDup_singleton]. }
  pose proof (relinked_trans _ _ _ _ _ Hrel1 Hrel2) as Hrel.
  exists n, h1, f', h2. split_and!; try done; [|by eapply relinked_keeps].
  eapply rep_update; [exact R| | | | | |]; simpl.
  - eapply is_list_relinked; [exact Hrel2| |exact Rf1]. set_solver.
  - done.
  - eapply is_list_relinked; [exact Hrel| |exact (rep_detached _ _ _ _ _ _ _ R)]. set_solver.
  - solve_Permutation.
  - by eapply relinked_dom.
  - eapply relinked_nodes_ok; [done|exact (rep_nodes _ _ _ _ _ _ _ R)].
Qed.

Lemma queue_put_free q h l fs xs d data :
  rep q h (l :: fs) xs d -> length data <= buffer_size ->
  exists q' h', queue_put data (length data) q h = Some (q', h') /\
    rep q' h' fs (xs ++ [l]) d /\ poison_pill q' = poison_pill q /\
    payload h' l = Some data /\ keeps_payloads h h' [l].
Proof.
  intros R Hlen.
  destruct (move_free_to_filled _ _ _ _ _ _ R)
    as (Hff & n & h1 & f' & h2 & Hn & Hst & Happ & R2 & Hk2).
  destruct (store_payload_rep _ _ _ _ _ l data R2) as (h3 & Hsp & R3 & Hpl & Hk3);
    [set_solver|done|].
  do 2 eexists. split.
  { unfold queue_put. rewrite Hff, (load_Some _ _ _ Hn). simpl. rewrite Hst. simpl.
    rewrite Happ. simpl. rewrite Hsp. simpl. reflexivity. }
  split_and!; try done. intros k x Hk Hx. apply Hk3; [done|]. apply Hk2; [set_solver|done].
Qed.

Lemma queue_put_full q h xs l d data :
  rep q h [] (xs ++ [l]) d -> length data <= buffer_size ->
  exists h', queue_put data (length data) q h = Some (q, h') /\
    rep q h' [] (xs ++ [l]) d /\ payload h' l = Some data /\ keeps_payloads h h' [l].
Proof.
  intros R Hlen.
  destruct (store_payload_rep _ _ _ _ _ l data R) as (h3 & Hsp & R3 & Hpl & Hk3);
    [set_solver|done|].
  destruct (is_list_nil _ _ _ (rep_free _ _ _ _ _ _ _ R)) as [Hff _].
  destruct (rep_filled _ _ _ _ _ _ _ R) as [_ Hlast]. rewrite last_snoc in Hlast.
  exists h3. split; [|done]. unfold queue_put. rewrite Hff, Hlast, Hsp. done.
Qed.

Lemma take_filled q h fs l xs :
  rep q h fs (l :: xs) None ->
  exists n q' h', h !! l = Some n /\
    take_buffer_for_processing q h = Some (TakeBuffer l (node_len n), q', h') /\
    rep q' h' fs xs (Some l) /\ poison_pill q' = poison_pill q /\ keeps_payloads h h' [].
Proof.
  intros R. pose proof (rep_disjoint _ _ _ _ _ R) as (Hfx & _ & _).
  destruct (unlink_head_spec _ _ _ _ _ (rep_filled _ _ _ _ _ _ _ R) (rep_filled_nodup _ _ _ _ _ R))
    as (Hff & n & Hn & Hst & Rx1 & Hrel1).
  exists n. do 2 eexists. split; [done|]. split.
  { unfold take_buffer_for_processing. rewrite Hff, (load_Some _ _ _ Hn). simpl. rewrite Hst. done. }
  split_and!; [|done|by eapply relinked_keeps].
  eapply rep_update; [exact R| | | | | |]; simpl; try done.
  - eapply is_list_relinked; [exact Hrel1| |exact (rep_free _ _ _ _ _ _ _ R)]. set_solver.
  - split; [split; [done|]|done]. eexists. split; [apply lookup_insert_eq|done].
  - solve_Permutation.
  - by eapply relinked_dom.
  - eapply relinked_nodes_ok; [done|exact (rep_nodes _ _ _ _ _ _ _ R)].
Qed.

Lemma take_empty q h fs d :
  rep q h fs [] d ->
  take_buffer_for_processing q h = Some (if poison_pill q then TakeNull else TakeWait, q, h).
Proof.
  intros R. destruct (is_list_nil _ _ _ (rep_filled _ _ _ _ _ _ _ R)) as [Hff _].
  unfold take_buffer_for_processing. by rewrite Hff.
Qed.

Lemma complete_detached q h fs xs l :
  rep q h fs xs (Some l) ->
  exists q' h', complete_buffer_processing q h = Some (q', h') /\
    rep q' h' (fs ++ [l]) xs None /\ poison_pill q' = poison_pill q /\ keeps_payloads h h' [].
Proof.
  intros R. pose proof (rep_disjoint _ _ _ _ _ R) as (Hfx & Hfl & Hxl). simpl in *.
  destruct (rep_detached _ _ _ _ _ _ _ R) as [(Hd & n & Hn & Hun) _].
  destruct (append_node_spec h _ _ fs l n (rep_free _ _ _ _ _ _ _ R))
    as (f' & h' & Happ & Rf & Hrel); [|done|done|].
  { apply NoDup_app. split_and!; [by eapply rep_free_nodup|set_solver|apply NoDup_singleton]. }
  do 2 eexists. split.
  { unfold complete_buffer_processing. rewrite Hd, Happ. done. }
  split_and!; [|done|by eapply relinked_keeps].
  eapply rep_update; [exact R| | | | | |]; simpl; try done.
  - eapply is_list_relinked; [exact Hrel| |exact (rep_filled _ _ _ _ _ _ _ R)]. set_solver.
  - solve_Permutation.
  - by eapply relinked_dom.
  - eapply relinked_nodes_ok; [done|exact (rep_nodes _ _ _ _ _ _ _ R)].
Qed.

End rep.

(** ** Every step of the threads is a step of the FIFO *)

Section simulation.
Context (buffer_size queue_size : nat).

Abbreviation abs := (abstracts buffer_size queue_size).

Lemma Forall2_payload_keeps h h' ks xs datas :
  keeps_payloads h h' ks -> xs ## ks ->
  Forall2 (fun k data => payload h k = Some data) xs datas ->
  Forall2 (fun k data => payload h' k = Some data) xs datas.
Proof.
  intros Hk Hd H. induction H; constructor.
  - apply Hk; [set_solver|done].
  - apply IHForall2. set_solver.
Qed.

(** The part of the abstraction relation about the buffer the consumer holds
    survives any operation that keeps the content of that buffer. *)
Lemma held_keeps h h' ks (hl : option loc) (hd : option (list byte)) :
  keeps_payloads h h' ks -> ks ## option_list hl ->
  match hl, hd with
  | Some l, Some data => payload h l = Some data
  | None, None => True
  | _, _ => False
  end ->
  match hl, hd with
  | Some l, Some data => payload h' l = Some data
  | None, None => True
  | _, _ => False
  end.
Proof. intros Hk Hd. destruct hl, hd; try done. apply Hk. set_solver. Qed.

Lemma put_simulated q h hl f data :
  abs (MkSystem q h hl) f -> length data <= buffer_size ->
  (1 <= free_slots f \/ filled f <> []) ->
  exists q' h', queue_put data (length data) q h = Some (q', h') /\
    abs (MkSystem q' h' hl) (fifo_put data f).
Proof.
  intros (fs & xs & R & Hfree & Hxs & Hhl & Hp) Hlen Hroom; simpl in *.
  pose proof (rep_disjoint _ _ _ _ _ _ _ R) as (Hfx & Hfd & Hxd).
  destruct fs as [|l fs].
  - assert (xs = [] \/ exists ys l, xs = ys ++ [l]) as [->|(ys & l & ->)].
    { destruct xs using rev_ind; eauto. }
    { inversion Hxs. simpl in *. destruct Hroom; [lia|congruence]. }
    destruct (queue_put_full _ _ _ _ _ _ _ _ R Hlen) as (h' & Hput & R' & Hl & Hk).
    exists q, h'. split; [done|]. exists [], (ys ++ [l]). simpl in *.
    apply Forall2_app_inv_l in Hxs as (k1 & k2 & Hys & Hl2 & Hf).
    inversion Hl2 as [|? y ? ? _ Hnil]; subst. inversion Hnil; subst.
    unfold fifo_put. rewrite Hfree, Hf. simpl. unfold overwrite_last.
    split_and!; try done.
    + rewrite length_app, Nat.add_sub, take_app_length. apply Forall2_app; [|by repeat constructor].
      eapply Forall2_payload_keeps; [done| |done].
      pose proof (rep_filled_nodup _ _ _ _ _ _ _ R) as Hnd. apply NoDup_app in Hnd. set_solver.
    + eapply held_keeps; [done| |done]. set_solver.
  - destruct (queue_put_free _ _ _ _ _ _ _ _ _ R Hlen) as (q' & h' & Hput & R' & Hq' & Hl & Hk).
    exists q', h'. split; [done|]. exists fs, (xs ++ [l]). simpl in *.
    unfold fifo_put. rewrite Hfree. simpl. split_and!; try done.
    + apply Forall2_app; [|by repeat constructor].
      eapply Forall2_payload_keeps; [done| |done]. set_solver.
    + eapply held_keeps; [done| |done]. set_solver.
    + congruence.
Qed.

Lemma take_simulated q h f :
  abs (MkSystem q h None) f ->
  match filled f with
  | [] => take_buffer_for_processing q h
          = Some (if poisoned f then TakeNull else TakeWait, q, h)
  | data :: rest => exists l q' h',
      take_buffer_for_processing q h = Some (TakeBuffer l (length data), q', h') /\
      payload h' l = Some data /\
      abs (MkSystem q' h' (Some l)) (MkFifo (free_slots f) rest (Some data) (poisoned f))
  end.
Proof.
  intros (fs & xs & R & Hfree & Hxs & Hhl & Hp); simpl in *.
  destruct Hxs as [|l data xs rest Hl Hxs].
  - rewrite (take_empty _ _ _ _ _ _ R), Hp. done.
  - destruct (take_filled _ _ _ _ _ _ _ R) as (n & q' & h' & Hn & Htake & R' & Hq' & Hk).
    assert (node_len n = length data) as Hlen.
    { unfold payload in Hl. rewrite Hn in Hl. simpl in Hl. unfold read_at in Hl.
      case_decide; simplify_eq. rewrite length_take, length_drop. lia. }
    rewrite Hlen in Htake. exists l, q', h'. split; [done|].
    assert (payload h' l = Some data) as Hl' by (apply Hk; [set_solver|done]).
    split; [done|]. exists fs, xs. simpl. split_and!; try done; [|congruence].
    eapply Forall2_payload_keeps; [done| |done]. set_solver.
Qed.

Lemma complete_simulated q h l f :
  abs (MkSystem q h (Some l)) f ->
  exists q' h', complete_buffer_processing q h = Some (q', h') /\
    abs (MkSystem q' h' None) (MkFifo (S (free_slots f)) (filled f) None (poisoned f)).
Proof.
  intros (fs & xs & R & Hfree & Hxs & Hhl & Hp); simpl in *.
  destruct (complete_detached _ _ _ _ _ _ _ R) as (q' & h' & Hc & R' & Hq' & Hk).
  exists q', h'. split; [done|]. exists (fs ++ [l]), xs. simpl. split_and!; try done.
  - len.
  - eapply Forall2_payload_keeps; [done| |done]. set_solver.
  - congruence.
Qed.

(** The number of buffers: nothing is lost or duplicated. *)
Lemma abs_count s f :
  abs s f ->
  free_slots f + length (filled f) + length (option_list (held f)) = queue_size.
Proof.
  intros (fs & xs & R & Hfree & Hxs & Hhl & Hp).
  pose proof (rep_size _ _ _ _ _ _ _ R) as Hsz. apply Forall2_length in Hxs.
  rewrite !length_app in Hsz. destruct (sys_held s), (held f); simpl in *; try done; lia.
Qed.

Lemma abs_room s f :
  2 <= queue_size -> abs s f -> 1 <= free_slots f \/ filled f <> [].
Proof.
  intros H2 Habs. apply abs_count in Habs. destruct (filled f); [|by right].
  left. destruct (held f); simpl in *; lia.
Qed.

Lemma step_simulated s e s' f :
  2 <= queue_size -> abs s f -> sys_step buffer_size s e s' ->
  exists f', fifo_step buffer_size f e f' /\ abs s' f'.
Proof.
  intros H2 Habs Hstep. destruct Hstep as
    [q h hl data q' h' Hlen Hput|q h l len q' h' data Htake Hpl|q h q' h' Htake
    |q h q' h' Htake|q h l q' h' Hc|q h hl q' Hi].
  - destruct (put_simulated _ _ _ _ data Habs Hlen (abs_room _ _ H2 Habs)) as (? & ? & Hput' & Habs').
    simplify_eq. eexists. split; [by constructor|done].
  - pose proof (take_simulated _ _ _ Habs) as Ht.
    destruct f as [n fl hd p], fl as [|d rest]; simpl in *; [simplify_eq; by destruct p|].
    destruct Ht as (l' & ? & ? & Htake' & Hpl' & Habs'). simplify_eq.
    assert (hd = None) as -> by (destruct Habs as (?&?&?&?&?&?&?); by destruct hd).
    eexists. split; [constructor|done].
  - pose proof (take_simulated _ _ _ Habs) as Ht.
    destruct f as [n fl hd p], fl as [|d rest]; simpl in *; [|by destruct Ht as (?&?&?&?&?); simplify_eq].
    assert (hd = None) as -> by (destruct Habs as (?&?&?&?&?&?&?); by destruct hd).
    destruct p; simplify_eq. eexists. split; [constructor|done].
  - pose proof (take_simulated _ _ _ Habs) as Ht.
    destruct f as [n fl hd p], fl as [|d rest]; simpl in *; [|by destruct Ht as (?&?&?&?&?); simplify_eq].
    assert (hd = None) as -> by (destruct Habs as (?&?&?&?&?&?&?); by destruct hd).
    destruct p; simplify_eq. eexists. split; [constructor|done].
  - destruct (complete_simulated _ _ _ _ Habs) as (? & ? & Hc' & Habs'). simplify_eq.
    assert (exists d, held f = Some d) as [d Hd].
    { destruct Habs as (?&?&?&?&?&Hh&?). simpl in Hh. destruct (held f); [eauto|done]. }
    destruct f; simpl in *; subst. eexists. split; [constructor|done].
  - destruct f as [n fl hd p]. exists (MkFifo n fl hd true). split; [constructor|].
    destruct Habs as (fs & xs & [] & ?&?&?&?); simpl in *; simplify_eq.
    exists fs, xs. split_and!; done.
Qed.

End simulation.
(** ** Creation and destruction *)

Lemma destroy_nodes_loop_spec h p ls fuel :
  chain h p ls -> NoDup ls -> length ls <= fuel ->
  destroy_nodes_loop fuel p h = Some (foldr delete h ls).
Proof.
  revert h p fuel. induction ls as [|l ls IH]; intros h p fuel Hc Hnd Hlen; simpl in *.
  - subst. by destruct fuel.
  - destruct Hc as (-> & n & Hn & Hc). apply NoDup_cons in Hnd as [Hl Hnd].
    destruct fuel as [|fuel]; [lia|]. simpl. rewrite Hn. simpl.
    rewrite (IH (delete l h)); [|  |done|lia].
    + by rewrite delete_foldr_delete.
    + clear IH Hlen Hnd. revert Hc. generalize (node_next n) as p.
      induction ls as [|k ls IH2]; simpl; intros p; [done|].
      apply not_elem_of_cons in Hl as [Hne Hl]. intros (-> & m & Hm & Hc).
      split; [done|]. exists m. rewrite lookup_delete_ne by done. eauto.
Qed.

Lemma chain_NoDup_size h p ls : chain h p ls -> NoDup ls -> length ls <= size h.
Proof.
  intros Hc Hnd. rewrite <- size_dom, <- (size_list_to_set (C := gset nat)) by done.
  apply subseteq_size. intros k Hk. apply elem_of_list_to_set in Hk.
  apply elem_of_dom. by eapply chain_elem.
Qed.

Lemma destroy_nodes_spec h p ls :
  chain h p ls -> NoDup ls -> destroy_nodes p h = Some (foldr delete h ls).
Proof.
  intros Hc Hnd. unfold destroy_nodes. apply destroy_nodes_loop_spec; [done|done|].
  by eapply chain_NoDup_size.
Qed.

(** What the nodes made so far look like, [h0] being the heap the creation
    started from. *)
Record created (buffer_size base i : nat) (h0 h : heap) (first_ last_ : ptr) : Prop := {
  created_list : is_list h first_ last_ (seq base i);
  created_nodes : forall k, k ∈ seq base i -> exists n, h !! k = Some n /\ node_ok buffer_size n;
  created_frame : forall k, k ∉ seq base i -> h !! k = h0 !! k;
}.

Definition fresh_from (base : nat) (h : heap) : Prop := forall k, base <= k -> h !! k = None.

Lemma created_undo buffer_size base i h0 h f l :
  fresh_from base h0 -> created buffer_size base i h0 h f l -> destroy_nodes f h = Some h0.
Proof.
  intros Hfresh [[Hl _] _ Hframe]. rewrite (destroy_nodes_spec _ _ _ Hl) by apply NoDup_seq.
  f_equal. apply map_eq. intros k. destruct (decide (k ∈ seq base i)) as [Hk|Hk].
  - rewrite lookup_foldr_delete by done. apply elem_of_seq in Hk. rewrite Hfresh by lia. done.
  - rewrite lookup_foldr_delete_not_elem_of by done. auto.
Qed.

Lemma created_step buffer_size base i h0 h f l n :
  created buffer_size base i h0 h f l -> node_ok buffer_size n -> node_next n = None ->
  exists h', match l with
             | None => Some (<[base + i := n]> h)
             | Some _ => store_next (<[base + i := n]> h) l (Some (base + i))
             end = Some h' /\
    created buffer_size base (S i) h0 h' (match l with None => Some (base + i) | Some _ => f end)
      (Some (base + i)).
Proof.
  intros [Hl Hn Hfr] Hok Hnx. set (m := base + i).
  assert (m ∉ seq base i) as Hm by (rewrite elem_of_seq; lia).
  assert (is_list (<[m := n]> h) f l (seq base i)) as Hl1.
  { destruct Hl as [Hc ->]. split; [by apply chain_insert|done]. }
  destruct (append_node_spec (<[m := n]> h) f l (seq base i) m n Hl1)
    as (f' & h' & Happ & Rl & Hrel); [|apply lookup_insert_eq|done|].
  { apply NoDup_app. split_and!; [apply NoDup_seq|set_solver|apply NoDup_singleton]. }
  exists h'. assert (f' = match l with None => Some m | Some _ => f end /\
    match l with None => Some (<[m := n]> h)
    | Some _ => store_next (<[m := n]> h) l (Some m) end = Some h') as [-> Heq].
  { unfold append_node in Happ. destruct l; [|by simplify_eq].
    destruct (store_next _ _ _); simpl in *; by simplify_eq. }
  split; [done|]. replace (seq base i ++ [m]) with (seq base (S i)) in Rl by (by rewrite seq_S).
  split; [done| |].
  - intros k Hk. destruct (is_list_elem _ _ _ _ _ Rl Hk) as [n' Hn']. exists n'. split; [done|].
    destruct (Hrel k) as [_ F]. rewrite Hn' in F. inversion F as [n0 ? [E1 E2] Hn0|]; subst.
    assert (node_ok buffer_size n0) as [? ?]; [|split; congruence].
    destruct (decide (k = m)) as [->|Hne].
    + rewrite lookup_insert_eq in Hn0. by simplify_eq.
    + rewrite lookup_insert_ne in Hn0 by done. rewrite seq_S in Hk.
      destruct (Hn k) as (n1 & Hn1 & ?); [set_solver|]. congruence.
  - intros k Hk. rewrite seq_S in Hk. apply not_elem_of_app in Hk as [Hk1 Hk2].
    destruct (Hrel k) as [E _]. rewrite E by done. rewrite lookup_insert_ne by set_solver. auto.
Qed.

Section creation.
Context (malloc_ok : nat -> bool) (garbage : nat -> list byte).

Lemma create_loop_spec buffer_size base h0 remaining : forall i k f l h,
  fresh_from base h0 -> created buffer_size base i h0 h f l ->
  (exists f' l' h',
     create_loop malloc_ok garbage buffer_size base i remaining k f l h
     = Some (0%Z, f', l', h') /\ created buffer_size base (i + remaining) h0 h' f' l') \/
  (create_loop malloc_ok garbage buffer_size base i remaining k f l h
   = Some ((- ENOMEM)%Z, None, None, h0) /\ exists j, malloc_ok j = false).
Proof.
  induction remaining as [|r IH]; intros i k f l h Hfresh Hc; simpl.
  - left. rewrite Nat.add_0_r. eauto 10.
  - destruct (malloc_ok k) eqn:Hk1; simpl;
      [|right; rewrite (created_undo _ _ _ _ _ _ _ Hfresh Hc); eauto].
    destruct (malloc_ok (S k)) eqn:Hk2; simpl;
      [|right; rewrite (created_undo _ _ _ _ _ _ _ Hfresh Hc); eauto].
    destruct (created_step _ _ _ _ _ _ _
      (QueueNode (resize buffer_size 0%Z (garbage (S k))) 0 None) Hc) as (h' & Heq & Hc');
      [split; simpl; [by rewrite length_resize|lia]|done|].
    simpl in Heq. rewrite Heq. simpl. rewrite <- Nat.add_succ_comm. by apply IH.
Qed.

Lemma created_nil buffer_size base h : created buffer_size base 0 h h None None.
Proof. split; [done|set_solver|done]. Qed.

Lemma created_rep buffer_size base n h f l :
  created buffer_size base n ∅ h f l ->
  queue_rep buffer_size n (MkQueue f l None None None false) h (seq base n) [] None.
Proof.
  intros [Hl Hn Hfr]. split; simpl; rewrite ?app_nil_r; try done.
  - apply NoDup_seq.
  - apply set_eq. intros k. rewrite elem_of_list_to_set, elem_of_dom. split.
    + intros [x Hx]. destruct (decide (k ∈ seq base n)); [done|].
      rewrite Hfr, lookup_empty in Hx by done. done.
    + intros Hk. destruct (Hn k Hk) as (x & Hx & _). eauto.
  - apply length_seq.
  - intros k x Hx. destruct (decide (k ∈ seq base n)) as [Hk|Hk].
    + destruct (Hn k Hk) as (y & Hy & ?). by simplify_eq.
    + rewrite Hfr, lookup_empty in Hx by done. done.
Qed.

End creation.

(** ** The executable steps *)

Lemma sys_exec_sound buffer_size s e s' :
  sys_exec buffer_size s e = Some s' -> sys_step buffer_size s e s'.
Proof.
  destruct s as [q h hl]. unfold sys_exec. simpl. intros H.
  destruct e as [data|data| | | |]; destruct hl as [l|]; try done; simpl in *; simplify_eq.
  all: repeat (first [case_match | case_decide | apply bind_Some in H as (? & ? & H)
                     | match goal with H' : _ ≫= _ = Some _ |- _ => apply bind_Some in H' as (? & ? & ?) end];
               simpl in *; simplify_eq).
  all: try (match goal with H' : ensure _ = Some _ |- _ => unfold ensure in H'; case_bool_decide; [|done] end).
  all: repeat match goal with x : (queue * _)%type |- _ => destruct x end; simpl in *.
  all: econstructor; eauto.
Qed.

Lemma sys_exec_all_sound buffer_size tr : forall s s',
  sys_exec_all buffer_size s tr = Some s' -> run (sys_step buffer_size) s tr s'.
Proof.
  induction tr as [|e tr IH]; intros s s' H; simpl in *; [simplify_eq; constructor|].
  apply bind_Some in H as (s1 & He & H). apply IH in H.
  apply (run_app _ _ [e] s1); [|done].
  apply (run_snoc _ _ [] s); [constructor|]. by apply sys_exec_sound.
Qed.

(** ** Lemmas on the runs of the FIFO *)

Abbreviation fifo_run buffer_size := (run (fifo_step buffer_size)) (only parsing).
Abbreviation sys_run buffer_size := (run (sys_step buffer_size)) (only parsing).

Lemma puts_snoc tr e : puts (tr ++ [e]) = puts tr ++ match e with EvPut d => [d] | _ => [] end.
Proof. unfold puts. rewrite omap_app. by destruct e. Qed.

Lemma takes_snoc tr e : takes (tr ++ [e]) = takes tr ++ match e with EvTake d => [d] | _ => [] end.
Proof. unfold takes. rewrite omap_app. by destruct e. Qed.

Lemma fifo_run_sublist buffer_size n tr f :
  run (fifo_step buffer_size) (MkFifo n [] None false) tr f ->
  takes tr ++ filled f `sublist_of` puts tr.
Proof.
  remember (MkFifo n [] None false) as f0 eqn:E0. intros Hrun.
  induction Hrun as [f|f0 tr f1 e f2 Hrun IH Hstep]; subst; [done|].
  specialize (IH eq_refl). rewrite puts_snoc, takes_snoc.
  destruct Hstep as [f data Hlen| | | | |]; simpl in *; rewrite ?app_nil_r in *; try done.
  - unfold fifo_put. destruct (free_slots f); simpl.
    + unfold overwrite_last. rewrite app_assoc. apply sublist_app; [|done].
      etransitivity; [|exact IH]. apply sublist_app; [done|apply sublist_take].
    + rewrite app_assoc. by apply sublist_app.
  - by rewrite <- app_assoc.
Qed.

Lemma completions_snoc tr e :
  completions (tr ++ [e]) = completions tr + match e with EvComplete => 1 | _ => 0 end.
Proof. unfold completions. rewrite omap_app, length_app. by destruct e. Qed.

Lemma never_overruns_prefix n tr e : never_overruns n (tr ++ [e]) -> never_overruns n tr.
Proof. intros H tr1 data tr2 ->. eapply (H tr1 data (tr2 ++ [e])). by rewrite <- app_assoc. Qed.

Lemma fifo_run_lossless buffer_size n tr f :
  run (fifo_step buffer_size) (MkFifo n [] None false) tr f ->
  never_overruns n tr ->
  takes tr ++ filled f = puts tr /\ free_slots f + length (puts tr) = n + completions tr.
Proof.
  remember (MkFifo n [] None false) as f0 eqn:E0. intros Hrun.
  induction Hrun as [f|f0 tr f1 e f2 Hrun IH Hstep]; intros Hno; subst;
    [split; [done|unfold completions, puts; simpl; lia]|].
  destruct (IH eq_refl (never_overruns_prefix _ _ _ Hno)) as [IH1 IH2]; clear IH.
  rewrite puts_snoc, takes_snoc, completions_snoc.
  destruct Hstep as [f data Hlen| | | | |]; simpl in *; rewrite ?app_nil_r in *; try (split; [done|lia]).
  - specialize (Hno tr data [] eq_refl). unfold fifo_put.
    destruct (free_slots f) as [|m] eqn:Hf; [lia|]. simpl.
    rewrite app_assoc, IH1, length_app. simpl. split; [done|lia].
  - rewrite <- app_assoc. simpl. split; [done|lia].
Qed.

Lemma sys_run_simulated buffer_size queue_size s0 f0 tr s :
  2 <= queue_size -> abstracts buffer_size queue_size s0 f0 ->
  run (sys_step buffer_size) s0 tr s ->
  exists f, run (fifo_step buffer_size) f0 tr f /\ abstracts buffer_size queue_size s f.
Proof.
  intros H2 Habs Hrun. induction Hrun as [s|s0 tr s1 e s2 Hrun IH Hstep].
  - exists f0. split; [constructor|done].
  - destruct (IH Habs) as (f1 & Hr & Habs1).
    destruct (step_simulated _ _ _ _ _ _ H2 Habs1 Hstep) as (f2 & Hs & Habs2).
    exists f2. split; [by econstructor|done].
Qed.

Lemma created_abstracts buffer_size n q h base f l :
  created buffer_size base n ∅ h f l -> q = MkQueue f l None None None false ->
  abstracts buffer_size n (MkSystem q h None) (MkFifo n [] None false).
Proof.
  intros Hc ->. exists (seq base n), []. simpl. split_and!; try done.
  - by apply created_rep.
  - by rewrite length_seq.
Qed.

Lemma create_queue_cases malloc_ok garbage buffer_size n base :
  (exists q h, create_queue malloc_ok garbage buffer_size (Z.of_nat n) base ∅ = Some (0%Z, Some q, h) /\
     abstracts buffer_size n (MkSystem q h None) (MkFifo n [] None false)) \/
  (create_queue malloc_ok garbage buffer_size (Z.of_nat n) base ∅ = Some ((- ENOMEM)%Z, None, ∅) /\
   exists j, malloc_ok j = false).
Proof.
  unfold create_queue. destruct (malloc_ok 0) eqn:H0; simpl; [|right; eauto].
  rewrite Nat2Z.id.
  destruct (create_loop_spec malloc_ok garbage buffer_size base ∅ n 0 1 None None ∅)
    as [(f & l & h & -> & Hc)|[-> Hj]]; [done|apply created_nil| |right; done].
  left. simpl. do 2 eexists. split; [done|]. by eapply created_abstracts.
Qed.

Lemma create_queue_abstracts malloc_ok garbage buffer_size n base q h :
  create_queue malloc_ok garbage buffer_size (Z.of_nat n) base ∅ = Some (0%Z, Some q, h) ->
  abstracts buffer_size n (MkSystem q h None) (MkFifo n [] None false).
Proof.
  intros Hc. destruct (create_queue_cases malloc_ok garbage buffer_size n base)
    as [(q' & h' & Hc' & Habs)|[Hc' _]]; rewrite Hc in Hc'; by simplify_eq.
Qed.

Lemma chain_agree h h' p ls :
  (forall k, k ∈ ls -> h' !! k = h !! k) -> chain h p ls -> chain h' p ls.
Proof.
  revert p. induction ls as [|k ls IH]; intros p Hag; simpl; [done|].
  intros (-> & n & Hn & Hc). split; [done|]. exists n. rewrite Hag by set_solver.
  split; [done|]. apply IH; [set_solver|done].
Qed.

Lemma destroy_nodes_lookup h p ls :
  chain h p ls -> NoDup ls ->
  exists h', destroy_nodes p h = Some h' /\
    forall k, h' !! k = if decide (k ∈ ls) then None else h !! k.
Proof.
  intros Hc Hnd. rewrite (destroy_nodes_spec _ _ _ Hc Hnd). eexists. split; [done|].
  intros k. case_decide.
  - by rewrite lookup_foldr_delete.
  - by rewrite lookup_foldr_delete_not_elem_of.
Qed.

Lemma destroy_queue_rep buffer_size n q h fs xs d :
  queue_rep buffer_size n q h fs xs d -> destroy_queue q h = Some ∅.
Proof.
  intros R. pose proof (rep_disjoint _ _ _ _ _ _ _ R) as (Hfx & Hfd & Hxd).
  unfold destroy_queue.
  destruct (destroy_nodes_lookup _ _ _ (proj1 (rep_free _ _ _ _ _ _ _ R))
    (rep_free_nodup _ _ _ _ _ _ _ R)) as (h1 & -> & H1). simpl.
  assert (chain h1 (first_filled_node q) xs) as Cx.
  { eapply chain_agree; [|exact (proj1 (rep_filled _ _ _ _ _ _ _ R))].
    intros k Hk. rewrite H1, decide_False; [done|set_solver]. }
  destruct (destroy_nodes_lookup _ _ _ Cx (rep_filled_nodup _ _ _ _ _ _ _ R)) as (h2 & -> & H2).
  simpl. assert (Hlook : forall k, k ∉ option_list d -> h2 !! k = None).
  { intros k Hk. rewrite H2, H1. do 2 (case_decide; [done|]).
    apply not_elem_of_dom. rewrite (rep_dom _ _ _ _ _ _ _ R), elem_of_list_to_set. set_solver. }
  destruct (rep_detached _ _ _ _ _ _ _ R) as [Cd _].
  destruct d as [l|]; simpl in *.
  - destruct Cd as (-> & nl & Hnl & _). rewrite H2, H1, !decide_False, Hnl by set_solver. simpl.
    f_equal. apply map_eq. intros k. rewrite lookup_empty, lookup_delete.
    case_decide; [done|]. apply Hlook. set_solver.
  - rewrite Cd. f_equal. apply map_eq. intros k. rewrite lookup_empty. apply Hlook. set_solver.
Qed.

(** The consumer's buffer does not change under its hands. *)
Lemma run_held buffer_size queue_size s0 f0 l data tr s :
  2 <= queue_size -> abstracts buffer_size queue_size s0 f0 ->
  sys_held s0 = Some l -> held f0 = Some data ->
  run (sys_step buffer_size) s0 tr s -> completions tr = 0 ->
  sys_held s = Some l /\ exists f, abstracts buffer_size queue_size s f /\ held f = Some data.
Proof.
  intros H2 Habs Hl Hd Hrun. induction Hrun as [s|s0 tr s1 e s2 Hrun IH Hstep]; intros Hc; [eauto|].
  rewrite completions_snoc in Hc.
  destruct (IH Habs Hl) as (Hl1 & f1 & Habs1 & Hd1); [lia|]; clear IH.
  destruct (step_simulated _ _ _ _ _ _ H2 Habs1 Hstep) as (f2 & Hf & Habs2).
  split; [|exists f2; split; [done|]].
  - destruct Hstep; simpl in *; simplify_eq; try done; lia.
  - destruct Hf; simpl in *; simplify_eq; try done; [|lia].
    unfold fifo_put. by destruct (free_slots f).
Qed.

(** Taking and completing until nothing is left. *)
Fixpoint drain_trace (datas : list (list byte)) : list event :=
  match datas with
  | [] => [EvTakeNull]
  | d :: datas' => [EvTake d; EvComplete] ++ drain_trace datas'
  end.

Lemma poisoned_drains buffer_size queue_size f : forall s,
  abstracts buffer_size queue_size s f -> sys_held s = None -> poisoned f = true ->
  exists s', run (sys_step buffer_size) s (drain_trace (filled f)) s' /\ sys_held s' = None.
Proof.
  destruct f as [n fl hd p]. simpl. revert n hd.
  induction fl as [|data fl IH]; intros n hd [q h hl] Habs Hhl Hp; simpl in *; subst.
  - pose proof (take_simulated _ _ _ _ _ Habs) as Ht. simpl in Ht.
    exists (MkSystem q h None). split; [|done]. apply (run_snoc _ _ [] (MkSystem q h None)); [constructor|].
    by constructor.
  - pose proof (take_simulated _ _ _ _ _ Habs) as Ht. simpl in Ht.
    destruct Ht as (l & q1 & h1 & Ht & Hpl & Habs1).
    destruct (complete_simulated _ _ _ _ _ _ Habs1) as (q2 & h2 & Hc & Habs2).
    destruct (IH _ _ _ Habs2) as (s' & Hrun & Hs'); [done|done|]. simpl in Hrun.
    exists s'. split; [|done]. apply (run_app _ _ [EvTake data; EvComplete] (MkSystem q2 h2 None)); [|done].
    apply (run_snoc _ _ [EvTake data] (MkSystem q1 h1 (Some l))); [|by econstructor].
    apply (run_snoc _ _ [] (MkSystem q h None)); [constructor|]. by econstructor.
Qed.

Lemma put_no_node buffer_size n q h d data :
  queue_rep buffer_size n q h [] [] d -> queue_put data (length data) q h = None.
Proof.
  intros R. destruct (is_list_nil _ _ _ (rep_free _ _ _ _ _ _ _ R)) as [Hf _].
  destruct (is_list_nil _ _ _ (rep_filled _ _ _ _ _ _ _ R)) as [_ Hl].
  unfold queue_put. by rewrite Hf, Hl.
Qed.

(** ** Properties *)

(** C1. The linked-list queue implements the bounded FIFO: whatever the
    producer, the consumer and the interrupting thread do, in whatever order
    their critical sections are executed, the trace is one of the
    specification (first in, first out; a put into a full queue overwrites
    the newest buffer; a taken buffer is handed over with its exact bytes),
    and the final state still represents the state of the specification. *)
Theorem queue_refines_fifo malloc_ok garbage buffer_size n base q h tr s :
  2 <= n ->
  create_queue malloc_ok garbage buffer_size (Z.of_nat n) base ∅ = Some (0%Z, Some q, h) ->
  run (sys_step buffer_size) (MkSystem q h None) tr s ->
  exists f, run (fifo_step buffer_size) (MkFifo n [] None false) tr f /\
    abstracts buffer_size n s f.
Proof.
  intros H2 Hc Hrun. eapply sys_run_simulated; [done| |done].
  by eapply create_queue_abstracts.
Qed.

(** C11. No call of the queue API has undefined behaviour (null or dangling
    pointer, write outside a buffer) in any reachable state of a queue of at
    least two buffers: a put of at most [buffer_size] bytes, a take when the
    consumer holds no buffer, the completion of a held buffer and the
    destruction are all defined; destruction frees every node. *)
Theorem queue_calls_defined malloc_ok garbage buffer_size n base q h tr s :
  2 <= n ->
  create_queue malloc_ok garbage buffer_size (Z.of_nat n) base ∅ = Some (0%Z, Some q, h) ->
  run (sys_step buffer_size) (MkSystem q h None) tr s ->
  (forall data, length data <= buffer_size ->
     is_Some (queue_put data (length data) (sys_queue s) (sys_heap s))) /\
  (sys_held s = None -> is_Some (take_buffer_for_processing (sys_queue s) (sys_heap s))) /\
  (forall l, sys_held s = Some l ->
     is_Some (complete_buffer_processing (sys_queue s) (sys_heap s))) /\
  destroy_queue (sys_queue s) (sys_heap s) = Some ∅.
Proof.
  intros H2 Hc Hrun. apply create_queue_abstracts in Hc.
  destruct (sys_run_simulated _ _ _ _ _ _ H2 Hc Hrun) as (f & _ & Habs).
  destruct s as [q' h' hl]. simpl. split_and!.
  - intros data Hlen.
    destruct (put_simulated _ _ _ _ _ _ data Habs Hlen (abs_room _ _ _ _ H2 Habs)) as (? & ? & -> & _).
    done.
  - intros ->. pose proof (take_simulated _ _ _ _ _ Habs) as Ht.
    destruct (filled f); [|destruct Ht as (?&?&?&Ht&_)]; by rewrite Ht.
  - intros l ->. destruct (complete_simulated _ _ _ _ _ _ Habs) as (? & ? & -> & _). done.
  - destruct Habs as (fs & xs & R & _). by eapply destroy_queue_rep.
Qed.

(** Order and loss: the buffers the consumer takes are a subsequence, in
    order, of the buffers put; and none is lost, i.e. the buffers taken
    followed by the ones still queued are exactly the buffers put, as long as
    no put happens while [n] buffers are outstanding. *)
Theorem queue_order_and_loss malloc_ok garbage buffer_size n base q h tr s :
  2 <= n ->
  create_queue malloc_ok garbage buffer_size (Z.of_nat n) base ∅ = Some (0%Z, Some q, h) ->
  run (sys_step buffer_size) (MkSystem q h None) tr s ->
  takes tr `sublist_of` puts tr /\
  (never_overruns n tr -> exists rest, puts tr = takes tr ++ rest).
Proof.
  intros H2 Hc Hrun. apply create_queue_abstracts in Hc.
  destruct (sys_run_simulated _ _ _ _ _ _ H2 Hc Hrun) as (f & Hf & _). split.
  - etransitivity; [|by eapply fifo_run_sublist]. by apply sublist_inserts_r.
  - intros Hno. destruct (fifo_run_lossless _ _ _ _ Hf Hno) as [<- _]. eauto.
Qed.

(** [create_queue] either builds the empty queue of the requested size or
    returns [-ENOMEM] with every node it had allocated freed, and it succeeds
    when every allocation does. *)
Theorem create_queue_correct malloc_ok garbage buffer_size n base :
  (exists q h, create_queue malloc_ok garbage buffer_size (Z.of_nat n) base ∅ = Some (0%Z, Some q, h) /\
     abstracts buffer_size n (MkSystem q h None) (MkFifo n [] None false)) \/
  (create_queue malloc_ok garbage buffer_size (Z.of_nat n) base ∅ = Some ((- ENOMEM)%Z, None, ∅) /\
   exists j, malloc_ok j = false).
Proof. apply create_queue_cases. Qed.

(** C17. The detached buffer is the consumer's alone: from the take until the
    completion its bytes stay the ones taken, whatever puts and interrupts
    the other threads make meanwhile.  (The consumer reads it without holding
    the mutex.) *)
Theorem held_buffer_stable malloc_ok garbage buffer_size n base q h tr1 s1 l data tr2 s2 :
  2 <= n ->
  create_queue malloc_ok garbage buffer_size (Z.of_nat n) base ∅ = Some (0%Z, Some q, h) ->
  run (sys_step buffer_size) (MkSystem q h None) tr1 s1 ->
  sys_held s1 = Some l -> payload (sys_heap s1) l = Some data ->
  run (sys_step buffer_size) s1 tr2 s2 -> completions tr2 = 0 ->
  sys_held s2 = Some l /\ payload (sys_heap s2) l = Some data.
Proof.
  intros H2 Hc Hrun Hl Hpl Hrun2 Hnc. apply create_queue_abstracts in Hc.
  destruct (sys_run_simulated _ _ _ _ _ _ H2 Hc Hrun) as (f & _ & Habs).
  assert (held f = Some data) as Hd.
  { destruct Habs as (fs & xs & _ & _ & _ & Hh & _). rewrite Hl in Hh.
    destruct (held f); [congruence|done]. }
  destruct (run_held _ _ _ _ _ _ _ _ H2 Habs Hl Hd Hrun2 Hnc) as (Hl2 & f2 & Habs2 & Hd2).
  split; [done|]. destruct Habs2 as (fs & xs & _ & _ & _ & Hh & _). by rewrite Hl2, Hd2 in Hh.
Qed.

(** A poisoned queue releases its consumer: from any reachable state in
    which the queue is poisoned and the consumer asks for the next buffer, the
    takes return the buffers still queued, in order, and then [NULL]; none of
    them waits. *)
Theorem poisoned_consumer_terminates malloc_ok garbage buffer_size n base q h tr s :
  2 <= n ->
  create_queue malloc_ok garbage buffer_size (Z.of_nat n) base ∅ = Some (0%Z, Some q, h) ->
  run (sys_step buffer_size) (MkSystem q h None) tr s ->
  sys_held s = None -> poison_pill (sys_queue s) = true ->
  exists queued s', takes tr ++ queued `sublist_of` puts tr /\
    run (sys_step buffer_size) s (drain_trace queued) s' /\ sys_held s' = None.
Proof.
  intros H2 Hc Hrun Hl Hp. apply create_queue_abstracts in Hc.
  destruct (sys_run_simulated _ _ _ _ _ _ H2 Hc Hrun) as (f & Hf & Habs).
  assert (poisoned f = true) as Hpf by (destruct Habs as (?&?&?&?&?&?&->); done).
  destruct (poisoned_drains _ _ _ _ Habs Hl Hpf) as (s' & Hrun' & Hs').
  exists (filled f), s'. split; [by eapply fifo_run_sublist|done].
Qed.

(** A queue of a single buffer, which the configuration accepts, does not
    work: a put that comes while the consumer holds the buffer dereferences
    the [NULL] pointer [last_filled_node]. *)
Theorem single_buffer_put_while_held malloc_ok garbage buffer_size base q h d1 s d2 :
  create_queue malloc_ok garbage buffer_size 1 base ∅ = Some (0%Z, Some q, h) ->
  run (sys_step buffer_size) (MkSystem q h None) [EvPut d1; EvTake d1] s ->
  queue_put d2 (length d2) (sys_queue s) (sys_heap s) = None.
Proof.
  intros Hc Hrun. apply (create_queue_abstracts _ _ _ 1) in Hc.
  apply (run_snoc_inv _ _ [EvPut d1]) in Hrun as (s1 & Hrun1 & Hstep1).
  apply (run_snoc_inv _ _ []) in Hrun1 as (s0 & Hrun0 & Hstep2).
  apply run_nil_inv in Hrun0 as ->.
  inversion Hstep2; subst.
  destruct (put_simulated _ _ _ _ _ _ d1 Hc) as (q1 & h1 & Hp & Habs1); [done|simpl; lia|].
  simplify_eq. inversion Hstep1 as [|? ? l len q2 h2 ? Htake Hpl| | | |]; subst.
  pose proof (take_simulated _ _ _ _ _ Habs1) as Ht. simpl in Ht.
  destruct Ht as (l' & q2' & h2' & Ht & _ & Habs2). simplify_eq.
  destruct Habs2 as (fs & xs & R & Hfs & Hxs & _); simpl in *.
  destruct fs; [|done]. inversion Hxs; subst. by eapply put_no_node.
Qed.

(** ** The properties on a concrete run *)

(** A queue of two 2-byte buffers that is overrun, drained and poisoned. *)
Definition demo_trace : list event :=
  [EvPut [1; 2]; EvPut [3; 4]; EvPut [5; 6]; EvTake [1; 2]; EvPut [7]; EvComplete;
   EvTake [7]; EvComplete; EvWait; EvPut [8]; EvInterrupt]%Z.

Ltac run_demo := apply sys_exec_all_sound; vm_compute; reflexivity.
Ltac create_demo := vm_compute; reflexivity.

Lemma queue_refines_fifo_witness : exists q h s,
  create_queue (fun _ => true) (fun _ => []) 2 2 0 ∅ = Some (0%Z, Some q, h) /\
  exists f, run (fifo_step 2) (MkFifo 2 [] None false) demo_trace f /\ abstracts 2 2 s f.
Proof.
  do 3 eexists. split; [create_demo|].
  eapply (queue_refines_fifo (fun _ => true) (fun _ => []) 2 2 0); [lia|create_demo|run_demo].
Defined.

Lemma queue_calls_defined_witness : exists q h s,
  create_queue (fun _ => true) (fun _ => []) 2 2 0 ∅ = Some (0%Z, Some q, h) /\
  is_Some (queue_put [9]%Z 1 (sys_queue s) (sys_heap s)).
Proof.
  do 3 eexists. split; [create_demo|].
  eapply (queue_calls_defined (fun _ => true) (fun _ => []) 2 2 0 _ _ demo_trace _);
    [lia|create_demo|run_demo|simpl; lia].
Defined.

Lemma queue_order_and_loss_witness :
  takes demo_trace `sublist_of` puts demo_trace.
Proof.
  eapply (queue_order_and_loss (fun _ => true) (fun _ => []) 2 2 0 _ _ demo_trace _);
    [lia|create_demo|run_demo].
Defined.

Lemma held_buffer_stable_witness : exists s2 : system,
  sys_held s2 = Some 0 /\ payload (sys_heap s2) 0 = Some [1; 2]%Z.
Proof.
  eexists.
  eapply (held_buffer_stable (fun _ => true) (fun _ => []) 2 2 0 _ _
            [EvPut [1; 2]; EvTake [1; 2]]%Z _ 0 [1; 2]%Z [EvPut [3; 4]; EvPut [5; 6]]%Z);
    [lia|create_demo|run_demo|reflexivity|reflexivity|run_demo|reflexivity].
Defined.

Lemma poisoned_consumer_terminates_witness : exists s queued s',
  takes demo_trace ++ queued `sublist_of` puts demo_trace /\
  run (sys_step 2) s (drain_trace queued) s' /\ sys_held s' = None.
Proof.
  eexists.
  eapply (poisoned_consumer_terminates (fun _ => true) (fun _ => []) 2 2 0 _ _ demo_trace);
    [lia|create_demo|run_demo|reflexivity|reflexivity].
Defined.

Lemma single_buffer_put_while_held_witness : exists s : system,
  queue_put [3]%Z 1 (sys_queue s) (sys_heap s) = None.
Proof.
  eexists.
  eapply (single_buffer_put_while_held (fun _ => true) (fun _ => []) 2 0 _ _ [1; 2]%Z _ [3]%Z);
    [create_demo|run_demo].
Defined.

End Queue.
