(* ===== verification/Api.v ===== *)
(** * The wire protocol: src/api.h, the socket loops of src/tcp_server.c and
    the client library src/client/tcp_client.c

    A socket is what its system calls answer: the list of the results of the
    successive [recv]s (or [write]s) of the connection.  Bytes are [Z]s in
    [0..255]; the structs of [api.h] are packed, so a struct is the
    concatenation of the bytes of its fields, stored least significant byte
    first (the little-endian machines the program is built for). *)
From S2P Require Import Prelude.
#[local] Open Scope Z_scope.

Module Api.

Definition PROTOCOL_VERSION : Z := 0.
Definition TYPE_REQUEST : Z := 0.
Definition TYPE_SHUTDOWN : Z := 1.
Definition TYPE_RESPONSE : Z := 2.
Definition TYPE_PING : Z := 3.
Definition REQUEST_DESTINATION_FILE : Z := 0.
Definition REQUEST_DESTINATION_SOCKET : Z := 1.
Definition RESPONSE_STATUS_SUCCESS : Z := 0.
Definition RESPONSE_STATUS_FAILURE : Z := 1.
Definition RESPONSE_DETAILS_INVALID_REQUEST : Z := 1.
Definition RESPONSE_DETAILS_OUT_OF_BAND_FREQ : Z := 2.
Definition RESPONSE_DETAILS_INTERNAL_ERROR : Z := 3.

(** ** The structs and their layout *)

Record message_header := MessageHeader { protocol_version : Z; type : Z }.

Record request := Request {
  center_freq : Z;
  sampling_rate : Z;
  band_freq : Z;
  destination : Z;
}.

Record response := Response { status : Z; details : Z }.

(** A [uint32_t] in memory, and back. *)
Definition le32 (x : Z) : list Z :=
  [Z.land x 255; Z.land (Z.shiftr x 8) 255; Z.land (Z.shiftr x 16) 255; Z.land (Z.shiftr x 24) 255].

Definition of_le32 (bs : list Z) : Z :=
  match bs with
  | [b0; b1; b2; b3] => Z.lor b0 (Z.lor (Z.shiftl b1 8) (Z.lor (Z.shiftl b2 16) (Z.shiftl b3 24)))
  | _ => 0
  end.

(** [htonl] and [ntohl] on a little-endian machine: the byte swap. *)
Definition htonl (x : Z) : Z := of_le32 (reverse (le32 x)).
Definition ntohl (x : Z) : Z := of_le32 (reverse (le32 x)).

Definition header_bytes (h : message_header) : list Z := [protocol_version h; type h].
Definition bytes_header (bs : list Z) : message_header :=
  match bs with [v; t] => MessageHeader v t | _ => MessageHeader 0 0 end.

Definition request_bytes (r : request) : list Z :=
  le32 (center_freq r) ++ le32 (sampling_rate r) ++ le32 (band_freq r) ++ [destination r].
Definition bytes_request (bs : list Z) : request :=
  Request (of_le32 (take 4 bs)) (of_le32 (take 4 (drop 4 bs))) (of_le32 (take 4 (drop 8 bs)))
    (nth 12 bs 0).

Definition response_bytes (r : response) : list Z := [status r] ++ le32 (details r).
Definition bytes_response (bs : list Z) : response :=
  Response (nth 0 bs 0) (of_le32 (drop 1 bs)).

Definition sizeof_header : nat := 2.
Definition sizeof_request : nat := 13.
Definition sizeof_response : nat := 5.

(** ** Reading *)

(** What a [recv] answers: data that has arrived (no data at all is the end
    of the stream), or an error.  Data beyond the amount asked for stays in
    the socket. *)
Inductive recv_result :=
| RecvData (bs : list Z)
| RecvError (errno : Z).

Inductive read_result :=
| ReadDone (code : Z) (bs : list Z) (rest : list recv_result)
| ReadBlocked.

(** [read_struct] of the server; [read_data] of the client has the same loop.
    [acc] is the part of the struct received so far and [left] the number of
    bytes missing.  When the answers run out the caller is blocked in
    [recv]. *)
Fixpoint read_struct (left : nat) (acc : list Z) (io : list recv_result) : read_result :=
  match left with
  | O => ReadDone 0 acc io
  | _ =>
      match io with
      | [] => ReadBlocked
      | RecvError errno :: io' =>
          if (errno =? EWOULDBLOCK) || (errno =? EAGAIN) then ReadDone (- errno) acc io'
          else if errno =? EINTR then read_struct left acc io'
          else ReadDone (-1) acc io'
      | RecvData bs :: io' =>
          let received := Nat.min left (length bs) in
          if (received =? 0)%nat then ReadDone (-1) acc io'
          else if (length bs <=? left)%nat then read_struct (left - length bs) (acc ++ bs) io'
          else ReadDone 0 (acc ++ take left bs) (RecvData (drop left bs) :: io')
      end
  end.

Definition read_data := read_struct.

(** ** Writing *)

(** The results of successive [write]s: the count accepted, or a negative
    number.  A call accepts at most what it is given. *)
Inductive write_result :=
| WriteDone (code : Z) (sent : list Z) (rest : list Z)
| WriteBlocked.

(** The loop of [write_message], of [write_to_socket] in src/dsp_worker.c and
    of the client's [write_data]: [left] is the part of the buffer not sent
    yet.  A count of zero makes the loop try again. *)
Fixpoint write_loop (left sent : list Z) (io : list Z) : write_result :=
  match left with
  | [] => WriteDone 0 sent io
  | _ =>
      match io with
      | [] => WriteBlocked
      | written :: io' =>
          if written <? 0 then WriteDone (-1) sent io'
          else
            let n := Nat.min (Z.to_nat written) (length left) in
            write_loop (drop n left) (sent ++ take n left) io'
      end
  end.

(** [write_message] of the server (its [malloc] is not checked: [malloc_ok]
    false is the undefined behaviour of the [memcpy] that follows). *)
Definition write_message (malloc_ok : bool) (status details : Z) (io : list Z) : option write_result :=
  let header := MessageHeader PROTOCOL_VERSION TYPE_RESPONSE in
  let resp := Response status (htonl details) in
  _ ← ensure malloc_ok;
  Some (write_loop (header_bytes header ++ response_bytes resp) [] io).

(** ** The client library *)

Definition write_data (buffer : list Z) (io : list Z) : write_result := write_loop buffer [] io.

(** [write_request]: the code is [-ENOMEM] when the buffer cannot be
    allocated. *)
Definition write_request (malloc_ok : bool) (header : message_header) (req : request)
    (io : list Z) : write_result :=
  let req := Request (htonl (center_freq req)) (htonl (sampling_rate req)) (htonl (band_freq req))
               (destination req) in
  if negb malloc_ok then WriteDone (- ENOMEM) [] io
  else write_data (header_bytes header ++ request_bytes req) io.

Definition send_message (malloc_ok : bool)
    (protocol type center_freq sampling_rate band_freq destination : Z) (io : list Z)
    : write_result :=
  write_request malloc_ok (MessageHeader protocol type)
    (Request center_freq sampling_rate band_freq destination) io.

(** [read_response]: the code and, when it is 0, the header and the response.
    The two [malloc]s are the header's and the response's. *)
Definition read_response (malloc_header malloc_response : bool) (io : list recv_result)
    : option (Z * option (message_header * response) * list recv_result) :=
  if negb malloc_header then Some (- ENOMEM, None, io) else
  match read_data sizeof_header [] io with
  | ReadBlocked => None
  | ReadDone code hbs io1 =>
      if negb (code =? 0) then Some (code, None, io1)
      else if negb malloc_response then Some (- ENOMEM, None, io1)
      else
        match read_data sizeof_response [] io1 with
        | ReadBlocked => None
        | ReadDone code rbs io2 =>
            if negb (code =? 0) then Some (code, None, io2)
            else
              let result := bytes_response rbs in
              Some (0, Some (bytes_header hbs, Response (status result) (ntohl (details result))), io2)
        end
  end.

(** [gracefully_destroy_client]: reads headers until the server closes the
    connection; it returns when a read answers [-1].  The result is the unread
    rest, [None] while it waits. *)
Fixpoint gracefully_destroy_loop (fuel : nat) (io : list recv_result) : option (list recv_result) :=
  match fuel with
  | O => None
  | S fuel' =>
      match read_data sizeof_header [] io with
      | ReadBlocked => None
      | ReadDone code _ io' => if code =? -1 then Some io' else gracefully_destroy_loop fuel' io'
      end
  end.
Definition gracefully_destroy_client (io : list recv_result) : option (list recv_result) :=
  gracefully_destroy_loop (S (length (concat (map (fun r => match r with RecvData bs => 0 :: bs | RecvError _ => [0] end) io)))) io.

(** ** What the peer sent *)

(** The answers of an undisturbed connection: data, or an interrupted call. *)
Definition quiet (io : list recv_result) : Prop :=
  Forall (fun r => match r with RecvData bs => bs <> [] | RecvError e => e = EINTR end) io.

Definition delivered (io : list recv_result) : list Z :=
  concat (map (fun r => match r with RecvData bs => bs | RecvError _ => [] end) io).

(** The answer that ends a read early, and the code the read returns for it. *)
Definition failure_code (r : recv_result) : option Z :=
  match r with
  | RecvData [] => Some (-1)
  | RecvData _ => None
  | RecvError e => if e =? EAGAIN then Some (- EAGAIN) else if e =? EINTR then None else Some (-1)
  end.

Definition is_byte (b : Z) : Prop := is_unsigned 8 b.

(** ** Lemmas *)

Lemma le32_alt x : le32 x = [x `mod` 256; (x `div` 2 ^ 8) `mod` 256; (x `div` 2 ^ 16) `mod` 256;
                             (x `div` 2 ^ 24) `mod` 256].
Proof. unfold le32. by rewrite !land_255, !shiftr_div by lia. Qed.

Lemma of_le32_alt b0 b1 b2 b3 :
  is_byte b0 -> is_byte b1 -> is_byte b2 -> is_byte b3 ->
  of_le32 [b0; b1; b2; b3] = b0 + b1 * 2 ^ 8 + b2 * 2 ^ 16 + b3 * 2 ^ 24.
Proof.
  unfold is_byte, is_unsigned. intros. unfold of_le32. rewrite !shiftl_mul by lia.
  rewrite (lor_add (b2 * 2 ^ 16) _ 24); [|lia|plia|by apply mul_pow2_mod_0].
  rewrite (lor_add (b1 * 2 ^ 8) _ 16); [|lia|plia|].
  - rewrite (lor_add b0 _ 8); [lia|lia|plia|].
    replace (b1 * 2 ^ 8 + (b2 * 2 ^ 16 + b3 * 2 ^ 24))
      with ((b1 + b2 * 2 ^ 8 + b3 * 2 ^ 16) * 2 ^ 8) by lia.
    by apply mul_pow2_mod_0.
  - replace (b2 * 2 ^ 16 + b3 * 2 ^ 24) with ((b2 + b3 * 2 ^ 8) * 2 ^ 16) by lia.
    by apply mul_pow2_mod_0.
Qed.

Lemma le32_bytes x : Forall is_byte (le32 x).
Proof.
  rewrite le32_alt. unfold is_byte, is_unsigned.
  repeat constructor; apply Z.mod_pos_bound; lia.
Qed.

Lemma of_le32_le32 x : of_le32 (le32 x) = x `mod` 2 ^ 32.
Proof.
  pose proof (le32_bytes x) as H. rewrite le32_alt in *.
  repeat (apply Forall_cons in H as [? H]). rewrite of_le32_alt by done.
  pow2. Z.div_mod_to_equations. lia.
Qed.

Lemma le32_of_le32 bs :
  length bs = 4%nat -> Forall is_byte bs -> le32 (of_le32 bs) = bs.
Proof.
  intros Hl H. destruct bs as [|b0 [|b1 [|b2 [|b3 [|]]]]]; try done.
  repeat (apply Forall_cons in H as [? H]). rewrite of_le32_alt, le32_alt by done.
  unfold is_byte, is_unsigned in *. pow2.
  repeat f_equal; Z.div_mod_to_equations; lia.
Qed.

(** [htonl] puts the bytes of a number on the wire in network order. *)
Lemma le32_htonl x : le32 (htonl x) = reverse (le32 x).
Proof.
  apply le32_of_le32; [done|]. apply Forall_reverse, le32_bytes.
Qed.

Lemma ntohl_htonl x : ntohl (htonl x) = x `mod` 2 ^ 32.
Proof. unfold ntohl. rewrite le32_htonl, reverse_involutive. apply of_le32_le32. Qed.

Lemma htonl_mod x : htonl x `mod` 2 ^ 32 = htonl x.
Proof. by rewrite <- of_le32_le32, le32_htonl. Qed.

(** The receiver's [ntohl] of what a struct in network order holds. *)
Lemma ntohl_wire x : is_unsigned 32 x -> ntohl (htonl x `mod` 2 ^ 32) = x.
Proof. intros Hx. rewrite htonl_mod, ntohl_htonl. by apply wrap_small. Qed.

Lemma length_le32 x : length (le32 x) = 4%nat.
Proof. done. Qed.

Lemma length_request_bytes r : length (request_bytes r) = sizeof_request.
Proof. done. Qed.

Lemma bytes_request_bytes r :
  bytes_request (request_bytes r)
  = Request (center_freq r `mod` 2 ^ 32) (sampling_rate r `mod` 2 ^ 32) (band_freq r `mod` 2 ^ 32)
      (destination r).
Proof.
  unfold bytes_request. rewrite <- !of_le32_le32. done.
Qed.

Lemma bytes_response_bytes r :
  bytes_response (response_bytes r) = Response (status r) (details r `mod` 2 ^ 32).
Proof. unfold bytes_response. by rewrite <- !of_le32_le32. Qed.

Lemma read_struct_quiet io : forall left acc,
  quiet io -> (left <= length (delivered io))%nat ->
  exists rest, read_struct left acc io = ReadDone 0 (acc ++ take left (delivered io)) rest /\
    quiet rest /\ delivered rest = drop left (delivered io).
Proof.
  induction io as [|r io IH]; intros left acc Hq Hl.
  { destruct left; [|simpl in Hl; lia]. exists []. simpl. by rewrite app_nil_r. }
  destruct left as [|left']; [exists (r :: io); simpl; by rewrite take_0, drop_0, app_nil_r|].
  set (left := S left') in *. apply Forall_cons in Hq as [Hr Hq].
  destruct r as [bs|e]; cbn [delivered map concat] in *; fold (delivered io) in *.
  - simpl. destruct bs as [|b bs]; [done|]. fold left. simpl length.
    rewrite (proj2 (Nat.eqb_neq _ _)) by (subst left; lia).
    destruct (S (length bs) <=? left)%nat eqn:Hle.
    + apply Nat.leb_le in Hle. rewrite length_app in Hl. simpl in Hl.
      destruct (IH (left - S (length bs))%nat (acc ++ b :: bs) Hq) as (rest & -> & Hq' & Hd); [lia|].
      exists rest. split; [|split; [done|]].
      * f_equal. rewrite <- app_assoc. f_equal. rewrite (take_app_ge (b :: bs)) by (simpl; lia). done.
      * rewrite Hd. rewrite (drop_app_ge (b :: bs)) by (simpl; lia). done.
    + apply Nat.leb_gt in Hle. exists (RecvData (drop left (b :: bs)) :: io). split; [|split].
      * rewrite take_app_le by (simpl; lia). done.
      * constructor; [|done]. intros Hn. apply (f_equal length) in Hn.
        rewrite length_drop in Hn. simpl in Hn. lia.
      * cbn. rewrite drop_app_le by (simpl; lia). done.
  - subst e. simpl. apply (IH left acc Hq). done.
Qed.

(** A read that is over does not depend on what comes later. *)
Lemma read_struct_app io tail : forall left acc code bs rest,
  read_struct left acc io = ReadDone code bs rest -> read_struct left acc (io ++ tail) = ReadDone code bs (rest ++ tail).
Proof.
  induction io as [|r io IH]; intros left acc code bs rest H.
  { destruct left; [|done]. injection H as <- <- <-. by destruct tail. }
  destruct left as [|left']; [by injection H as <- <- <-|]. cbn [read_struct app] in *. destruct r as [d|e].
  - destruct (Nat.min (S left') (length d) =? 0)%nat; [by injection H as <- <- <-|].
    destruct (length d <=? S left')%nat; [by apply IH|by injection H as <- <- <-].
  - destruct ((e =? EWOULDBLOCK) || (e =? EAGAIN)); [by injection H as <- <- <-|].
    destruct (e =? EINTR); [by apply IH|by injection H as <- <- <-].
Qed.

(** A read waits while too little has arrived. *)
Lemma read_struct_blocked io : forall left acc,
  quiet io -> (length (delivered io) < left)%nat -> read_struct left acc io = ReadBlocked.
Proof.
  induction io as [|r io IH]; intros left acc Hq Hl; (destruct left as [|left']; [lia|]); [done|].
  apply Forall_cons in Hq as [Hr Hq]. destruct r as [d|e]; cbn [delivered map concat] in Hl; fold (delivered io) in Hl.
  - rewrite length_app in Hl. cbn [read_struct]. rewrite (proj2 (Nat.eqb_neq _ _)) by (destruct d; [done|cbn; lia]).
    rewrite (proj2 (Nat.leb_le _ _)) by lia. apply IH; [done|lia].
  - subst e. cbn [read_struct]. change ((EINTR =? EWOULDBLOCK) || (EINTR =? EAGAIN)) with false. cbn [Z.eqb EINTR Pos.eqb].
    by apply IH.
Qed.

Lemma read_struct_failure io r io2 code : forall left acc,
  quiet io -> (length (delivered io) < left)%nat -> failure_code r = Some code ->
  read_struct left acc (io ++ r :: io2) = ReadDone code (acc ++ delivered io) io2.
Proof.
  induction io as [|r0 io IH]; intros left acc Hq Hl Hf.
  - destruct left as [|left]; [simpl in Hl; lia|]. simpl. rewrite app_nil_r.
    destruct r as [[|]|e]; simpl in Hf; simplify_eq; [done|].
    unfold EWOULDBLOCK, EAGAIN in *. destruct (e =? 11) eqn:He; simpl.
    + apply Z.eqb_eq in He as ->. by simplify_eq.
    + destruct (e =? EINTR); by simplify_eq.
  - apply Forall_cons in Hq as [Hr Hq].
    destruct r0 as [bs|e]; cbn [delivered map concat app] in *; fold (delivered io) in *.
    + destruct left as [|left']; [rewrite length_app in Hl; lia|]. rewrite length_app in Hl.
      cbn [read_struct]. destruct bs as [|b bs]; [done|].
      rewrite (proj2 (Nat.eqb_neq _ _)) by (simpl; lia).
      rewrite (proj2 (Nat.leb_le _ _)) by lia.
      rewrite (IH (S left' - length (b :: bs))%nat (acc ++ b :: bs) Hq); [|lia|done].
      by rewrite <- app_assoc.
    + subst e. destruct left as [|left]; [lia|]. simpl. by apply IH.
Qed.

Lemma write_loop_prefix io : forall left sent code out rest,
  write_loop left sent io = WriteDone code out rest ->
  exists l1 l2, left = l1 ++ l2 /\ out = sent ++ l1 /\
    (code = 0 /\ l2 = [] \/ code = -1 /\ exists w, w < 0 /\ w ∈ io).
Proof.
  induction io as [|w io IH]; intros left sent code out rest H.
  - destruct left as [|b left]; simpl in H; simplify_eq.
    exists [], []. rewrite !app_nil_r. eauto.
  - destruct left as [|b left]; [simpl in H; simplify_eq; exists [], []; rewrite !app_nil_r; eauto|].
    cbn [write_loop] in H. destruct (w <? 0) eqn:Hw.
    + simplify_eq. exists [], (b :: left). rewrite app_nil_r. split_and!; [done|done|].
      right. split; [done|]. exists w. split; [lia|set_solver].
    + apply IH in H as (l1 & l2 & H1 & -> & H3).
      set (n := Nat.min _ _) in *. exists (take n (b :: left) ++ l1), l2.
      rewrite <- app_assoc, <- H1, take_drop. split_and!; [done|by rewrite app_assoc|].
      destruct H3 as [?|[? (w' & ? & ?)]]; [by left|]. right. split; [done|].
      exists w'. split; [done|set_solver].
Qed.

Lemma write_loop_success buffer io sent rest :
  write_loop buffer [] io = WriteDone 0 sent rest -> sent = buffer.
Proof.
  intros H. apply write_loop_prefix in H as (l1 & l2 & -> & -> & [[_ ->]|[? _]]); [|done].
  by rewrite app_nil_r.
Qed.

(** A writer whose every call accepts at least a byte finishes. *)
Lemma write_loop_complete io : forall left sent,
  Forall (fun w => 0 < w) io -> (length left <= length io)%nat ->
  exists rest, write_loop left sent io = WriteDone 0 (sent ++ left) rest.
Proof.
  induction io as [|w io IH]; intros left sent Hw Hl.
  - destruct left; [|simpl in Hl; lia]. exists []. simpl. by rewrite app_nil_r.
  - destruct left as [|b left]; [exists (w :: io); simpl; by rewrite app_nil_r|].
    apply Forall_cons in Hw as [Hw0 Hw]. cbn [write_loop].
    rewrite (proj2 (Z.ltb_ge _ _)) by lia. set (n := Nat.min _ _).
    destruct (IH (drop n (b :: left)) (sent ++ take n (b :: left))) as (rest & ->); [done| |].
    + rewrite length_drop. simpl in *. lia.
    + exists rest. by rewrite <- app_assoc, take_drop.
Qed.

Lemma request_wire_length header req :
  length (header_bytes header ++ request_bytes req) = (sizeof_header + sizeof_request)%nat.
Proof. done. Qed.

(** Two consecutive reads of an undisturbed stream. *)
Lemma read_two io n m :
  quiet io -> (n + m <= length (delivered io))%nat ->
  exists io1 io2,
    read_struct n [] io = ReadDone 0 (take n (delivered io)) io1 /\
    read_struct m [] io1 = ReadDone 0 (take m (drop n (delivered io))) io2 /\
    quiet io2 /\ delivered io2 = drop (n + m) (delivered io).
Proof.
  intros Hq Hl. destruct (read_struct_quiet io n [] Hq) as (io1 & H1 & Hq1 & Hd1); [lia|].
  destruct (read_struct_quiet io1 m [] Hq1) as (io2 & H2 & Hq2 & Hd2).
  { rewrite Hd1, length_drop. lia. }
  rewrite Hd1 in H2. exists io1, io2. split_and!; try done. by rewrite Hd2, Hd1, drop_drop.
Qed.

(** ** Properties *)

(** Framing: however the network fragments the stream and however often
    [recv] is interrupted, [read_struct] returns exactly the first [len] bytes
    sent and leaves the rest; when the stream ends, times out or fails before
    that, it returns -1, [-EAGAIN] and -1 respectively. *)
Theorem read_struct_correct len io :
  quiet io ->
  ((len <= length (delivered io))%nat ->
   exists rest, read_struct len [] io = ReadDone 0 (take len (delivered io)) rest /\
     quiet rest /\ delivered rest = drop len (delivered io)) /\
  (forall r code io2, (length (delivered io) < len)%nat -> failure_code r = Some code ->
   read_struct len [] (io ++ r :: io2) = ReadDone code (delivered io) io2).
Proof.
  intros Hq. split; [apply (read_struct_quiet _ _ []); done|].
  intros r code io2 Hl Hf. by apply (read_struct_failure _ _ _ _ _ []).
Qed.

(** What is written is a prefix of the buffer, every byte once and in
    order; it is the whole buffer exactly when the code is 0, and a non-zero
    code comes from a failed [write]. *)
Theorem write_loop_correct buffer io code out rest :
  write_loop buffer [] io = WriteDone code out rest ->
  (code = 0 /\ out = buffer) \/
  (code = -1 /\ out `prefix_of` buffer /\ exists w, w < 0 /\ w ∈ io).
Proof.
  intros H. apply write_loop_prefix in H as (l1 & l2 & -> & -> & [[-> ->]|[-> Hw]]).
  - left. by rewrite app_nil_r.
  - right. split_and!; [done|by eexists|done].
Qed.

Lemma request_received malloc_ok protocol type cf sr bf dest wio sent wrest io :
  is_unsigned 32 cf -> is_unsigned 32 sr -> is_unsigned 32 bf ->
  send_message malloc_ok protocol type cf sr bf dest wio = WriteDone 0 sent wrest ->
  quiet io -> sent `prefix_of` delivered io ->
  exists io1 io2 hbs rbs,
    read_struct sizeof_header [] io = ReadDone 0 hbs io1 /\
    bytes_header hbs = MessageHeader protocol type /\
    read_struct sizeof_request [] io1 = ReadDone 0 rbs io2 /\
    let req := bytes_request rbs in
    ntohl (center_freq req) = cf /\ ntohl (sampling_rate req) = sr /\
    ntohl (band_freq req) = bf /\ destination req = dest.
Proof.
  intros Hcf Hsr Hbf Hsend Hq [tail Hpre]. unfold send_message, write_request in Hsend.
  destruct malloc_ok; simpl in Hsend; [|by simplify_eq].
  apply write_loop_success in Hsend as ->.
  destruct (read_two io sizeof_header sizeof_request Hq) as (io1 & io2 & H1 & H2 & _).
  { rewrite Hpre. unfold sizeof_header, sizeof_request. simpl. lia. }
  exists io1, io2. do 2 eexists. rewrite H1, H2, Hpre.
  split; [done|]. split; [done|]. split; [done|].
  change (take sizeof_request _) with (request_bytes (Request (htonl cf) (htonl sr) (htonl bf) dest)).
  rewrite bytes_request_bytes. simpl.
  by rewrite !ntohl_wire.
Qed.

(** C12. A request arrives as it was meant: if the client's [send_message]
    returns 0 then, however the bytes are cut by the network, the server's two
    reads (header, request) yield the protocol version, type and destination
    and, after [ntohl], the frequencies and the rate given by the client. *)
Theorem request_roundtrip malloc_ok protocol type cf sr bf dest wio sent wrest io :
  is_unsigned 32 cf -> is_unsigned 32 sr -> is_unsigned 32 bf ->
  send_message malloc_ok protocol type cf sr bf dest wio = WriteDone 0 sent wrest ->
  quiet io -> sent `prefix_of` delivered io ->
  exists io1 io2 hbs rbs,
    read_struct sizeof_header [] io = ReadDone 0 hbs io1 /\
    bytes_header hbs = MessageHeader protocol type /\
    read_struct sizeof_request [] io1 = ReadDone 0 rbs io2 /\
    let req := bytes_request rbs in
    ntohl (center_freq req) = cf /\ ntohl (sampling_rate req) = sr /\
    ntohl (band_freq req) = bf /\ destination req = dest.
Proof. apply request_received. Qed.

Lemma response_received status_ details_ wio sent wrest io :
  is_unsigned 32 details_ ->
  write_message true status_ details_ wio = Some (WriteDone 0 sent wrest) ->
  quiet io -> sent `prefix_of` delivered io ->
  exists io2, read_response true true io
    = Some (0, Some (MessageHeader PROTOCOL_VERSION TYPE_RESPONSE, Response status_ details_), io2) /\
    quiet io2 /\ delivered io2 = drop 7 (delivered io).
Proof.
  intros Hd Hsend Hq [tail Hpre]. unfold write_message in Hsend. simpl in Hsend.
  injection Hsend as Hsend. apply write_loop_success in Hsend as ->.
  destruct (read_two io sizeof_header sizeof_response Hq) as (io1 & io2 & H1 & H2 & Hq2 & Hd2).
  { rewrite Hpre. unfold sizeof_header, sizeof_response. simpl. lia. }
  exists io2. split; [|done]. unfold read_response, read_data.
  cbn [negb]. rewrite H1. cbn [Z.eqb negb]. rewrite H2. cbn [Z.eqb negb]. rewrite Hpre.
  change (take sizeof_response _) with (response_bytes (Response status_ (htonl details_))).
  rewrite bytes_response_bytes. cbn [status details]. by rewrite ntohl_wire.
Qed.

(** C13. A response arrives as it was meant: when the server's [write_message]
    returns 0 the client's [read_response], however the bytes are cut, returns
    0 with a response header, the status and the details, and consumes exactly
    the seven bytes of the message. *)
Theorem response_roundtrip status_ details_ wio sent wrest io :
  is_unsigned 32 details_ ->
  write_message true status_ details_ wio = Some (WriteDone 0 sent wrest) ->
  quiet io -> sent `prefix_of` delivered io ->
  exists io2, read_response true true io
    = Some (0, Some (MessageHeader PROTOCOL_VERSION TYPE_RESPONSE, Response status_ details_), io2) /\
    quiet io2 /\ delivered io2 = drop 7 (delivered io).
Proof. apply response_received. Qed.

(** ** The properties on concrete exchanges *)

Lemma read_struct_correct_witness :
  quiet [RecvData [1]; RecvError EINTR; RecvData [2; 3; 4]] /\
  exists rest, read_struct 3 [] [RecvData [1]; RecvError EINTR; RecvData [2; 3; 4]]
    = ReadDone 0 [1; 2; 3] rest /\ quiet rest /\ delivered rest = [4].
Proof.
  assert (quiet [RecvData [1]; RecvError EINTR; RecvData [2; 3; 4]]) as Hq by by repeat constructor.
  split; [done|]. apply (read_struct_correct 3 _ Hq). simpl. lia.
Defined.

Lemma write_loop_correct_witness :
  (-1 = 0 /\ [1; 2] = [1; 2; 3]) \/
  (-1 = -1 /\ [1; 2] `prefix_of` [1; 2; 3] /\ exists w, w < 0 /\ w ∈ [2; -1]).
Proof. apply (write_loop_correct [1; 2; 3] [2; -1] (-1) [1; 2] []). reflexivity. Defined.

(** A request for 48 kHz at 436.7 MHz, sent in two writes and received in
    three fragments. *)
Lemma request_roundtrip_witness : exists io1 io2 hbs rbs,
  read_struct sizeof_header []
    [RecvData [0]; RecvData ([0] ++ [0x1a; 0x07; 0x7f]); RecvData [0x60; 0; 0; 0xbb; 0x80; 0x1a; 0x05; 0xf8; 0xc0; 1]]
    = ReadDone 0 hbs io1 /\
  bytes_header hbs = MessageHeader 0 0 /\
  read_struct sizeof_request [] io1 = ReadDone 0 rbs io2 /\
  let req := bytes_request rbs in
  ntohl (center_freq req) = 0x1a077f60 /\
  ntohl (sampling_rate req) = 48000 /\
  ntohl (band_freq req) = 0x1a05f8c0 /\ destination req = 1.
Proof.
  eapply (request_roundtrip true 0 0 0x1a077f60 48000 0x1a05f8c0 1 [5; 20]).
  - split; reflexivity || (intro; discriminate).
  - split; reflexivity || (intro; discriminate).
  - split; reflexivity || (intro; discriminate).
  - vm_compute. reflexivity.
  - by repeat constructor.
  - by exists [].
Defined.

Lemma response_roundtrip_witness : exists io2,
  read_response true true [RecvData [0; 2; 0]; RecvData [0; 0; 1; 2; 9]]
  = Some (0, Some (MessageHeader PROTOCOL_VERSION TYPE_RESPONSE, Response 0 258), io2) /\
  quiet io2 /\ delivered io2 = [9].
Proof.
  eapply (response_roundtrip 0 258 [7]).
  - split; reflexivity || (intro; discriminate).
  - vm_compute. reflexivity.
  - by repeat constructor.
  - by exists [9].
Defined.

End Api.
