(* ===== verification/Float.v ===== *)
(** * C floating point: [float], [double] and [float complex]

    The IEEE 754 binary32 and binary64 operations of the C code are those of
    the Standard Library's [SpecFloat] (round to nearest, ties to even), which
    compute.  Every operation is evaluated in its C type, without contraction
    or reassociation (the Debug build; the Release build adds [-ffast-math],
    which licenses other roundings).  A complex product is the textbook
    formula, which is what C prescribes for finite operands.  The functions of
    libm ([cexpf], [hypotf], [sin], [cos]) are parameters where they are used. *)
From S2P Require Import Prelude.
From Stdlib Require Import SpecFloat.
#[local] Open Scope Z_scope.

Module Float.

Abbreviation float := spec_float (only parsing).

(** ** [float] and [double] *)
Definition f32_add : float -> float -> float := SFadd 24 128.
Definition f32_sub : float -> float -> float := SFsub 24 128.
Definition f32_mul : float -> float -> float := SFmul 24 128.
Definition f32_div : float -> float -> float := SFdiv 24 128.
Definition f32_of_Z (z : Z) : float := binary_normalize 24 128 z 0 false.

Definition f64_add : float -> float -> float := SFadd 53 1024.
Definition f64_sub : float -> float -> float := SFsub 53 1024.
Definition f64_mul : float -> float -> float := SFmul 53 1024.
Definition f64_div : float -> float -> float := SFdiv 53 1024.
Definition f64_of_Z (z : Z) : float := binary_normalize 53 1024 z 0 false.

Definition f_neg : float -> float := SFopp.
Definition f_zero : float := S754_zero false.

(** Conversions between the two types; widening is exact, so that a [float]
    is used as a [double] as it is. *)
Definition f32_of_f64 (x : float) : float :=
  match x with
  | S754_finite s m e => binary_normalize 24 128 (if s then Z.neg m else Z.pos m) e s
  | _ => x
  end.

(** [(intN_t) x] for a value in the range of the type: truncation towards
    zero.  Infinities and NaN have no integer value. *)
Definition trunc (x : float) : option Z :=
  match x with
  | S754_zero _ => Some 0
  | S754_finite s m e =>
      let q := if 0 <=? e then Z.pos m * 2 ^ e else Z.pos m / 2 ^ (- e) in
      Some (if s then - q else q)
  | _ => UB
  end.

Definition to_int (w : Z) (x : float) : option Z :=
  z ← trunc x;
  if decide (- 2 ^ (w - 1) <= z < 2 ^ (w - 1)) then Some z else UB.

(** [x < y]; false when one of them is not a number. *)
Definition f_lt (x y : float) : bool :=
  match SFcompare x y with Some Lt => true | _ => false end.

Definition is_finite (x : float) : bool :=
  match x with S754_zero _ | S754_finite _ _ _ => true | _ => false end.

(** [M_PI]: the double nearest to pi. *)
Definition M_PI : float := S754_finite false 7074237752028440 (-51).

(** ** [float complex] *)
Definition complex : Type := float * float.
Definition creal (c : complex) : float := fst c.
Definition cimag (c : complex) : float := snd c.

Definition c_zero : complex := (f_zero, f_zero).
Definition c_add (a b : complex) : complex :=
  (f32_add (creal a) (creal b), f32_add (cimag a) (cimag b)).
Definition c_mul (a b : complex) : complex :=
  (f32_sub (f32_mul (creal a) (creal b)) (f32_mul (cimag a) (cimag b)),
   f32_add (f32_mul (creal a) (cimag b)) (f32_mul (cimag a) (creal b))).
(** A real operand scales both parts. *)
Definition c_scale (x : float) (c : complex) : complex :=
  (f32_mul x (creal c), f32_mul x (cimag c)).
Definition c_div_real (c : complex) (x : float) : complex :=
  (f32_div (creal c) x, f32_div (cimag c) x).
Definition c_finite (c : complex) : bool := is_finite (creal c) && is_finite (cimag c).

(** ** Lemmas *)

Lemma f32_mul_zero x : is_finite x = true -> exists s, f32_mul x f_zero = S754_zero s.
Proof. destruct x; simpl; intros H; try done; eexists; reflexivity. Qed.

(** Adding the product of a finite number by zero to the initial value of an
    accumulator leaves it unchanged, sign of zero included. *)
Lemma c_mac_zero x : c_finite x = true -> c_add c_zero (c_mul x c_zero) = c_zero.
Proof.
  unfold c_finite. intros [Hr Hi]%andb_prop. unfold c_mul, c_add, c_zero. simpl.
  destruct (f32_mul_zero (creal x) Hr) as [sr Er], (f32_mul_zero (cimag x) Hi) as [si Ei].
  rewrite Er, Ei. by destruct sr, si.
Qed.

(** ** Lemmas: integers in floating point *)

Lemma digits2_pos_log2 p : Z.pos (digits2_pos p) = Z.log2 (Z.pos p) + 1.
Proof.
  induction p as [p IH|p IH|]; [| |done]; simpl digits2_pos.
  - rewrite Pos2Z.inj_succ, IH, (Pos2Z.inj_xI p), Z.log2_succ_double by lia. lia.
  - rewrite Pos2Z.inj_succ, IH, (Pos2Z.inj_xO p), Z.log2_double by lia. lia.
Qed.

Lemma Zdigits2_log2 z : 0 < z -> Zdigits2 z = Z.log2 z + 1.
Proof. intros H. destruct z; try lia. apply digits2_pos_log2. Qed.

Lemma log2_shift n k : 0 < n -> 0 <= k -> Z.log2 (n * 2 ^ k) = Z.log2 n + k.
Proof. intros. rewrite Z.log2_mul_pow2 by lia. lia. Qed.

(** Shifting a mantissa right: the quotient, and what is known of the bits
    shifted out. *)
Definition shr_step (mrs : shr_record) (n : Z) : shr_record :=
  match n with Zpos p => iter_pos shr_1 p mrs | _ => mrs end.

Lemma shr_1_spec m r s : 0 <= m ->
  shr_1 (Build_shr_record m r s) = Build_shr_record (m / 2) (Z.odd m) (r || s).
Proof.
  intros H. destruct m as [|[p|p|]|]; try lia; simpl; try done.
  - f_equal. rewrite Pos2Z.inj_xI, Z.mul_comm, Z.div_add_l by lia. rewrite Z.add_0_r. done.
  - f_equal. by rewrite Pos2Z.inj_xO, Z.mul_comm, Z.div_mul by lia.
Qed.

Lemma iter_pos_succ_r {A} (f : A -> A) p x : iter_pos f (Pos.succ p) x = f (iter_pos f p x).
Proof.
  assert (forall p x, iter_pos f p (f x) = f (iter_pos f p x)) as Hcomm.
  { clear p x. induction p as [p IH|p IH|]; intros x; simpl; [| |done]; by rewrite !IH. }
  revert x. induction p as [p IH|p IH|]; intros x; simpl; [|by rewrite <- !Hcomm|done].
  by rewrite !IH, <- !Hcomm.
Qed.

Lemma iter_shr_1 p m r s : 0 <= m ->
  exists r' s', iter_pos shr_1 p (Build_shr_record m r s) = Build_shr_record (m / 2 ^ Z.pos p) r' s' /\
    (r' = true -> 2 ^ Z.pos p <= 2 * (m `mod` 2 ^ Z.pos p)) /\
    (r = false -> s = false -> m `mod` 2 ^ Z.pos p = 0 -> r' = false /\ s' = false).
Proof.
  intros Hm. induction p as [|p IH] using Pos.peano_ind.
  - change (iter_pos shr_1 1 (Build_shr_record m r s)) with (shr_1 (Build_shr_record m r s)).
    rewrite shr_1_spec by done. eexists _, _. split; [done|]. change (2 ^ 1) with 2.
    rewrite Zmod_odd. split.
    + intros ->. lia.
    + intros -> -> H. destruct (Z.odd m); [lia|done].
  - destruct IH as (r1 & s1 & E & Hr & Hz). rewrite iter_pos_succ_r, E.
    rewrite shr_1_spec by (apply Z.div_pos; lia). rewrite Pos2Z.inj_succ, Z.pow_succ_r by lia.
    eexists _, _. split.
    + f_equal. rewrite Z.div_div by lia. f_equal. lia.
    + rewrite (Z.mul_comm 2), Z.rem_mul_r by lia. rewrite Zmod_odd.
      pose proof (Z.mod_pos_bound m (2 ^ Z.pos p) ltac:(lia)).
      split; [intros ->; lia|]. intros H1 H2 H0.
      destruct (Z.odd (m / 2 ^ Z.pos p)); [lia|]. destruct (Hz H1 H2 ltac:(lia)) as [-> ->]. done.
Qed.

Lemma shr_spec m r s e n : 0 <= m -> 0 <= n ->
  exists r' s', shr (Build_shr_record m r s) e n = (Build_shr_record (m / 2 ^ n) r' s', e + n) /\
    (r' = true -> (n = 0 /\ r = true) \/ 2 ^ n <= 2 * (m `mod` 2 ^ n)) /\
    (r = false -> s = false -> m `mod` 2 ^ n = 0 -> r' = false /\ s' = false).
Proof.
  intros Hm Hn. destruct n as [|p|]; [| |lia].
  - exists r, s. simpl. rewrite Z.div_1_r, Z.add_0_r. split; [done|]. split; [by left|done].
  - destruct (iter_shr_1 p m r s Hm) as (r' & s' & E & Hr & Hz). exists r', s'. simpl shr. rewrite E.
    split; [done|]. split; [by right; apply Hr|done].
Qed.

(** Positive rounding without overflow: the mantissa is the quotient or one
    more, and one more only when at least half is cut off. *)
Section rounding.
Context (prec emax : Z) (Hprec : 0 < prec) (Hemax : prec < emax).

Lemma fexp_normal x : 3 - emax <= x -> fexp prec emax x = x - prec.
Proof using Type. unfold fexp, emin. lia. Qed.

Lemma shr_fexp_down m e l : 0 < m -> 3 - emax <= Z.log2 m + 1 + e -> Z.log2 m + 1 <= prec ->
  shr_fexp prec emax m e l = (shr_record_of_loc m l, e).
Proof using Hprec.
  intros Hm He Hd. unfold shr_fexp. rewrite Zdigits2_log2, fexp_normal by lia.
  unfold shr. destruct (_ - _ - _) eqn:E; [done|lia|done].
Qed.

(** A mantissa that fits, exact. *)
Lemma round_aux_exact m e : 0 < m -> Z.log2 m + 1 <= prec -> 3 - emax <= Z.log2 m + 1 + e ->
  e <= emax - prec ->
  binary_round_aux prec emax false m e loc_Exact = S754_finite false (Z.to_pos m) e.
Proof using Hprec.
  intros Hm Hd He Hmax. unfold binary_round_aux. rewrite shr_fexp_down by done.
  cbn [shr_record_of_loc shr_m loc_of_shr_record round_nearest_even].
  rewrite shr_fexp_down by done. cbn [shr_record_of_loc shr_m].
  destruct m; try lia. by rewrite (proj2 (Z.leb_le _ _)) by lia.
Qed.

(** A mantissa with [t] zeros more than fit, exact. *)
Lemma round_aux_exact_shift m t e : 0 < m -> 0 <= t -> Z.log2 m + 1 <= prec ->
  Z.log2 m + 1 = prec \/ t = 0 ->
  3 - emax <= Z.log2 m + 1 + t + e -> e + t <= emax - prec ->
  binary_round_aux prec emax false (m * 2 ^ t) e loc_Exact = S754_finite false (Z.to_pos m) (e + t).
Proof using Hprec.
  intros Hm Ht Hd [Hp| ->] He Hmax.
  2: { rewrite Z.mul_1_r, Z.add_0_r in *. apply round_aux_exact; lia. }
  unfold binary_round_aux. unfold shr_fexp at 1.
  rewrite Zdigits2_log2, log2_shift, fexp_normal by nia. cbn [shr_record_of_loc].
  replace (Z.log2 m + t + 1 + e - prec - e) with t by lia.
  destruct (shr_spec (m * 2 ^ t) false false e t) as (r' & s' & E & _ & Hz); [nia|done|].
  rewrite E. rewrite Z.div_mul, Z.mod_mul in * by lia. destruct (Hz eq_refl eq_refl eq_refl) as [-> ->].
  cbn [shr_m loc_of_shr_record round_nearest_even]. rewrite shr_fexp_down by lia.
  cbn [shr_record_of_loc shr_m]. destruct m; try lia. by rewrite (proj2 (Z.leb_le _ _)) by lia.
Qed.

Lemma pos_iter_xO p d : Z.pos (Pos.iter xO p d) = Z.pos p * 2 ^ Z.pos d.
Proof using Type.
  induction d as [|d IH] using Pos.peano_ind; [simpl; lia|].
  rewrite Pos.iter_succ, Pos2Z.inj_xO, IH, Pos2Z.inj_succ, Z.pow_succ_r by lia. lia.
Qed.

(** The number of zeros below a [prec]-bit mantissa of [n]. *)
Definition pad (n : Z) : Z := prec - (Z.log2 n + 1).

Lemma of_Z_spec n : 0 < n < 2 ^ prec ->
  binary_normalize prec emax n 0 false = S754_finite false (Z.to_pos (n * 2 ^ pad n)) (- pad n).
Proof using Hprec Hemax.
  intros [Hn Hlt]. assert (Z.log2 n < prec) as Hl by (by apply Z.log2_lt_pow2).
  pose proof (Z.log2_nonneg n). unfold binary_normalize. destruct n as [|n|]; try lia.
  unfold binary_round. rewrite digits2_pos_log2, fexp_normal by lia.
  unfold shl_align. replace (Z.log2 (Z.pos n) + 1 + 0 - prec - 0) with (- pad (Z.pos n)) by (unfold pad; lia).
  assert (0 <= pad (Z.pos n)) as Hp by (unfold pad; lia).
  assert (Z.log2 (Z.pos n * 2 ^ pad (Z.pos n)) + 1 = prec) as Hd by (rewrite log2_shift by lia; unfold pad; lia).
  destruct (- pad (Z.pos n)) as [|d|d] eqn:E; [|lia|].
  - replace (pad (Z.pos n)) with 0 in * by lia. rewrite Z.mul_1_r in *.
    rewrite round_aux_exact by lia. done.
  - assert (Z.log2 (Z.pos n) + 1 + 0 - prec = Z.neg d) as -> by (unfold pad in E; lia).
    assert (Z.pos d <= prec - 1) by (unfold pad in E; lia).
    replace (pad (Z.pos n)) with (Z.pos d) in * by lia. rewrite pos_iter_xO.
    rewrite round_aux_exact by (nia || lia). done.
Qed.

Lemma mul_of_Z a b : 0 < a -> 0 < b -> a * b < 2 ^ prec ->
  SFmul prec emax (binary_normalize prec emax a 0 false) (binary_normalize prec emax b 0 false)
  = binary_normalize prec emax (a * b) 0 false.
Proof using Hprec Hemax.
  intros Ha Hb Hab. rewrite !of_Z_spec by nia. cbn [SFmul xorb].
  assert (Z.log2 (a * b) < prec) as Hlc by (apply Z.log2_lt_pow2; nia).
  pose proof (Z.log2_mul_below a b Ha Hb) as Hll.
  pose proof (Z.log2_nonneg a). pose proof (Z.log2_nonneg b). pose proof (Z.log2_nonneg (a * b)).
  set (t := pad a + pad b - pad (a * b)).
  assert (0 <= t) as Ht by (subst t; unfold pad; lia).
  assert (0 <= pad (a * b)) as Hpc by (unfold pad; lia).
  assert (0 <= pad a /\ 0 <= pad b) as [Hpa Hpb] by (unfold pad; lia).
  assert (Z.pos (Z.to_pos (a * 2 ^ pad a) * Z.to_pos (b * 2 ^ pad b)) = a * b * 2 ^ pad (a * b) * 2 ^ t) as ->.
  { rewrite Pos2Z.inj_mul, !Z2Pos.id by nia. rewrite <- (Z.mul_assoc (a * b)), <- Z.pow_add_r by lia.
    replace (pad (a * b) + t) with (pad a + pad b) by (subst t; lia). rewrite Z.pow_add_r by lia. ring. }
  assert (Z.log2 (a * b * 2 ^ pad (a * b)) + 1 = prec) as Hd.
  { rewrite log2_shift by nia. unfold pad. lia. }
  rewrite round_aux_exact_shift; [|nia|done|lia|by left|unfold pad in *; lia|unfold pad in *; lia].
  f_equal. subst t. lia.
Qed.

(** The rounded quotient of two integers truncates to the integer quotient. *)
Lemma floor_of_rounded n1 n2 K M : 0 < n1 -> 0 < n2 -> 0 <= K -> n2 < 2 ^ (K + 1) ->
  M = n1 * 2 ^ K / n2 \/ (M = n1 * 2 ^ K / n2 + 1 /\ n2 <= 2 * ((n1 * 2 ^ K) `mod` n2)) ->
  M / 2 ^ K = n1 / n2.
Proof using Type.
  intros H1 H2 HK Hlt HM. rewrite Z.pow_add_r in Hlt by lia. change (2 ^ 1) with 2 in Hlt.
  pose proof (Z.div_mod n1 n2 ltac:(lia)) as Hn. pose proof (Z.mod_pos_bound n1 n2 H2) as Hr.
  set (q := n1 / n2) in *. set (r := n1 `mod` n2) in *.
  assert (0 < 2 ^ K) as HP by (apply Z.pow_pos_nonneg; lia). set (P := 2 ^ K) in *.
  replace (n1 * P) with (r * P + q * P * n2) in HM by nia.
  rewrite Z.div_add, Z.mod_add in HM by lia.
  pose proof (Z.div_mod (r * P) n2 ltac:(lia)) as Hn'. pose proof (Z.mod_pos_bound (r * P) n2 H2) as Hr'.
  set (x := r * P / n2) in *. set (y := (r * P) `mod` n2) in *.
  assert (0 <= x) by (subst x; apply Z.div_pos; nia).
  symmetry. apply (Z.div_unique _ _ _ (M - P * q)); [|lia]. left.
  destruct HM as [-> | [-> Hy]]; [nia|]. split; [nia|].
  assert (x + 1 < P); [|lia]. apply Z.nle_gt. intros Hx.
  assert (P <= x + 1) by lia. assert (n2 * (P - 1) + y <= r * P) by nia. nia.
Qed.

End rounding.

(** Truncation of a positive number, by a shift. *)
Lemma trunc_shift m e t : 0 < m -> 0 <= t -> e <= 0 ->
  trunc (S754_finite false (Z.to_pos (m * 2 ^ t)) e) = trunc (S754_finite false (Z.to_pos m) (e + t)).
Proof.
  intros Hm Ht He. unfold trunc. rewrite !Z2Pos.id by nia. f_equal.
  destruct (0 <=? e) eqn:E1; [apply Z.leb_le in E1|apply Z.leb_gt in E1].
  - assert (e = 0) as -> by lia. rewrite (proj2 (Z.leb_le _ _)) by lia. rewrite Z.add_0_l. lia.
  - destruct (0 <=? e + t) eqn:E2; [apply Z.leb_le in E2|apply Z.leb_gt in E2].
    + replace t with ((e + t) + - e) at 1 by lia. rewrite Z.pow_add_r, Z.mul_assoc, Z.div_mul by lia. done.
    + replace (- e) with (t + - (e + t)) by lia. rewrite Z.pow_add_r by lia.
      rewrite <- Z.div_div by lia. by rewrite Z.div_mul by lia.
Qed.

Section division.
Context (prec emax : Z) (Hprec : 0 < prec) (Hemax : 4 * prec < emax).

(** The end of the rounding: the second normalisation, for a mantissa of the
    right size or a power of two above it. *)
Lemma trunc_normalised M K : 2 ^ (prec - 1) <= M <= 2 ^ prec -> 0 <= K <= 3 * prec ->
  trunc (let '(mrs'', e'') := shr_fexp prec emax M (- K) loc_Exact in
         match shr_m mrs'' with
         | Z0 => S754_zero false
         | Zpos m => if e'' <=? emax - prec then S754_finite false m e'' else S754_infinity false
         | _ => S754_nan
         end) = Some (M / 2 ^ K).
Proof using Hprec Hemax.
  intros HM HK. assert (0 < 2 ^ (prec - 1)) as Hp0 by (apply Z.pow_pos_nonneg; lia).
  assert (0 < 2 ^ K) as HP by (apply Z.pow_pos_nonneg; lia).
  assert (forall m e, 0 < m -> e <= 0 -> trunc (S754_finite false (Z.to_pos m) e) = Some (m / 2 ^ (- e))) as Htr.
  { intros m e Hm He. unfold trunc. rewrite Z2Pos.id by done.
    destruct (0 <=? e) eqn:E; [apply Z.leb_le in E; assert (e = 0) as -> by lia|done].
    by rewrite Z.div_1_r, Z.mul_1_r. }
  destruct (decide (M = 2 ^ prec)) as [->|Hne].
  - assert (2 ^ prec = 2 ^ (prec - 1) * 2 ^ 1) as Hpow by (rewrite <- Z.pow_add_r by lia; f_equal; lia).
    unfold shr_fexp. rewrite Zdigits2_log2, Z.log2_pow2, fexp_normal by lia.
    replace (prec + 1 + - K - prec - - K) with 1 by lia. cbn [shr_record_of_loc].
    destruct (shr_spec (2 ^ prec) false false (- K) 1) as (r' & s' & -> & _ & _); [lia|lia|].
    cbn [shr_m]. rewrite Hpow, Z.div_mul by lia.
    destruct (2 ^ (prec - 1)) as [|pm|] eqn:Epm; try lia.
    rewrite (proj2 (Z.leb_le _ _)) by lia.
    change pm with (Z.to_pos (Z.pos pm)). rewrite <- (trunc_shift (Z.pos pm) (- K) 1) by lia.
    rewrite Htr by lia. do 3 f_equal. lia.
  - assert (Z.log2 M + 1 = prec) as Hl.
    { rewrite (Z.log2_unique M (prec - 1)); [lia|lia|]. replace (Z.succ (prec - 1)) with prec by lia. lia. }
    rewrite shr_fexp_down by lia. cbn [shr_record_of_loc shr_m]. destruct M as [|pm|]; try lia.
    rewrite (proj2 (Z.leb_le _ _)) by lia. change pm with (Z.to_pos (Z.pos pm)).
    rewrite Htr by lia. do 3 f_equal. lia.
Qed.

Lemma new_location_half d r : 0 < d ->
  shr_r (shr_record_of_loc 0 (new_location d r)) = true -> d <= 2 * r.
Proof using Type.
  intros Hd. unfold new_location, new_location_even, new_location_odd.
  destruct (Z.even d); destruct (r =? 0); cbn; try done.
  - destruct (Z.compare_spec (2 * r) d); cbn; (done || lia).
  - destruct (Z.compare_spec (2 * r + 1) d); cbn; (done || lia).
Qed.

Lemma quotient_log2 n1 n2 K : 0 < n1 -> 0 < n2 -> 0 <= K ->
  Z.log2 n2 + prec <= Z.log2 n1 + K ->
  0 < n1 * 2 ^ K / n2 /\ Z.log2 n1 - Z.log2 n2 + K - 1 <= Z.log2 (n1 * 2 ^ K / n2) <= Z.log2 n1 - Z.log2 n2 + K.
Proof using Hprec.
  intros H1 H2 HK Hl. pose proof (Z.log2_spec n1 H1) as [Ha Hb]. pose proof (Z.log2_spec n2 H2) as [Hc Hd].
  pose proof (Z.log2_nonneg n1). pose proof (Z.log2_nonneg n2).
  set (a := Z.log2 n1 - Z.log2 n2 + K - 1).
  assert (2 ^ a <= n1 * 2 ^ K / n2) as Hlow.
  { apply Z.div_le_lower_bound; [done|].
    assert (2 ^ Z.succ (Z.log2 n2) * 2 ^ a = 2 ^ Z.log2 n1 * 2 ^ K) as E.
    { rewrite <- !Z.pow_add_r by lia. f_equal. lia. }
    assert (0 < 2 ^ a) by (apply Z.pow_pos_nonneg; lia).
    assert (0 < 2 ^ K) by (apply Z.pow_pos_nonneg; lia). nia. }
  assert (n1 * 2 ^ K / n2 < 2 ^ (a + 2)) as Hhigh.
  { apply Z.div_lt_upper_bound; [done|].
    assert (2 ^ Z.log2 n2 * 2 ^ (a + 2) = 2 ^ Z.succ (Z.log2 n1) * 2 ^ K) as E.
    { rewrite <- !Z.pow_add_r by lia. f_equal. lia. }
    assert (0 < 2 ^ (a + 2)) by (apply Z.pow_pos_nonneg; lia).
    assert (0 < 2 ^ K) by (apply Z.pow_pos_nonneg; lia). nia. }
  assert (0 < n1 * 2 ^ K / n2) as Hpos by (assert (0 < 2 ^ a) by (apply Z.pow_pos_nonneg; lia); lia).
  split; [done|].
  apply Z.log2_le_mono in Hlow. rewrite Z.log2_pow2 in Hlow by lia.
  apply Z.log2_lt_pow2 in Hhigh; [|lia]. subst a. lia.
Qed.

Lemma round_cases m r s :
  round_nearest_even m (loc_of_shr_record (Build_shr_record m r s)) = m \/
  (r = true /\ round_nearest_even m (loc_of_shr_record (Build_shr_record m r s)) = m + 1).
Proof using Type. destruct r, s; cbn; auto. destruct (Z.even m); auto. Qed.

Lemma record_of_loc m l :
  shr_record_of_loc m l = Build_shr_record m (shr_r (shr_record_of_loc 0 l)) (shr_s (shr_record_of_loc 0 l)).
Proof using Type. by destruct l as [|[]]. Qed.

(** Cutting [t] bits of a quotient. *)
Lemma cut_quotient N n2 K t : 0 < n2 -> 0 <= t -> 0 <= K -> 0 <= N ->
  N * 2 ^ (K + t) / n2 / 2 ^ t = N * 2 ^ K / n2 /\
  (2 ^ t <= 2 * ((N * 2 ^ (K + t) / n2) `mod` 2 ^ t) -> n2 <= 2 * ((N * 2 ^ K) `mod` n2)).
Proof using Type.
  intros H2 Ht HK HN. assert (0 < 2 ^ t) as HT by (apply Z.pow_pos_nonneg; lia).
  rewrite Z.pow_add_r, Z.mul_assoc by lia. set (A := N * 2 ^ K). assert (0 <= A) by (subst A; nia).
  split.
  - rewrite Z.div_div by lia. apply Z.div_mul_cancel_r; lia.
  - intros Hh.
    pose proof (Z.div_mod (A * 2 ^ t) n2 ltac:(lia)) as E1.
    pose proof (Z.mod_pos_bound (A * 2 ^ t) n2 H2) as B1.
    pose proof (Z.div_mod (A * 2 ^ t / n2) (2 ^ t) ltac:(lia)) as E2.
    pose proof (Z.div_mod A n2 ltac:(lia)) as E3. pose proof (Z.mod_pos_bound A n2 H2) as B3.
    assert (A * 2 ^ t / n2 / 2 ^ t = A / n2) as E4.
    { rewrite Z.div_div by lia. apply Z.div_mul_cancel_r; lia. }
    rewrite E4 in E2. set (b := (A * 2 ^ t / n2) `mod` 2 ^ t) in *.
    set (c := (A * 2 ^ t) `mod` n2) in *. set (q := A / n2) in *. set (r := A `mod` n2) in *.
    set (x := A * 2 ^ t / n2) in *. assert (r * 2 ^ t = b * n2 + c) by nia. nia.
Qed.

(** The mantissa of the dividend, shifted to the exponent [e'] of the quotient. *)
Lemma aligned_dividend n1 k1 k2 e' : 0 <= k1 -> 0 <= k2 -> e' <= - k1 + k2 -> e' <= 0 ->
  match - k1 - - k2 - e' with
  | Zpos _ => Z.shiftl (n1 * 2 ^ k1) (- k1 - - k2 - e')
  | Z0 => n1 * 2 ^ k1
  | Zneg _ => 0
  end = n1 * 2 ^ (- e') * 2 ^ k2.
Proof using Type.
  intros H1 H2 H3 H4. destruct (- k1 - - k2 - e') eqn:Es; [| |lia].
  - rewrite <- Z.mul_assoc, <- Z.pow_add_r by lia. do 2 f_equal. lia.
  - rewrite shiftl_mul, <- !Z.mul_assoc, <- !Z.pow_add_r by lia. do 2 f_equal. lia.
Qed.

(** The first [prec] binary digits of a number. *)
Lemma top_digits q : 0 < q -> 0 <= Z.log2 q + 1 - prec ->
  2 ^ (prec - 1) <= q / 2 ^ (Z.log2 q + 1 - prec) < 2 ^ prec.
Proof using Hprec.
  intros Hq Ht. pose proof (Z.log2_spec q Hq) as [Hqa Hqb]. set (t := Z.log2 q + 1 - prec) in *.
  assert (0 < 2 ^ t) by (apply Z.pow_pos_nonneg; lia).
  split; [apply Z.div_le_lower_bound; [done|]|apply Z.div_lt_upper_bound; [done|]];
    rewrite <- Z.pow_add_r by lia.
  - replace (t + (prec - 1)) with (Z.log2 q) by (subst t; lia). done.
  - replace (t + prec) with (Z.succ (Z.log2 q)) by (subst t; lia). done.
Qed.

(** The rounding of a quotient [q], found with [K0] fractional bits, truncates to
    the integer quotient. *)
Lemma trunc_quotient n1 n2 K0 q l : 0 < n1 -> 0 < n2 -> Z.log2 n1 < prec -> Z.log2 n2 < prec ->
  q = n1 * 2 ^ K0 / n2 -> 0 <= K0 <= 3 * prec -> Z.log2 n2 + prec <= Z.log2 n1 + K0 ->
  (shr_r (shr_record_of_loc 0 l) = true -> n2 <= 2 * ((n1 * 2 ^ K0) `mod` n2)) ->
  trunc (binary_round_aux prec emax false q (- K0) l) = Some (n1 / n2).
Proof using Hprec Hemax.
  intros H1 H2 Hl1 Hl2 Hq HK0 HK Hloc.
  pose proof (Z.log2_nonneg n1) as Hl1p. pose proof (Z.log2_nonneg n2) as Hl2p.
  destruct (quotient_log2 n1 n2 K0) as (Hq0 & Hlow & Hhigh); [done|done|lia|lia|].
  rewrite <- Hq in Hq0, Hlow, Hhigh.
  unfold binary_round_aux, shr_fexp at 1. rewrite Zdigits2_log2, fexp_normal by lia.
  replace (Z.log2 q + 1 + - K0 - prec - - K0) with (Z.log2 q + 1 - prec) by lia.
  set (t := Z.log2 q + 1 - prec). assert (0 <= t) as Ht by lia.
  rewrite record_of_loc. destruct (shr_spec q (shr_r (shr_record_of_loc 0 l)) (shr_s (shr_record_of_loc 0 l)) (- K0) t)
    as (r' & s' & E & Hup & _); [lia|done|].
  rewrite E. cbn [shr_m]. set (K := K0 - t). replace (- K0 + t) with (- K) by (subst K; lia).
  destruct (cut_quotient n1 n2 K t) as [Hcut Hhalf]; [done|done|lia|lia|].
  replace (K + t) with K0 in Hcut, Hhalf by (subst K; lia). rewrite <- Hq in Hcut, Hhalf.
  set (M := round_nearest_even _ _).
  assert (M = n1 * 2 ^ K / n2 \/ (M = n1 * 2 ^ K / n2 + 1 /\ n2 <= 2 * ((n1 * 2 ^ K) `mod` n2))) as HM.
  { subst M. destruct (round_cases (q / 2 ^ t) r' s') as [-> | [Hr' ->]]; [left; lia|right].
    split; [lia|]. destruct (Hup Hr') as [[Ht0 Hl]|Hh]; [|by apply Hhalf].
    replace K with K0 by (subst K; lia). by apply Hloc. }
  rewrite trunc_normalised; [f_equal; apply (floor_of_rounded n1 n2 K M); [done|done|lia| |done]| |lia].
  - apply Z.log2_lt_pow2; lia.
  - rewrite <- Hcut in HM. pose proof (top_digits q Hq0 Ht). fold t in H. lia.
Qed.

Lemma trunc_div n1 n2 k2 : 0 < n1 < 2 ^ prec -> 0 < n2 < 2 ^ prec -> 0 <= k2 <= prec ->
  trunc (SFdiv prec emax (binary_normalize prec emax n1 0 false)
                         (S754_finite false (Z.to_pos (n2 * 2 ^ k2)) (- k2))) = Some (n1 / n2).
Proof using Hprec Hemax.
  intros [H1 Hlt1] [H2 Hlt2] Hk2. rewrite of_Z_spec by lia. unfold SFdiv, SFdiv_core_binary. cbn [xorb].
  assert (Z.log2 n1 < prec /\ Z.log2 n2 < prec) as [Hl1 Hl2] by (split; by apply Z.log2_lt_pow2).
  pose proof (Z.log2_nonneg n1) as Hl1p. pose proof (Z.log2_nonneg n2) as Hl2p.
  assert (0 <= pad prec n1 < prec) as Hpad by (unfold pad; lia).
  assert (0 < 2 ^ pad prec n1) as HP1 by (apply Z.pow_pos_nonneg; lia).
  assert (0 < 2 ^ k2) as HP2 by (apply Z.pow_pos_nonneg; lia).
  rewrite !Z2Pos.id by nia. rewrite !Zdigits2_log2, !log2_shift by nia.
  rewrite fexp_normal by (unfold pad in *; lia).
  set (e' := Z.min _ _). assert (e' <= Z.log2 n1 - Z.log2 n2 - prec /\ e' <= - pad prec n1 + k2) as [He1 He2].
  { subst e'. unfold pad. lia. }
  assert (- 3 * prec <= e') as Helow by (subst e'; unfold pad in *; lia).
  rewrite (aligned_dividend n1 (pad prec n1) k2 e') by lia.
  destruct (Z.div_eucl (n1 * 2 ^ (- e') * 2 ^ k2) (n2 * 2 ^ k2)) as [q r] eqn:Ed.
  replace e' with (- - e') at 1 by lia. apply trunc_quotient; try lia.
  - rewrite <- (Z.div_mul_cancel_r _ n2 (2 ^ k2)) by lia. unfold Z.div. by rewrite Ed.
  - assert (r = (n1 * 2 ^ (- e')) `mod` n2 * 2 ^ k2) as -> by (rewrite <- Z.mul_mod_distr_r by lia; unfold Z.modulo; by rewrite Ed).
    intros Hloc%new_location_half; nia.
Qed.

(** The same for a divisor that is a multiple of a power of two. *)
Lemma trunc_div_wide n1 p e : 0 < n1 < 2 ^ prec -> 0 < p -> 0 <= e -> Z.log2 p + e < prec ->
  trunc (SFdiv prec emax (binary_normalize prec emax n1 0 false) (S754_finite false (Z.to_pos p) e)) = Some (n1 / (p * 2 ^ e)).
Proof using Hprec Hemax.
  intros [H1 Hlt1] Hp He Hl2. rewrite of_Z_spec by lia. unfold SFdiv, SFdiv_core_binary. cbn [xorb].
  assert (Z.log2 n1 < prec) as Hl1 by (by apply Z.log2_lt_pow2).
  pose proof (Z.log2_nonneg n1) as Hl1p. pose proof (Z.log2_nonneg p) as Hlpp.
  assert (0 <= pad prec n1 < prec) as Hpad by (unfold pad; lia).
  assert (0 < 2 ^ pad prec n1) as HP1 by (apply Z.pow_pos_nonneg; lia).
  assert (0 < 2 ^ e) as HP2 by (apply Z.pow_pos_nonneg; lia).
  rewrite !Z2Pos.id by nia. rewrite !Zdigits2_log2, !log2_shift by nia.
  rewrite fexp_normal by (unfold pad in *; lia).
  set (e' := Z.min _ _). assert (e' <= Z.log2 n1 - (Z.log2 p + e) - prec /\ e' <= - pad prec n1 - e) as [He1 He2].
  { subst e'. unfold pad. lia. }
  assert (- 3 * prec <= e') as Helow by (subst e'; unfold pad in *; lia).
  set (m' := match - pad prec n1 - e - e' with Zpos _ => _ | Z0 => _ | Zneg _ => _ end).
  assert (m' = n1 * 2 ^ (- e' - e)) as ->.
  { subst m'. destruct (- pad prec n1 - e - e') eqn:Es; [| |lia].
    - do 2 f_equal. lia.
    - rewrite shiftl_mul, <- Z.mul_assoc, <- Z.pow_add_r by lia. do 2 f_equal. lia. }
  assert (n1 * 2 ^ (- e') = n1 * 2 ^ (- e' - e) * 2 ^ e) as EN.
  { rewrite <- Z.mul_assoc, <- Z.pow_add_r by lia. do 2 f_equal. lia. }
  destruct (Z.div_eucl (n1 * 2 ^ (- e' - e)) p) as [q r] eqn:Ed.
  replace e' with (- - e') at 1 by lia. apply trunc_quotient; try nia; try (rewrite log2_shift by lia; lia).
  - rewrite EN, Z.div_mul_cancel_r by lia. unfold Z.div. by rewrite Ed.
  - rewrite EN, Z.mul_mod_distr_r by lia. assert (r = (n1 * 2 ^ (- e' - e)) `mod` p) as -> by (unfold Z.modulo; by rewrite Ed).
    intros Hloc%new_location_half; nia.
Qed.

(** Rounding a mantissa with more than [prec] digits: the error is at most one unit
    of the last place that is kept. *)
Lemma round_aux_wide m e : 0 < m -> 0 <= Z.log2 m + 1 - prec -> 3 - emax <= Z.log2 m + 1 + e -> Z.log2 m + 2 + e <= emax ->
  exists p k, binary_round_aux prec emax false m e loc_Exact = S754_finite false (Z.to_pos p) (e + k) /\
    2 ^ (prec - 1) <= p < 2 ^ prec /\ Z.log2 m + 1 - prec <= k <= Z.log2 m + 2 - prec /\
    Z.abs (p * 2 ^ k - m) * 2 ^ (prec - 1) <= m.
Proof using Hprec Hemax.
  intros Hm Ht He Hmax. set (t := Z.log2 m + 1 - prec) in *. unfold binary_round_aux, shr_fexp at 1.
  rewrite Zdigits2_log2, fexp_normal by lia. replace (Z.log2 m + 1 + e - prec - e) with t by lia. cbn [shr_record_of_loc].
  destruct (shr_spec m false false e t) as (r & s & -> & _); [lia|done|]. cbn [shr_m].
  pose proof (top_digits m Hm Ht) as Htop. fold t in Htop.
  set (m2 := round_nearest_even _ _). assert (m2 = m / 2 ^ t \/ m2 = m / 2 ^ t + 1) as Hm2.
  { subst m2. destruct (round_cases (m / 2 ^ t) r s) as [-> | [_ ->]]; auto. }
  assert (0 < 2 ^ t) as H2t by (apply Z.pow_pos_nonneg; lia). assert (0 < 2 ^ (prec - 1)) as H2p by (apply Z.pow_pos_nonneg; lia).
  assert (2 ^ t * 2 ^ (prec - 1) <= m) as Hbits.
  { rewrite <- Z.pow_add_r by lia. replace (t + (prec - 1)) with (Z.log2 m) by (subst t; lia). by apply Z.log2_spec. }
  assert (Z.abs (m2 * 2 ^ t - m) * 2 ^ (prec - 1) <= m) as Herr.
  { pose proof (Z.div_mod m (2 ^ t) ltac:(lia)). pose proof (Z.mod_pos_bound m (2 ^ t) H2t).
    assert (Z.abs (m2 * 2 ^ t - m) <= 2 ^ t) by (destruct Hm2 as [-> | ->]; nia). nia. }
  assert (2 ^ prec = 2 ^ (prec - 1) * 2) as Hpow by (rewrite Z.mul_comm, <- Z.pow_succ_r by lia; f_equal; lia).
  destruct (decide (m2 = 2 ^ prec)) as [E|Hne].
  - exists (2 ^ (prec - 1)), (t + 1). rewrite E in *. unfold shr_fexp. rewrite Zdigits2_log2, Z.log2_pow2, fexp_normal by lia.
    replace (prec + 1 + (e + t) - prec - (e + t)) with 1 by lia. cbn [shr_record_of_loc].
    destruct (shr_spec (2 ^ prec) false false (e + t) 1) as (r' & s' & -> & _); [lia|lia|]. cbn [shr_m].
    rewrite Hpow, Z.div_mul by lia. split; [|split; [lia|split; [lia|]]].
    + destruct (2 ^ (prec - 1)) eqn:Ep; try lia. rewrite (proj2 (Z.leb_le _ _)) by lia. f_equal. lia.
    + rewrite Z.pow_add_r by lia. replace (2 ^ (prec - 1) * (2 ^ t * 2 ^ 1)) with (2 ^ prec * 2 ^ t) by (rewrite Hpow; ring). done.
  - exists m2, t. assert (2 ^ (prec - 1) <= m2 < 2 ^ prec) as Hr by lia.
    assert (Z.log2 m2 = prec - 1) as Hl by (apply Z.log2_unique; [lia|]; replace (Z.succ (prec - 1)) with prec by lia; lia).
    rewrite shr_fexp_down by lia. cbn [shr_record_of_loc shr_m]. split; [|split; [done|split; [lia|done]]].
    destruct m2 eqn:Ep; try lia. by rewrite (proj2 (Z.leb_le _ _)) by lia.
Qed.

(** An integer with more than [prec] digits. *)
Lemma of_Z_wide n : 2 ^ prec <= n -> Z.log2 n + 2 <= emax ->
  exists p k, binary_normalize prec emax n 0 false = S754_finite false (Z.to_pos p) k /\
    2 ^ (prec - 1) <= p < 2 ^ prec /\ Z.log2 n + 1 - prec <= k <= Z.log2 n + 2 - prec /\
    Z.abs (p * 2 ^ k - n) * 2 ^ (prec - 1) <= n.
Proof using Hprec Hemax.
  intros Hn Hl. assert (0 < 2 ^ prec) by (apply Z.pow_pos_nonneg; lia).
  assert (prec <= Z.log2 n) as Hd by (apply Z.log2_le_pow2; lia).
  destruct (round_aux_wide n 0) as (p & k & E & Hp & Hk & Herr); [lia..|]. exists p, k. split; [|done].
  rewrite Z.add_0_l in E. rewrite <- E. destruct n as [|n|]; try lia. unfold binary_normalize, binary_round.
  rewrite digits2_pos_log2, fexp_normal by lia. unfold shl_align.
  destruct (Z.log2 (Z.pos n) + 1 + 0 - prec - 0) eqn:Ed; [done|done|lia].
Qed.
End division.

(** The sign of a quotient. *)
Lemma binary_round_aux_opp prec emax m e l :
  binary_round_aux prec emax true m e l = SFopp (binary_round_aux prec emax false m e l).
Proof.
  unfold binary_round_aux. destruct (shr_fexp prec emax m e l) as [r e1].
  destruct (shr_fexp _ _ _ _ _) as [r2 e2]. destruct (shr_m r2) as [|p|p]; [done| |done].
  by destruct (e2 <=? emax - prec).
Qed.

Lemma of_Z_neg prec emax p :
  binary_normalize prec emax (Z.neg p) 0 false = SFopp (binary_normalize prec emax (Z.pos p) 0 false).
Proof.
  unfold binary_normalize, binary_round. destruct (shl_align _ _ _) as [mz ez].
  apply binary_round_aux_opp.
Qed.

Lemma trunc_finite x z : trunc x = Some z -> is_finite x = true.
Proof. by destruct x. Qed.

Lemma is_finite_opp x : is_finite (SFopp x) = is_finite x.
Proof. by destruct x. Qed.

(** An integer divided by a positive integer is finite. *)
Lemma div_of_Z_finite prec emax a b : 0 < prec -> 4 * prec < emax ->
  - 2 ^ prec < a < 2 ^ prec -> 0 < b < 2 ^ prec ->
  is_finite (SFdiv prec emax (binary_normalize prec emax a 0 false)
                             (binary_normalize prec emax b 0 false)) = true.
Proof.
  intros Hp He Ha Hb. rewrite (of_Z_spec prec emax Hp ltac:(lia) b Hb).
  assert (0 <= pad prec b <= prec) as Hpad.
  { unfold pad. pose proof (Z.log2_nonneg b). assert (Z.log2 b < prec) by (apply Z.log2_lt_pow2; lia). lia. }
  assert (forall n, 0 < n < 2 ^ prec -> is_finite (SFdiv prec emax (binary_normalize prec emax n 0 false)
    (S754_finite false (Z.to_pos (b * 2 ^ pad prec b)) (- pad prec b))) = true) as Hpos.
  { intros n Hn. eapply trunc_finite. by apply trunc_div. }
  destruct a as [|p|p]; [done|apply Hpos; lia|]. rewrite of_Z_neg, <- is_finite_opp.
  rewrite (of_Z_spec prec emax Hp ltac:(lia) (Z.pos p)) by lia.
  specialize (Hpos (Z.pos p) ltac:(lia)). rewrite (of_Z_spec prec emax Hp ltac:(lia) (Z.pos p)) in Hpos by lia.
  cbn [SFdiv SFopp xorb negb] in *. destruct (SFdiv_core_binary _ _ _ _ _ _) as [[mz ez] lz].
  rewrite binary_round_aux_opp, !is_finite_opp. done.
Qed.

End Float.
