(* ===== verification/Client.v ===== *)
(** * The command-line client: src/client/tcp_client_main.c

    [main] parses the options, connects, sends its request, reads the response
    and copies the samples to a file, a buffer at a time.  The protocol is that of
    Api.v; what [recv], [write] and [fwrite] answer is given, [do_exit] (set by the
    signal handler) is a function of the number of buffers copied. *)
From Stdlib Require Import Ascii.
From S2P Require Import Prelude Float Api.
Import Float Api.
#[local] Open Scope Z_scope.

Module Client.

Definition EXIT_SUCCESS : Z := 0.
Definition EXIT_FAILURE : Z := 1.

(** ** The options *)

(** The variables of [main] that the options set. *)
Record options := MkOptions {
  hostname : string;
  port : Z;
  opt_center_freq : Z;
  opt_band_freq : Z;
  opt_sampling_rate : Z;
}.

Definition default_options : options := MkOptions "127.0.0.1" 8090 0 0 48000.

(** [(uint32_t) x] *)
Definition to_uint32 (x : float) : option Z :=
  z ← trunc x;
  if decide (0 <= z < 2 ^ 32) then Some z else UB.

(** One turn of the [getopt] loop: the options, or the exit status; [as_int] is
    [atoi(optarg)] and [as_double] is [atof(optarg)]. *)
Definition main_option (o : options) (opt : ascii) (optarg : string) (as_int : Z) (as_double : float)
    : option (options + Z) :=
  match opt with
  | "h"%char => Some (inr EXIT_SUCCESS)
  | "k"%char => Some (inl (MkOptions optarg (port o) (opt_center_freq o) (opt_band_freq o) (opt_sampling_rate o)))
  | "b"%char =>
      x ← to_uint32 as_double;
      Some (inl (MkOptions (hostname o) (port o) (opt_center_freq o) x (opt_sampling_rate o)))
  | "s"%char =>
      x ← to_uint32 as_double;
      Some (inl (MkOptions (hostname o) (port o) (opt_center_freq o) (opt_band_freq o) x))
  | "p"%char => Some (inl (MkOptions (hostname o) as_int (opt_center_freq o) (opt_band_freq o) (opt_sampling_rate o)))
  | "f"%char =>
      x ← to_uint32 as_double;
      Some (inl (MkOptions (hostname o) (port o) x (opt_band_freq o) (opt_sampling_rate o)))
  | _ => Some (inr EXIT_FAILURE)
  end.

(** What follows the loop: the options used, or [None] for the usage message. *)
Definition check_options (has_filename : bool) (o : options) : option options :=
  if negb has_filename || (opt_center_freq o =? 0) then None
  else Some (MkOptions (hostname o) (port o) (opt_center_freq o)
               (if opt_band_freq o =? 0 then opt_center_freq o else opt_band_freq o) (opt_sampling_rate o)).

(** ** The connection *)

(** [create_client]: the code, the socket of the client, and the sockets left
    open; [client_socket] is what [socket] returns and [connected] what [connect]
    does. *)
Definition create_client (malloc_ok : bool) (client_socket connected : Z) : Z * option Z * list Z :=
  if negb malloc_ok then (- ENOMEM, None, [])
  else if client_socket =? -1 then (-1, None, [])
  else if negb (connected =? 0) then (-1, None, [client_socket])
  else (0, Some client_socket, [client_socket]).

(** [destroy_client] on the sockets that are open. *)
Definition destroy_client (client : option Z) (sockets : list Z) : list Z :=
  match client with None => sockets | Some s => filter (fun x => x <> s) sockets end.

(** ** The copy *)

(** The loop of [fwrite]: what was written, whether all of it was, and the answers
    that are left. [None] when there are fewer answers than calls. *)
Fixpoint fwrite_loop (left written : list Z) (io : list nat) : option (list Z * bool * list nat) :=
  match left with
  | [] => Some (written, true, io)
  | _ =>
      match io with
      | [] => None
      | n :: io' =>
          let n := Nat.min n (length left) in
          if (n =? 0)%nat then Some (written, false, io')
          else fwrite_loop (drop n left) (written ++ take n left) io'
      end
  end.

(** The end of the program with its exit status, or a program that still waits;
    in both cases with the file written so far. *)
Inductive client_result :=
| Exited (status : Z) (output : list Z)
| Waiting (output : list Z).

Section copy.
Context (do_exit : nat -> bool) (buffer_length : nat).

(** The loop of [main], [turn] buffers having been copied. *)
Fixpoint copy_loop (fuel turn : nat) (output : list Z) (io : list recv_result) (fio : list nat) : client_result :=
  match fuel with
  | O => Waiting output
  | S fuel' =>
      if do_exit turn then Exited EXIT_SUCCESS output
      else
        match read_data buffer_length [] io with
        | ReadBlocked => Waiting output
        | ReadDone code buffer io' =>
            if negb (code =? 0) then Exited EXIT_FAILURE output
            else
              match fwrite_loop buffer [] fio with
              | None => Waiting output
              | Some (written, true, fio') => copy_loop fuel' (S turn) (output ++ written) io' fio'
              | Some (written, false, _) => Exited EXIT_FAILURE (output ++ written)
              end
        end
  end.

(** What the environment decides. *)
Record client_env := MkClientEnv {
  env_malloc : bool;          (* create_client *)
  env_socket : Z;
  env_connect : Z;
  env_request_malloc : bool;  (* write_request *)
  env_header_malloc : bool;   (* read_response *)
  env_response_malloc : bool;
  env_fopen : bool;
  env_buffer_malloc : bool;
}.

(** [main] after the options; the buffer has [buffer_length] bytes (262144). *)
Definition client_main (fuel : nat) (env : client_env) (o : options) (wio : list Z) (io : list recv_result)
    (fio : list nat) : client_result :=
  match create_client (env_malloc env) (env_socket env) (env_connect env) with
  | (code, None, _) => Exited code []
  | (_, Some _, _) =>
      match send_message (env_request_malloc env) PROTOCOL_VERSION TYPE_REQUEST (opt_center_freq o)
              (opt_sampling_rate o) (opt_band_freq o) REQUEST_DESTINATION_SOCKET wio with
      | WriteBlocked => Waiting []
      | WriteDone code _ _ =>
          if negb (code =? 0) then Exited code []
          else
            match read_response (env_header_malloc env) (env_response_malloc env) io with
            | None => Waiting []
            | Some (code, None, _) => Exited code []
            | Some (_, Some (response_header, resp), io') =>
                if negb (type response_header =? TYPE_RESPONSE) then Exited EXIT_FAILURE []
                else if negb (status resp =? RESPONSE_STATUS_SUCCESS) then Exited EXIT_FAILURE []
                else if negb (env_fopen env) then Exited EXIT_FAILURE []
                else if negb (env_buffer_malloc env) then Exited (- ENOMEM) []
                else copy_loop fuel 0 [] io' fio
            end
      end
  end.
End copy.

Definition BUFFER_LENGTH : nat := Z.to_nat 262144.

(** An environment in which everything succeeds. *)
Definition good_env (env : client_env) : Prop :=
  env_malloc env = true /\ env_socket env <> -1 /\ env_connect env = 0 /\ env_request_malloc env = true /\
  env_header_malloc env = true /\ env_response_malloc env = true /\ env_fopen env = true /\ env_buffer_malloc env = true.

(** The whole buffers of a stream. *)
Definition whole_buffers (buffer_length : nat) (stream : list Z) : list Z :=
  take (buffer_length * (length stream / buffer_length)) stream.

(** The server leaves the connection open, or closes it. *)
Definition stream_end (closed : bool) : list recv_result := if closed then [RecvData []] else [].

(** ** Lemmas *)

Lemma read_response_app malloc_header malloc_response io tail code r rest :
  read_response malloc_header malloc_response io = Some (code, r, rest) ->
  read_response malloc_header malloc_response (io ++ tail) = Some (code, r, rest ++ tail).
Proof.
  unfold read_response, read_data. destruct malloc_header; cbn [negb]; [|by intros [= <- <- <-]].
  destruct (read_struct sizeof_header [] io) as [c1 b1 io1|] eqn:E1; [|done]. rewrite (read_struct_app _ tail _ _ _ _ _ E1).
  destruct (negb (c1 =? 0)); [by intros [= <- <- <-]|]. destruct malloc_response; cbn [negb]; [|by intros [= <- <- <-]].
  destruct (read_struct sizeof_response [] io1) as [c2 b2 io2|] eqn:E2; [|done]. rewrite (read_struct_app _ tail _ _ _ _ _ E2).
  destruct (negb (c2 =? 0)); by intros [= <- <- <-].
Qed.

Lemma fwrite_loop_total io : forall left written, Forall (fun n => 0 < n)%nat io -> (length left <= length io)%nat ->
  exists io', fwrite_loop left written io = Some (written ++ left, true, io') /\
    Forall (fun n => 0 < n)%nat io' /\ (length io <= length io' + length left)%nat.
Proof.
  induction io as [|n io IH]; intros left written Hio Hl; (destruct left as [|b left]; [|cbn in Hl]).
  - exists []. by rewrite app_nil_r.
  - lia.
  - exists (n :: io). rewrite app_nil_r. split; [done|]. split; [done|]. cbn. lia.
  - apply Forall_cons in Hio as [Hn Hio]. cbn [fwrite_loop]. set (k := Nat.min n (length (b :: left))).
    assert (1 <= k <= S (length left))%nat as Hk by (subst k; cbn [length]; lia).
    rewrite (proj2 (Nat.eqb_neq k 0)) by lia.
    destruct (IH (drop k (b :: left)) (written ++ take k (b :: left)) Hio) as (io' & -> & Hio' & Hl').
    + rewrite length_drop. cbn [length]. lia.
    + exists io'. rewrite <- app_assoc, take_drop. split; [done|]. split; [done|].
      rewrite length_drop in Hl'. cbn [length] in *. lia.
Qed.

Lemma whole_buffers_none N stream : (length stream < N)%nat -> whole_buffers N stream = [].
Proof. intros H. unfold whole_buffers. by rewrite Nat.div_small, Nat.mul_0_r. Qed.

Lemma whole_buffers_some N stream : (0 < N <= length stream)%nat ->
  whole_buffers N stream = take N stream ++ whole_buffers N (drop N stream).
Proof.
  intros H. unfold whole_buffers. rewrite length_drop.
  replace (length stream) with ((length stream - N) + 1 * N)%nat at 1 by lia. rewrite Nat.div_add by lia.
  set (k := ((length stream - N) / N)%nat). replace (N * (k + 1))%nat with (N + N * k)%nat by lia.
  rewrite firstn_skipn_comm. rewrite <- (take_drop N (take (N + N * k) stream)) at 1.
  by rewrite take_take, Nat.min_l by lia.
Qed.

Lemma copy_loop_stream (do_exit : nat -> bool) N closed : (0 < N)%nat -> (forall turn, do_exit turn = false) ->
  forall fuel turn output io fio, quiet io -> Forall (fun n => 0 < n)%nat fio -> (length (delivered io) <= length fio)%nat ->
  (length (delivered io) < fuel)%nat ->
  let copied := output ++ whole_buffers N (delivered io) in
  copy_loop do_exit N fuel turn output (io ++ stream_end closed) fio =
    (if closed then Exited EXIT_FAILURE copied else Waiting copied).
Proof.
  intros HN Hexit fuel. induction fuel as [|fuel IH]; intros turn output io fio Hq Hf Hl Hfuel; [lia|].
  cbn [copy_loop]. rewrite Hexit. unfold read_data. destruct (Nat.le_gt_cases N (length (delivered io))) as [Hge|Hlt].
  - destruct (read_struct_quiet io N [] Hq Hge) as (rest & Hr & Hqr & Hdr).
    rewrite (read_struct_app _ (stream_end closed) _ _ _ _ _ Hr). cbn [Z.eqb negb].
    destruct (fwrite_loop_total fio (take N (delivered io)) [] Hf) as (fio' & Hw & Hf' & Hl').
    { rewrite length_take. lia. }
    cbn [app] in Hw |- *. rewrite Hw. rewrite IH; [|done|done| |]; rewrite Hdr, ?length_drop; [| |lia].
    + rewrite (whole_buffers_some N (delivered io)) by lia. by rewrite app_assoc.
    + rewrite length_take in Hl'. lia.
  - rewrite whole_buffers_none by done. rewrite app_nil_r. destruct closed; cbn [stream_end].
    + by rewrite (read_struct_failure io (RecvData []) [] (-1)).
    + by rewrite app_nil_r, read_struct_blocked.
Qed.

(** The answer of the server and the stream behind it. *)
Lemma response_then_stream r closed sent wrest wio id io : is_unsigned 32 id ->
  write_message true RESPONSE_STATUS_SUCCESS id wio = Some (WriteDone 0 sent wrest) ->
  quiet io -> delivered io = sent ++ r ->
  exists io2, read_response true true (io ++ stream_end closed) =
      Some (0, Some (MessageHeader PROTOCOL_VERSION TYPE_RESPONSE, Response RESPONSE_STATUS_SUCCESS id), io2 ++ stream_end closed) /\
    quiet io2 /\ delivered io2 = r.
Proof.
  intros Hid Hw Hq Hd.
  destruct (response_received RESPONSE_STATUS_SUCCESS id wio sent wrest io Hid Hw Hq) as (io2 & Hr & Hq2 & Hd2).
  { exists r. done. }
  exists io2. split; [by apply read_response_app|]. split; [done|].
  unfold write_message in Hw. injection Hw as Hw. apply write_loop_success in Hw as ->.
  rewrite Hd2, Hd. done.
Qed.

Lemma client_copies do_exit buffer_length fuel env o wio wio' sent request_rest response response_rest id closed io fio stream
    (buffer : (0 < buffer_length)%nat) (no_signal : forall turn, do_exit turn = false) (good : good_env env)
    (requested : send_message true PROTOCOL_VERSION TYPE_REQUEST (opt_center_freq o) (opt_sampling_rate o) (opt_band_freq o)
                   REQUEST_DESTINATION_SOCKET wio = WriteDone 0 sent request_rest)
    (answer : is_unsigned 32 id)
    (answered : write_message true RESPONSE_STATUS_SUCCESS id wio' = Some (WriteDone 0 response response_rest))
    (undisturbed : quiet io) (arrived : delivered io = response ++ stream)
    (writable : Forall (fun n => 0 < n)%nat fio) (writes : (length stream <= length fio)%nat) (enough : (length stream < fuel)%nat) :
  client_main do_exit buffer_length fuel env o wio (io ++ stream_end closed) fio =
    (if closed then Exited EXIT_FAILURE (whole_buffers buffer_length stream) else Waiting (whole_buffers buffer_length stream)).
Proof.
  destruct good as (H1 & H2 & H3 & H4 & H5 & H6 & H7 & H8). unfold client_main, create_client.
  rewrite H1, H3, H4, H5, H6, H7, H8, (proj2 (Z.eqb_neq _ _)) by done. cbn [negb Z.eqb]. rewrite requested. cbn [Z.eqb negb].
  destruct (response_then_stream stream closed response response_rest wio' id io answer answered undisturbed arrived)
    as (io2 & -> & Hq2 & Hd2). cbn [type status].
  change (negb (TYPE_RESPONSE =? TYPE_RESPONSE)) with false. cbv iota.
  change (negb (RESPONSE_STATUS_SUCCESS =? RESPONSE_STATUS_SUCCESS)) with false. cbv iota.
  rewrite copy_loop_stream; rewrite ?Hd2; done.
Qed.

(** ** Properties *)

(** C39. Once its request is sent and the server has answered with success, the
    client saves the stream: however the network cuts the bytes and the file system
    splits the writes, the file holds the whole buffers of the stream, in order.
    It waits for more, or fails when the server has closed the connection; what
    does not fill a buffer is not written. *)
Theorem client_saves_stream do_exit buffer_length fuel env o wio wio' sent request_rest response response_rest id closed io fio stream
    (buffer : (0 < buffer_length)%nat) (no_signal : forall turn, do_exit turn = false) (good : good_env env)
    (requested : send_message true PROTOCOL_VERSION TYPE_REQUEST (opt_center_freq o) (opt_sampling_rate o) (opt_band_freq o)
                   REQUEST_DESTINATION_SOCKET wio = WriteDone 0 sent request_rest)
    (answer : is_unsigned 32 id)
    (answered : write_message true RESPONSE_STATUS_SUCCESS id wio' = Some (WriteDone 0 response response_rest))
    (undisturbed : quiet io) (arrived : delivered io = response ++ stream)
    (writable : Forall (fun n => 0 < n)%nat fio) (writes : (length stream <= length fio)%nat) (enough : (length stream < fuel)%nat) :
  client_main do_exit buffer_length fuel env o wio (io ++ stream_end closed) fio =
    (if closed then Exited EXIT_FAILURE (whole_buffers buffer_length stream) else Waiting (whole_buffers buffer_length stream)).
Proof. by eapply client_copies. Qed.

(** Seven bytes of a stream, with buffers of three. *)
Lemma client_saves_stream_witness :
  client_main (fun _ => false) 3 10 (MkClientEnv true 5 0 true true true true true)
    (MkOptions "127.0.0.1" 8090 436700000 436600000 48000) [15]
    ([RecvData [0; 2; 0; 0]; RecvError EINTR; RecvData [0; 0; 1; 11; 12]; RecvData [13; 14; 15; 16; 17]] ++ [RecvData []])
    (replicate 7 2%nat) = Exited EXIT_FAILURE [11; 12; 13; 14; 15; 16].
Proof.
  assert (write_message true RESPONSE_STATUS_SUCCESS 1 [7] = Some (WriteDone 0 [0; 2; 0; 0; 0; 0; 1] [])) as Ha by by vm_compute.
  refine (client_saves_stream (fun _ => false) 3 10 (MkClientEnv true 5 0 true true true true true)
    (MkOptions "127.0.0.1" 8090 436700000 436600000 48000) [15] [7] _ [] _ _ 1 true
    [RecvData [0; 2; 0; 0]; RecvError EINTR; RecvData [0; 0; 1; 11; 12]; RecvData [13; 14; 15; 16; 17]]
    (replicate 7 2%nat) [11; 12; 13; 14; 15; 16; 17] _ _ _ _ _ Ha _ _ _ _ _).
  - lia.
  - done.
  - done.
  - vm_compute. reflexivity.
  - done.
  - by repeat constructor.
  - reflexivity.
  - repeat constructor; lia.
  - cbn. lia.
  - cbn. lia.
Defined.

End Client.
