(* ===== verification/FloatBounds.v ===== *)
(** * Bounds on rounded [float] operations

    [bounded B x]: the magnitude of [x] is at most [B] units of the least
    positive [float], 2^-149.  The rounding of a product or of a sum adds at
    most one part in 2^24 and half a unit, so that bounds can be propagated
    through the code by evaluating integers. *)
From S2P Require Import Prelude Float.
From Stdlib Require Import SpecFloat.
Import Float.
#[local] Open Scope Z_scope.

Module FloatBounds.

(** The unit is 2^-149, the exponent of the subnormal numbers. *)
Definition bounded (B : Z) (x : float) : Prop :=
  match x with
  | S754_zero _ => 0 <= B
  | S754_finite _ m e => -149 <= e /\ Z.pos m * 2 ^ (e + 149) <= B
  | _ => False
  end.

(** The conditions of the lemmas below, to be decided by computation. *)
Definition mul_check (A B C : Z) : bool :=
  (0 <=? C) && (C <? 2 ^ 250) && (2 * (A * B) + A * B / 2 ^ 23 + 2 ^ 149 <? 2 * (C + 1) * 2 ^ 149).

Definition add_check (A B C : Z) : bool :=
  (0 <=? A) && (0 <=? B) && (0 <=? C) && (C <? 2 ^ 250) && (2 * (A + B) + (A + B) / 2 ^ 23 + 1 <? 2 * (C + 1)).

(** ** Rounding *)

Lemma fexp_ge x : -149 <= fexp 24 128 x.
Proof. unfold fexp, emin. lia. Qed.

(** A shift of a mantissa to the exponent of the format. *)
Lemma shr_fexp_spec m e l : 0 <= m ->
  exists m' r s n, shr_fexp 24 128 m e l = (Build_shr_record m' r s, e + n) /\ 0 <= n /\
    n = Z.max 0 (fexp 24 128 (Zdigits2 m + e) - e) /\ m' = m / 2 ^ n /\
    (l = loc_Exact -> r = true -> 2 ^ n <= 2 * (m `mod` 2 ^ n)).
Proof.
  intros Hm. unfold shr_fexp. set (d := fexp 24 128 (Zdigits2 m + e) - e).
  destruct (Z.le_gt_cases d 0) as [Hd|Hd].
  - assert (forall mrs, shr mrs e d = (mrs, e)) as -> by (intros mrs; unfold shr; destruct d; done || lia).
    rewrite record_of_loc. exists m, (shr_r (shr_record_of_loc 0 l)), (shr_s (shr_record_of_loc 0 l)), 0.
    rewrite Z.add_0_r, Z.div_1_r. split; [done|]. split; [done|]. split; [lia|]. split; [done|]. by intros ->.
  - rewrite record_of_loc.
    destruct (shr_spec m (shr_r (shr_record_of_loc 0 l)) (shr_s (shr_record_of_loc 0 l)) e d) as (r & s & E & Hr & _); [done|lia|].
    exists (m / 2 ^ d), r, s, d. split; [done|]. split; [lia|]. split; [lia|]. split; [done|].
    intros -> Ht. destruct (Hr Ht) as [[? _]|?]; [lia|done].
Qed.

(** What one rounding adds: half a unit in the last place, which is at most one
    part in 2^23 or the smallest number; [F] makes all of this an integer. *)
Lemma ulp_bound m e n F : 0 < m -> 149 <= F -> - F <= e ->
  n = Z.max 0 (fexp 24 128 (Zdigits2 m + e) - e) -> n <> 0 ->
  2 ^ n * 2 ^ (e + F) <= m * 2 ^ (e + F) / 2 ^ 23 + 2 ^ (F - 149).
Proof.
  intros Hm HF He En Hn. assert (0 < 2 ^ (e + F)) by (apply Z.pow_pos_nonneg; lia).
  assert (0 <= m * 2 ^ (e + F) / 2 ^ 23) by (apply Z.div_pos; nia).
  assert (0 < 2 ^ (F - 149)) by (apply Z.pow_pos_nonneg; lia).
  rewrite Zdigits2_log2 in En by lia. unfold fexp, emin in En. rewrite <- Z.pow_add_r by lia.
  destruct (Z.le_gt_cases (-149) (Z.log2 m + 1 + e - 24)) as [Hc|Hc].
  - assert (2 ^ (n + (e + F)) <= m * 2 ^ (e + F) / 2 ^ 23); [|lia].
    apply Z.div_le_lower_bound; [lia|]. rewrite <- Z.pow_add_r by lia.
    replace (23 + (n + (e + F))) with (Z.log2 m + (e + F)) by lia. rewrite Z.pow_add_r by (lia || apply Z.log2_nonneg).
    pose proof (Z.log2_spec m Hm) as [Hl _]. nia.
  - assert (n + (e + F) = F - 149) as -> by lia. lia.
Qed.

(** The mantissa after the first shift and the rounding. *)
Lemma rounded_mantissa m n m1 m2 r s : 0 < m -> 0 <= n -> m1 = m / 2 ^ n ->
  (r = true -> 2 ^ n <= 2 * (m `mod` 2 ^ n)) -> m2 = round_nearest_even m1 (loc_of_shr_record (Build_shr_record m1 r s)) ->
  0 <= m2 /\ 2 * (m2 * 2 ^ n) <= 2 * m + (if decide (n = 0) then 0 else 2 ^ n).
Proof.
  intros Hm Hn Em1 Hr Em2. pose proof (round_cases m1 r s) as Hcases. rewrite <- Em2 in Hcases.
  assert (0 < 2 ^ n) as H2n by (apply Z.pow_pos_nonneg; lia).
  assert (0 <= m1) as Hm1 by (subst m1; apply Z.div_pos; lia).
  pose proof (Z.div_mod m (2 ^ n) ltac:(lia)) as Ed. rewrite <- Em1 in Ed. pose proof (Z.mod_pos_bound m (2 ^ n) H2n).
  destruct Hcases as [E|[E1 E2]].
  - rewrite E. split; [done|]. destruct (decide (n = 0)); nia.
  - rewrite E2. specialize (Hr E1). split; [lia|]. destruct (decide (n = 0)) as [->|]; [|nia].
    change (2 ^ 0) with 1 in *. rewrite Z.mod_1_r in Hr. lia.
Qed.

(** The value of a rounded positive number, against the exact value [m * 2^e];
    [F] makes the exact value an integer. *)
Lemma round_value s m e F B : 0 < m -> 149 <= F -> - F <= e -> 0 <= B < 2 ^ 250 ->
  let X := m * 2 ^ (e + F) in let P := 2 ^ (F - 149) in
  2 * X + X / 2 ^ 23 + P < 2 * (B + 1) * P ->
  bounded B (binary_round_aux 24 128 s m e loc_Exact).
Proof.
  intros Hm HF He HB X P Hle. unfold binary_round_aux.
  destruct (shr_fexp_spec m e loc_Exact) as (m1 & r & s1 & n & -> & Hn & En & Em1 & Hr); [lia|]. cbn [shr_m].
  remember (round_nearest_even m1 (loc_of_shr_record (Build_shr_record m1 r s1))) as m2 eqn:Em2.
  destruct (rounded_mantissa m n m1 m2 r s1 Hm Hn Em1 (Hr eq_refl) Em2) as [Hm2 Hval]. clear Em2.
  assert (0 < 2 ^ n) as H2n by (apply Z.pow_pos_nonneg; lia).
  destruct (shr_fexp_spec m2 (e + n) loc_Exact Hm2) as (m3 & r3 & s3 & n3 & -> & Hn3 & En3 & Em3 & _). cbn [shr_m].
  assert (0 < 2 ^ n3) as H2n3 by (apply Z.pow_pos_nonneg; lia).
  assert (m3 * 2 ^ n3 <= m2) as Hm3.
  { subst m3. pose proof (Z.div_mod m2 (2 ^ n3) ltac:(lia)). pose proof (Z.mod_pos_bound m2 (2 ^ n3) H2n3). lia. }
  assert (-149 <= e + n) as Hen by (pose proof (fexp_ge (Zdigits2 m + e)); lia).
  destruct m3 as [|p|p] eqn:Ep; [cbn; lia| |exfalso; assert (0 <= m2 / 2 ^ n3) by (apply Z.div_pos; lia); lia].
  assert (Z.pos p * 2 ^ (e + n + n3 + 149) <= B) as HR.
  { assert (0 < 2 ^ (e + F)) by (apply Z.pow_pos_nonneg; lia). assert (0 < P) by (apply Z.pow_pos_nonneg; lia).
    assert ((if decide (n = 0) then 0 else 2 ^ n) * 2 ^ (e + F) <= X / 2 ^ 23 + P) as Hulp.
    { destruct (decide (n = 0)); [|by apply ulp_bound]. assert (0 <= X / 2 ^ 23) by (apply Z.div_pos; [unfold X; nia|lia]). lia. }
    assert (2 * (Z.pos p * 2 ^ n3 * 2 ^ n) <= 2 * m + (if decide (n = 0) then 0 else 2 ^ n)) as Hq by nia.
    apply (Z.mul_le_mono_nonneg_r _ _ (2 ^ (e + F))) in Hq; [|lia].
    assert (Z.pos p * 2 ^ n3 * 2 ^ n * 2 ^ (e + F) = Z.pos p * 2 ^ (e + n + n3 + 149) * P) as Hs.
    { unfold P. rewrite <- !Z.mul_assoc, <- !Z.pow_add_r by lia. do 2 f_equal. lia. }
    assert (2 * (Z.pos p * 2 ^ (e + n + n3 + 149) * P) <= 2 * X + X / 2 ^ 23 + P); [|nia].
    unfold X at 1. lia. }
  assert (e + n + n3 <= 104) as Hmax.
  { destruct (Z.le_gt_cases (e + n + n3) 104) as [?|Hgt]; [done|].
    assert (2 ^ 250 <= 2 ^ (e + n + n3 + 149)) by (apply Z.pow_le_mono_r; lia). nia. }
  rewrite (proj2 (Z.leb_le _ _)) by lia. cbn. split; [lia|exact HR].
Qed.

(** ** Operations *)

Lemma mul_bounded A B C x y : bounded A x -> bounded B y -> 0 <= C < 2 ^ 250 ->
  2 * (A * B) + A * B / 2 ^ 23 + 2 ^ 149 < 2 * (C + 1) * 2 ^ 149 ->
  bounded C (f32_mul x y).
Proof.
  intros Hx Hy HC Hle. unfold f32_mul. destruct x as [sx|sx| |sx mx ex], y as [sy|sy| |sy my ey]; cbn in Hx, Hy; try done;
    cbn [SFmul]; try (cbn; lia).
  destruct Hx as [Hex Hx], Hy as [Hey Hy].
  apply (round_value _ _ _ 298); [lia|lia|lia|done|].
  assert (Z.pos (mx * my) * 2 ^ (ex + ey + 298) <= A * B) as HX.
  { replace (ex + ey + 298) with ((ex + 149) + (ey + 149)) by lia. rewrite Z.pow_add_r by lia.
    rewrite Pos2Z.inj_mul. assert (0 < 2 ^ (ex + 149)) by (apply Z.pow_pos_nonneg; lia).
    assert (0 < 2 ^ (ey + 149)) by (apply Z.pow_pos_nonneg; lia). nia. }
  set (X := Z.pos (mx * my) * 2 ^ (ex + ey + 298)) in *.
  assert (X / 2 ^ 23 <= A * B / 2 ^ 23) by (apply Z.div_le_mono; lia).
  change (298 - 149) with 149. lia.
Qed.

(** A left shift keeps the value. *)
Lemma shl_align_value m e e' : -149 <= e -> -149 <= e' ->
  -149 <= snd (shl_align m e e') /\
  Z.pos (fst (shl_align m e e')) * 2 ^ (snd (shl_align m e e') + 149) = Z.pos m * 2 ^ (e + 149).
Proof.
  intros He He'. unfold shl_align. destruct (e' - e) as [|d|d] eqn:E; cbn [fst snd]; [done|done|].
  split; [done|]. rewrite pos_iter_xO. rewrite <- Z.mul_assoc, <- Z.pow_add_r by lia. do 2 f_equal. lia.
Qed.

Lemma shl_align_exact m e e' : e' <= e -> snd (shl_align m e e') = e'.
Proof. intros H. unfold shl_align. destruct (e' - e) eqn:E; cbn [snd]; lia. Qed.

Lemma binary_normalize_bounded z e B C : -149 <= e -> Z.abs z * 2 ^ (e + 149) <= B -> 0 <= C < 2 ^ 250 ->
  2 * B + B / 2 ^ 23 + 1 < 2 * (C + 1) ->
  bounded C (binary_normalize 24 128 z e false).
Proof.
  intros He Hz HC Hle.
  assert (forall s p, Z.pos p * 2 ^ (e + 149) <= B -> bounded C (binary_round 24 128 s p e)) as Hround.
  { intros s p Hp. unfold binary_round.
    destruct (shl_align_value p e (fexp 24 128 (Z.pos (digits2_pos p) + e)) He (fexp_ge _)) as [Hez Hv].
    destruct (shl_align p e _) as [mz ez]. cbn [fst snd] in *.
    apply (round_value _ _ _ 149); [lia|lia|done|done|]. rewrite Hv. change (2 ^ (149 - 149)) with 1.
    assert (Z.pos p * 2 ^ (e + 149) / 2 ^ 23 <= B / 2 ^ 23) by (apply Z.div_le_mono; lia). lia. }
  destruct z as [|p|p]; cbn [binary_normalize]; [cbn; lia|by apply Hround..].
Qed.

Lemma aligned_value m e e' : -149 <= e' -> e' <= e ->
  Z.pos (fst (shl_align m e e')) * 2 ^ (e' + 149) = Z.pos m * 2 ^ (e + 149).
Proof.
  intros H1 H2. destruct (shl_align_value m e e') as [_ E]; [lia|lia|]. by rewrite shl_align_exact in E.
Qed.

Lemma add_bounded A B C x y : bounded A x -> bounded B y -> 0 <= A -> 0 <= B -> 0 <= C < 2 ^ 250 ->
  2 * (A + B) + (A + B) / 2 ^ 23 + 1 < 2 * (C + 1) ->
  bounded C (f32_add x y) /\ bounded C (f32_sub x y).
Proof.
  intros Hx Hy HA HB HC Hle. assert (0 <= (A + B) / 2 ^ 23) by (apply Z.div_pos; lia).
  unfold f32_add, f32_sub.
  destruct x as [sx|sx| |sx mx ex], y as [sy|sy| |sy my ey]; cbn in Hx, Hy; try done; cbn [SFadd SFsub].
  - destruct sx, sy; cbn; lia.
  - cbn. lia.
  - cbn. lia.
  - destruct Hx as [Hex Hx], Hy as [Hey Hy]. set (ez := Z.min ex ey).
    assert (-149 <= ez /\ ez <= ex /\ ez <= ey) as (Hez & Hz1 & Hz2) by lia.
    pose proof (aligned_value mx ex ez Hez Hz1) as E1. pose proof (aligned_value my ey ez Hez Hz2) as E2.
    assert (0 < 2 ^ (ez + 149)) by (apply Z.pow_pos_nonneg; lia).
    split; (apply (binary_normalize_bounded _ _ (A + B)); [done| |done|done]);
      destruct sx, sy; cbn [cond_Zopp]; nia.
Qed.

(** An integer of at most 24 bits is exact. *)
Lemma of_Z_bounded z N : Z.abs z <= N -> N < 2 ^ 24 -> bounded (N * 2 ^ 149) (f32_of_Z z).
Proof.
  intros Hz HN. unfold f32_of_Z.
  assert (forall p, Z.pos p <= N -> bounded (N * 2 ^ 149) (binary_normalize 24 128 (Z.pos p) 0 false)) as Hpos.
  { intros p Hp. rewrite (of_Z_spec 24 128 ltac:(lia) ltac:(lia)) by lia.
    assert (0 <= pad 24 (Z.pos p) <= 24) as Hpad.
    { unfold pad. pose proof (Z.log2_nonneg (Z.pos p)).
      assert (Z.log2 (Z.pos p) < 24) by (apply Z.log2_lt_pow2; lia). lia. }
    cbn [bounded]. split; [lia|]. rewrite Z2Pos.id.
    2:{ assert (0 < 2 ^ pad 24 (Z.pos p)) by (apply Z.pow_pos_nonneg; lia). nia. }
    rewrite <- Z.mul_assoc, <- Z.pow_add_r by lia. replace (pad 24 (Z.pos p) + (- pad 24 (Z.pos p) + 149)) with 149 by lia.
    nia. }
  destruct z as [|p|p]; [cbn; lia|by apply Hpos|]. rewrite of_Z_neg.
  specialize (Hpos p ltac:(lia)). by destruct (binary_normalize 24 128 (Z.pos p) 0 false).
Qed.

(** The integer part of a bounded number. *)
Lemma trunc_bounded N x : 0 <= N -> bounded (N * 2 ^ 149) x -> exists z, trunc x = Some z /\ Z.abs z <= N.
Proof.
  intros HN Hx. destruct x as [s|s| |s m e]; cbn in Hx; try done; [by exists 0|].
  destruct Hx as [He Hx]. cbn [trunc]. eexists; split; [done|].
  assert (0 <= (if 0 <=? e then Z.pos m * 2 ^ e else Z.pos m / 2 ^ (- e)) <= N) as Hq.
  { destruct (0 <=? e) eqn:E.
    - apply Z.leb_le in E. rewrite Z.pow_add_r in Hx by lia. assert (0 < 2 ^ e) by (apply Z.pow_pos_nonneg; lia).
      assert (0 < 2 ^ 149) by done. nia.
    - apply Z.leb_gt in E. assert (0 < 2 ^ (- e)) as H2e by (apply Z.pow_pos_nonneg; lia). split; [apply Z.div_pos; lia|].
      apply Z.div_le_upper_bound; [done|].
      assert (2 ^ 149 = 2 ^ (- e) * 2 ^ (e + 149)) as E2 by (rewrite <- Z.pow_add_r by lia; f_equal; lia).
      rewrite E2 in Hx. assert (0 < 2 ^ (e + 149)) by (apply Z.pow_pos_nonneg; lia). nia. }
  destruct s; lia.
Qed.

Lemma to_int_bounded w N x : 0 <= N < 2 ^ (w - 1) -> bounded (N * 2 ^ 149) x -> exists z, to_int w x = Some z /\ Z.abs z <= N.
Proof.
  intros HN Hx. destruct (trunc_bounded N x ltac:(lia) Hx) as (z & Hz & Hb). exists z. split; [|done].
  unfold to_int. rewrite Hz. cbn [mbind option_bind]. by rewrite decide_True by lia.
Qed.

(** The same with the conditions on the bounds decided by computation. *)
Lemma mul_bounded_check A B C x y : bounded A x -> bounded B y -> mul_check A B C = true -> bounded C (f32_mul x y).
Proof.
  intros Hx Hy Hc. unfold mul_check in Hc. apply andb_prop in Hc as [[H1%Z.leb_le H2%Z.ltb_lt]%andb_prop H3%Z.ltb_lt].
  by apply (mul_bounded A B).
Qed.

Lemma add_bounded_check A B C x y : bounded A x -> bounded B y -> add_check A B C = true ->
  bounded C (f32_add x y) /\ bounded C (f32_sub x y).
Proof.
  intros Hx Hy Hc. unfold add_check in Hc. rewrite !andb_true_iff in Hc.
  destruct Hc as [[[[H1%Z.leb_le H2%Z.leb_le] H3%Z.leb_le] H4%Z.ltb_lt] H5%Z.ltb_lt]. by apply (add_bounded A B).
Qed.

End FloatBounds.
