(* ===== verification/Xlating.v ===== *)
(** * The frequency-translating FIR filter: src/xlating.c

    Both sample formats are modelled: the [float complex] path ([cf32]) with
    IEEE arithmetic and the fixed-point path ([cs16]) with C integers.  A
    buffer is a list; the working buffers also have an address, because the
    inner loops start from an aligned address below the one they want and
    use the set of taps shifted by the difference. *)
From S2P Require Import Prelude Float.
Import Float.

Module Xlating.

(** [struct xlating_t].  [addr_cf32] and [addr_cs16] are the addresses of the
    two working buffers.  The cs16 buffers hold two cells per sample. *)
Record xlating := MkXlating {
  decimation : nat;
  taps_cf32 : list (list complex);
  alignment_cf32 : Z;
  taps_cs16 : list (list Z);
  alignment_cs16 : Z;
  taps_len : nat;
  addr_cf32 : Z;
  working_buffer_cf32 : list complex;
  addr_cs16 : Z;
  working_buffer_cs16 : list Z;
  history_offset : nat;
  output_cf32 : list complex;
  output_cs16 : list Z;
  phase : complex;
  phase_incr : complex;
  phase_cs16 : Z * Z;
  phase_incr_cs16 : Z * Z;
}.

Definition sizeof_complex : Z := 8.
Definition sizeof_int16 : Z := 2.

(** ** Aligned access *)

(** [buf & ~(alignment - 1)] *)
Definition align_down (buf alignment : Z) : Z := Z.land buf (Z.lnot (alignment - 1)).

(** For a pointer to the cell [index] of an array at [addr] with cells of
    [size] bytes: the index of the aligned cell at or below it and the
    distance [align_index] between the two. *)
Definition align_split (addr size alignment : Z) (index : nat) : option (nat * nat) :=
  let buf := (addr + size * Z.of_nat index)%Z in
  let aligned_buffer := align_down buf alignment in
  _ ← ensure (addr <=? aligned_buffer)%Z;
  Some (Z.to_nat ((aligned_buffer - addr) / size), Z.to_nat ((buf - aligned_buffer) / size)).

(** ** The loop over the output samples

    [process_native_cf32] and [process_native_cs16] have the same outer loop:
    for each [current], from 0 to [max_index] by steps of [decimation], the
    dot product [dot current], then the cells [emit acc ph] stored at
    [output + produced], then the phase advanced.  [fuel] bounds the
    iterations; [max_index + 1] are enough when [decimation] is positive, and
    with a null one the C loop does not end. *)
Section decimate.
Context {Cell Acc Phase : Type}.
Context (dot : nat -> option Acc) (emit : Acc -> Phase -> option (list Cell))
        (advance : Phase -> option Phase).

Fixpoint decimate_loop (fuel dec max_index current produced : nat) (ph : Phase)
    (output : list Cell) : option (nat * nat * Phase * list Cell) :=
  if (current <? max_index)%nat then
    match fuel with
    | O => UB
    | S fuel' =>
        acc ← dot current;
        cells ← emit acc ph;
        output' ← write_at output produced cells;
        ph' ← advance ph;
        decimate_loop fuel' dec max_index (current + dec) (produced + length cells) ph' output'
    end
  else Some (current, produced, ph, output).
End decimate.

(** The number of positions from which a full window of [taps_len] samples can
    be read; [taps_len - 1] is a [size_t] subtraction. *)
Definition max_index_of (working_len taps_len : nat) : option nat :=
  if (wrap 64 (Z.of_nat taps_len - 1) <? Z.of_nat working_len)%Z
  then Some (working_len - (taps_len - 1)) else None.

(** The [memmove] that keeps the samples from [current_index] on for the next
    call ([stride] cells each).  [working_len - current_index] is a [size_t]:
    when the loop ran past the samples it wraps and the copy is wild. *)
Definition preserve_history {A} (stride : nat) (working : list A) (working_len current_index : nat)
    : option (list A * nat) :=
  _ ← ensure (bool_decide (current_index <= working_len));
  let history := (working_len - current_index)%nat in
  if (0 <? current_index)%nat then
    kept ← read_at working (stride * current_index) (stride * history);
    working' ← write_at working 0 kept;
    Some (working', history)
  else Some (working, history).

(** ** [float complex] processing *)
Section cf32.
Context (hypotf : float -> float -> float).

(** The inner loop: [temp += aligned_buffer[i] * taps_cf32[align_index][i]]. *)
Definition dot_cf32 (f : xlating) (current_index : nat) : option complex :=
  si ← align_split (addr_cf32 f) sizeof_complex (alignment_cf32 f) current_index;
  let '(start, align_index) := si in
  taps ← taps_cf32 f !! align_index;
  a ← read_at (working_buffer_cf32 f) start (taps_len f + align_index);
  b ← read_at taps 0 (taps_len f + align_index);
  Some (fold_left (fun temp ab => c_add temp (c_mul (fst ab) (snd ab))) (zip a b) c_zero).

Definition normalize (ph : complex) : complex := c_div_real ph (hypotf (creal ph) (cimag ph)).

(** [process_native_cf32]: the output samples and the new filter. *)
Definition process_native_cf32 (input_len_samples : nat) (f : xlating)
    : option (list complex * xlating) :=
  let working_len := (history_offset f + input_len_samples)%nat in
  r ← match max_index_of working_len (taps_len f) with
      | None => Some (0, 0, phase f, output_cf32 f)
      | Some max_index =>
          r ← decimate_loop (dot_cf32 f) (fun temp ph => Some [c_mul temp ph])
                (fun ph => Some (c_mul ph (phase_incr f)))
                (S max_index) (decimation f) max_index 0 0 (phase f) (output_cf32 f);
          let '(current_index, produced, ph, output) := r in
          Some (current_index, produced, normalize ph, output)
      end;
  let '(current_index, produced, ph, output) := r in
  wh ← preserve_history 1 (working_buffer_cf32 f) working_len current_index;
  Some (take produced output,
        MkXlating (decimation f) (taps_cf32 f) (alignment_cf32 f) (taps_cs16 f) (alignment_cs16 f)
          (taps_len f) (addr_cf32 f) (fst wh) (addr_cs16 f) (working_buffer_cs16 f) (snd wh)
          output (output_cs16 f) ph (phase_incr f) (phase_cs16 f) (phase_incr_cs16 f)).

(** The conversions of the three sample types; [load_cf32] is the loop that
    stores the converted input behind the history. *)
Definition load_cf32 (samples : list complex) (f : xlating) : option xlating :=
  wb ← write_at (working_buffer_cf32 f) (history_offset f) samples;
  Some (MkXlating (decimation f) (taps_cf32 f) (alignment_cf32 f) (taps_cs16 f) (alignment_cs16 f)
          (taps_len f) (addr_cf32 f) wb (addr_cs16 f) (working_buffer_cs16 f) (history_offset f)
          (output_cf32 f) (output_cs16 f) (phase f) (phase_incr f) (phase_cs16 f) (phase_incr_cs16 f)).

(** The I/Q pairs of an interleaved input; an odd last element is dropped
    ([input_len / 2]). *)
Fixpoint pairs {A} (l : list A) : list (A * A) :=
  match l with
  | x :: y :: l' => (x, y) :: pairs l'
  | _ => []
  end.

(** 127.5F, 128.0F and 32768.0F *)
Definition f127_5 : float := f32_of_f64 (f64_div (f64_of_Z 255) (f64_of_Z 2)).
Definition f128 : float := f32_of_Z 128.
Definition f32768 : float := f32_of_Z 32768.

Definition of_cu8 (x : Z) : float := f32_div (f32_sub (f32_of_Z x) f127_5) f128.
Definition of_cs8 (x : Z) : float := f32_div (f32_of_Z x) f128.
Definition of_cs16 (x : Z) : float := f32_div (f32_of_Z x) f32768.

Definition convert_cf32 (conv : Z -> float) (input : list Z) : list complex :=
  map (fun iq => (conv (fst iq), conv (snd iq))) (pairs input).

Definition process_cf32 (conv : Z -> float) (input : list Z) (f : xlating)
    : option (list complex * xlating) :=
  f' ← load_cf32 (convert_cf32 conv input) f;
  process_native_cf32 (length input / 2) f'.

Definition process_native_cu8_cf32 := process_cf32 of_cu8.
Definition process_native_cs8_cf32 := process_cf32 of_cs8.
Definition process_native_cs16_cf32 := process_cf32 of_cs16.

(** Without AVX or NEON at compile time the optimized variants are the native
    ones. *)
Definition process_optimized_cu8_cf32 := process_native_cu8_cf32.
Definition process_optimized_cs8_cf32 := process_native_cs8_cf32.
Definition process_optimized_cs16_cf32 := process_native_cs16_cf32.
End cf32.

(** ** Fixed-point processing *)

Definition INT16_MAX : Z := 32767.
Definition INT16_MIN : Z := -32768.

(** Signed arithmetic that overflows is undefined. *)
Definition chk (w x : Z) : option Z :=
  if decide (- 2 ^ (w - 1) <= x < 2 ^ (w - 1))%Z then Some x else UB.

(** [saturate_to_int16]; its parameter is an [int32_t], so a wider argument is
    converted first. *)
Definition saturate_to_int16 (value : Z) : Z :=
  let value := swrap 32 value in
  let result := if (value >? INT16_MAX)%Z then INT16_MAX else value in
  if (result <? INT16_MIN)%Z then INT16_MIN else result.

(** One step of the inner loop on the [int64_t] accumulators. *)
Definition mac_cs16 (t : Z * Z) (a b : Z * Z) : option (Z * Z) :=
  let '(ar, ai) := a in let '(br, bi) := b in
  re ← chk 32 (ar * br - ai * bi);
  im ← chk 32 (ar * bi + ai * br);
  tr ← chk 64 (fst t + re);
  ti ← chk 64 (snd t + im);
  Some (tr, ti).

Fixpoint mac_cs16_all (t : Z * Z) (l : list ((Z * Z) * (Z * Z))) : option (Z * Z) :=
  match l with
  | [] => Some t
  | (a, b) :: l' => t' ← mac_cs16 t a b; mac_cs16_all t' l'
  end.

Definition dot_cs16 (f : xlating) (current_sample : nat) : option (Z * Z) :=
  si ← align_split (addr_cs16 f) sizeof_int16 (alignment_cs16 f) (2 * current_sample);
  let '(start, align_index) := si in
  taps ← taps_cs16 f !! align_index;
  a ← read_at (working_buffer_cs16 f) start (2 * (taps_len f + align_index));
  b ← read_at taps 0 (2 * (taps_len f + align_index));
  mac_cs16_all (0, 0)%Z (zip (pairs a) (pairs b)).

(** A product of two Q15 numbers: the sums are [int]s. *)
Definition cmul_q15 (x y : Z * Z) : option (Z * Z) :=
  let '(xr, xi) := x in let '(yr, yi) := y in
  re ← chk 32 (xr * yr - xi * yi);
  im ← chk 32 (xr * yi + xi * yr);
  Some (saturate_to_int16 (Z.shiftr re 15), saturate_to_int16 (Z.shiftr im 15)).

Definition emit_cs16 (temp ph : Z * Z) : option (list Z) :=
  let acc := (saturate_to_int16 (Z.shiftr (fst temp) 15), saturate_to_int16 (Z.shiftr (snd temp) 15)) in
  out ← cmul_q15 acc ph;
  Some [fst out; snd out].

(** [process_native_cs16]: [produced] counts cells; the number of samples
    returned is half of it. *)
Definition process_native_cs16 (input_len_samples : nat) (f : xlating)
    : option (list Z * xlating) :=
  let working_len_samples := (history_offset f + input_len_samples)%nat in
  r ← match max_index_of working_len_samples (taps_len f) with
      | None => Some (0, 0, phase_cs16 f, output_cs16 f)
      | Some max_sample_index =>
          decimate_loop (dot_cs16 f) emit_cs16 (fun ph => cmul_q15 ph (phase_incr_cs16 f))
            (S max_sample_index) (decimation f) max_sample_index 0 0 (phase_cs16 f) (output_cs16 f)
      end;
  let '(current_sample, produced, ph, output) := r in
  wh ← preserve_history 2 (working_buffer_cs16 f) working_len_samples current_sample;
  Some (take (2 * (produced / 2)) output,
        MkXlating (decimation f) (taps_cf32 f) (alignment_cf32 f) (taps_cs16 f) (alignment_cs16 f)
          (taps_len f) (addr_cf32 f) (working_buffer_cf32 f) (addr_cs16 f) (fst wh) (snd wh)
          (output_cf32 f) output (phase f) (phase_incr f) ph (phase_incr_cs16 f)).

Definition load_cs16 (cells : list Z) (f : xlating) : option xlating :=
  wb ← write_at (working_buffer_cs16 f) (2 * history_offset f) cells;
  Some (MkXlating (decimation f) (taps_cf32 f) (alignment_cf32 f) (taps_cs16 f) (alignment_cs16 f)
          (taps_len f) (addr_cf32 f) (working_buffer_cf32 f) (addr_cs16 f) wb (history_offset f)
          (output_cf32 f) (output_cs16 f) (phase f) (phase_incr f) (phase_cs16 f) (phase_incr_cs16 f)).

(** The conversions to Q15: the left shifts are [int] operations stored into
    an [int16_t]. *)
Definition q15_of_cu8 (x : Z) : Z := swrap 16 (Z.shiftl (x - 128) 8).
Definition q15_of_cs8 (x : Z) : Z := swrap 16 (Z.shiftl x 8).
Definition q15_of_cs16 (x : Z) : Z := x.

Definition process_cs16 (conv : Z -> Z) (input : list Z) (f : xlating)
    : option (list Z * xlating) :=
  f' ← load_cs16 (map conv input) f;
  process_native_cs16 (length input / 2) f'.

Definition process_native_cu8_cs16 := process_cs16 q15_of_cu8.
Definition process_native_cs8_cs16 := process_cs16 q15_of_cs8.
Definition process_native_cs16_cs16 := process_cs16 q15_of_cs16.
Definition process_optimized_cu8_cs16 := process_native_cu8_cs16.
Definition process_optimized_cs8_cs16 := process_native_cs8_cs16.
Definition process_optimized_cs16_cs16 := process_native_cs16_cs16.

(** ** Creation *)

(** The loop that reverses the taps in place: iteration [i] exchanges the cells
    [i] and [taps_len - 1 - i], for [i] from 0 to [taps_len / 2] included. *)
Fixpoint reverse_loop {A} (remaining i : nat) (l : list A) : option (list A) :=
  match remaining with
  | O => Some l
  | S remaining' =>
      tmp ← l !! (length l - 1 - i)%nat;
      x ← l !! i;
      reverse_loop remaining' (S i) (<[i := tmp]> (<[(length l - 1 - i)%nat := x]> l))
  end.
Definition reverse_taps {A} (l : list A) : option (list A) := reverse_loop (S (length l / 2)) 0 l.

Section create.
Context (cexpf : complex -> complex).

(** [(float)(2 * M_PI * center_freq / sampling_freq)] *)
Definition angular_freq (center_freq sampling_freq : Z) : float :=
  f32_of_f64 (f64_div (f64_mul (f64_mul (f64_of_Z 2) M_PI) (f64_of_Z center_freq))
                (f64_of_Z sampling_freq)).

(** [cexpf(0 + x * I)] *)
Definition cis (x : float) : complex :=
  cexpf (f32_add f_zero (f32_mul x f_zero), f32_mul x (f32_of_Z 1)).

(** The low-pass taps moved to the centre frequency. *)
Definition bpf_taps (fwT0 : float) (taps : list float) : list complex :=
  imap (fun i tap => c_scale tap (cis (f32_mul (f32_of_Z (Z.of_nat i)) fwT0))) taps.

Definition number_of_aligned_cf32 : nat := 4.
Definition number_of_aligned_cs16 : nat := 2.

(** The [i]-th set of taps: zeros, with the taps from the offset [i] on. *)
Definition aligned_taps_cf32 (bpfTaps : list complex) (i : nat) : option (list complex) :=
  write_at (replicate (length bpfTaps + number_of_aligned_cf32 - 1) c_zero) i bpfTaps.

Definition q15_of_tap (c : complex) : option (list Z) :=
  re ← to_int 16 (f32_mul (creal c) f32768);
  im ← to_int 16 (f32_mul (cimag c) f32768);
  Some [re; im].

Definition aligned_taps_cs16 (bpfTaps : list complex) (i : nat) : option (list Z) :=
  cells ← mapM q15_of_tap bpfTaps;
  write_at (replicate (2 * (length bpfTaps + number_of_aligned_cs16 - 1)) 0%Z) i (concat cells).

(** [create_aligned_taps]; its calls of [malloc] are the ones numbered 2 and 3
    of the creation, checked, and the six [aligned_alloc]s 4 to 9, whose
    results it uses unchecked. *)
Definition create_aligned_taps (malloc_ok : nat -> bool) (bpfTaps : list complex)
    : option (Z * list (list complex) * list (list Z)) :=
  if negb (malloc_ok 2) || negb (malloc_ok 3) then Some ((-1)%Z, [], [])
  else
    _ ← ensure (forallb malloc_ok (seq 4 6));
    t32 ← mapM (aligned_taps_cf32 bpfTaps) (seq 0 number_of_aligned_cf32);
    t16 ← mapM (aligned_taps_cs16 bpfTaps) (seq 0 number_of_aligned_cs16);
    Some (0%Z, t32, t16).

(** [create_frequency_xlating_filter]: the code and the filter.  [malloc_ok k]
    tells whether the [k]-th allocation of the call succeeds, [addr32] and
    [addr16] are where the working buffers are allocated, and [garbage32],
    [garbage16] what the two output buffers contain. *)
Definition create_frequency_xlating_filter (malloc_ok : nat -> bool) (addr32 addr16 : Z)
    (garbage32 : list complex) (garbage16 : list Z)
    (decimation : nat) (taps : list float) (center_freq sampling_freq : Z)
    (max_input_buffer_length : nat) : option (Z * option xlating) :=
  if (length taps =? 0)%nat then Some ((-1)%Z, None)
  else if negb (malloc_ok 0) then Some ((- ENOMEM)%Z, None)
  else if negb (malloc_ok 1) then Some ((- ENOMEM)%Z, None)
  else
    let fwT0 := angular_freq center_freq sampling_freq in
    bpfTaps ← reverse_taps (bpf_taps fwT0 taps);
    ct ← create_aligned_taps malloc_ok bpfTaps;
    let '(code, t32, t16) := ct in
    if negb (code =? 0)%Z then Some (code, None)
    else
      let incr := cis (f32_mul (f_neg fwT0) (f32_of_Z (Z.of_nat decimation))) in
      incr_re ← to_int 16 (f32_mul (creal incr) (f32_of_Z INT16_MAX));
      incr_im ← to_int 16 (f32_mul (cimag incr) (f32_of_Z INT16_MAX));
      let history := (length taps - 1)%nat in
      let working_len := (max_input_buffer_length / 2 + history)%nat in
      if negb (malloc_ok 10) || negb (malloc_ok 11) then Some ((- ENOMEM)%Z, None)
      else
        _ ← ensure (0 <? decimation)%nat;
        let output_len := (max_input_buffer_length / 2 / decimation + 1)%nat in
        if negb (malloc_ok 12) || negb (malloc_ok 13) then Some ((- ENOMEM)%Z, None)
        else
          Some (0%Z, Some (MkXlating decimation t32 32 t16 4 (length taps)
            addr32 (replicate working_len c_zero) addr16 (replicate (2 * working_len) 0%Z) history
            (resize output_len c_zero garbage32) (resize (2 * output_len) 0%Z garbage16)
            (f32_of_Z 1, f_zero) incr (INT16_MAX, 0)%Z (incr_re, incr_im))).
End create.

(** ** Specification: decimation of a stream by a FIR filter *)

(** The number of outputs that a stream of [n] samples has given, for windows
    of [T] samples every [dec] samples. *)
Definition fir_count (T dec n : nat) : nat := if (T <=? n)%nat then (n - T) / dec + 1 else 0.

(** The values of the windows number [lo] to [lo + n - 1] of a stream [s], a
    sample being [stride] cells. *)
Definition fir {Cell Acc} (dotw : list Cell -> option Acc) (stride T dec : nat) (s : list Cell)
    (lo n : nat) : option (list Acc) :=
  mapM (fun k => dotw (take (stride * T) (drop (stride * (k * dec)) s))) (seq lo n).

(** Emitting a list of accumulated values from a phase on. *)
Fixpoint emits {Cell Acc Phase} (emit : Acc -> Phase -> option (list Cell))
    (advance : Phase -> option Phase) (accs : list Acc) (ph : Phase)
    : option (list Cell * Phase) :=
  match accs with
  | [] => Some ([], ph)
  | a :: accs' =>
      cells ← emit a ph;
      ph' ← advance ph;
      r ← emits emit advance accs' ph';
      Some (cells ++ fst r, snd r)
  end.

(** ** Lemmas: alignment *)

Lemma align_down_pow2 buf k : (0 <= k)%Z -> align_down buf (2 ^ k) = (buf - buf `mod` 2 ^ k)%Z.
Proof.
  intros Hk. unfold align_down.
  replace (2 ^ k - 1)%Z with (Z.ones k) by (rewrite Z.ones_equiv; lia).
  rewrite <- Z.ldiff_land, Z.ldiff_ones_r, shiftr_div, shiftl_mul by done.
  pose proof (Z.div_mod buf (2 ^ k)). lia.
Qed.

Lemma align_split_spec addr size k m index :
  (0 <= k)%Z -> (0 < size)%Z -> (2 ^ k = size * Z.of_nat m)%Z ->
  (addr `mod` 2 ^ k = 0)%Z -> (0 <= addr)%Z ->
  align_split addr size (2 ^ k) index = Some (index - index `mod` m, index `mod` m)%nat.
Proof.
  intros Hk Hs Hm Ha Hpos. unfold align_split. rewrite align_down_pow2 by done.
  assert (m <> 0)%nat as Hm0 by (pose proof (Z.pow_pos_nonneg 2 k); intros ->; lia).
  pose proof (Nat.mod_upper_bound index m Hm0) as Hub.
  pose proof (Nat.Div0.div_mod index m) as Hdm.
  assert ((addr + size * Z.of_nat index) `mod` 2 ^ k = size * Z.of_nat (index `mod` m))%Z as Hmod.
  { rewrite <- Zplus_mod_idemp_l, Ha, Z.add_0_l, Hm, Nat2Z.inj_mod, Z.mul_mod_distr_l by lia. done. }
  rewrite Hmod.
  replace (addr + size * Z.of_nat index - size * Z.of_nat (index `mod` m) - addr)%Z
    with (Z.of_nat (index - index `mod` m) * size)%Z by (rewrite Nat2Z.inj_sub by lia; lia).
  replace (addr + size * Z.of_nat index - (addr + size * Z.of_nat index - size * Z.of_nat (index `mod` m)))%Z
    with (Z.of_nat (index `mod` m) * size)%Z by lia.
  rewrite !Z.div_mul, !Nat2Z.id by lia.
  unfold ensure. rewrite (proj2 (Z.leb_le _ _)) by nia. done.
Qed.

(** ** Lemmas: the output loop *)

Section decimate_lemmas.
Context {Cell Acc Phase : Type}.
Context (dot : nat -> option Acc) (emit : Acc -> Phase -> option (list Cell))
        (advance : Phase -> option Phase).

Definition steps (max_index dec : nat) : nat := (max_index + dec - 1) / dec.

Lemma decimate_loop_spec dec max_index accs : forall fuel current produced ph output cells ph',
  0 < dec ->
  (forall i a, accs !! i = Some a -> dot (current + i * dec) = Some a) ->
  max_index <= current + length accs * dec ->
  (length accs <> 0 -> current + (length accs - 1) * dec < max_index) ->
  emits emit advance accs ph = Some (cells, ph') ->
  produced + length cells <= length output ->
  length accs <= fuel ->
  decimate_loop dot emit advance fuel dec max_index current produced ph output
  = Some (current + length accs * dec, produced + length cells, ph',
          take produced output ++ cells ++ drop (produced + length cells) output).
Proof.
  induction accs as [|a accs IH];
    intros fuel current produced ph output cells ph' Hdec Hdot Hge Hlt He Hout Hfuel; simpl in *.
  - simplify_eq. simpl. rewrite !Nat.add_0_r, take_drop.
    destruct fuel; simpl; rewrite (proj2 (Nat.ltb_ge _ _)) by lia; done.
  - destruct fuel as [|fuel]; [lia|]. simpl. rewrite (proj2 (Nat.ltb_lt _ _)) by nia.
    specialize (Hdot 0%nat a eq_refl) as Hd0. rewrite Nat.mul_0_l, Nat.add_0_r in Hd0. rewrite Hd0. simpl.
    destruct (emit a ph) as [c1|] eqn:He1; simpl in *; [|done].
    destruct (advance ph) as [ph1|] eqn:Ha1; simpl in *; [|done].
    destruct (emits emit advance accs ph1) as [[c2 ph2]|] eqn:He2; simpl in *; [|done].
    simplify_eq. rewrite length_app in Hout. rewrite write_at_is_Some by lia. simpl.
    rewrite (IH fuel (current + dec) (produced + length c1) ph1 _ c2 ph'); try done.
    + rewrite !length_app. set (out1 := take produced output ++ c1).
      assert (length out1 = produced + length c1) as Hl1
        by (subst out1; rewrite length_app, length_take; lia).
      rewrite (app_assoc _ c1). fold out1.
      rewrite take_app_length' by done. rewrite drop_app_ge by lia. rewrite drop_drop, Hl1.
      subst out1. rewrite <- !app_assoc. do 3 f_equal; [f_equal; lia|]. do 3 f_equal. lia.
    + intros i b Hi. rewrite <- (Hdot (S i) b Hi). f_equal. lia.
    + lia.
    + intros Hne. specialize (Hlt ltac:(lia)).
      destruct (length accs) as [|n]; [done|]. simpl in *. lia.
    + rewrite !length_app, length_take, length_drop. lia.
    + lia.
Qed.
End decimate_lemmas.

(** ** Lemmas: counting outputs *)

Lemma steps_bounds max_index dec :
  0 < dec ->
  max_index <= steps max_index dec * dec /\
  (steps max_index dec <> 0 -> (steps max_index dec - 1) * dec < max_index).
Proof.
  intros Hd. unfold steps.
  pose proof (Nat.Div0.div_mod (max_index + dec - 1) dec) as Hdm.
  pose proof (Nat.mod_upper_bound (max_index + dec - 1) dec ltac:(lia)) as Hub.
  set (q := (max_index + dec - 1) / dec) in *. split; [nia|].
  intros Hq. rewrite Nat.mul_sub_distr_r. nia.
Qed.

Lemma steps_unique m dec k :
  0 < dec -> m <= k * dec -> (k <> 0 -> (k - 1) * dec < m) -> steps m dec = k.
Proof.
  intros Hd H1 H2. destruct (steps_bounds m dec Hd) as [H3 H4].
  destruct (lt_eq_lt_dec (steps m dec) k) as [[Hlt|]|Hgt]; [|done|].
  - specialize (H2 ltac:(lia)). assert (steps m dec * dec <= (k - 1) * dec) by
      (apply Nat.mul_le_mono_r; lia). lia.
  - specialize (H4 ltac:(lia)). assert (k * dec <= (steps m dec - 1) * dec) by
      (apply Nat.mul_le_mono_r; lia). lia.
Qed.

(** The outputs of a stream are those of its beginning followed by those of
    the samples that are left, whatever the cut. *)
Lemma fir_count_split T dec n m :
  0 < dec <= T ->
  let K := fir_count T dec n in
  K * dec <= n /\ n - K * dec < T /\
  fir_count T dec (n + m) = K + fir_count T dec (n + m - K * dec).
Proof.
  intros [Hd HT]. unfold fir_count.
  destruct (T <=? n)%nat eqn:E1; [apply Nat.leb_le in E1|apply Nat.leb_gt in E1].
  - pose proof (Nat.Div0.div_mod (n - T) dec) as Hdm.
    pose proof (Nat.mod_upper_bound (n - T) dec ltac:(lia)) as Hub.
    set (q := (n - T) / dec) in *. simpl. split; [nia|]. split; [nia|].
    rewrite (proj2 (Nat.leb_le T (n + m))) by lia.
    destruct (T <=? n + m - (q + 1) * dec)%nat eqn:E2; [apply Nat.leb_le in E2|apply Nat.leb_gt in E2].
    + replace (n + m - T) with (n + m - (q + 1) * dec - T + (q + 1) * dec) by lia.
      rewrite Nat.div_add by lia. lia.
    + rewrite Nat.add_0_r. f_equal. symmetry. apply (Nat.div_unique _ _ _ (n + m - T - dec * q)); nia.
  - simpl. rewrite !Nat.sub_0_r. split; [lia|]. split; [lia|]. done.
Qed.

Lemma steps_fir_count T dec w :
  0 < dec -> 0 < T -> T <= w -> steps (w - (T - 1)) dec = fir_count T dec w.
Proof.
  intros Hd HT Hw. unfold fir_count. rewrite (proj2 (Nat.leb_le _ _)) by lia.
  pose proof (Nat.Div0.div_mod (w - T) dec) as Hdm.
  pose proof (Nat.mod_upper_bound (w - T) dec ltac:(lia)) as Hub.
  apply steps_unique; [done|nia|]. intros _. nia.
Qed.

Lemma max_index_of_spec w T :
  0 < T -> (Z.of_nat T < 2 ^ 64)%Z ->
  max_index_of w T = if (T <=? w)%nat then Some (w - (T - 1)) else None.
Proof.
  intros HT Hmax. unfold max_index_of. rewrite wrap_small by (unfold is_unsigned; lia).
  destruct (T <=? w)%nat eqn:E; [apply Nat.leb_le in E|apply Nat.leb_gt in E].
  - rewrite (proj2 (Z.ltb_lt _ _)) by lia. done.
  - rewrite (proj2 (Z.ltb_ge _ _)) by lia. done.
Qed.

(** ** Lemmas: one call on a stream *)

Lemma preserve_history_spec {A} stride (wb : list A) wlen cur :
  cur <= wlen -> stride * wlen <= length wb ->
  exists wb', preserve_history stride wb wlen cur = Some (wb', wlen - cur) /\
    length wb' = length wb /\
    take (stride * (wlen - cur)) wb' = drop (stride * cur) (take (stride * wlen) wb) /\
    (forall P, Forall P wb -> Forall P wb').
Proof.
  intros Hc Hw. unfold preserve_history, ensure. rewrite bool_decide_true by done. simpl.
  destruct (0 <? cur)%nat eqn:E; [|apply Nat.ltb_ge in E; assert (cur = 0) as -> by lia].
  - rewrite read_at_is_Some by nia. simpl.
    set (kept := take (stride * (wlen - cur)) (drop (stride * cur) wb)).
    assert (length kept = stride * (wlen - cur)) as Hk.
    { subst kept. rewrite length_take, length_drop. nia. }
    rewrite write_at_is_Some by (simpl; nia). simpl. eexists. split; [done|]. split_and!.
    + rewrite length_app, length_drop. nia.
    + rewrite take_app_length' by done. subst kept. rewrite skipn_firstn_comm. f_equal. nia.
    + intros P HP. apply Forall_app. split; [|by apply Forall_drop].
      by apply Forall_take, Forall_drop.
  - exists wb. rewrite Nat.sub_0_r, Nat.mul_0_r, drop_0. done.
Qed.

Section stream.
Context {CellIn Cell Acc Phase : Type}.
Context (dot : nat -> option Acc) (dotw : list CellIn -> option Acc).
Context (emit : Acc -> Phase -> option (list Cell)) (advance : Phase -> option Phase).
Context (stride T dec : nat).

(** [wb] holds, in its first [w] samples, the stream [s] from the sample
    number [K * dec] on. *)
Definition holds_stream (wb : list CellIn) (w : nat) (s : list CellIn) (K : nat) : Prop :=
  take (stride * w) wb = drop (stride * (K * dec)) s /\
  stride * w <= length wb /\ length s = stride * (w + K * dec).

Lemma stream_loop wb w s K ph output accs cells ph' :
  0 < dec -> 0 < T -> T <= w ->
  holds_stream wb w s K ->
  (forall cur, cur + T <= w -> dot cur = dotw (take (stride * T) (drop (stride * cur) wb))) ->
  fir dotw stride T dec s K (fir_count T dec w) = Some accs ->
  emits emit advance accs ph = Some (cells, ph') ->
  length cells <= length output ->
  decimate_loop dot emit advance (S (w - (T - 1))) dec (w - (T - 1)) 0 0 ph output
  = Some (fir_count T dec w * dec, length cells, ph', cells ++ drop (length cells) output).
Proof.
  intros Hd HT Hw (Hwb & Hcap & Hlen) Hdot Hfir Hemits Hout.
  rewrite <- steps_fir_count in * by done. set (mi := w - (T - 1)) in *.
  destruct (steps_bounds mi dec Hd) as [H1 H2].
  pose proof (length_mapM _ _ _ Hfir) as Hl. rewrite length_seq in Hl.
  assert (steps mi dec <= mi) as Hle.
  { destruct (decide (steps mi dec = 0)); [lia|]. specialize (H2 ltac:(done)). nia. }
  rewrite (decimate_loop_spec dot emit advance dec mi accs (S mi) 0 0 ph output cells ph');
    rewrite <- ?Hl; try done; try lia.
  intros i a Hi. apply mapM_Some in Hfir. rewrite Nat.add_0_l.
  assert (i < length accs) as Hilt by (by apply lookup_lt_Some in Hi).
  destruct (Forall2_lookup_r _ _ _ _ _ Hfir Hi) as (k & Hk & Hval).
  apply lookup_seq in Hk as [-> _]. assert (i * dec + T <= w) as Hin.
  { assert (i <= steps mi dec - 1) as Hi1 by lia. specialize (H2 ltac:(lia)).
    assert (i * dec <= (steps mi dec - 1) * dec) by (by apply Nat.mul_le_mono_r). lia. }
  rewrite Hdot by done. rewrite <- Hval. f_equal.
  replace (stride * ((K + i) * dec)) with (stride * (K * dec) + stride * (i * dec)) by lia.
  rewrite <- drop_drop, <- Hwb, skipn_firstn_comm, take_take. f_equal. nia.
Qed.
Lemma holds_stream_keep wb w s K c :
  holds_stream wb w s K -> c * dec <= w ->
  exists wb', preserve_history stride wb w (c * dec) = Some (wb', w - c * dec) /\
    length wb' = length wb /\ holds_stream wb' (w - c * dec) s (K + c) /\
    (forall P, Forall P wb -> Forall P wb').
Proof.
  intros (Hwb & Hcap & Hlen) Hc.
  destruct (preserve_history_spec stride wb w (c * dec) Hc Hcap) as (wb' & Hp & Hl & Ht & HP).
  exists wb'. split_and!; try done. unfold holds_stream. split_and!; [|nia|nia].
  rewrite Ht, Hwb, drop_drop. f_equal. lia.
Qed.

Lemma holds_stream_load wb w s K new m :
  holds_stream wb w s K -> stride * m <= length new -> stride * w + length new <= length wb ->
  exists wb', write_at wb (stride * w) new = Some wb' /\ length wb' = length wb /\
    holds_stream wb' (w + m) (s ++ take (stride * m) new) K /\
    (forall P, Forall P wb -> Forall P new -> Forall P wb').
Proof.
  intros (Hwb & Hcap & Hlen) Hm Hroom.
  rewrite write_at_is_Some by done. eexists. split; [done|]. unfold holds_stream. split_and!.
  - rewrite !length_app, length_take, length_drop. lia.
  - rewrite app_assoc, take_app_le by (rewrite length_app, length_take; nia).
    rewrite take_app_ge by (rewrite length_take; nia). rewrite length_take.
    replace (stride * (w + m) - Nat.min (stride * w) (length wb)) with (stride * m) by nia.
    rewrite drop_app_le by nia. by rewrite Hwb.
  - rewrite !length_app, length_take, length_drop. nia.
  - rewrite length_app, length_take, Hlen. nia.
  - intros P H1 H2. repeat apply Forall_app_2; [by apply Forall_take|done|by apply Forall_drop].
Qed.

End stream.

(** ** Lemmas: the specification under concatenation *)

Lemma fir_app {Cell Acc} (dotw : list Cell -> option Acc) stride T dec s lo n1 n2 :
  fir dotw stride T dec s lo (n1 + n2)
  = (a1 ← fir dotw stride T dec s lo n1; a2 ← fir dotw stride T dec s (lo + n1) n2; Some (a1 ++ a2)).
Proof.
  unfold fir. rewrite seq_app. generalize (seq lo n1) (seq (lo + n1) n2). intros l1 l2.
  induction l1 as [|k l1 IH]; simpl.
  - destruct (mapM _ l2); done.
  - destruct (dotw _); simpl; [|done]. rewrite IH. destruct (mapM _ l1); simpl; [|done].
    by destruct (mapM _ l2).
Qed.

(** The windows of a stream are not changed by what comes after them. *)
Lemma fir_prefix {Cell Acc} (dotw : list Cell -> option Acc) stride T dec s new n lo cnt :
  0 < dec -> length s = stride * n -> lo + cnt <= fir_count T dec n ->
  fir dotw stride T dec (s ++ new) lo cnt = fir dotw stride T dec s lo cnt.
Proof.
  intros Hd Hn Hcnt. unfold fir.
  assert (forall k, k ∈ seq lo cnt -> k * dec + T <= n) as Hin.
  { intros k Hk. apply elem_of_seq in Hk. unfold fir_count in Hcnt.
    destruct (T <=? n)%nat eqn:E; [apply Nat.leb_le in E|lia].
    assert (k * dec <= (n - T) / dec * dec) by (apply Nat.mul_le_mono_r; lia).
    pose proof (Nat.Div0.mul_div_le (n - T) dec). nia. }
  revert Hin. generalize (seq lo cnt). intros l Hin.
  induction l as [|k l IH]; simpl; [done|]. specialize (Hin k) as Hk.
  specialize (Hk ltac:(set_solver)). rewrite IH by set_solver.
  rewrite drop_app_le by nia. rewrite take_app_le; [done|]. rewrite length_drop. nia.
Qed.

Lemma emits_app {Cell Acc Phase} (emit : Acc -> Phase -> option (list Cell)) advance a1 a2 ph :
  emits emit advance (a1 ++ a2) ph
  = (r1 ← emits emit advance a1 ph; r2 ← emits emit advance a2 (snd r1);
     Some (fst r1 ++ fst r2, snd r2)).
Proof.
  revert ph. induction a1 as [|a a1 IH]; intros ph; simpl.
  - by destruct (emits emit advance a2 ph) as [[]|].
  - destruct (emit a ph); simpl; [|done]. destruct (advance ph) as [ph1|]; simpl; [|done].
    rewrite IH. destruct (emits emit advance a1 ph1) as [[c1 ph2]|]; simpl; [|done].
    destruct (emits emit advance a2 ph2) as [[c2 ph3]|]; simpl; [|done]. by rewrite app_assoc.
Qed.

(** ** The fixed-point filter on a stream *)

(** The value of a window of cells: the complex dot product with the taps. *)
Definition dotw_cs16 (taps window : list Z) : option (Z * Z) :=
  mac_cs16_all (0, 0)%Z (zip (pairs window) (pairs taps)).

Definition advance_cs16 (incr ph : Z * Z) : option (Z * Z) := cmul_q15 ph incr.

(** The static part of a filter with the (reversed) taps [taps]. *)
Record cs16_ok (taps : list Z) (f : xlating) : Prop := {
  cs16_taps_len : length taps = 2 * taps_len f;
  cs16_taps : exists tail, taps_cs16 f !! 0%nat = Some (taps ++ tail);
  cs16_alignment : alignment_cs16 f = 4%Z;
  cs16_addr : (addr_cs16 f `mod` 4 = 0)%Z;
  cs16_addr_pos : (0 <= addr_cs16 f)%Z;
  cs16_decimation : 0 < decimation f <= taps_len f;
  cs16_size : (Z.of_nat (taps_len f) < 2 ^ 64)%Z;
}.

(** The filter has consumed the stream [s] (leading zeros included): the
    outputs it could give are given and the rest is in the working buffer. *)
Definition cs16_state (taps : list Z) (f : xlating) (s : list Z) (n : nat) : Prop :=
  cs16_ok taps f /\
  history_offset f + fir_count (taps_len f) (decimation f) n * decimation f = n /\
  holds_stream 2 (decimation f) (working_buffer_cs16 f) (history_offset f) s
    (fir_count (taps_len f) (decimation f) n).

Lemma dot_cs16_spec taps f cur :
  cs16_ok taps f -> 2 * (cur + taps_len f) <= length (working_buffer_cs16 f) ->
  dot_cs16 f cur = dotw_cs16 taps (take (2 * taps_len f) (drop (2 * cur) (working_buffer_cs16 f))).
Proof.
  intros [Hl [tail Ht] Ha Haddr Hpos Hdec Hsz] Hcur. unfold dot_cs16. rewrite Ha.
  rewrite (align_split_spec _ _ 2 2); [|lia|done|done|done|done].
  replace ((2 * cur) `mod` 2) with 0 by (symmetry; rewrite Nat.mul_comm; apply Nat.Div0.mod_mul).
  rewrite Nat.sub_0_r. cbn [mbind option_bind]. rewrite Ht. cbn [mbind option_bind].
  rewrite Nat.add_0_r. rewrite (read_at_is_Some (working_buffer_cs16 f)) by lia. cbn [mbind option_bind].
  rewrite read_at_is_Some by (rewrite length_app; lia). cbn [mbind option_bind].
  by rewrite drop_0, take_app_le, (take_ge taps) by lia.
Qed.

(** The outputs that a call with [m] new samples produces on a stream that has
    had [n], and the phase after them. *)
Definition spec_cs16 (taps : list Z) (f : xlating) (s : list Z) (n m : nat) (ph : Z * Z)
    : option (list Z * (Z * Z)) :=
  let K := fir_count (taps_len f) (decimation f) n in
  accs ← fir (dotw_cs16 taps) 2 (taps_len f) (decimation f) s K
           (fir_count (taps_len f) (decimation f) (n + m) - K);
  emits emit_cs16 (advance_cs16 (phase_incr_cs16 f)) accs ph.

(** What a call leaves unchanged. *)
Definition same_cs16 (f f' : xlating) : Prop :=
  decimation f' = decimation f /\ taps_len f' = taps_len f /\
  phase_incr_cs16 f' = phase_incr_cs16 f /\
  length (working_buffer_cs16 f') = length (working_buffer_cs16 f) /\
  length (output_cs16 f') = length (output_cs16 f).

Lemma emit_cs16_length a ph cells : emit_cs16 a ph = Some cells -> length cells = 2.
Proof. unfold emit_cs16. intros H. apply bind_Some in H as (x & _ & H). by simplify_eq. Qed.

Lemma emits_cs16_length incr accs : forall ph cells ph',
  emits emit_cs16 (advance_cs16 incr) accs ph = Some (cells, ph') ->
  length cells = 2 * length accs.
Proof.
  induction accs as [|a accs IH]; intros ph cells ph' H; simpl in H; [by simplify_eq|].
  apply bind_Some in H as (c & Hc & H). apply bind_Some in H as (p & _ & H).
  apply bind_Some in H as ([c2 p2] & H2 & H). simplify_eq. simpl.
  rewrite length_app, (IH _ _ _ H2), (emit_cs16_length _ _ _ Hc). simpl. lia.
Qed.

(** A bound on the outputs of one call, from which the size of the output
    buffer is enough: [max_input / 2 / decimation + 1] samples. *)
Lemma fir_count_call T dec h m n :
  0 < dec <= T -> h + fir_count T dec n * dec = n ->
  fir_count T dec (n + m) - fir_count T dec n = fir_count T dec (h + m) /\
  fir_count T dec (h + m) * dec <= h + m /\
  fir_count T dec (h + m) <= m / dec + 1.
Proof.
  intros Hd Hn. pose proof (fir_count_split T dec n m Hd) as (H1 & H2 & H3); simpl in *.
  replace (n + m - fir_count T dec n * dec) with (h + m) in H3 by lia.
  split; [lia|]. split; [apply (fir_count_split T dec (h + m) 0 Hd)|].
  unfold fir_count. destruct (T <=? h + m)%nat; [|lia].
  assert ((h + m - T) / dec <= m / dec); [|lia].
  apply Nat.Div0.div_le_mono. lia.
Qed.

Lemma native_cs16_spec taps f s n cells ph' m :
  cs16_ok taps f ->
  history_offset f + fir_count (taps_len f) (decimation f) n * decimation f = n ->
  holds_stream 2 (decimation f) (working_buffer_cs16 f) (history_offset f + m) s
    (fir_count (taps_len f) (decimation f) n) ->
  2 * (m / decimation f + 1) <= length (output_cs16 f) ->
  spec_cs16 taps f s n m (phase_cs16 f) = Some (cells, ph') ->
  exists f', process_native_cs16 m f = Some (cells, f') /\
    cs16_state taps f' s (n + m) /\ phase_cs16 f' = ph' /\ same_cs16 f f'.
Proof.
  intros Hok Hn Hhold Hout Hspec. pose proof (cs16_decimation _ _ Hok) as Hd.
  set (T := taps_len f) in *. set (dec := decimation f) in *. set (h := history_offset f) in *.
  destruct (fir_count_call T dec h m n Hd Hn) as (Hc1 & Hc2 & Hc3).
  unfold spec_cs16 in Hspec. fold T dec in Hspec. rewrite Hc1 in Hspec.
  apply bind_Some in Hspec as (accs & Hfir & Hem).
  pose proof (emits_cs16_length _ _ _ _ _ Hem) as Hcells.
  pose proof (length_mapM _ _ _ Hfir) as Hla. rewrite length_seq in Hla.
  destruct (holds_stream_keep 2 dec _ _ _ _ _ Hhold Hc2) as (wb' & Hkeep & Hlwb & Hhold' & _).
  assert (exists out', length out' = length (output_cs16 f) /\ take (length cells) out' = cells /\
    match max_index_of (h + m) T with
    | None => Some (0, 0, phase_cs16 f, output_cs16 f)
    | Some mi => decimate_loop (dot_cs16 f) emit_cs16 (fun ph => cmul_q15 ph (phase_incr_cs16 f))
                   (S mi) dec mi 0 0 (phase_cs16 f) (output_cs16 f)
    end = Some (fir_count T dec (h + m) * dec, length cells, ph', out')) as (out' & Hlo & Hto & Hloop).
  { rewrite max_index_of_spec; [|lia|apply (cs16_size _ _ Hok)].
    destruct (T <=? h + m)%nat eqn:E; [apply Nat.leb_le in E|].
    - exists (cells ++ drop (length cells) (output_cs16 f)).
      rewrite length_app, length_drop, take_app_length. split; [lia|]. split; [done|].
      eapply (stream_loop _ (dotw_cs16 taps) _ (advance_cs16 (phase_incr_cs16 f)) 2 T dec);
        [lia|lia|done|done| |done|done|lia].
      intros cur Hcur. apply dot_cs16_spec; [done|]. destruct Hhold as (_ & ? & _). fold T. lia.
    - unfold fir_count in *. rewrite E in *. simpl in *. destruct accs; [|done]. simpl in Hem.
      simplify_eq. exists (output_cs16 f). done. }
  unfold process_native_cs16. fold h T dec. rewrite Hloop. cbn [mbind option_bind].
  rewrite Hkeep. cbn [mbind option_bind fst snd]. eexists. split.
  { f_equal. f_equal. rewrite Hcells at 1.
    replace (2 * (2 * length accs / 2)) with (length cells); [done|].
    rewrite Hcells, Nat.mul_comm, Nat.div_mul by lia. lia. }
  unfold cs16_state, same_cs16. simpl. fold T dec. split; [|done].
  assert (fir_count T dec (n + m) = fir_count T dec n + fir_count T dec (h + m)) as Hsum.
  { pose proof (fir_count_split T dec n m Hd) as (_ & _ & H3). simpl in H3.
    rewrite H3. do 2 f_equal. lia. }
  split_and!; [by destruct Hok|rewrite Hsum; lia|by rewrite Hsum].
Qed.

Lemma load_cs16_spec taps f s n cells m :
  cs16_state taps f s n -> 2 * m <= length cells ->
  2 * history_offset f + length cells <= length (working_buffer_cs16 f) ->
  exists f1, load_cs16 cells f = Some f1 /\ cs16_ok taps f1 /\
    history_offset f1 = history_offset f /\ decimation f1 = decimation f /\ taps_len f1 = taps_len f /\
    phase_cs16 f1 = phase_cs16 f /\ phase_incr_cs16 f1 = phase_incr_cs16 f /\
    output_cs16 f1 = output_cs16 f /\
    length (working_buffer_cs16 f1) = length (working_buffer_cs16 f) /\
    holds_stream 2 (decimation f) (working_buffer_cs16 f1) (history_offset f + m)
      (s ++ take (2 * m) cells) (fir_count (taps_len f) (decimation f) n).
Proof.
  intros (Hok & _ & Hhold) Hm Hroom.
  destruct (holds_stream_load _ _ _ _ _ _ cells m Hhold Hm Hroom) as (wb' & Hw & Hl & Hh & _).
  unfold load_cs16. rewrite Hw. eexists. split; [done|]. simpl. split_and!; try done.
  by destruct Hok.
Qed.

(** One call of a [process_*_cs16] function on a filter that has had the
    stream [s]. *)
Lemma process_cs16_spec taps f s n conv input cells ph' :
  cs16_state taps f s n ->
  2 * history_offset f + length input <= length (working_buffer_cs16 f) ->
  2 * (length input / 2 / decimation f + 1) <= length (output_cs16 f) ->
  let m := length input / 2 in
  let s' := s ++ take (2 * m) (map conv input) in
  spec_cs16 taps f s' n m (phase_cs16 f) = Some (cells, ph') ->
  exists f', process_cs16 conv input f = Some (cells, f') /\
    cs16_state taps f' s' (n + m) /\ phase_cs16 f' = ph' /\ same_cs16 f f'.
Proof.
  intros Hst Hroom Hout m s' Hspec.
  assert (2 * m <= length (map conv input)) as Hm.
  { rewrite length_map. subst m. pose proof (Nat.Div0.mul_div_le (length input) 2). lia. }
  destruct (load_cs16_spec taps f s n (map conv input) m Hst Hm) as
    (f1 & Hload & Hok1 & Eh & Ed & Et & Ep & Ei & Eo & Elwb & Hhold); [by rewrite length_map|].
  destruct (native_cs16_spec taps f1 s' n cells ph' m Hok1) as (f' & Hp & Hst' & Hph & Hsame).
  - rewrite Eh, Ed, Et. apply Hst.
  - by rewrite Eh, Ed, Et.
  - by rewrite Ed, Eo.
  - unfold spec_cs16. by rewrite Ed, Et, Ep, Ei.
  - exists f'. unfold process_cs16. rewrite Hload. split_and!; try done.
    unfold same_cs16 in *. rewrite Ed, Et, Ei, Eo, Elwb in Hsame. done.
Qed.

(** ** A sequence of calls *)

Fixpoint process_all {Cell} (process : list Z -> xlating -> option (list Cell * xlating))
    (inputs : list (list Z)) (f : xlating) : option (list Cell * xlating) :=
  match inputs with
  | [] => Some ([], f)
  | input :: inputs' =>
      r1 ← process input f;
      r2 ← process_all process inputs' (snd r1);
      Some (fst r1 ++ fst r2, snd r2)
  end.

(** What a call uses of its input. *)
Definition whole_samples (input : list Z) : list Z := take (2 * (length input / 2)) input.

(** The buffers of a filter created for inputs of at most [max] values. *)
Definition cs16_capacity (max : nat) (f : xlating) : Prop :=
  2 * (max / 2) = max /\
  length (working_buffer_cs16 f) = 2 * (max / 2 + (taps_len f - 1)) /\
  length (output_cs16 f) = 2 * (max / 2 / decimation f + 1).

Lemma length_whole_samples input : length (whole_samples input) = 2 * (length input / 2).
Proof.
  unfold whole_samples. pose proof (Nat.Div0.mul_div_le (length input) 2). rewrite length_take. lia.
Qed.

Lemma fir_count_le T dec n m : 0 < dec -> n <= m -> fir_count T dec n <= fir_count T dec m.
Proof.
  intros Hd H. unfold fir_count.
  destruct (T <=? n)%nat eqn:E; [apply Nat.leb_le in E|lia].
  rewrite (proj2 (Nat.leb_le _ _)) by lia.
  assert ((n - T) / dec <= (m - T) / dec); [apply Nat.Div0.div_le_mono|]; lia.
Qed.

Lemma spec_cs16_split taps f s new n m1 m2 ph cells ph' :
  0 < decimation f -> length s = 2 * (n + m1) ->
  spec_cs16 taps f (s ++ new) n (m1 + m2) ph = Some (cells, ph') ->
  exists c1 ph1 c2, spec_cs16 taps f s n m1 ph = Some (c1, ph1) /\
    spec_cs16 taps f (s ++ new) (n + m1) m2 ph1 = Some (c2, ph') /\ cells = c1 ++ c2.
Proof.
  intros Hd Hs. unfold spec_cs16. set (T := taps_len f). set (dec := decimation f) in *.
  pose proof (fir_count_le T dec n (n + m1) Hd ltac:(lia)) as H1.
  pose proof (fir_count_le T dec (n + m1) (n + m1 + m2) Hd ltac:(lia)) as H2.
  replace (fir_count T dec (n + (m1 + m2)) - fir_count T dec n)
    with ((fir_count T dec (n + m1) - fir_count T dec n)
          + (fir_count T dec (n + m1 + m2) - fir_count T dec (n + m1)))
    by (rewrite (Nat.add_assoc n m1 m2); lia).
  rewrite fir_app.
  rewrite (fir_prefix (dotw_cs16 taps) 2 T dec s new (n + m1) (fir_count T dec n)) by (done || lia).
  replace (fir_count T dec n + (fir_count T dec (n + m1) - fir_count T dec n))
    with (fir_count T dec (n + m1)) by lia.
  intros H. apply bind_Some in H as (accs & H & Hem).
  apply bind_Some in H as (a1 & E1 & H). apply bind_Some in H as (a2 & E2 & H). simplify_eq.
  rewrite emits_app in Hem. apply bind_Some in Hem as ([c1 ph1] & F1 & Hem).
  apply bind_Some in Hem as ([c2 ph2] & F2 & Hem). simplify_eq. simpl in *.
  exists c1, ph1, c2. rewrite E1, E2. done.
Qed.

Lemma same_cs16_capacity max f f' :
  same_cs16 f f' -> cs16_capacity max f -> cs16_capacity max f'.
Proof. unfold same_cs16, cs16_capacity. intros (-> & -> & _ & -> & ->). done. Qed.

Lemma cs16_state_history taps f s n :
  cs16_state taps f s n -> history_offset f <= taps_len f - 1 /\ length s = 2 * n.
Proof.
  intros (Hok & Hn & _ & _ & Hl). pose proof (cs16_decimation _ _ Hok) as Hd.
  pose proof (fir_count_split (taps_len f) (decimation f) n 0 Hd) as (_ & H & _). simpl in *. lia.
Qed.

Lemma process_all_cs16_spec taps max conv inputs : forall f s n cells ph',
  cs16_state taps f s n -> cs16_capacity max f ->
  Forall (fun input => length input <= max) inputs ->
  let new := map conv (concat (map whole_samples inputs)) in
  spec_cs16 taps f (s ++ new) n (length new / 2) (phase_cs16 f) = Some (cells, ph') ->
  exists f', process_all (process_cs16 conv) inputs f = Some (cells, f') /\
    cs16_state taps f' (s ++ new) (n + length new / 2) /\ phase_cs16 f' = ph' /\ same_cs16 f f'.
Proof.
  induction inputs as [|input inputs IH]; intros f s n cells ph' Hst Hcap Hin new Hspec.
  - subst new. cbn in *. rewrite app_nil_r, Nat.add_0_r in *.
    unfold spec_cs16 in Hspec. rewrite Nat.add_0_r, Nat.sub_diag in Hspec. cbn in Hspec.
    simplify_eq. exists f. unfold same_cs16. done.
  - apply Forall_cons in Hin as [Hi Hin]. destruct (cs16_state_history _ _ _ _ Hst) as [Hh Hls].
    set (m := length input / 2). set (rest := map conv (concat (map whole_samples inputs))) in *.
    assert (new = take (2 * m) (map conv input) ++ rest) as Enew.
    { subst new rest m. simpl. rewrite map_app. unfold whole_samples. by rewrite firstn_map. }
    pose proof (Nat.Div0.mul_div_le (length input) 2) as Hm. fold m in Hm.
    assert (length (take (2 * m) (map conv input)) = 2 * m) as Hl1
      by (rewrite length_take, length_map; lia).
    assert (length new / 2 = m + length rest / 2) as Hl2.
    { rewrite Enew, length_app, Hl1. rewrite (Nat.mul_comm 2 m), Nat.div_add_l by lia. done. }
    rewrite Hl2 in *. rewrite Enew, app_assoc in Hspec.
    pose proof (cs16_decimation _ _ (proj1 Hst)) as Hd.
    apply spec_cs16_split in Hspec as (c1 & ph1 & c2 & Hs1 & Hs2 & ->);
      [|lia|rewrite length_app, Hl1; lia].
    destruct (process_cs16_spec taps f s n conv input c1 ph1) as (f1 & Hp & Hst1 & Hph1 & Hsame1);
      [done|destruct Hcap as (? & ? & ?); lia| |done|].
    { destruct Hcap as (? & ? & ->).
      assert (length input / 2 / decimation f <= max / 2 / decimation f); [|lia].
      by apply Nat.Div0.div_le_mono, Nat.Div0.div_le_mono. }
    destruct (IH f1 (s ++ take (2 * m) (map conv input)) (n + m) c2 ph') as
      (f' & Hp' & Hst' & Hph' & Hsame'); [done|by eapply same_cs16_capacity|done| |].
    { destruct Hsame1 as (E1 & E2 & E3 & _ & _). unfold spec_cs16. rewrite E1, E2, E3, Hph1. done. }
    exists f'. cbn [process_all]. rewrite Hp. cbn [mbind option_bind snd fst].
    rewrite Hp'. split; [done|]. rewrite Enew, app_assoc, Nat.add_assoc. split_and!; try done.
    unfold same_cs16 in *. destruct Hsame1 as (E1 & E2 & E3 & E4 & E5).
    rewrite <- E1, <- E2, <- E3, <- E4, <- E5. done.
Qed.

(** ** The fixed-point arithmetic, exactly *)

Definition q15_pair (p : Z * Z) : Prop := is_signed 16 (fst p) /\ is_signed 16 (snd p).
Definition not_min (p : Z * Z) : Prop := p <> (INT16_MIN, INT16_MIN).

Definition clamp16 (x : Z) : Z := Z.max INT16_MIN (Z.min INT16_MAX x).
Definition cprod (x y : Z * Z) : Z * Z :=
  (fst x * fst y - snd x * snd y, fst x * snd y + snd x * fst y)%Z.
Definition q15_round (x : Z * Z) : Z * Z := (clamp16 (fst x / 2 ^ 15), clamp16 (snd x / 2 ^ 15))%Z.

(** The complex dot product over the integers. *)
Fixpoint csum (l : list ((Z * Z) * (Z * Z))) : Z * Z :=
  match l with
  | [] => (0, 0)%Z
  | (a, b) :: l' => (fst (cprod a b) + fst (csum l'), snd (cprod a b) + snd (csum l'))%Z
  end.

(** The filter without machine integers: window [k] of the stream, and the
    list of outputs for a list of window values. *)
Definition ref_window (taps : list Z) (T dec : nat) (s : list Z) (k : nat) : Z * Z :=
  csum (zip (pairs (take (2 * T) (drop (2 * (k * dec)) s))) (pairs taps)).

Fixpoint ref_emits (incr : Z * Z) (accs : list (Z * Z)) (ph : Z * Z) : list Z * (Z * Z) :=
  match accs with
  | [] => ([], ph)
  | a :: accs' =>
      let out := q15_round (cprod (q15_round a) ph) in
      let r := ref_emits incr accs' (q15_round (cprod ph incr)) in
      (fst out :: snd out :: fst r, snd r)
  end.

Lemma chk_ok w x : is_signed w x -> chk w x = Some x.
Proof. intros H. unfold chk. by rewrite decide_True. Qed.

Lemma q15_product a b : is_signed 16 a -> is_signed 16 b ->
  (- 1073709056 <= a * b <= 1073741824)%Z /\
  ((a * b = 1073741824)%Z -> a = INT16_MIN /\ b = INT16_MIN).
Proof. unfold is_signed, INT16_MIN. simpl Z.sub. pow2. intros Ha Hb. split; [nia|]. intros H. nia. Qed.

Lemma cprod_signed x y :
  q15_pair x -> q15_pair y -> not_min x \/ not_min y ->
  is_signed 32 (fst (cprod x y)) /\ is_signed 32 (snd (cprod x y)).
Proof.
  destruct x as [a b], y as [c d]. unfold q15_pair, not_min, cprod. simpl. intros [Ha Hb] [Hc Hd] Hm.
  destruct (q15_product a c Ha Hc) as [H1 _], (q15_product b d Hb Hd) as [H2 _].
  destruct (q15_product a d Ha Hd) as [H3 E3], (q15_product b c Hb Hc) as [H4 E4].
  split; [plia|]. destruct (decide (a * d = 1073741824 /\ b * c = 1073741824)%Z) as [[E5 E6]|Hn].
  - destruct (E3 E5), (E4 E6). subst. by destruct Hm.
  - plia.
Qed.

Lemma saturate_clamp v : is_signed 32 v -> saturate_to_int16 v = clamp16 v.
Proof.
  intros H. unfold saturate_to_int16, clamp16. rewrite swrap_small by (done || lia).
  unfold INT16_MAX, INT16_MIN. destruct (v >? 32767)%Z eqn:E1; simpl;
    [apply Z.gtb_lt in E1|rewrite Z.gtb_ltb in E1; apply Z.ltb_ge in E1]; [lia|].
  destruct (v <? -32768)%Z eqn:E2; lia.
Qed.

Lemma shift_signed x : (- 2 ^ 46 <= x < 2 ^ 46)%Z -> is_signed 32 (Z.shiftr x 15).
Proof.
  intros H. rewrite shiftr_div by lia. unfold is_signed. simpl Z.sub. pow2.
  split; [apply Z.div_le_lower_bound|apply Z.div_lt_upper_bound]; lia.
Qed.

Lemma clamp16_signed x : is_signed 16 (clamp16 x).
Proof. unfold clamp16, INT16_MIN, INT16_MAX. plia. Qed.

Lemma q15_round_pair x : q15_pair (q15_round x).
Proof. split; apply clamp16_signed. Qed.

Lemma cmul_q15_exact x y :
  q15_pair x -> q15_pair y -> not_min x \/ not_min y -> cmul_q15 x y = Some (q15_round (cprod x y)).
Proof.
  intros Hx Hy Hm. destruct (cprod_signed x y Hx Hy Hm) as [H1 H2].
  destruct x as [a b], y as [c d]. unfold cmul_q15, cprod, q15_round in *. simpl in *.
  rewrite !chk_ok by done. simpl. rewrite !saturate_clamp by (apply shift_signed; plia).
  by rewrite !shiftr_div by lia.
Qed.

Lemma mac_cs16_exact l : forall t B,
  Forall (fun ab => q15_pair (fst ab) /\ q15_pair (snd ab) /\ not_min (snd ab)) l ->
  (- B <= fst t <= B /\ - B <= snd t <= B)%Z -> (B + Z.of_nat (length l) * 2 ^ 31 < 2 ^ 63)%Z ->
  mac_cs16_all t l = Some (fst t + fst (csum l), snd t + snd (csum l))%Z.
Proof.
  induction l as [|[a b] l IH]; intros [tr ti] B Hall Ht HB; [simpl; by rewrite !Z.add_0_r|].
  apply Forall_cons in Hall as [(Ha & Hb & Hm) Hall]. cbn [mac_cs16_all mac_cs16].
  destruct (cprod_signed a b Ha Hb (or_intror Hm)) as [H1 H2].
  destruct a as [ar ai], b as [br bi]. unfold cprod, mac_cs16 in *. cbn [fst snd] in *.
  cbn [length] in HB. rewrite Nat2Z.inj_succ in HB. rewrite !(chk_ok 32) by plia. cbn [mbind option_bind].
  rewrite !(chk_ok 64) by plia. cbn [mbind option_bind].
  rewrite (IH _ (B + 2 ^ 31)%Z); cbn [fst snd csum cprod]; [|done|plia|plia].
  f_equal. f_equal; unfold cprod; simpl; lia.
Qed.

Lemma csum_bound l :
  Forall (fun ab => q15_pair (fst ab) /\ q15_pair (snd ab) /\ not_min (snd ab)) l ->
  let n := Z.of_nat (length l) in
  (- (n * 2 ^ 31) <= fst (csum l) <= n * (2 ^ 31 - 1) /\
   - (n * 2 ^ 31) <= snd (csum l) <= n * (2 ^ 31 - 1))%Z.
Proof.
  induction l as [|[a b] l IH]; intros Hall; [simpl; lia|].
  apply Forall_cons in Hall as [(Ha & Hb & Hm) Hall]. specialize (IH Hall).
  destruct (cprod_signed a b Ha Hb (or_intror Hm)) as [H1 H2].
  cbn [csum length fst snd] in *. plia.
Qed.

Lemma emit_cs16_exact acc ph :
  (- 2 ^ 46 <= fst acc < 2 ^ 46)%Z -> (- 2 ^ 46 <= snd acc < 2 ^ 46)%Z ->
  q15_pair ph -> not_min ph ->
  let out := q15_round (cprod (q15_round acc) ph) in
  emit_cs16 acc ph = Some [fst out; snd out].
Proof.
  intros H1 H2 Hp Hm out. unfold emit_cs16.
  rewrite !saturate_clamp by (by apply shift_signed). rewrite !shiftr_div by lia.
  change (clamp16 (fst acc / 2 ^ 15), clamp16 (snd acc / 2 ^ 15))%Z with (q15_round acc).
  rewrite cmul_q15_exact by (eauto using q15_round_pair). done.
Qed.

(** A step of the phase by a point of the disc of radius 32767 does not reach
    the corner at which the products overflow. *)
Lemma phase_not_min ph incr :
  q15_pair ph -> (fst incr * fst incr + snd incr * snd incr <= 32767 * 32767)%Z ->
  not_min (q15_round (cprod ph incr)).
Proof.
  destruct ph as [a b], incr as [c d]. unfold q15_pair, not_min, q15_round, cprod, clamp16.
  unfold INT16_MIN, INT16_MAX. cbn [fst snd]. intros [Ha Hb] Hd Heq. simplify_eq.
  unfold is_signed in *. simpl Z.sub in *.
  set (re := (a * c - b * d)%Z) in *. set (im := (a * d + b * c)%Z) in *.
  assert (re * re + im * im = (a * a + b * b) * (c * c + d * d))%Z as Hnorm by (subst re im; ring).
  pose proof (Z.div_mod re (2 ^ 15) ltac:(lia)). pose proof (Z.mod_pos_bound re (2 ^ 15) ltac:(lia)).
  pose proof (Z.div_mod im (2 ^ 15) ltac:(lia)). pose proof (Z.mod_pos_bound im (2 ^ 15) ltac:(lia)).
  set (qr := (re / 2 ^ 15)%Z) in *. set (qi := (im / 2 ^ 15)%Z) in *. pow2.
  assert (re < - 32767 * 32768)%Z as Hre by lia. assert (im < - 32767 * 32768)%Z as Him by lia.
  assert (a * a + b * b <= 2 * 32768 * 32768)%Z as Hph by nia.
  assert (32767 * 32768 * (32767 * 32768) < re * re)%Z by nia.
  assert (32767 * 32768 * (32767 * 32768) < im * im)%Z by nia.
  assert ((a * a + b * b) * (c * c + d * d) <= 2 * 32768 * 32768 * (32767 * 32767))%Z; [|lia].
  apply Z.mul_le_mono_nonneg; nia.
Qed.

(** The conditions on the taps and on the phase step under which the fixed-point
    filter computes without overflow. *)
Record q15_filter (taps : list Z) (incr : Z * Z) : Prop := {
  q15_taps : Forall (is_signed 16) taps;
  q15_taps_min : Forall not_min (pairs taps);
  q15_taps_len : (Z.of_nat (length taps) <= 2 * 32768)%Z;
  q15_incr : (fst incr * fst incr + snd incr * snd incr <= 32767 * 32767)%Z;
}.

Lemma pairs_Forall {A} (P : A -> Prop) l :
  Forall P l -> Forall (fun p => P (fst p) /\ P (snd p)) (pairs l).
Proof.
  revert l. fix IH 1. intros [|x [|y l]] H; simpl; [done|done|].
  apply Forall_cons in H as [Hx H]. apply Forall_cons in H as [Hy H].
  apply Forall_cons. split; [done|]. by apply IH.
Qed.

Lemma length_pairs {A} (l : list A) : length (pairs l) = length l / 2.
Proof.
  revert l. fix IH 1. intros [|x [|y l]]; [done|done|]. cbn [pairs length]. rewrite IH.
  replace (S (S (length l))) with (length l + 1 * 2) by lia. rewrite Nat.div_add; lia.
Qed.

Lemma ref_window_pairs taps incr window :
  q15_filter taps incr -> Forall (is_signed 16) window ->
  Forall (fun ab => q15_pair (fst ab) /\ q15_pair (snd ab) /\ not_min (snd ab))
    (zip (pairs window) (pairs taps)).
Proof.
  intros [Ht Hm _ _] Hw. apply (pairs_Forall (is_signed 16)) in Ht, Hw.
  revert Hw Ht Hm. generalize (pairs taps) (pairs window). intros l1 l Hl. revert l1.
  induction Hl as [|p l Hp Hl IH]; intros l' Hl' Hm'; simpl; [done|].
  destruct l' as [|q l']; [done|]. apply Forall_cons in Hl' as [? ?]. apply Forall_cons in Hm' as [? ?].
  apply Forall_cons. split; [done|]. by apply IH.
Qed.

Lemma length_zip_pairs (window taps : list Z) : length (zip (pairs window) (pairs taps)) <= length taps / 2.
Proof. rewrite length_zip_with, !length_pairs. lia. Qed.

Lemma dotw_cs16_exact taps incr window :
  q15_filter taps incr -> Forall (is_signed 16) window ->
  dotw_cs16 taps window = Some (csum (zip (pairs window) (pairs taps))) /\
  (- 2 ^ 46 <= fst (csum (zip (pairs window) (pairs taps))) < 2 ^ 46)%Z /\
  (- 2 ^ 46 <= snd (csum (zip (pairs window) (pairs taps))) < 2 ^ 46)%Z.
Proof.
  intros Hq Hw. pose proof (ref_window_pairs _ _ _ Hq Hw) as Hall.
  pose proof (length_zip_pairs window taps) as Hl. pose proof (q15_taps_len _ _ Hq) as Ht.
  pose proof (Nat.Div0.mul_div_le (length taps) 2).
  assert (Z.of_nat (length (zip (pairs window) (pairs taps))) <= 32768)%Z as Hz by lia.
  pose proof (csum_bound _ Hall) as Hb. cbv zeta in Hb.
  split; [|pow2; lia]. unfold dotw_cs16.
  rewrite (mac_cs16_exact _ _ 0%Z) by (done || pow2; simpl; lia).
  cbn [fst snd]. rewrite !Z.add_0_l. by rewrite <- surjective_pairing.
Qed.

Lemma fir_cs16_exact taps incr T dec s lo cnt :
  q15_filter taps incr -> Forall (is_signed 16) s ->
  fir (dotw_cs16 taps) 2 T dec s lo cnt = Some (map (ref_window taps T dec s) (seq lo cnt)) /\
  Forall (fun a => (- 2 ^ 46 <= fst a < 2 ^ 46)%Z /\ (- 2 ^ 46 <= snd a < 2 ^ 46)%Z)
    (map (ref_window taps T dec s) (seq lo cnt)).
Proof.
  intros Hq Hs. unfold fir. generalize (seq lo cnt). intros l.
  induction l as [|k l [IH1 IH2]]; [done|]. cbn [mapM map].
  destruct (dotw_cs16_exact taps incr (take (2 * T) (drop (2 * (k * dec)) s)) Hq) as (E & H1 & H2).
  { by apply Forall_take, Forall_drop. }
  rewrite E. cbn [mbind option_bind]. rewrite IH1. split; [done|]. by apply Forall_cons.
Qed.

Lemma q15_incr_pair taps incr : q15_filter taps incr -> q15_pair incr /\ not_min incr.
Proof.
  intros [_ _ _ H]. destruct incr as [c d]. unfold q15_pair, not_min, INT16_MIN in *. cbn [fst snd] in *.
  assert (- 32767 <= c <= 32767)%Z by nia. assert (- 32767 <= d <= 32767)%Z by nia.
  split; [plia|]. intros E. injection E. lia.
Qed.

Lemma emits_cs16_exact taps incr accs : q15_filter taps incr ->
  Forall (fun a => (- 2 ^ 46 <= fst a < 2 ^ 46)%Z /\ (- 2 ^ 46 <= snd a < 2 ^ 46)%Z) accs ->
  forall ph, q15_pair ph -> not_min ph ->
  emits emit_cs16 (advance_cs16 incr) accs ph = Some (ref_emits incr accs ph) /\
  q15_pair (snd (ref_emits incr accs ph)) /\ not_min (snd (ref_emits incr accs ph)).
Proof.
  intros Hq. destruct (q15_incr_pair _ _ Hq) as [Hi1 Hi2].
  induction 1 as [|a accs [H1 H2] _ IH]; intros ph Hp Hm; [done|].
  cbn [emits ref_emits]. rewrite emit_cs16_exact by done. cbn [mbind option_bind].
  unfold advance_cs16. rewrite cmul_q15_exact by eauto. cbn [mbind option_bind].
  destruct (IH (q15_round (cprod ph incr))) as (E & H3 & H4);
    [apply q15_round_pair|apply phase_not_min; [done|by apply (q15_incr taps)]|].
  unfold advance_cs16 in E. rewrite E. done.
Qed.

(** What the calls on [inputs] have to give. *)
Definition ref_outputs (taps : list Z) (f : xlating) (s : list Z) (n m : nat) : list Z * (Z * Z) :=
  let K := fir_count (taps_len f) (decimation f) in
  ref_emits (phase_incr_cs16 f)
    (map (ref_window taps (taps_len f) (decimation f) s) (seq (K n) (K (n + m) - K n)))
    (phase_cs16 f).

(** C4. Fixed-point filtering is exact and independent of how the stream is
    cut into calls: on a filter that has had the samples [s] so far, any
    sequence of calls with inputs of at most the size the filter was created
    for gives, without any overflow or access out of bounds, the outputs of
    the mathematical filter (complex FIR over the integers, decimation, mixing,
    Q15 rounding and clamping) on the whole stream, the concatenation of the
    inputs, and leaves the filter in the state that stream determines.  It needs
    taps that fit 16 bits and are not both the minimum (the products then fit
    an [int]), at most 32768 of them (the shifted sums then fit the [int32_t]
    parameter of [saturate_to_int16]) and a phase step inside the circle of
    radius 32767 (the phase then stays away from the corner (-32768, -32768),
    at which its product with a sample could overflow an [int]). *)
Theorem cs16_stream_exact taps max conv inputs f s n :
  cs16_state taps f s n -> cs16_capacity max f -> q15_filter taps (phase_incr_cs16 f) ->
  q15_pair (phase_cs16 f) -> not_min (phase_cs16 f) -> Forall (is_signed 16) s ->
  Forall (fun input => length input <= max /\ Forall (fun x => is_signed 16 (conv x)) input) inputs ->
  let new := map conv (concat (map whole_samples inputs)) in
  let m := length new / 2 in
  let '(cells, ph') := ref_outputs taps f (s ++ new) n m in
  exists f', process_all (process_cs16 conv) inputs f = Some (cells, f') /\
    cs16_state taps f' (s ++ new) (n + m) /\ phase_cs16 f' = ph' /\
    q15_pair ph' /\ not_min ph' /\ Forall (is_signed 16) (s ++ new) /\ same_cs16 f f'.
Proof.
  intros Hst Hcap Hq Hp Hm Hs Hin new m.
  assert (Forall (is_signed 16) (s ++ new)) as Hsn.
  { apply Forall_app. split; [done|]. subst new. apply Forall_map, Forall_concat, Forall_map.
    eapply Forall_impl; [exact Hin|]. intros input [_ H]. by apply Forall_take. }
  destruct (ref_outputs taps f (s ++ new) n m) as [cells ph'] eqn:Eref. unfold ref_outputs in Eref.
  set (K := fir_count (taps_len f) (decimation f)) in *.
  destruct (fir_cs16_exact taps (phase_incr_cs16 f) (taps_len f) (decimation f) (s ++ new) (K n)
              (K (n + m) - K n) Hq Hsn) as [E1 H1].
  destruct (emits_cs16_exact taps (phase_incr_cs16 f) _ Hq H1 (phase_cs16 f) Hp Hm) as (E2 & H2 & H3).
  rewrite Eref in E2, H2, H3.
  destruct (process_all_cs16_spec taps max conv inputs f s n cells ph') as (f' & ? & ? & ? & ?);
    [done|done| | |by exists f'].
  - eapply Forall_impl; [exact Hin|]. by intros input [? _].
  - unfold spec_cs16. fold K new m. by rewrite E1.
Qed.

(** ** The floating-point filter on a stream *)

Definition mac_cf32 (temp : complex) (ab : complex * complex) : complex :=
  c_add temp (c_mul (fst ab) (snd ab)).
Definition dotw_cf32 (taps window : list complex) : complex :=
  fold_left mac_cf32 (zip window taps) c_zero.

(** The static part of a filter with the (reversed) taps [taps]. *)
Record cf32_ok (taps : list complex) (f : xlating) : Prop := {
  cf32_taps_len : length taps = taps_len f;
  cf32_taps : forall a, a < 4 ->
    exists tail, taps_cf32 f !! a = Some (replicate a c_zero ++ taps ++ tail);
  cf32_alignment : alignment_cf32 f = 32%Z;
  cf32_addr : (addr_cf32 f `mod` 32 = 0)%Z;
  cf32_addr_pos : (0 <= addr_cf32 f)%Z;
  cf32_decimation : 0 < decimation f <= taps_len f;
  cf32_size : (Z.of_nat (taps_len f) < 2 ^ 64)%Z;
}.

Definition cf32_state (taps : list complex) (f : xlating) (s : list complex) : Prop :=
  cf32_ok taps f /\
  history_offset f + fir_count (taps_len f) (decimation f) (length s) * decimation f = length s /\
  holds_stream 1 (decimation f) (working_buffer_cf32 f) (history_offset f) s
    (fir_count (taps_len f) (decimation f) (length s)) /\
  Forall (fun c => c_finite c = true) (working_buffer_cf32 f).

Definition cf32_capacity (max : nat) (f : xlating) : Prop :=
  2 * (max / 2) = max /\
  length (working_buffer_cf32 f) = max / 2 + (taps_len f - 1) /\
  length (output_cf32 f) = max / 2 / decimation f + 1.

Definition same_cf32 (f f' : xlating) : Prop :=
  decimation f' = decimation f /\ taps_len f' = taps_len f /\ phase_incr f' = phase_incr f /\
  length (working_buffer_cf32 f') = length (working_buffer_cf32 f) /\
  length (output_cf32 f') = length (output_cf32 f).

(** Mixing a list of window values from a phase on. *)
Fixpoint mix (incr : complex) (accs : list complex) (ph : complex) : list complex * complex :=
  match accs with
  | [] => ([], ph)
  | a :: accs' => let r := mix incr accs' (c_mul ph incr) in (c_mul a ph :: fst r, snd r)
  end.

Definition window_cf32 (taps : list complex) (dec : nat) (s : list complex) (k : nat) : complex :=
  dotw_cf32 taps (take (length taps) (drop (k * dec) s)).

(** What a sequence of calls with [ms] samples each has to give, on the whole
    stream [s] and from the position [n] on: the windows do not depend on the
    calls, the phase is brought back to modulus one at the end of each call that
    had a full window. *)
Fixpoint ref_calls (hypotf : float -> float -> float) (taps : list complex) (incr : complex)
    (dec : nat) (s : list complex) (n : nat) (ms : list nat) (ph : complex)
    : list complex * complex :=
  match ms with
  | [] => ([], ph)
  | m :: ms' =>
      let K := fir_count (length taps) dec in
      let out := mix incr (map (window_cf32 taps dec s) (seq (K n) (K (n + m) - K n))) ph in
      let ph' := if (length taps <=? n - K n * dec + m)%nat then normalize hypotf (snd out)
                 else snd out in
      let r := ref_calls hypotf taps incr dec s (n + m) ms' ph' in
      (fst out ++ fst r, snd r)
  end.

Lemma fold_mac_zero pre : forall n,
  Forall (fun c => c_finite c = true) pre ->
  fold_left mac_cf32 (zip pre (replicate n c_zero)) c_zero = c_zero.
Proof.
  induction pre as [|c pre IH]; intros [|n] H; [done|done|done|].
  apply Forall_cons in H as [Hc H]. simpl. unfold mac_cf32 at 2. simpl.
  rewrite c_mac_zero by done. by apply IH.
Qed.

(** The shifted taps: whatever the alignment of the window, the inner loop
    computes its dot product with the taps. *)
Lemma dot_cf32_spec taps f cur :
  cf32_ok taps f -> cur + taps_len f <= length (working_buffer_cf32 f) ->
  Forall (fun c => c_finite c = true) (working_buffer_cf32 f) ->
  dot_cf32 f cur = Some (dotw_cf32 taps (take (taps_len f) (drop cur (working_buffer_cf32 f)))).
Proof.
  intros [Hl Ht Ha Haddr Hpos Hdec Hsz] Hcur Hfin. unfold dot_cf32. rewrite Ha.
  rewrite (align_split_spec _ _ 5 4 cur); [|lia|done|done|done|done].
  cbn [mbind option_bind]. set (a := cur mod 4).
  assert (a < 4) as Ha4 by (apply Nat.mod_upper_bound; lia).
  pose proof (Nat.Div0.mod_le cur 4) as Hle. fold a in Hle.
  destruct (Ht a Ha4) as [tail Htl]. rewrite Htl. cbn [mbind option_bind].
  rewrite (read_at_is_Some (working_buffer_cf32 f)) by lia. cbn [mbind option_bind].
  rewrite read_at_is_Some by (rewrite !length_app, length_replicate; lia). cbn [mbind option_bind].
  rewrite drop_0, app_assoc, take_app_le, (take_ge (_ ++ taps))
    by (rewrite length_app, length_replicate; lia).
  set (wb := working_buffer_cf32 f) in *.
  assert (take (taps_len f + a) (drop (cur - a) wb)
          = take a (drop (cur - a) wb) ++ take (taps_len f) (drop cur wb)) as ->.
  { rewrite (Nat.add_comm (taps_len f) a), <- take_take_drop, drop_drop. do 3 f_equal. lia. }
  rewrite zip_with_app by (rewrite length_take, length_drop, length_replicate; lia).
  change (fun temp ab => c_add temp (c_mul ab.1 ab.2)) with mac_cf32.
  rewrite fold_left_app, fold_mac_zero; [done|]. by apply Forall_take, Forall_drop.
Qed.

Lemma emits_mix incr accs : forall ph,
  emits (fun a ph => Some [c_mul a ph]) (fun ph => Some (c_mul ph incr)) accs ph
  = Some (mix incr accs ph).
Proof. induction accs as [|a accs IH]; intros ph; simpl; [done|]. rewrite IH. done. Qed.

Lemma length_mix incr accs : forall ph, length (fst (mix incr accs ph)) = length accs.
Proof. induction accs as [|a accs IH]; intros ph; simpl; [done|]. by rewrite IH. Qed.

Lemma fir_window taps dec s lo cnt :
  fir (fun w => Some (dotw_cf32 taps w)) 1 (length taps) dec s lo cnt
  = Some (map (window_cf32 taps dec s) (seq lo cnt)).
Proof.
  unfold fir. generalize (seq lo cnt). intros l. induction l as [|k l IH]; [done|].
  cbn [mapM map]. rewrite IH. cbn [mbind option_bind].
  unfold window_cf32. by rewrite !Nat.mul_1_l.
Qed.

(** One call: [m] samples are already stored behind the history and [s] is the
    stream with them. *)
Lemma native_cf32_spec hypotf taps f s n m :
  let T := taps_len f in
  let dec := decimation f in
  let K := fir_count T dec in
  cf32_ok taps f -> history_offset f + K n * dec = n -> length s = n + m ->
  holds_stream 1 dec (working_buffer_cf32 f) (history_offset f + m) s (K n) ->
  Forall (fun c => c_finite c = true) (working_buffer_cf32 f) ->
  m / dec + 1 <= length (output_cf32 f) ->
  let out := mix (phase_incr f) (map (window_cf32 taps dec s) (seq (K n) (K (n + m) - K n))) (phase f) in
  exists f', process_native_cf32 hypotf m f = Some (fst out, f') /\
    cf32_state taps f' s /\ same_cf32 f f' /\
    phase f' = if (T <=? n - K n * dec + m)%nat then normalize hypotf (snd out) else snd out.
Proof.
  intros T dec K Hok Hn Hs Hhold Hfin Hroom out. pose proof (cf32_decimation _ _ Hok) as Hd.
  fold T dec in Hd. set (h := history_offset f) in *.
  destruct (fir_count_call T dec h m n Hd Hn) as (Hc1 & Hc2 & Hc3). fold K in Hc1, Hc2, Hc3.
  assert (n - K n * dec = h) as Hh by lia. rewrite Hh.
  assert (length (fst out) = K (h + m)) as Hlo.
  { subst out. rewrite length_mix, length_map, length_seq. done. }
  destruct (holds_stream_keep 1 dec _ _ _ _ _ Hhold Hc2) as (wb' & Hkeep & Hlwb & Hhold' & HP).
  assert (exists out', length out' = length (output_cf32 f) /\ take (length (fst out)) out' = fst out /\
    match max_index_of (h + m) T with
    | None => Some (0, 0, phase f, output_cf32 f)
    | Some mi =>
        r ← decimate_loop (dot_cf32 f) (fun temp ph => Some [c_mul temp ph])
              (fun ph => Some (c_mul ph (phase_incr f))) (S mi) dec mi 0 0 (phase f) (output_cf32 f);
        let '(current_index, produced, ph, output) := r in
        Some (current_index, produced, normalize hypotf ph, output)
    end = Some (K (h + m) * dec, length (fst out),
                (if (T <=? h + m)%nat then normalize hypotf (snd out) else snd out), out'))
    as (out' & Hlo' & Hto & Hloop).
  { rewrite max_index_of_spec; [|lia|apply (cf32_size _ _ Hok)].
    destruct (T <=? h + m)%nat eqn:E; [apply Nat.leb_le in E|].
    - exists (fst out ++ drop (length (fst out)) (output_cf32 f)).
      rewrite length_app, length_drop, take_app_length. split; [lia|]. split; [done|].
      erewrite (stream_loop _ (fun w => Some (dotw_cf32 taps w)) _ _ 1 T dec _ _ s (K n) _ _
                  (map (window_cf32 taps dec s) (seq (K n) (K (n + m) - K n))) (fst out) (snd out));
        [|lia|lia|done|done| | |by rewrite emits_mix, <- surjective_pairing| ].
      + cbn [mbind option_bind]. reflexivity.
      + intros cur Hcur. rewrite !Nat.mul_1_l. apply dot_cf32_spec; [done| |done].
        destruct Hhold as (_ & ? & _). fold T. lia.
      + rewrite Hc1. pose proof (cf32_taps_len _ _ Hok) as Hlt. fold T in Hlt.
        rewrite <- Hlt at 1. apply fir_window.
      + lia.
    - assert (K (h + m) = 0) as HK by (subst K; unfold fir_count; by rewrite E).
      exists (output_cf32 f). subst out. rewrite Hc1, HK. done. }
  unfold process_native_cf32. fold h T dec. rewrite Hloop. cbn [mbind option_bind].
  rewrite Hkeep. cbn [mbind option_bind fst snd]. eexists. split; [by rewrite Hto|].
  split; [|unfold same_cf32; done].
  pose proof (fir_count_le T dec n (n + m) ltac:(lia) ltac:(lia)) as Hmono. fold K in Hmono.
  assert (K (n + m) = K n + K (h + m)) as Hsum by lia.
  unfold cf32_state. simpl. fold T dec K. rewrite Hs.
  split_and!; [by destruct Hok|rewrite Hsum; lia|by rewrite Hsum|by apply HP].
Qed.

Lemma length_convert_cf32 conv input : length (convert_cf32 conv input) = length input / 2.
Proof. unfold convert_cf32. by rewrite length_map, length_pairs. Qed.

Lemma cf32_state_history taps f s :
  cf32_state taps f s ->
  history_offset f <= taps_len f - 1 /\
  holds_stream 1 (decimation f) (working_buffer_cf32 f) (history_offset f) s
    (fir_count (taps_len f) (decimation f) (length s)).
Proof.
  intros (Hok & Hn & Hh & _). pose proof (cf32_decimation _ _ Hok) as Hd.
  pose proof (fir_count_split (taps_len f) (decimation f) (length s) 0 Hd) as (_ & H & _).
  simpl in *. split; [lia|done].
Qed.

(** One call of a [process_*_cf32] function on a filter that has had the
    stream [s]. *)
Lemma process_cf32_spec hypotf taps max f s conv input :
  cf32_state taps f s -> cf32_capacity max f -> length input <= max ->
  Forall (fun c => c_finite c = true) (convert_cf32 conv input) ->
  let T := taps_len f in
  let dec := decimation f in
  let K := fir_count T dec in
  let m := length input / 2 in
  let s' := s ++ convert_cf32 conv input in
  let n := length s in
  let out := mix (phase_incr f) (map (window_cf32 taps dec s') (seq (K n) (K (n + m) - K n))) (phase f) in
  exists f', process_cf32 hypotf conv input f = Some (fst out, f') /\
    cf32_state taps f' s' /\ same_cf32 f f' /\
    phase f' = if (T <=? n - K n * dec + m)%nat then normalize hypotf (snd out) else snd out.
Proof.
  intros Hst (He & Hwb & Hob) Hin Hfin T dec K m s' n out.
  destruct (cf32_state_history _ _ _ Hst) as [Hh Hhold]. destruct Hst as (Hok & Hn & _ & Hf).
  pose proof (length_convert_cf32 conv input) as Hl. fold m in Hl.
  assert (m <= max / 2) as Hm by (by apply Nat.Div0.div_le_mono).
  assert (m / dec <= max / 2 / dec) as Hmd by (by apply Nat.Div0.div_le_mono).
  destruct (holds_stream_load _ _ _ _ _ _ (convert_cf32 conv input) m Hhold) as
    (wb' & Hw & Hlw & Hhold' & HP); [lia|rewrite Hwb; lia|].
  unfold process_cf32, load_cf32. rewrite Nat.mul_1_l in Hw. rewrite Hw. cbn [mbind option_bind].
  rewrite Nat.mul_1_l, (take_ge (convert_cf32 _ _)) in Hhold' by lia.
  set (f1 := MkXlating _ _ _ _ _ _ _ _ _ _ _ _ _ _ _ _ _).
  destruct (native_cf32_spec hypotf taps f1 s' n m) as (f' & Hp & Hst' & Hsame & Hph); simpl.
  - by destruct Hok.
  - done.
  - subst s' n. rewrite length_app. lia.
  - done.
  - by apply HP.
  - rewrite Hob. unfold dec in Hmd. lia.
  - exists f'. split; [done|]. split; [done|]. split; [|done].
    unfold same_cf32 in *. simpl in Hsame. by rewrite <- Hlw.
Qed.

Lemma window_prefix taps dec s new lo cnt n :
  0 < dec -> length s = n -> lo + cnt <= fir_count (length taps) dec n ->
  map (window_cf32 taps dec (s ++ new)) (seq lo cnt) = map (window_cf32 taps dec s) (seq lo cnt).
Proof.
  intros Hd Hn Hc.
  pose proof (fir_prefix (fun w => Some (dotw_cf32 taps w)) 1 (length taps) dec s new n lo cnt Hd
                ltac:(lia) Hc) as H.
  rewrite !fir_window in H. by simplify_eq.
Qed.

(** The conversions yield finite numbers. *)
Lemma of_cu8_finite x : (0 <= x < 256)%Z -> is_finite (of_cu8 x) = true.
Proof.
  intros Hx. apply (all_from_spec (fun x => is_finite (of_cu8 x)) 256 0); [|lia].
  vm_compute. reflexivity.
Qed.

Lemma of_cs8_finite x : is_signed 8 x -> is_finite (of_cs8 x) = true.
Proof. intros Hx. apply (div_of_Z_finite 24 128 x 128); plia. Qed.

Lemma of_cs16_finite x : is_signed 16 x -> is_finite (of_cs16 x) = true.
Proof. intros Hx. apply (div_of_Z_finite 24 128 x 32768); plia. Qed.

Lemma process_all_cf32_spec hypotf taps max conv inputs : forall f s,
  cf32_state taps f s -> cf32_capacity max f ->
  Forall (fun input => length input <= max /\ Forall (fun x => is_finite (conv x) = true) input) inputs ->
  let s' := s ++ concat (map (convert_cf32 conv) inputs) in
  let '(cells, ph') := ref_calls hypotf taps (phase_incr f) (decimation f) s' (length s)
                         (map (fun input => length input / 2) inputs) (phase f) in
  exists f', process_all (process_cf32 hypotf conv) inputs f = Some (cells, f') /\
    cf32_state taps f' s' /\ phase f' = ph' /\ same_cf32 f f'.
Proof.
  induction inputs as [|input inputs IH]; intros f s Hst Hcap Hin s'.
  - simpl. subst s'. simpl. rewrite app_nil_r. exists f. unfold same_cf32. done.
  - apply Forall_cons in Hin as [[Hi Hfin] Hin].
    destruct (process_cf32_spec hypotf taps max f s conv input Hst Hcap Hi)
      as (f1 & Hp & Hst1 & Hsame & Hph).
    { unfold convert_cf32. apply Forall_map.
      eapply Forall_impl; [apply (pairs_Forall _ _ Hfin)|].
      intros [x y] [Hx Hy]. unfold c_finite. simpl in *. by rewrite Hx, Hy. }
    assert (length taps = taps_len f) as Hlt by apply Hst.
    pose proof (cf32_decimation _ _ (proj1 Hst)) as Hd.
    specialize (IH f1 (s ++ convert_cf32 conv input) Hst1).
    pose proof Hsame as (E1 & E2 & E3 & E4 & E5).
    rewrite E1, E3, <- app_assoc, length_app, length_convert_cf32 in IH.
    change (convert_cf32 conv input ++ concat (map (convert_cf32 conv) inputs))
      with (concat (map (convert_cf32 conv) (input :: inputs))) in IH. fold s' in IH. cbv zeta in IH.
    destruct (ref_calls _ _ _ _ _ _ (map _ inputs) (phase f1)) as [c2 ph2] eqn:E.
    cbn [map ref_calls]. rewrite Hlt.
    set (n := length s) in *. set (m := length input / 2) in *.
    set (K := fir_count (taps_len f) (decimation f)) in *.
    assert (map (window_cf32 taps (decimation f) s') (seq (K n) (K (n + m) - K n))
            = map (window_cf32 taps (decimation f) (s ++ convert_cf32 conv input))
                (seq (K n) (K (n + m) - K n))) as ->.
    { subst s'. cbn [map concat]. rewrite app_assoc. apply (window_prefix _ _ _ _ _ _ (n + m)); [lia| |].
      - rewrite length_app, length_convert_cf32. done.
      - rewrite Hlt. fold K. pose proof (fir_count_le (taps_len f) (decimation f) n (n + m)). fold K in H. lia. }
    rewrite <- Hph, E. cbn [fst snd]. destruct IH as (f' & Hp' & Hst' & Hph' & Hsame').
    { destruct Hcap as (? & Hc2 & Hc3). unfold cf32_capacity. rewrite E1, E2, E4, E5. done. }
    { done. }
    exists f'. cbn [process_all]. rewrite Hp. cbn [mbind option_bind fst snd]. rewrite Hp'.
    split; [done|]. split_and!; try done.
    unfold same_cf32 in *. by rewrite <- E1, <- E2, <- E3, <- E4, <- E5.
Qed.

(** C3. Floating-point filtering of a stream: on a filter that has had the
    samples [s] so far, any sequence of calls of a [process_*_cf32] function
    with inputs of at most the size the filter was created for runs without an
    access out of bounds and gives, bit for bit, the decimated FIR of the whole
    stream (each window is multiplied and summed in the same order whatever its
    alignment in memory and whatever call it falls in, a window that spans two
    calls included) mixed by the running phase; the filter ends in the state
    that the stream determines.  Only the phase sees the calls: it is normalised
    at the end of each call that had a full window. *)
Theorem cf32_stream_correct hypotf taps max conv inputs f s :
  cf32_state taps f s -> cf32_capacity max f ->
  Forall (fun input => length input <= max /\ Forall (fun x => is_finite (conv x) = true) input) inputs ->
  let s' := s ++ concat (map (convert_cf32 conv) inputs) in
  let '(cells, ph') := ref_calls hypotf taps (phase_incr f) (decimation f) s' (length s)
                         (map (fun input => length input / 2) inputs) (phase f) in
  exists f', process_all (process_cf32 hypotf conv) inputs f = Some (cells, f') /\
    cf32_state taps f' s' /\ phase f' = ph' /\ same_cf32 f f'.
Proof. apply process_all_cf32_spec. Qed.

(** ** Lemmas: the reversal loop *)

Lemma reverse_loop_app {A} r1 r2 : forall i (l : list A),
  reverse_loop (r1 + r2) i l = (l' ← reverse_loop r1 i l; reverse_loop r2 (i + r1) l').
Proof.
  induction r1 as [|r1 IH]; intros i l; simpl; [by rewrite Nat.add_0_r|].
  destruct (l !! (length l - 1 - i)%nat) as [a|]; cbn [mbind option_bind]; [|done].
  destruct (l !! i) as [b|]; cbn [mbind option_bind]; [|done].
  rewrite IH. by replace (i + S r1) with (S i + r1) by lia.
Qed.

(** Up to the middle each iteration exchanges a new pair. *)
Lemma reverse_loop_lookup {A} r : forall i (l : list A),
  2 * (i + r) <= S (length l) ->
  exists l', reverse_loop r i l = Some l' /\ length l' = length l /\
    forall j, j < length l ->
      l' !! j = if bool_decide (i <= j < i + r \/ i <= length l - 1 - j < i + r)
                then l !! (length l - 1 - j) else l !! j.
Proof.
  induction r as [|r IH]; intros i l Hr.
  - exists l. split; [done|]. split; [done|]. intros j Hj. rewrite bool_decide_false by lia. done.
  - simpl. destruct (lookup_lt_is_Some_2 l (length l - 1 - i)) as [a Ea]; [lia|].
    destruct (lookup_lt_is_Some_2 l i) as [b Eb]; [lia|]. rewrite Ea, Eb. simpl.
    set (l1 := <[i := a]> (<[(length l - 1 - i)%nat := b]> l)).
    assert (length l1 = length l) as Hl1 by (subst l1; by rewrite !length_insert).
    destruct (IH (S i) l1) as (l' & E & Hl & Hj); [lia|]. exists l'. split; [done|].
    split; [lia|]. intros j Hlt. rewrite Hj, Hl1 by lia.
    assert (forall k, k < length l -> l1 !! k = if bool_decide (k = i) then Some a else
              if bool_decide (k = length l - 1 - i) then Some b else l !! k) as Hl1k.
    { intros k Hk. subst l1. case_bool_decide; [subst k|rewrite list_lookup_insert_ne by done].
      - rewrite list_lookup_insert_eq by (rewrite length_insert; lia). done.
      - case_bool_decide; [subst k; rewrite list_lookup_insert_eq by lia; done|].
        by rewrite list_lookup_insert_ne. }
    rewrite !Hl1k by lia. repeat case_bool_decide; try lia; try done;
      try (rewrite <- Ea || rewrite <- Eb); f_equal; lia.
Qed.

Lemma reverse_lookup_eq {A} (l l' : list A) :
  length l' = length l -> (forall j, j < length l -> l' !! j = l !! (length l - 1 - j)) ->
  l' = reverse l.
Proof.
  intros Hl Hj. apply list_eq. intros j. destruct (decide (j < length l)).
  - rewrite Hj, reverse_lookup by done. f_equal. lia.
  - rewrite !lookup_ge_None_2; [done|rewrite length_reverse|]; lia.
Qed.

Lemma reverse_taps_odd {A} (l : list A) :
  length l `mod` 2 = 1 -> reverse_taps l = Some (reverse l).
Proof.
  intros Hodd. pose proof (Nat.Div0.div_mod (length l) 2) as Hdm. unfold reverse_taps.
  destruct (reverse_loop_lookup (S (length l / 2)) 0 l) as (l' & -> & Hl & Hj); [lia|].
  f_equal. apply reverse_lookup_eq; [done|]. intros j Hlt. rewrite Hj by done.
  by rewrite bool_decide_true by lia.
Qed.

Lemma reverse_taps_even {A} (l1 l2 : list A) x y :
  length l1 = length l2 -> reverse_taps (l1 ++ x :: y :: l2) = Some (reverse l2 ++ x :: y :: reverse l1).
Proof.
  intros Hll. unfold reverse_taps. set (l := l1 ++ x :: y :: l2).
  assert (length l = 2 * S (length l1)) as Hl by (subst l; rewrite length_app; simpl; lia).
  rewrite Hl, Nat.mul_comm, Nat.div_mul by lia.
  replace (S (S (length l1))) with (S (length l1) + 1) by lia. rewrite reverse_loop_app.
  destruct (reverse_loop_lookup (S (length l1)) 0 l) as (l' & -> & Hl' & Hj); [lia|].
  assert (l' = reverse l2 ++ y :: x :: reverse l1) as ->.
  { replace (reverse l2 ++ y :: x :: reverse l1) with (reverse l).
    - apply reverse_lookup_eq; [done|]. intros j Hlt. rewrite Hj by done.
      by rewrite bool_decide_true by lia.
    - subst l. rewrite reverse_app, !reverse_cons, <- !app_assoc. done. }
  cbn [mbind option_bind reverse_loop]. set (p := reverse l2) in *.
  assert (length p = length l1) as Hp by (subst p; by rewrite length_reverse).
  rewrite length_app. cbn [length]. rewrite length_reverse, Hp.
  replace (length l1 + S (S (length l1)) - 1 - (0 + S (length l1))) with (length l1) by lia.
  rewrite (list_lookup_middle p _ _ (length l1)) by lia. cbn [mbind option_bind].
  change (p ++ y :: x :: reverse l1) with (p ++ [y] ++ x :: reverse l1). rewrite app_assoc.
  rewrite (list_lookup_middle (p ++ [y]) _ _ (0 + S (length l1))) by (rewrite length_app; simpl; lia). cbn [mbind option_bind].
  rewrite <- app_assoc. replace (length l1) with (length p + 0) at 2 by lia. rewrite insert_app_r.
  replace (0 + S (length l1)) with (length p + 1) by lia. rewrite insert_app_r. done.
Qed.

(** ** Creation *)

Lemma q15_of_taps_length bpf cells :
  mapM q15_of_tap bpf = Some cells -> length (concat cells) = 2 * length bpf.
Proof.
  revert cells. induction bpf as [|c bpf IH]; intros cells H; simpl in H; [injection H as <-; done|].
  apply bind_Some in H as (x & Hx & H). apply bind_Some in H as (xs & Hxs & H). injection H as <-.
  cbn [concat]. rewrite length_app, (IH _ Hxs). unfold q15_of_tap in Hx.
  apply bind_Some in Hx as (re & _ & Hx). apply bind_Some in Hx as (im & _ & Hx). simplify_eq.
  simpl. lia.
Qed.

Lemma write_replicate {A} n i (z : A) src :
  i + length src <= n ->
  write_at (replicate n z) i src = Some (replicate i z ++ src ++ replicate (n - i - length src) z).
Proof.
  intros H. rewrite write_at_is_Some by (rewrite length_replicate; lia).
  rewrite take_replicate, drop_replicate. do 2 f_equal; [f_equal; lia|]. do 2 f_equal. lia.
Qed.

Lemma create_aligned_taps_spec malloc_ok bpf cells :
  (forall k, malloc_ok k = true) -> mapM q15_of_tap bpf = Some cells ->
  exists t32 t16, create_aligned_taps malloc_ok bpf = Some (0%Z, t32, t16) /\
    (forall a, a < 4 -> exists tail, t32 !! a = Some (replicate a c_zero ++ bpf ++ tail)) /\
    (exists tail, t16 !! 0%nat = Some (concat cells ++ tail)).
Proof.
  intros Hm Hq. pose proof (q15_of_taps_length _ _ Hq) as Hl. unfold create_aligned_taps.
  rewrite !Hm. cbn [negb orb]. unfold ensure.
  replace (forallb malloc_ok (seq 4 6)) with true by (symmetry; apply forallb_forall; intros; apply Hm).
  cbn [mbind option_bind seq number_of_aligned_cf32 number_of_aligned_cs16 mapM].
  unfold aligned_taps_cf32, aligned_taps_cs16, number_of_aligned_cf32, number_of_aligned_cs16. rewrite Hq.
  rewrite !write_replicate by lia. cbn [mbind option_bind]. rewrite !write_replicate by lia.
  cbn [mbind option_bind]. eexists _, _. split; [done|]. split.
  - intros [|[|[|[|a]]]] Ha; [..|lia]; eexists; reflexivity.
  - eexists. reflexivity.
Qed.

Lemma holds_zeros {A} stride dec n cap (z : A) :
  n <= cap ->
  holds_stream stride dec (replicate (stride * cap) z) n (replicate (stride * n) z) 0.
Proof.
  intros H. unfold holds_stream. rewrite !length_replicate, Nat.mul_0_l, Nat.mul_0_r, drop_0.
  split; [|split; [nia|lia]]. rewrite take_replicate. f_equal. nia.
Qed.

Lemma create_filter_spec cexpf malloc_ok addr32 addr16 g32 g16 decimation taps center_freq
    sampling_freq max cells ir ii :
  (forall k, malloc_ok k = true) ->
  (0 <= addr32)%Z -> (addr32 `mod` 32 = 0)%Z -> (0 <= addr16)%Z -> (addr16 `mod` 32 = 0)%Z ->
  length taps `mod` 2 = 1 -> 0 < decimation <= length taps -> (Z.of_nat (length taps) < 2 ^ 64)%Z ->
  2 * (max / 2) = max ->
  let fwT0 := angular_freq center_freq sampling_freq in
  let bpf := reverse (bpf_taps cexpf fwT0 taps) in
  let incr := cis cexpf (f32_mul (f_neg fwT0) (f32_of_Z (Z.of_nat decimation))) in
  mapM q15_of_tap bpf = Some cells ->
  to_int 16 (f32_mul (creal incr) (f32_of_Z INT16_MAX)) = Some ir ->
  to_int 16 (f32_mul (cimag incr) (f32_of_Z INT16_MAX)) = Some ii ->
  exists f, create_frequency_xlating_filter cexpf malloc_ok addr32 addr16 g32 g16 decimation taps
              center_freq sampling_freq max = Some (0%Z, Some f) /\
    Xlating.decimation f = decimation /\ taps_len f = length taps /\
    cf32_state bpf f (replicate (length taps - 1) c_zero) /\ cf32_capacity max f /\
    phase f = (f32_of_Z 1, f_zero) /\ phase_incr f = incr /\
    cs16_state (concat cells) f (replicate (2 * (length taps - 1)) 0%Z) (length taps - 1) /\
    cs16_capacity max f /\ phase_cs16 f = (INT16_MAX, 0)%Z /\ phase_incr_cs16 f = (ir, ii).
Proof.
  intros Hm H32 H32m H16 H16m Hodd Hdec Hsz Hmax fwT0 bpf incr Hq Hir Hii.
  assert (length (bpf_taps cexpf fwT0 taps) = length taps) as Hlb
    by (unfold bpf_taps; by rewrite length_imap).
  destruct (create_aligned_taps_spec malloc_ok bpf cells Hm Hq) as (t32 & t16 & Hct & Ht32 & Ht16).
  unfold create_frequency_xlating_filter. rewrite !Hm. cbn [negb orb].
  replace (length taps =? 0)%nat with false by (symmetry; apply Nat.eqb_neq; lia).
  fold fwT0 incr. rewrite reverse_taps_odd by (by rewrite Hlb). cbn [mbind option_bind]. fold bpf.
  rewrite Hct. cbn [mbind option_bind Z.eqb negb]. rewrite Hir, Hii. cbn [mbind option_bind].
  unfold ensure. replace (0 <? decimation)%nat with true by (symmetry; apply Nat.ltb_lt; lia).
  cbn [mbind option_bind]. eexists. split; [done|]. cbn.
  assert (fir_count (length taps) decimation (length taps - 1) = 0) as Hfc.
  { unfold fir_count. by rewrite (proj2 (Nat.leb_gt _ _)) by lia. }
  set (h := length taps - 1) in *.
  assert (addr16 `mod` 4 = 0)%Z as H16m4.
  { replace addr16 with (addr16 / 32 * 8 * 4)%Z by (pose proof (Z.div_mod addr16 32); lia).
    apply Z.mod_mul. lia. }
  split_and!; try done.
  - split_and!; cbn; rewrite ?length_replicate, ?Hfc.
    + split; cbn; try done. subst bpf. by rewrite length_reverse.
    + lia.
    + pose proof (holds_zeros 1 decimation h (max / 2 + h) c_zero ltac:(lia)) as H.
      by rewrite !Nat.mul_1_l in H.
    + by apply Forall_replicate.
  - split_and!; cbn; [done|by rewrite length_replicate|apply length_resize].
  - split_and!; cbn; rewrite ?Hfc; [split; cbn; try done| |].
    + rewrite (q15_of_taps_length _ _ Hq). subst bpf. by rewrite length_reverse, Hlb.
    + lia.
    + apply (holds_zeros 2 decimation h (max / 2 + h) 0%Z). lia.
  - split_and!; cbn; [done|by rewrite length_replicate|apply length_resize].
Qed.

(** C14. Creation: with an odd number of taps, at least as many as the
    decimation, an even maximum input length, allocations that succeed and
    aligned working buffers, [create_frequency_xlating_filter] returns 0 and a
    filter whose two halves are in the state of a stream of [taps_len - 1]
    zeros, for the band-pass taps in reverse order (converted to Q15 for the
    fixed-point half), with buffers of the capacity that the processing
    functions rely on, the phase at one and the phase step of the derotator. *)
Theorem create_filter_correct cexpf malloc_ok addr32 addr16 g32 g16 decimation taps center_freq
    sampling_freq max cells ir ii :
  (forall k, malloc_ok k = true) ->
  (0 <= addr32)%Z -> (addr32 `mod` 32 = 0)%Z -> (0 <= addr16)%Z -> (addr16 `mod` 32 = 0)%Z ->
  length taps `mod` 2 = 1 -> 0 < decimation <= length taps -> (Z.of_nat (length taps) < 2 ^ 64)%Z ->
  2 * (max / 2) = max ->
  let fwT0 := angular_freq center_freq sampling_freq in
  let bpf := reverse (bpf_taps cexpf fwT0 taps) in
  let incr := cis cexpf (f32_mul (f_neg fwT0) (f32_of_Z (Z.of_nat decimation))) in
  mapM q15_of_tap bpf = Some cells ->
  to_int 16 (f32_mul (creal incr) (f32_of_Z INT16_MAX)) = Some ir ->
  to_int 16 (f32_mul (cimag incr) (f32_of_Z INT16_MAX)) = Some ii ->
  exists f, create_frequency_xlating_filter cexpf malloc_ok addr32 addr16 g32 g16 decimation taps
              center_freq sampling_freq max = Some (0%Z, Some f) /\
    Xlating.decimation f = decimation /\ taps_len f = length taps /\
    cf32_state bpf f (replicate (length taps - 1) c_zero) /\ cf32_capacity max f /\
    phase f = (f32_of_Z 1, f_zero) /\ phase_incr f = incr /\
    cs16_state (concat cells) f (replicate (2 * (length taps - 1)) 0%Z) (length taps - 1) /\
    cs16_capacity max f /\ phase_cs16 f = (INT16_MAX, 0)%Z /\ phase_incr_cs16 f = (ir, ii).
Proof. apply create_filter_spec. Qed.

(** The reversal of the taps: correct for an odd number of taps, which is
    what [computeNtaps] gives; for an even number the loop bound exchanges the
    middle pair twice, so that it keeps its original order. *)
Theorem reverse_taps_correct {A} (l1 l2 : list A) (x y : A) :
  length l1 = length l2 ->
  reverse_taps (l1 ++ x :: l2) = Some (reverse (l1 ++ x :: l2)) /\
  reverse_taps (l1 ++ x :: y :: l2) = Some (reverse l2 ++ x :: y :: reverse l1).
Proof.
  intros Hl. split; [|by apply reverse_taps_even]. apply reverse_taps_odd.
  rewrite length_app. cbn [length]. rewrite Hl.
  replace (length l2 + S (length l2)) with (1 + length l2 * 2) by lia.
  by rewrite Nat.Div0.mod_add.
Qed.

Lemma phase_step_decays p :
  (0 <= p <= INT16_MAX)%Z ->
  q15_round (cprod (p, 0%Z) (INT16_MAX, 0%Z)) = (Z.max 0 (p - 1), 0%Z).
Proof.
  unfold INT16_MAX. intros Hp. unfold q15_round, cprod, clamp16, INT16_MAX, INT16_MIN. cbn [fst snd].
  rewrite !Z.mul_0_l, !Z.mul_0_r, Z.sub_0_r, Z.add_0_r. change (0 / 2 ^ 15)%Z with 0%Z.
  apply (f_equal (fun z => (z, 0%Z))). pow2.
  destruct (decide (p = 0)%Z) as [->|Hne]; [done|].
  replace (p * 32767 / 32768)%Z with (p - 1)%Z; [lia|].
  apply (Z.div_unique _ _ _ (32768 - p)); lia.
Qed.

Lemma phase_decays_from accs :
  Forall (fun a => (- 2 ^ 46 <= fst a < 2 ^ 46)%Z /\ (- 2 ^ 46 <= snd a < 2 ^ 46)%Z) accs ->
  forall p, (Z.of_nat p <= INT16_MAX)%Z ->
  exists cells, emits emit_cs16 (advance_cs16 (INT16_MAX, 0)%Z) accs (Z.of_nat p, 0%Z)
    = Some (cells, (Z.max 0 (Z.of_nat p - Z.of_nat (length accs)), 0)%Z) /\
    drop (2 * p) cells = replicate (2 * (length accs - p)) 0%Z.
Proof.
  unfold INT16_MAX. induction 1 as [|a accs [H1 H2] _ IH]; intros p Hp.
  - exists []. split; [simpl; do 3 f_equal; lia|by rewrite drop_nil].
  - destruct (IH (p - 1)) as (cells & E & Hd); [lia|]. cbn [emits length].
    rewrite emit_cs16_exact by (done || (split; cbn; plia) || (intros Hc; injection Hc; lia)).
    cbn [mbind option_bind]. unfold advance_cs16 in *.
    rewrite cmul_q15_exact; [|split; cbn; plia|split; cbn; plia|right; intros Hc; discriminate].
    rewrite phase_step_decays by (unfold INT16_MAX; lia). cbn [mbind option_bind].
    replace (Z.max 0 (Z.of_nat p - 1)) with (Z.of_nat (p - 1)) by lia. rewrite E.
    cbn [mbind option_bind fst snd]. eexists. split; [do 3 f_equal; lia|].
    destruct p as [|p].
    + change (0 - 1) with 0 in Hd. rewrite Nat.mul_0_r, drop_0, !Nat.sub_0_r in *. rewrite Hd.
      unfold cprod. cbn [fst snd Z.of_nat]. rewrite !Z.mul_0_r, Nat.mul_succ_r, Nat.add_comm. done.
    + replace (2 * S p) with (2 + 2 * p) by lia. cbn [Nat.add app drop].
      replace (S p - 1) with p in Hd by lia. rewrite Hd. done.
Qed.

(** The fixed-point phase loses one unit per output when the channel is at
    the centre of the band (the phase step is then (32767, 0), one in Q15 being
    32768): it reaches zero after 32767 outputs and every later output is
    zero, whatever the signal. *)
Theorem cs16_phase_decays accs :
  Forall (fun a => (- 2 ^ 46 <= fst a < 2 ^ 46)%Z /\ (- 2 ^ 46 <= snd a < 2 ^ 46)%Z) accs ->
  exists cells, emits emit_cs16 (advance_cs16 (INT16_MAX, 0)%Z) accs (INT16_MAX, 0)%Z
    = Some (cells, (Z.max 0 (INT16_MAX - Z.of_nat (length accs)), 0)%Z) /\
    drop (2 * Z.to_nat INT16_MAX) cells = replicate (2 * (length accs - Z.to_nat INT16_MAX)) 0%Z.
Proof.
  intros Hall. apply (phase_decays_from accs Hall (Z.to_nat INT16_MAX)). unfold INT16_MAX. lia.
Qed.

(** ** Witnesses *)

(** A three-tap filter for inputs of 8 values, with decimation 2. *)
Definition quarter : float := f32_div (f32_of_Z 1) (f32_of_Z 4).
Definition example_cexpf (c : complex) : complex := (f32_add quarter quarter, cimag c).
Definition example_hypotf (x y : float) : float :=
  SpecFloat.SFsqrt 24 128 (f32_add (f32_mul x x) (f32_mul y y)).
Definition example_taps : list float := [quarter; f32_add quarter quarter; quarter].
Definition example_bpf : list complex :=
  reverse (bpf_taps example_cexpf (angular_freq 1000 48000) example_taps).
Definition example_cells : list Z := default [] (@concat Z <$> mapM q15_of_tap example_bpf).
Definition example_filter : xlating :=
  match create_frequency_xlating_filter example_cexpf (fun _ => true) 64 128 [] [] 2
          example_taps 1000 48000 8 with
  | Some (_, Some f) => f
  | _ => MkXlating 0 [] 0 [] 0 0 0 [] 0 [] 0 [] [] c_zero c_zero (0, 0)%Z (0, 0)%Z
  end.

Lemma example_cs16_state : cs16_state example_cells example_filter (replicate 4 0%Z) 2.
Proof.
  split_and!; [|vm_compute; reflexivity|split_and!; vm_compute; (reflexivity || lia)].
  split; try (vm_compute; (reflexivity || congruence || lia)).
  eexists. vm_compute. reflexivity.
Qed.

Lemma example_cf32_state : cf32_state example_bpf example_filter (replicate 2 c_zero).
Proof.
  split_and!; [|vm_compute; reflexivity|split_and!; vm_compute; (reflexivity || lia)|].
  - split; try (vm_compute; (reflexivity || congruence || lia)).
    intros [|[|[|[|a]]]] Ha; [..|lia]; eexists; vm_compute; reflexivity.
  - apply Forall_forall. intros c Hc. vm_compute in Hc.
    repeat (apply elem_of_cons in Hc as [->|Hc]; [reflexivity|]). by apply not_elem_of_nil in Hc.
Qed.

Lemma cs16_stream_exact_witness :
  exists f', process_all (process_cs16 q15_of_cu8) [[1; 2; 3; 4; 5; 6; 7; 8]%Z; [255; 0]%Z] example_filter
    = Some ([-4064; -4032; -11166; -6953; -5821; -2653]%Z, f') /\ phase_cs16 f' = (726, -5845)%Z.
Proof.
  assert (ref_outputs example_cells example_filter (replicate 4 0%Z ++
    map q15_of_cu8 (concat (map whole_samples [[1; 2; 3; 4; 5; 6; 7; 8]%Z; [255; 0]%Z]))) 2 5
    = ([-4064; -4032; -11166; -6953; -5821; -2653]%Z, (726, -5845)%Z)) as E by (vm_compute; reflexivity).
  pose proof (cs16_stream_exact example_cells 8 q15_of_cu8 [[1; 2; 3; 4; 5; 6; 7; 8]%Z; [255; 0]%Z]
    example_filter (replicate 4 0%Z) 2 example_cs16_state) as H.
  assert (forall p, p = (16383, -8578)%Z \/ p = (32767, 0)%Z -> q15_pair p /\ not_min p) as Hpair.
  { intros p [-> | ->]; (split; [split; cbn; plia|intros Hc; discriminate]). }
  destruct (Hpair (phase_cs16 example_filter)) as [Hq Hm]; [right; vm_compute; reflexivity|].
  cbv zeta in H. change (length _ / 2) with 5 in H. rewrite E in H.
  destruct H as (f' & Hp & _ & Hph & _); [split_and!; vm_compute; reflexivity| |done|done| | |].
  - assert (example_cells = [4096; 2144; 8192; 2144; 4096; 0]%Z) as -> by (vm_compute; reflexivity).
    assert (phase_incr_cs16 example_filter = (16383, -8578)%Z) as -> by (vm_compute; reflexivity). split.
    + repeat (apply Forall_cons; split; [plia|]); apply Forall_nil; done.
    + repeat (apply Forall_cons; split; [intros Hc; discriminate|]); apply Forall_nil; done.
    + vm_compute. congruence.
    + vm_compute. congruence.
  - repeat (apply Forall_cons; split; [plia|]); apply Forall_nil; done.
  - repeat (apply Forall_cons; split;
      [split; [simpl; lia|repeat (apply Forall_cons; split; [vm_compute; split; congruence|]); apply Forall_nil; done]|]);
      apply Forall_nil; done.
  - exists f'. exact (conj Hp Hph).
Defined.

Lemma cf32_stream_correct_witness :
  exists cells f', process_all (process_cf32 example_hypotf of_cs8) [[1; -2; 3; 4; 5; 6; 7; -128]%Z; [127; 0]%Z]
    example_filter = Some (cells, f') /\ length cells = 3 /\
    cells !! 1%nat = Some (c_mul (window_cf32 example_bpf 2 (replicate 2 c_zero ++
      convert_cf32 of_cs8 [1; -2; 3; 4; 5; 6; 7; -128]%Z) 1) (c_mul (f32_of_Z 1, f_zero) (phase_incr example_filter))).
Proof.
  pose proof (cf32_stream_correct example_hypotf example_bpf 8 of_cs8
    [[1; -2; 3; 4; 5; 6; 7; -128]%Z; [127; 0]%Z] example_filter (replicate 2 c_zero) example_cf32_state) as H.
  cbv zeta in H. destruct (ref_calls _ _ _ _ _ _ _ _) as [cells ph] eqn:E in H.
  destruct H as (f' & Hp & _); [split_and!; vm_compute; reflexivity| |].
  - repeat (apply Forall_cons; split;
      [split; [simpl; lia|repeat (apply Forall_cons; split; [vm_compute; reflexivity|]); apply Forall_nil; done]|]);
      apply Forall_nil; done.
  - exists cells, f'. split; [exact Hp|].
    assert (cells = fst (cells, ph)) as -> by done. rewrite <- E. split; vm_compute; reflexivity.
Defined.

Lemma create_filter_correct_witness :
  exists f, create_frequency_xlating_filter example_cexpf (fun _ => true) 64 128 [] [] 2
    example_taps 1000 48000 8 = Some (0%Z, Some f) /\ history_offset f = 2 /\
    cf32_state example_bpf f (replicate 2 c_zero) /\ phase_incr_cs16 f = (16383, -8578)%Z.
Proof.
  destruct (create_filter_correct example_cexpf (fun _ => true) 64 128 [] [] 2 example_taps 1000 48000 8
    (default [] (mapM q15_of_tap example_bpf)) 16383 (-8578)) as
    (f & E & _ & _ & Hst & _ & _ & _ & _ & _ & _ & Hincr);
    try (vm_compute; (reflexivity || congruence || lia)).
  exists f. split; [exact E|]. split; [|exact (conj Hst Hincr)]. clear - E. vm_compute in E. simplify_eq. reflexivity.
Defined.

Lemma reverse_taps_correct_witness :
  reverse_taps [1; 2; 3]%Z = Some [3; 2; 1]%Z /\ reverse_taps [1; 2; 3; 4]%Z = Some [4; 2; 3; 1]%Z.
Proof.
  split; [apply (reverse_taps_correct [1%Z] [3%Z] 2%Z 0%Z)|apply (reverse_taps_correct [1%Z] [4%Z] 2%Z 3%Z)];
    reflexivity.
Defined.

Lemma cs16_phase_decays_witness :
  exists cells, emits emit_cs16 (advance_cs16 (INT16_MAX, 0)%Z) [(1000000, 5)%Z; (-3, 2 ^ 40)%Z] (INT16_MAX, 0)%Z
    = Some (cells, (32765, 0)%Z).
Proof.
  destruct (cs16_phase_decays [(1000000, 5)%Z; (-3, 2 ^ 40)%Z]) as (cells & E & _).
  - repeat (apply Forall_cons; split; [cbn; lia|]); apply Forall_nil; done.
  - exists cells. exact E.
Defined.

End Xlating.
