(* ===== verification/FilterTypes.v ===== *)
(** * Type soundness of the filter functions of src/xlating.c

    A filter is used through twelve functions, for three types of samples, two
    formats and two variants.  The formats share [history_offset] and the taps, so
    that calls of both on one filter disturb each other's stream.  Whatever the
    sequence of calls, though, no access leaves its buffer, no signed operation
    overflows and the filter stays well typed: that is stated and proved here,
    without any relation to a stream. *)
From S2P Require Import Prelude Float Xlating.
Import Float Xlating.

Module FilterTypes.

(** The types of the samples: [uint8_t], [int8_t] and [int16_t]. *)
Inductive sample_type := CU8 | CS8 | CS16.

Definition is_sample (t : sample_type) (x : Z) : Prop :=
  match t with CU8 => is_unsigned 8 x | CS8 => is_signed 8 x | CS16 => is_signed 16 x end.

(** A call: the function, named by the type of its samples and its format, and the
    input. *)
Inductive filter_call :=
| ProcessCf32 (optimized : bool) (t : sample_type) (input : list Z)
| ProcessCs16 (optimized : bool) (t : sample_type) (input : list Z).

Inductive filter_output :=
| OutCf32 (output : list complex)
| OutCs16 (output : list Z).

Section calls.
Context (hypotf : float -> float -> float).

Definition exec_call (c : filter_call) (f : xlating) : option (filter_output * xlating) :=
  match c with
  | ProcessCf32 optimized t input =>
      r ← match t, optimized with
          | CU8, false => process_native_cu8_cf32 hypotf input f
          | CS8, false => process_native_cs8_cf32 hypotf input f
          | CS16, false => process_native_cs16_cf32 hypotf input f
          | CU8, true => process_optimized_cu8_cf32 hypotf input f
          | CS8, true => process_optimized_cs8_cf32 hypotf input f
          | CS16, true => process_optimized_cs16_cf32 hypotf input f
          end;
      Some (OutCf32 (fst r), snd r)
  | ProcessCs16 optimized t input =>
      r ← match t, optimized with
          | CU8, false => process_native_cu8_cs16 input f
          | CS8, false => process_native_cs8_cs16 input f
          | CS16, false => process_native_cs16_cs16 input f
          | CU8, true => process_optimized_cu8_cs16 input f
          | CS8, true => process_optimized_cs8_cs16 input f
          | CS16, true => process_optimized_cs16_cs16 input f
          end;
      Some (OutCs16 (fst r), snd r)
  end.

Fixpoint exec_calls (calls : list filter_call) (f : xlating) : option (list filter_output * xlating) :=
  match calls with
  | [] => Some ([], f)
  | c :: calls' =>
      r ← exec_call c f;
      rest ← exec_calls calls' (snd r);
      Some (fst r :: fst rest, snd rest)
  end.
End calls.

(** ** The types *)

Definition call_input (c : filter_call) : sample_type * list Z :=
  match c with ProcessCf32 _ t input | ProcessCs16 _ t input => (t, input) end.

(** A call with an input of its type, no longer than the filter was created for. *)
Definition call_typed (max : nat) (c : filter_call) : Prop :=
  length (snd (call_input c)) <= max /\ Forall (is_sample (fst (call_input c))) (snd (call_input c)).

(** The output of a call: samples of its format, no more than fit the buffer. *)
Definition output_typed (max : nat) (f : xlating) (c : filter_call) (out : filter_output) : Prop :=
  match c, out with
  | ProcessCf32 _ _ _, OutCf32 output => length output <= max / 2 / decimation f + 1
  | ProcessCs16 _ _ _, OutCs16 output =>
      length output <= 2 * (max / 2 / decimation f + 1) /\ Forall (is_signed 16) output
  | _, _ => False
  end.

(** What no call changes. *)
Record shape_typed (max : nat) (f : xlating) : Prop := {
  typed_max : 2 * (max / 2) = max;
  typed_decimation : 0 < decimation f <= taps_len f;
  typed_taps_len : taps_len f <= Z.to_nat 32768;
  typed_align32 : alignment_cf32 f = 32%Z /\ (0 <= addr_cf32 f)%Z /\ (addr_cf32 f `mod` 32 = 0)%Z;
  typed_align16 : alignment_cs16 f = 4%Z /\ (0 <= addr_cs16 f)%Z /\ (addr_cs16 f `mod` 4 = 0)%Z;
  typed_rows32 : forall a, a < 4 -> exists row, taps_cf32 f !! a = Some row /\ taps_len f + a <= length row;
  typed_row16 : exists taps tail, taps_cs16 f !! 0 = Some (taps ++ tail) /\ length taps = 2 * taps_len f /\
    q15_filter taps (phase_incr_cs16 f);
}.

(** A well-typed filter: the buffers have their lengths, the 16-bit cells their
    range, the history leaves room for an input, and the fixed-point phase is off the
    corner at which a product would overflow. *)
Record well_typed (max : nat) (f : xlating) : Prop := {
  typed_shape : shape_typed max f;
  typed_history : history_offset f <= taps_len f - 1;
  typed_working32 : length (working_buffer_cf32 f) = max / 2 + (taps_len f - 1);
  typed_working16 : length (working_buffer_cs16 f) = 2 * (max / 2 + (taps_len f - 1)) /\
    Forall (is_signed 16) (working_buffer_cs16 f);
  typed_output32 : length (output_cf32 f) = max / 2 / decimation f + 1;
  typed_output16 : length (output_cs16 f) = 2 * (max / 2 / decimation f + 1) /\
    Forall (is_signed 16) (output_cs16 f);
  typed_phase : q15_pair (phase_cs16 f) /\ not_min (phase_cs16 f);
}.

(** The fields that the calls leave alone. *)
Definition same_shape (f f' : xlating) : Prop :=
  decimation f' = decimation f /\ taps_cf32 f' = taps_cf32 f /\ alignment_cf32 f' = alignment_cf32 f /\
  taps_cs16 f' = taps_cs16 f /\ alignment_cs16 f' = alignment_cs16 f /\ taps_len f' = taps_len f /\
  addr_cf32 f' = addr_cf32 f /\ addr_cs16 f' = addr_cs16 f /\
  phase_incr f' = phase_incr f /\ phase_incr_cs16 f' = phase_incr_cs16 f.

(** ** Lemmas: the output loop *)

Section loop.
Context {Cell Acc Phase : Type}.
Context (dot : nat -> option Acc) (emit : Acc -> Phase -> option (list Cell))
        (advance : Phase -> option Phase).
Context (A : Acc -> Prop) (P : Phase -> Prop) (C : Cell -> Prop) (per dec max_index : nat).
Context (Hdot : forall current, current < max_index -> exists a, dot current = Some a /\ A a).
Context (Hemit : forall a ph, A a -> P ph -> exists cells, emit a ph = Some cells /\ length cells = per /\ Forall C cells).
Context (Hadvance : forall ph, P ph -> exists ph', advance ph = Some ph' /\ P ph').

(** The loop is total and keeps the types, provided the output has room. *)
Lemma decimate_loop_typed fuel : forall current produced ph output,
  0 < dec -> max_index - current <= fuel -> P ph -> Forall C output ->
  produced + per * steps (max_index - current) dec <= length output ->
  exists current' ph' output',
    decimate_loop dot emit advance fuel dec max_index current produced ph output
      = Some (current', produced + per * steps (max_index - current) dec, ph', output') /\
    P ph' /\ Forall C output' /\ length output' = length output /\
    max_index <= current' /\ current' <= Nat.max current (max_index + dec - 1).
Proof using Hdot Hemit Hadvance.
  assert (forall current produced ph output, 0 < dec -> max_index <= current -> P ph -> Forall C output ->
    exists current' ph' output',
      Some (current, produced, ph, output) = Some (current', produced + per * steps (max_index - current) dec, ph', output') /\
      P ph' /\ Forall C output' /\ length output' = length output /\
      max_index <= current' /\ current' <= Nat.max current (max_index + dec - 1)) as Hdone.
  { intros current produced ph output Hd Hge Hp Ho. exists current, ph, output.
    rewrite (proj2 (Nat.sub_0_le _ _)) by done. unfold steps. rewrite Nat.div_small by lia.
    rewrite Nat.mul_0_r, Nat.add_0_r. split_and!; (done || lia). }
  induction fuel as [|fuel IH]; intros current produced ph output Hd Hf Hp Ho Hroom; cbn [decimate_loop].
  - assert (max_index <= current) as Hge by lia. rewrite (proj2 (Nat.ltb_ge _ _)) by lia. by apply Hdone.
  - destruct (current <? max_index)%nat eqn:E; [apply Nat.ltb_lt in E|apply Nat.ltb_ge in E; by apply Hdone].
    destruct (Hdot current E) as (a & -> & Ha). cbn [mbind option_bind].
    destruct (Hemit a ph Ha Hp) as (cells & -> & Hl & Hc). cbn [mbind option_bind].
    assert (steps (max_index - current) dec = S (steps (max_index - (current + dec)) dec)) as Hs.
    { destruct (steps_bounds (max_index - (current + dec)) dec Hd) as [H1 H2].
      generalize dependent (steps (max_index - (current + dec)) dec). intros k H1 H2.
      apply steps_unique; [done|simpl; lia|]. intros _. destruct k as [|k]; [simpl; lia|].
      specialize (H2 ltac:(lia)). simpl in *. rewrite Nat.sub_0_r in H2. lia. }
    rewrite Hs in *. rewrite write_at_is_Some by nia. cbn [mbind option_bind].
    destruct (Hadvance ph Hp) as (ph' & -> & Hp'). cbn [mbind option_bind].
    set (output1 := take produced output ++ cells ++ drop (produced + length cells) output).
    assert (length output1 = length output) as Hl1 by (subst output1; rewrite !length_app, length_take, length_drop; nia).
    destruct (IH (current + dec) (produced + length cells) ph' output1) as (c & p & out & Hr & ? & ? & Hlo & ? & ?);
      [done|lia|done| |rewrite Hl, Hl1; nia|].
    { apply Forall_app. split; [by apply Forall_take|]. apply Forall_app. split; [done|by apply Forall_drop]. }
    rewrite Hr. exists c, p, out. split_and!; try done; try lia. do 4 f_equal. rewrite Hl. nia.
Qed.
End loop.

Lemma steps_room mi dec n : 0 < dec -> mi <= n -> steps mi dec <= n / dec + 1.
Proof.
  intros Hd Hn. unfold steps. transitivity ((n + 1 * dec) / dec); [|rewrite Nat.div_add by lia; lia].
  apply Nat.Div0.div_le_mono. lia.
Qed.

(** ** Lemmas: the floating-point calls *)

Lemma dot_cf32_defined max f current : shape_typed max f ->
  current + taps_len f <= length (working_buffer_cf32 f) -> is_Some (dot_cf32 f current).
Proof.
  intros [_ _ _ (Ha & Hp & Hm) _ Hr _] Hc. unfold dot_cf32. rewrite Ha.
  rewrite (align_split_spec _ _ 5 4 current) by (done || lia). cbn [mbind option_bind].
  pose proof (Nat.mod_upper_bound current 4 ltac:(lia)) as Hub. pose proof (Nat.Div0.mod_le current 4) as Hle.
  destruct (Hr (current mod 4) Hub) as (row & -> & Hl). cbn [mbind option_bind].
  rewrite (read_at_is_Some (working_buffer_cf32 f)) by lia. cbn [mbind option_bind].
  rewrite read_at_is_Some by lia. by eexists.
Qed.

(** The windows of a call: the loop ends with less than a window left, and the
    output had room. *)
Lemma windows_typed {Cell Acc Phase} (dot : nat -> option Acc) (emit : Acc -> Phase -> option (list Cell))
    (advance : Phase -> option Phase) (A : Acc -> Prop) (P : Phase -> Prop) (C : Cell -> Prop) per T dec w cap ph output :
  0 < dec <= T -> (Z.of_nat T < 2 ^ 64)%Z -> w <= cap + (T - 1) ->
  (forall current, current + T <= w -> exists a, dot current = Some a /\ A a) ->
  (forall a ph, A a -> P ph -> exists cells, emit a ph = Some cells /\ length cells = per /\ Forall C cells) ->
  (forall ph, P ph -> exists ph', advance ph = Some ph' /\ P ph') ->
  P ph -> Forall C output -> length output = per * (cap / dec + 1) ->
  match max_index_of w T with
  | None => w <= T - 1
  | Some max_index => exists current produced ph' output',
      decimate_loop dot emit advance (S max_index) dec max_index 0 0 ph output = Some (current, produced, ph', output') /\
      P ph' /\ Forall C output' /\ length output' = length output /\ produced <= length output /\
      current <= w /\ w - current <= T - 1
  end.
Proof.
  intros Hdec HT Hw Hdot Hemit Hadv Hph Ho Hl. rewrite max_index_of_spec by lia.
  destruct (T <=? w)%nat eqn:E; [apply Nat.leb_le in E|apply Nat.leb_gt in E; lia].
  set (mi := w - (T - 1)). pose proof (steps_room mi dec cap ltac:(lia) ltac:(lia)) as Hroom.
  assert (per * steps mi dec <= length output) as Hfit by (rewrite Hl; by apply Nat.mul_le_mono_l).
  destruct (decimate_loop_typed dot emit advance A P C per dec mi) with (fuel := S mi) (current := 0) (produced := 0)
    (ph := ph) (output := output) as (c & p & out & Hloop & Hp & Ho' & Hlo & Hc1 & Hc2); try done; [|lia|lia|by rewrite Nat.sub_0_r|].
  { intros current Hc. apply Hdot. lia. }
  rewrite Hloop, Nat.sub_0_r. do 4 eexists. split; [reflexivity|]. split_and!; (done || lia).
Qed.

(** The filter after a call: what the call replaces has its type. *)
Lemma loaded_length {A} (wb : list A) off src n : length wb = n -> off + length src <= n ->
  exists wb', write_at wb off src = Some wb' /\ length wb' = n /\ forall P, Forall P wb -> Forall P src -> Forall P wb'.
Proof.
  intros Hl Hs. rewrite write_at_is_Some by lia. eexists. split; [reflexivity|].
  split; [rewrite !length_app, length_take, length_drop; lia|]. intros P H1 H2.
  apply Forall_app. split; [by apply Forall_take|]. apply Forall_app. split; [done|by apply Forall_drop].
Qed.

Lemma same_shape_typed max f f' : shape_typed max f -> same_shape f f' -> shape_typed max f'.
Proof.
  intros [? ? ? ? ? ? ?] (E1 & E2 & E3 & E4 & E5 & E6 & E7 & E8 & _ & E9).
  split; rewrite ?E1, ?E2, ?E3, ?E4, ?E5, ?E6, ?E7, ?E8, ?E9; done.
Qed.

Lemma load_cf32_typed max samples f : well_typed max f -> length samples <= max / 2 ->
  exists f', load_cf32 samples f = Some f' /\ well_typed max f' /\ same_shape f f' /\ history_offset f' = history_offset f.
Proof.
  intros [Hsh Hh Hw32 Hw16 Ho32 Ho16 Hph] Hin.
  destruct (loaded_length (working_buffer_cf32 f) (history_offset f) samples _ Hw32) as (wb & Hwb & Hlb & _); [lia|].
  unfold load_cf32. rewrite Hwb. cbn [mbind option_bind]. eexists. split; [reflexivity|]. split; [|done].
  split; try done. by apply (same_shape_typed _ f).
Qed.

Lemma native_cf32_typed hypotf max f m : well_typed max f -> m <= max / 2 ->
  exists out f', process_native_cf32 hypotf m f = Some (out, f') /\ well_typed max f' /\ same_shape f f' /\
    length out <= max / 2 / decimation f + 1.
Proof.
  intros [Hsh Hh Hw32 Hw16 Ho32 Ho16 Hph] Hm. pose proof Hsh as [_ Hdec HT _ _ _ _].
  unfold process_native_cf32. set (w := history_offset f + m).
  assert (forall current produced ph output, current <= w -> w - current <= taps_len f - 1 ->
    length output = length (output_cf32 f) -> produced <= length (output_cf32 f) ->
    exists out f', (wh ← preserve_history 1 (working_buffer_cf32 f) w current;
      Some (take produced output, MkXlating (decimation f) (taps_cf32 f) (alignment_cf32 f) (taps_cs16 f) (alignment_cs16 f)
        (taps_len f) (addr_cf32 f) (fst wh) (addr_cs16 f) (working_buffer_cs16 f) (snd wh) output (output_cs16 f) ph
        (phase_incr f) (phase_cs16 f) (phase_incr_cs16 f))) = Some (out, f') /\
      well_typed max f' /\ same_shape f f' /\ length out <= max / 2 / decimation f + 1) as Hend.
  { intros current produced ph output Hc1 Hc2 Hlo Hpr.
    destruct (preserve_history_spec 1 (working_buffer_cf32 f) w current Hc1) as (wb' & Hp & Hlw & _); [lia|].
    rewrite Hp. cbn [mbind option_bind fst snd]. do 2 eexists. split; [reflexivity|].
    split; [|split; [done|rewrite length_take; lia]]. split; cbn -[Nat.div Nat.mul]; try done; [by apply (same_shape_typed _ f)|lia|lia]. }
  pose proof (windows_typed (dot_cf32 f) (fun temp ph => Some [c_mul temp ph]) (fun ph => Some (c_mul ph (phase_incr f)))
    (fun _ => True) (fun _ => True) (fun _ => True) 1 (taps_len f) (decimation f) w (max / 2) (phase f) (output_cf32 f)) as Hwin.
  destruct (max_index_of w (taps_len f)) as [mi|].
  - destruct Hwin as (c & p & ph & out & -> & _ & _ & Hlo & Hpr & Hc1 & Hc2); try done; try lia; [|by eauto 10|by eauto|by apply Forall_true|].
    + intros c Hc. destruct (dot_cf32_defined max f c Hsh) as [x Hx]; [rewrite Hw32; lia|by exists x].
    + cbn [mbind option_bind]. by apply Hend.
  - cbn [mbind option_bind]. apply Hend; try lia. rewrite Nat.sub_0_r. apply Hwin; try done; try lia; [|by eauto 10|by eauto|by apply Forall_true].
    intros c Hc. destruct (dot_cf32_defined max f c Hsh) as [x Hx]; [lia|by exists x].
Qed.

Lemma process_cf32_typed hypotf max conv input f : well_typed max f -> length input <= max ->
  exists out f', process_cf32 hypotf conv input f = Some (out, f') /\ well_typed max f' /\ same_shape f f' /\
    length out <= max / 2 / decimation f + 1.
Proof.
  intros Hf Hin. pose proof (Nat.Div0.div_le_mono (length input) max 2 Hin) as Hin2. unfold process_cf32.
  destruct (load_cf32_typed max (convert_cf32 conv input) f Hf) as (f1 & -> & Hf1 & Hs1 & _); [by rewrite length_convert_cf32|].
  cbn [mbind option_bind]. destruct (native_cf32_typed hypotf max f1 _ Hf1 Hin2) as (out & f' & -> & Hf' & Hs' & Hl).
  exists out, f'. split; [done|]. split; [done|]. unfold same_shape in *. destruct Hs1 as (E & Hs1). rewrite E in Hl.
  split; [|done]. destruct Hs' as (-> & -> & -> & -> & -> & -> & -> & -> & -> & ->). done.
Qed.

(** ** Lemmas: the fixed-point calls *)

Lemma load_cs16_typed max cells f : well_typed max f -> length cells <= max -> Forall (is_signed 16) cells ->
  exists f', load_cs16 cells f = Some f' /\ well_typed max f' /\ same_shape f f'.
Proof.
  intros [Hsh Hh Hw32 [Hw16 Ht16] Ho32 Ho16 Hph] Hin Hc. pose proof (typed_max _ _ Hsh).
  destruct (loaded_length (working_buffer_cs16 f) (2 * history_offset f) cells _ Hw16) as (wb & Hwb & Hlb & Hall); [lia|].
  unfold load_cs16. rewrite Hwb. cbn [mbind option_bind]. eexists. split; [reflexivity|]. split; [|done].
  split; try done; [by apply (same_shape_typed _ f)|]. split; [done|by apply Hall].
Qed.

(** An accumulated window: the shifted sums fit the [int32_t] of [saturate_to_int16]. *)
Definition window_sum (a : Z * Z) : Prop := (- 2 ^ 46 <= fst a < 2 ^ 46)%Z /\ (- 2 ^ 46 <= snd a < 2 ^ 46)%Z.
Definition typed_phase_cs16 (ph : Z * Z) : Prop := q15_pair ph /\ not_min ph.

Lemma dot_cs16_typed max f current : shape_typed max f -> Forall (is_signed 16) (working_buffer_cs16 f) ->
  2 * (current + taps_len f) <= length (working_buffer_cs16 f) -> exists a, dot_cs16 f current = Some a /\ window_sum a.
Proof.
  intros [_ Hdec HT _ (Ha & Hp & Hm) _ (taps & tail & Ht & Hl & Hq)] Hw Hc.
  assert (cs16_ok taps f) as Hok by (split; try done; [by exists tail|lia]).
  rewrite (dot_cs16_spec taps f current Hok Hc).
  destruct (dotw_cs16_exact taps _ (take (2 * taps_len f) (drop (2 * current) (working_buffer_cs16 f))) Hq) as (E & H1 & H2);
    [by apply Forall_take, Forall_drop|]. rewrite E. by eexists.
Qed.

Lemma emit_cs16_typed acc ph : window_sum acc -> typed_phase_cs16 ph ->
  exists cells, emit_cs16 acc ph = Some cells /\ length cells = 2 /\ Forall (is_signed 16) cells.
Proof.
  intros [H1 H2] [Hp Hm]. rewrite emit_cs16_exact by done. eexists. split; [reflexivity|]. split; [done|].
  repeat constructor; apply clamp16_signed.
Qed.

Lemma advance_cs16_typed taps incr ph : q15_filter taps incr -> typed_phase_cs16 ph ->
  exists ph', cmul_q15 ph incr = Some ph' /\ typed_phase_cs16 ph'.
Proof.
  intros Hq [Hp Hm]. destruct (q15_incr_pair _ _ Hq) as [Hi1 Hi2]. rewrite cmul_q15_exact by eauto.
  eexists. split; [reflexivity|]. split; [apply q15_round_pair|]. apply phase_not_min; [done|by apply (q15_incr taps)].
Qed.

Lemma native_cs16_typed max f m : well_typed max f -> m <= max / 2 ->
  exists out f', process_native_cs16 m f = Some (out, f') /\ well_typed max f' /\ same_shape f f' /\
    length out <= 2 * (max / 2 / decimation f + 1) /\ Forall (is_signed 16) out.
Proof.
  intros [Hsh Hh Hw32 [Hw16 Ht16] Ho32 [Ho16 Hot] Hph] Hm. pose proof Hsh as [_ Hdec HT _ _ _ (taps & _ & _ & _ & Hq)].
  unfold process_native_cs16. set (w := history_offset f + m).
  assert (forall current produced ph output, current <= w -> w - current <= taps_len f - 1 -> typed_phase_cs16 ph ->
    Forall (is_signed 16) output -> length output = length (output_cs16 f) ->
    exists out f', (wh ← preserve_history 2 (working_buffer_cs16 f) w current;
      Some (take (2 * (produced / 2)) output, MkXlating (decimation f) (taps_cf32 f) (alignment_cf32 f) (taps_cs16 f)
        (alignment_cs16 f) (taps_len f) (addr_cf32 f) (working_buffer_cf32 f) (addr_cs16 f) (fst wh) (snd wh)
        (output_cf32 f) output (phase f) (phase_incr f) ph (phase_incr_cs16 f))) = Some (out, f') /\
      well_typed max f' /\ same_shape f f' /\ length out <= 2 * (max / 2 / decimation f + 1) /\ Forall (is_signed 16) out) as Hend.
  { intros current produced ph output Hc1 Hc2 Hp Hot' Hlo.
    destruct (preserve_history_spec 2 (working_buffer_cs16 f) w current Hc1) as (wb' & Hpr & Hlw & _ & Hall); [lia|].
    rewrite Hpr. cbn [mbind option_bind fst snd]. do 2 eexists. split; [reflexivity|].
    split; [|split; [done|split; [rewrite length_take; lia|by apply Forall_take]]].
    split; cbn -[Nat.div Nat.mul]; try done; [by apply (same_shape_typed _ f)|split; [lia|by apply Hall]|split; [lia|done]]. }
  pose proof (windows_typed (dot_cs16 f) emit_cs16 (fun ph => cmul_q15 ph (phase_incr_cs16 f)) window_sum typed_phase_cs16
    (is_signed 16) 2 (taps_len f) (decimation f) w (max / 2) (phase_cs16 f) (output_cs16 f) Hdec ltac:(lia) ltac:(lia)) as Hwin.
  specialize (Hwin ltac:(intros c Hc; apply (dot_cs16_typed max f c Hsh Ht16); rewrite Hw16; lia) emit_cs16_typed
    (fun ph => advance_cs16_typed taps _ ph Hq) Hph Hot Ho16).
  destruct (max_index_of w (taps_len f)) as [mi|].
  - destruct Hwin as (c & p & ph & out & -> & Hp & Hf & Hlo & _ & Hc1 & Hc2). cbn [mbind option_bind]. by apply Hend.
  - cbn [mbind option_bind]. apply Hend; try done; lia.
Qed.

Lemma process_cs16_typed max conv input f : well_typed max f -> length input <= max ->
  Forall (fun x => is_signed 16 (conv x)) input ->
  exists out f', process_cs16 conv input f = Some (out, f') /\ well_typed max f' /\ same_shape f f' /\
    length out <= 2 * (max / 2 / decimation f + 1) /\ Forall (is_signed 16) out.
Proof.
  intros Hf Hin Hc. pose proof (Nat.Div0.div_le_mono (length input) max 2 Hin) as Hin2. unfold process_cs16.
  destruct (load_cs16_typed max (map conv input) f Hf) as (f1 & -> & Hf1 & Hs1); [by rewrite length_map|by apply Forall_map|].
  cbn [mbind option_bind]. destruct (native_cs16_typed max f1 _ Hf1 Hin2) as (out & f' & -> & Hf' & Hs' & Hl & Ho).
  exists out, f'. split; [done|]. split; [done|]. unfold same_shape in *. destruct Hs1 as (E & Hs1). rewrite E in Hl.
  split; [|done]. destruct Hs' as (-> & -> & -> & -> & -> & -> & -> & -> & -> & ->). done.
Qed.

Lemma q15_of_sample t x : is_sample t x ->
  is_signed 16 (match t with CU8 => q15_of_cu8 x | CS8 => q15_of_cs8 x | CS16 => q15_of_cs16 x end).
Proof. destruct t; intros H; [apply swrap_range; lia..|exact H]. Qed.

Lemma exec_call_typed hypotf max c f : well_typed max f -> call_typed max c ->
  exists out f', exec_call hypotf c f = Some (out, f') /\ well_typed max f' /\ same_shape f f' /\ output_typed max f c out.
Proof.
  intros Hf [Hl Hs]. destruct c as [optimized t input|optimized t input]; cbn [call_input fst snd] in *.
  - set (conv := match t with CU8 => of_cu8 | CS8 => of_cs8 | CS16 => of_cs16 end).
    destruct (process_cf32_typed hypotf max conv input f Hf Hl) as (out & f' & E & Hf' & Hsh & Ho).
    exists (OutCf32 out), f'. split; [|done]. subst conv.
    by destruct t, optimized; cbn [exec_call]; unfold process_optimized_cu8_cf32, process_optimized_cs8_cf32,
      process_optimized_cs16_cf32, process_native_cu8_cf32, process_native_cs8_cf32, process_native_cs16_cf32; rewrite E.
  - set (conv := match t with CU8 => q15_of_cu8 | CS8 => q15_of_cs8 | CS16 => q15_of_cs16 end).
    destruct (process_cs16_typed max conv input f Hf Hl) as (out & f' & E & Hf' & Hsh & Ho).
    { eapply Forall_impl; [exact Hs|]. intros x Hx. pose proof (q15_of_sample t x Hx). subst conv. by destruct t. }
    exists (OutCs16 out), f'. split; [|done]. subst conv.
    by destruct t, optimized; cbn [exec_call]; unfold process_optimized_cu8_cs16, process_optimized_cs8_cs16,
      process_optimized_cs16_cs16, process_native_cu8_cs16, process_native_cs8_cs16, process_native_cs16_cs16; rewrite E.
Qed.

Lemma same_shape_trans f1 f2 f3 : same_shape f1 f2 -> same_shape f2 f3 -> same_shape f1 f3.
Proof. unfold same_shape. naive_solver congruence. Qed.

(** A filter as the constructor makes it is well typed, when its taps fit Q15 and its
    phase step lies in the disc. *)
Lemma created_well_typed taps16 taps32 max f s16 n s32 :
  cf32_state taps32 f s32 -> cf32_capacity max f -> cs16_state taps16 f s16 n -> cs16_capacity max f ->
  q15_filter taps16 (phase_incr_cs16 f) -> Forall (is_signed 16) (working_buffer_cs16 f) ->
  Forall (is_signed 16) (output_cs16 f) -> typed_phase_cs16 (phase_cs16 f) -> history_offset f <= taps_len f - 1 ->
  well_typed max f.
Proof.
  intros (Hok & _) (Hm & Hc1 & Hc2) (Hok16 & _) (Hm' & Hc3 & Hc4) Hq Hw Ho Hp Hh.
  destruct Hok as [Hl Ht Ha Had Hap Hdec Hsz], Hok16 as [Hl' [tail Ht'] Ha' Had' Hap' _ _].
  pose proof (q15_taps_len _ _ Hq) as Hql.
  split; try done.
  split; try done; [lia| |by exists taps16, tail].
  intros a Hlt. destruct (Ht a Hlt) as [tl E]. eexists. split; [exact E|]. rewrite !length_app, length_replicate. lia.
Qed.

(** ** Properties *)

(** C15. Type soundness of the filter: any sequence of calls of the processing functions,
    of either format and variant and for any types of samples, on inputs of
    their type and of at most the size the filter was created for, is defined (no
    access out of bounds, no signed overflow, no endless loop), whatever the calls
    before it were, each call gives samples of its format that fit the output
    buffer, and the filter stays well typed with its static fields unchanged. *)
Theorem filter_type_soundness hypotf max calls : forall f,
  well_typed max f -> Forall (call_typed max) calls ->
  exists outs f', exec_calls hypotf calls f = Some (outs, f') /\ well_typed max f' /\ same_shape f f' /\
    Forall2 (output_typed max f) calls outs.
Proof.
  induction calls as [|c calls IH]; intros f Hf Hc; cbn [exec_calls].
  - exists [], f. split; [done|]. split; [done|]. by split.
  - apply Forall_cons in Hc as [Hc Hcs]. destruct (exec_call_typed hypotf max c f Hf Hc) as (out & f1 & -> & Hf1 & Hs1 & Ho).
    cbn [mbind option_bind fst snd]. destruct (IH f1 Hf1 Hcs) as (outs & f' & -> & Hf' & Hs' & Hos).
    cbn [mbind option_bind fst snd]. exists (out :: outs), f'. split; [done|]. split; [done|].
    split; [by eapply same_shape_trans|]. constructor; [done|]. eapply Forall2_impl; [exact Hos|].
    intros c' o'. unfold output_typed. destruct Hs1 as (-> & _). done.
Qed.

(** ** The property on a concrete filter *)

Lemma example_well_typed : well_typed 8 example_filter.
Proof.
  assert (forall l, forallb (fun x => (- 32768 <=? x) && (x <? 32768))%Z l = true -> Forall (is_signed 16) l) as Hall.
  { intros l H. apply Forall_forall. intros x Hx. rewrite List.forallb_forall in H. apply list_elem_of_In, H in Hx.
    apply andb_prop in Hx as [H1 H2]. unfold is_signed. simpl Z.sub. pow2. lia. }
  eapply (created_well_typed example_cells example_bpf 8 example_filter _ _ _ example_cf32_state _ example_cs16_state);
    [split_and!; vm_compute; reflexivity|split; [by apply Hall; vm_compute|vm_compute; repeat constructor; discriminate|vm_compute; discriminate|
     vm_compute; discriminate]|apply Hall; vm_compute; reflexivity|apply Hall; vm_compute; reflexivity|
     split; [split; vm_compute; (split; [discriminate|reflexivity])|vm_compute; discriminate]|vm_compute; lia].
  Unshelve. split_and!; vm_compute; reflexivity.
Qed.

(** The formats mixed on one filter. *)
Definition example_calls : list filter_call :=
  [ProcessCf32 false CU8 [1; 2; 3; 4; 5; 6; 7; 255]; ProcessCs16 true CS16 [-32768; -32768; 32767; 1; 0; 0; -32768; 32767];
   ProcessCf32 true CS8 [-128; 127; 3]; ProcessCs16 false CU8 [0; 255]]%Z.

Lemma filter_type_soundness_witness : exists outs f',
  exec_calls example_hypotf example_calls example_filter = Some (outs, f') /\ well_typed 8 f' /\ length outs = 4.
Proof.
  destruct (filter_type_soundness example_hypotf 8 example_calls example_filter example_well_typed) as (outs & f' & E & Hf & _ & Ho).
  - repeat (apply Forall_cons; split; [split; [simpl; lia|cbn [call_input fst snd];
      repeat (apply Forall_cons; split; [unfold is_sample; plia|]); apply Forall_nil; done]|]). apply Forall_nil. done.
  - exists outs, f'. split; [exact E|]. split; [exact Hf|]. apply Forall2_length in Ho. symmetry. exact Ho.
Defined.

End FilterTypes.
