(* ===== verification/Simd.v ===== *)
(** * The AVX and NEON variants of the filter: process_optimized_cf32 of
    src/xlating.c

    Both sum the products of a window in lanes, four samples at a time, and what
    does not fill a block one by one.  The sums are written over an arbitrary type
    of numbers: on [float] they are the code, and in a ring they show what the
    order of the operations cannot change.  A lane operation of the intrinsics is
    the operation on each element; the aligned loads are of [aligned_buffer] and of
    the aligned taps. *)
From Stdlib Require Import ZArith Ring_theory Ring.
From S2P Require Import Prelude Float Xlating.
Import Float Xlating.

Module Simd.

(** ** The sums *)
Section sums.
Context {R : Type} (zero : R) (add sub mul : R -> R -> R).
#[local] Infix "+" := add.
#[local] Infix "-" := sub.
#[local] Infix "*" := mul.

(** A product of the window: the sample and the tap. *)
#[local] Abbreviation pair_of := ((R * R) * (R * R))%type.

Definition plus (x y : R * R) : R * R := (fst x + fst y, snd x + snd y).

(** The loop over the tail, which both variants have. *)
Definition tail_step (s : R * R) (p : pair_of) : R * R :=
  let '((a0, b0), (c0, d0)) := p in
  let '(real_sum, imag_sum) := s in
  (real_sum + a0 * c0 - b0 * d0, imag_sum + a0 * d0 + b0 * c0).

(** A lane of [_mm256_addsub_ps] over the products with the duplicated parts. *)
Definition avx_product (p : pair_of) : R * R :=
  let '((xr, xi), (yr, yi)) := p in
  (xr * yr - xi * yi, xi * yr + xr * yi).

(** The blocks of four; the samples that are left. *)
Fixpoint avx_blocks (r0 r1 r2 r3 : R * R) (l : list pair_of) : (R * R) * (R * R) * (R * R) * (R * R) * list pair_of :=
  match l with
  | p0 :: p1 :: p2 :: p3 :: rest =>
      avx_blocks (plus r0 (avx_product p0)) (plus r1 (avx_product p1)) (plus r2 (avx_product p2))
        (plus r3 (avx_product p3)) rest
  | _ => (r0, r1, r2, r3, l)
  end.

Definition avx_sum (l : list pair_of) : R * R :=
  let z := (zero, zero) in
  let '(store0, store1, store2, store3, rest) := avx_blocks z z z z l in
  plus (plus (plus (plus (fold_left tail_step rest z) store0) store1) store2) store3.

(** A lane of the multiply-accumulates of NEON. *)
Definition neon_step (acc : R * R) (p : pair_of) : R * R :=
  let '((ar, ai), (br, bi)) := p in
  (fst acc + ar * br - ai * bi, snd acc + ai * br + ar * bi).

(** The blocks of eight, two samples per lane. *)
Fixpoint neon_blocks (r0 r1 r2 r3 : R * R) (l : list pair_of) : (R * R) * (R * R) * (R * R) * (R * R) * list pair_of :=
  match l with
  | p0 :: p1 :: p2 :: p3 :: p4 :: p5 :: p6 :: p7 :: rest =>
      neon_blocks (neon_step (neon_step r0 p0) p4) (neon_step (neon_step r1 p1) p5)
        (neon_step (neon_step r2 p2) p6) (neon_step (neon_step r3 p3) p7) rest
  | _ => (r0, r1, r2, r3, l)
  end.

(** The lanes are added in pairs. *)
Definition neon_sum (l : list pair_of) : R * R :=
  let z := (zero, zero) in
  let '(r0, r1, r2, r3, rest) := neon_blocks z z z z l in
  fold_left tail_step rest (plus z (plus (plus r0 r1) (plus r2 r3))).

(** The sum of the portable variant. *)
Definition native_sum (l : list pair_of) : R * R :=
  fold_left (fun temp p => plus temp (let '((a, b), (c, d)) := p in (a * c - b * d, a * d + b * c))) l (zero, zero).
End sums.

(** ** The processing *)

Section process.
Context (sum : list (complex * complex) -> complex) (hypotf : float -> float -> float) (normalizes : bool).

(** The window of [dot_cf32], summed by [sum]. *)
Definition dot_with (f : xlating) (current_index : nat) : option complex :=
  si ← align_split (addr_cf32 f) sizeof_complex (alignment_cf32 f) current_index;
  let '(start, align_index) := si in
  taps ← taps_cf32 f !! align_index;
  a ← read_at (working_buffer_cf32 f) start (taps_len f + align_index);
  b ← read_at taps 0 (taps_len f + align_index);
  Some (sum (zip a b)).

(** The body that the two variants share; AVX does not normalise the phase. *)
Definition process_with (input_len_samples : nat) (f : xlating) : option (list complex * xlating) :=
  let working_len := (history_offset f + input_len_samples)%nat in
  r ← match max_index_of working_len (taps_len f) with
      | None => Some (0, 0, phase f, output_cf32 f)
      | Some max_index =>
          r ← decimate_loop (dot_with f) (fun temp ph => Some [c_mul temp ph])
                (fun ph => Some (c_mul ph (phase_incr f)))
                (S max_index) (decimation f) max_index 0 0 (phase f) (output_cf32 f);
          let '(current_index, produced, ph, output) := r in
          Some (current_index, produced, if normalizes then normalize hypotf ph else ph, output)
      end;
  let '(current_index, produced, ph, output) := r in
  wh ← preserve_history 1 (working_buffer_cf32 f) working_len current_index;
  Some (take produced output,
        MkXlating (decimation f) (taps_cf32 f) (alignment_cf32 f) (taps_cs16 f) (alignment_cs16 f)
          (taps_len f) (addr_cf32 f) (fst wh) (addr_cs16 f) (working_buffer_cs16 f) (snd wh)
          output (output_cs16 f) ph (phase_incr f) (phase_cs16 f) (phase_incr_cs16 f)).
End process.

Definition avx_sum_f32 := avx_sum f_zero f32_add f32_sub f32_mul.
Definition neon_sum_f32 := neon_sum f_zero f32_add f32_sub f32_mul.

(** [process_optimized_cf32] without intrinsics. *)
Definition process_optimized_cf32 (hypotf : float -> float -> float) := process_native_cf32 hypotf.

(** [process_optimized_cf32] under [__AVX__] and under [__ARM_NEON]. *)
Definition process_optimized_cf32_avx := process_with avx_sum_f32 (fun x _ => x) false.
Definition process_optimized_cf32_neon (hypotf : float -> float -> float) := process_with neon_sum_f32 hypotf true.

(** ** Lemmas *)
Section ring.
Context {R : Type} (zero one : R) (add mul sub : R -> R -> R) (opp : R -> R).
Hypothesis Rth : ring_theory zero one add mul sub opp eq.
Add Ring Rring : Rth.

#[local] Abbreviation total := (native_sum zero add sub mul).
#[local] Abbreviation pl := (plus add).

Lemma native_from l : forall t, fold_left (fun temp p => pl temp (let '((a, b), (c, d)) := p in
    (sub (mul a c) (mul b d), add (mul a d) (mul b c)))) l t = pl t (total l).
Proof using Rth.
  unfold native_sum. induction l as [|[[a b] [c d]] l IH]; intros [t u]; cbn [fold_left].
  - unfold plus. cbn. f_equal; ring.
  - rewrite IH, (IH (pl (zero, zero) _)). unfold plus. cbn. f_equal; ring.
Qed.

Lemma native_cons p l : total (p :: l) = pl (avx_product add sub mul p) (total l).
Proof using Rth.
  destruct p as [[a b] [c d]]. unfold native_sum at 1. cbn [fold_left]. rewrite native_from. unfold plus, avx_product.
  cbn. f_equal; ring.
Qed.

Lemma tail_from l : forall t, fold_left (tail_step add sub mul) l t = pl t (total l).
Proof using Rth.
  induction l as [|[[a b] [c d]] l IH]; intros [t u].
  - unfold native_sum, plus. cbn. f_equal; ring.
  - cbn [fold_left]. rewrite IH, native_cons. unfold plus, avx_product, tail_step. cbn. f_equal; ring.
Qed.

Lemma avx_blocks_from : forall l r0 r1 r2 r3,
  let '(s0, s1, s2, s3, rest) := avx_blocks add sub mul r0 r1 r2 r3 l in
  pl (pl (pl (pl (total rest) s0) s1) s2) s3 = pl (pl (pl (pl (total l) r0) r1) r2) r3.
Proof using Rth.
  fix IH 1. intros l r0 r1 r2 r3. destruct l as [|p0 [|p1 [|p2 [|p3 l]]]]; try reflexivity.
  cbn [avx_blocks]. specialize (IH l (pl r0 (avx_product add sub mul p0)) (pl r1 (avx_product add sub mul p1))
    (pl r2 (avx_product add sub mul p2)) (pl r3 (avx_product add sub mul p3))).
  destruct (avx_blocks _ _ _ _ _ _ _ l) as [[[[s0 s1] s2] s3] rest]. rewrite IH, !native_cons.
  unfold plus. cbn. f_equal; ring.
Qed.

Lemma neon_product r p : neon_step add sub mul r p = pl r (avx_product add sub mul p).
Proof using Rth. destruct r, p as [[a b] [c d]]. unfold plus, neon_step, avx_product. cbn. f_equal; ring. Qed.

Lemma neon_blocks_from : forall l r0 r1 r2 r3,
  let '(s0, s1, s2, s3, rest) := neon_blocks add sub mul r0 r1 r2 r3 l in
  pl (pl (pl (pl (total rest) s0) s1) s2) s3 = pl (pl (pl (pl (total l) r0) r1) r2) r3.
Proof using Rth.
  fix IH 1. intros l r0 r1 r2 r3. destruct l as [|p0 [|p1 [|p2 [|p3 [|p4 [|p5 [|p6 [|p7 l]]]]]]]]; try reflexivity.
  cbn [neon_blocks]. rewrite !neon_product.
  match goal with |- context [neon_blocks _ _ _ ?a ?b ?c ?d l] => specialize (IH l a b c d) end.
  destruct (neon_blocks _ _ _ _ _ _ _ l) as [[[[s0 s1] s2] s3] rest]. rewrite IH, !native_cons.
  unfold plus. cbn. f_equal; ring.
Qed.

Lemma sums_agree l : avx_sum zero add sub mul l = total l /\ neon_sum zero add sub mul l = total l.
Proof using Rth.
  split.
  - unfold avx_sum. pose proof (avx_blocks_from l (zero, zero) (zero, zero) (zero, zero) (zero, zero)) as H.
    destruct (avx_blocks _ _ _ _ _ _ _ l) as [[[[s0 s1] s2] s3] rest]. rewrite tail_from.
    transitivity (pl (pl (pl (pl (total rest) s0) s1) s2) s3); [unfold plus; cbn; f_equal; ring|].
    rewrite H. unfold plus. cbn. destruct (total l). cbn. f_equal; ring.
  - unfold neon_sum. pose proof (neon_blocks_from l (zero, zero) (zero, zero) (zero, zero) (zero, zero)) as H.
    destruct (neon_blocks _ _ _ _ _ _ _ l) as [[[[s0 s1] s2] s3] rest]. rewrite tail_from.
    transitivity (pl (pl (pl (pl (total rest) s0) s1) s2) s3); [unfold plus; cbn; f_equal; ring|].
    rewrite H. unfold plus. cbn. destruct (total l). cbn. f_equal; ring.
Qed.
End ring.

(** A window that the portable variant can sum, the others can. *)
Lemma dot_with_defined sum f i a : dot_cf32 f i = Some a -> is_Some (dot_with sum f i).
Proof.
  unfold dot_cf32, dot_with. intros H. apply bind_Some in H as ([start align_index] & -> & H).
  apply bind_Some in H as (taps & Ht & H). apply bind_Some in H as (la & Ha & H). apply bind_Some in H as (lb & Hb & _).
  cbn [mbind option_bind]. rewrite Ht. cbn [mbind option_bind]. rewrite Ha. cbn [mbind option_bind]. rewrite Hb. by eexists.
Qed.

(** The loops over the output advance together. *)
Lemma decimate_loops_agree (dot1 dot2 : nat -> option complex) incr dec max_index :
  (forall i a, dot1 i = Some a -> is_Some (dot2 i)) ->
  forall fuel current produced ph1 ph2 out1 out2 c p ph o, length out1 = length out2 ->
  decimate_loop dot1 (fun temp ph => Some [c_mul temp ph]) (fun ph => Some (c_mul ph incr)) fuel dec max_index
    current produced ph1 out1 = Some (c, p, ph, o) ->
  exists ph' o', decimate_loop dot2 (fun temp ph => Some [c_mul temp ph]) (fun ph => Some (c_mul ph incr)) fuel dec max_index
    current produced ph2 out2 = Some (c, p, ph', o') /\ length o = length out1 /\ length o' = length out2.
Proof.
  intros Hdot fuel. induction fuel as [|fuel IH]; intros current produced ph1 ph2 out1 out2 c p ph o Hl H; cbn [decimate_loop] in *.
  - destruct (current <? max_index)%nat; [done|]. injection H as <- <- <- <-. by exists ph2, out2.
  - destruct (current <? max_index)%nat; [|injection H as <- <- <- <-; by exists ph2, out2].
    apply bind_Some in H as (a & Ha & H). destruct (Hdot _ _ Ha) as [a2 ->]. cbn [mbind option_bind] in *.
    apply bind_Some in H as (out1' & Hw & H). pose proof (write_at_length _ _ _ _ Hw) as Hl1.
    unfold write_at in Hw. case_decide as Hd; [|done].
    rewrite write_at_is_Some by (cbn [length] in *; lia). cbn [mbind option_bind].
    set (out2' := take _ _ ++ _ ++ drop _ _).
    assert (length out2' = length out2) as Hl2.
    { subst out2'. rewrite !length_app, length_take, length_drop. cbn [length] in *. lia. }
    destruct (IH _ _ _ (c_mul ph2 incr) out1' out2' _ _ _ _ ltac:(lia) H) as (ph' & o' & Ho & H1 & H2).
    exists ph', o'. split; [exact Ho|]. lia.
Qed.

Lemma preserve_history_length {A} stride (wb : list A) n i wb' h :
  preserve_history stride wb n i = Some (wb', h) -> length wb' = length wb.
Proof.
  unfold preserve_history. intros H. apply bind_Some in H as ([] & _ & H). destruct (0 <? i)%nat; [|by injection H as <- _].
  apply bind_Some in H as (kept & _ & H). apply bind_Some in H as (w & Hw & [= <- _]). by apply write_at_length in Hw.
Qed.

(** ** Properties *)

(** C5. The optimised variants compute the filter of the portable one.  The sum of
    a window is the same in every commutative ring, so that on [float] they differ
    by the order of the roundings only; and on every call that the portable variant
    handles they have no access out of bounds either, produce as many samples, and
    keep the same samples for the next call. *)
Theorem optimized_equivalent :
  (forall (R : Type) (zero one : R) (add mul sub : R -> R -> R) (opp : R -> R) (l : list ((R * R) * (R * R))),
     ring_theory zero one add mul sub opp eq ->
     avx_sum zero add sub mul l = native_sum zero add sub mul l /\ neon_sum zero add sub mul l = native_sum zero add sub mul l) /\
  (forall hypotf m f out f', process_native_cf32 hypotf m f = Some (out, f') ->
     forall variant, variant = process_optimized_cf32_avx \/ variant = process_optimized_cf32_neon hypotf ->
     exists out2 f2, variant m f = Some (out2, f2) /\ length out2 = length out /\
       history_offset f2 = history_offset f' /\ working_buffer_cf32 f2 = working_buffer_cf32 f' /\
       length (output_cf32 f2) = length (output_cf32 f') /\ same_cf32 f f2).
Proof.
  split; [intros R zero one add mul sub opp l Rth; by apply (sums_agree zero one add mul sub opp Rth)|].
  intros hypotf m f out f' H.
  assert (forall sum h n, exists out2 f2, process_with sum h n m f = Some (out2, f2) /\ length out2 = length out /\
    history_offset f2 = history_offset f' /\ working_buffer_cf32 f2 = working_buffer_cf32 f' /\
    length (output_cf32 f2) = length (output_cf32 f') /\ same_cf32 f f2) as Hx.
  { intros sum h n. unfold process_native_cf32 in H. unfold process_with.
    destruct (max_index_of (history_offset f + m) (taps_len f)) as [mi|].
    - apply bind_Some in H as ([[[c p] ph] o] & Hr & H). apply bind_Some in Hr as ([[[c0 p0] ph0] o0] & Hr & [= -> -> _ ->]).
      destruct (decimate_loops_agree (dot_cf32 f) (dot_with sum f) (phase_incr f) (decimation f) mi
        (fun i a => dot_with_defined sum f i a) _ _ _ _ (phase f) _ (output_cf32 f) _ _ _ _ eq_refl Hr) as (ph' & o' & -> & Hlo1 & Hlo2).
      cbn [mbind option_bind]. apply bind_Some in H as ([wb ho] & Hp & [= <- <-]). rewrite Hp. cbn [mbind option_bind fst snd].
      apply preserve_history_length in Hp. eexists _, _. split; [reflexivity|]. unfold same_cf32. cbn.
      rewrite !length_take, Hlo1, Hlo2. by split_and!.
    - cbn [mbind option_bind] in *. apply bind_Some in H as ([wb ho] & Hp & [= <- <-]). rewrite Hp. cbn [mbind option_bind fst snd].
      apply preserve_history_length in Hp. eexists _, _. unfold same_cf32. by split_and!. }
  intros variant [-> | ->]; apply Hx.
Qed.

(** On the integers, and on a filter of three taps. *)
Lemma optimized_equivalent_witness :
  (let l := [((1, 2), (3, 4)); ((5, 6), (7, 8)); ((-1, 2), (3, -4)); ((9, 9), (1, 0)); ((2, 3), (5, 7))]%Z in
   avx_sum 0%Z Z.add Z.sub Z.mul l = native_sum 0%Z Z.add Z.sub Z.mul l) /\
  exists out2 f2, process_optimized_cf32_avx 4 example_filter = Some (out2, f2) /\ length out2 = 2.
Proof.
  destruct optimized_equivalent as [Hring Hprocess]. split.
  - apply (Hring Z 0%Z 1%Z Z.add Z.mul Z.sub Z.opp). exact Zth.
  - destruct (process_native_cf32 example_hypotf 4 example_filter) as [[out f']|] eqn:E.
    + destruct (Hprocess example_hypotf 4 example_filter out f' E process_optimized_cf32_avx (or_introl eq_refl))
        as (out2 & f2 & H1 & H2 & _).
      exists out2, f2. split; [exact H1|]. rewrite H2. vm_compute in E. injection E as <- _. reflexivity.
    + exfalso. vm_compute in E. discriminate E.
Defined.

End Simd.
