(* ===== verification/Config.v ===== *)
(** * The server configuration: src/config.h and src/config.c

    libconfig is not part of the repository: a parsed file is the section's
    [lookup] with the four accessors of a setting, each total except
    [get_string], which is documented to return [NULL] for a setting that is
    not a string. *)
From S2P Require Import Prelude Float.
Import Float.
#[local] Open Scope Z_scope.

Module Config.

(** [sdr_type_t], [airspy_gain_mode_t] and [cpu_optimization]: the enums hold
    whatever unsigned number they are assigned. *)
Definition SDR_TYPE_RTL : Z := 0.
Definition SDR_TYPE_AIRSPY : Z := 1.
Definition SDR_TYPE_HACKRF : Z := 2.
Definition SDR_TYPE_MSI : Z := 3.
Definition AIRSPY_GAIN_AUTO : Z := 0.
Definition AIRSPY_GAIN_SENSITIVITY : Z := 1.
Definition AIRSPY_GAIN_LINEARITY : Z := 2.
Definition AIRSPY_GAIN_MANUAL : Z := 3.
Definition NATIVE_CF32 : Z := 0.
Definition OPTIMIZED_CF32 : Z := 1.
Definition AIRSPY_BUFFER_SIZE : Z := 262144.

Record server_config := MkServerConfig {
  bind_address : string;
  port : Z;
  read_timeout_seconds : Z;
  device_serial : option string;
  optimization : Z;
  sdr_type : Z;
  device_index : Z;
  gain_mode : Z;
  gain : Z;
  ppm : Z;
  bias_t : Z;
  buffer_size : Z;
  band_sampling_rate : Z;
  queue_size : Z;
  lpf_cutoff_rate : Z;
  airspy_gain_mode : Z;
  airspy_vga_gain : Z;
  airspy_mixer_gain : Z;
  airspy_lna_gain : Z;
  airspy_linearity_gain : Z;
  airspy_sensitivity_gain : Z;
  hackrf_bias_t : Z;
  hackrf_amp : Z;
  hackrf_lna_gain : Z;
  hackrf_vga_gain : Z;
  msisdr_gain : Z;
  msisdr_gain_mode : Z;
  msisdr_if_freq : Z;
  msisdr_bandwidth : Z;
  msisdr_hw_flavour : Z;
  base_path : string;
  use_gzip : bool;
}.

Definition config_parse_cpu_optimization (str : string) : Z :=
  if String.eqb str "NATIVE_CF32" then NATIVE_CF32
  else if String.eqb str "OPTIMIZED_CF32" then OPTIMIZED_CF32
  else wrap 32 (-1).

Section libconfig.
Context {setting : Type} (lookup : string -> option setting).
Context (get_int : setting -> Z) (get_float : setting -> float) (get_bool : setting -> Z)
        (get_string : setting -> option string).

Definition config_read_int (config_name : string) (default_value : Z) : Z :=
  match lookup config_name with
  | None => default_value
  | Some setting => get_int setting
  end.

Definition config_read_float (config_name : string) (default_value : float) : float :=
  match lookup config_name with
  | None => default_value
  | Some setting => f32_of_f64 (get_float setting)
  end.

Definition config_read_bool (config_name : string) (default_value : bool) : bool :=
  match lookup config_name with
  | None => default_value
  | Some setting => negb (get_bool setting =? 0)
  end.

Definition config_read_uint32_t (config_name : string) (default_value : Z) : Z :=
  match lookup config_name with
  | None => default_value
  | Some setting => wrap 32 (get_int setting)
  end.

(** [read_and_copy_str]: the copy, or [NULL].  [strlen] of a setting that is
    not a string is undefined. *)
Definition read_and_copy_str (malloc_ok : bool) (setting : option setting)
    (default_value : option string) : option (option string) :=
  match setting, default_value with
  | None, None => Some None
  | None, Some value => Some (if malloc_ok then Some value else None)
  | Some setting, _ =>
      value ← get_string setting;
      Some (if malloc_ok then Some value else None)
  end.

(** The [x > hi || x < 0] tests. *)
Definition outside (x hi : Z) : bool := (hi <? x) || (x <? 0).

(** [(int) (config_read_float("gain", 0) * 10)] *)
Definition read_gain : option Z :=
  to_int 32 (f32_mul (config_read_float "gain" f_zero) (f32_of_Z 10)).

Definition read_optimization : option Z :=
  match lookup "cpu_optimization" with
  | Some setting => str ← get_string setting; Some (config_parse_cpu_optimization str)
  | None => Some NATIVE_CF32
  end.

(** [create_server_config]: the code and the configuration.  [malloc_ok k]
    tells whether the [k]-th allocation of the function succeeds, [read_ok]
    whether [config_read_file] does, and [tmpdir] is [getenv("TMPDIR")]. *)
Definition create_server_config (malloc_ok : nat -> bool) (read_ok : bool)
    (tmpdir : option string) : option (Z * option server_config) :=
  if negb (malloc_ok 0%nat) then Some (- ENOMEM, None) else
  if negb read_ok then Some (-1, None) else
  let sdr_type := wrap 32 (config_read_int "sdr_type" 0) in
  let bias_t := config_read_int "bias_t" 0 in
  let gain_mode := config_read_int "gain_mode" 0 in
  gain ← read_gain;
  let ppm := config_read_int "ppm" 0 in
  let airspy_gain_mode := wrap 32 (config_read_int "airspy_gain_mode" AIRSPY_GAIN_MANUAL) in
  let airspy_vga_gain := config_read_int "airspy_vga_gain" 5 in
  if outside airspy_vga_gain 15 then Some (-1, None) else
  let airspy_mixer_gain := config_read_int "airspy_mixer_gain" 0 in
  if outside airspy_mixer_gain 15 then Some (-1, None) else
  let airspy_lna_gain := config_read_int "airspy_lna_gain" 1 in
  if outside airspy_lna_gain 14 then Some (-1, None) else
  let airspy_linearity_gain := config_read_int "airspy_linearity_gain" 0 in
  if outside airspy_linearity_gain 21 then Some (-1, None) else
  let airspy_sensitivity_gain := config_read_int "airspy_sensitivity_gain" 0 in
  if outside airspy_sensitivity_gain 21 then Some (-1, None) else
  let hackrf_bias_t := wrap 8 (config_read_int "hackrf_bias_t" 0) in
  let hackrf_amp := config_read_int "hackrf_amp" 0 in
  if 1 <? hackrf_amp then Some (-1, None) else
  let hackrf_lna_gain := config_read_int "hackrf_lna_gain" 16 in
  if outside hackrf_lna_gain 40 then Some (-1, None) else
  let hackrf_vga_gain := config_read_int "hackrf_vga_gain" 16 in
  if outside hackrf_vga_gain 62 then Some (-1, None) else
  let msisdr_gain_mode := config_read_int "msisdr_gain_mode" 1 in
  let msisdr_gain := config_read_int "msisdr_gain" 40 in
  if outside msisdr_gain 102 then Some (-1, None) else
  let msisdr_if_freq := config_read_int "msisdr_if_freq" 0 in
  let msisdr_bandwidth := config_read_uint32_t "msisdr_bandwidth" 0 in
  let msisdr_hw_flavour := config_read_int "msisdr_hw_flavour" 0 in
  let queue_size := config_read_int "queue_size" 64 in
  if queue_size <=? 0 then Some (-1, None) else
  match lookup "band_sampling_rate" with
  | None => Some (-1, None)
  | Some setting =>
      let band_sampling_rate := wrap 32 (get_int setting) in
      let device_index := config_read_int "device_index" 0 in
      device_serial ← read_and_copy_str (malloc_ok 1%nat) (lookup "device_serial") None;
      let buffer_size := config_read_uint32_t "buffer_size" 262144 in
      let buffer_size := if (sdr_type =? SDR_TYPE_AIRSPY) && negb (buffer_size =? AIRSPY_BUFFER_SIZE)
                         then AIRSPY_BUFFER_SIZE else buffer_size in
      let lpf_cutoff_rate := config_read_int "lpf_cutoff_rate" 5 in
      bind_address ← read_and_copy_str (malloc_ok 2%nat) (lookup "bind_address") (Some "127.0.0.1");
      match bind_address with
      | None => Some (- ENOMEM, None)
      | Some bind_address =>
          let port := config_read_int "port" 8090 in
          let read_timeout_seconds := config_read_int "read_timeout_seconds" 5 in
          if read_timeout_seconds <=? 0 then Some (-1, None) else
          base_path ← read_and_copy_str (malloc_ok 3%nat) (lookup "base_path")
                        (Some (default "/tmp" tmpdir));
          match base_path with
          | None => Some (- ENOMEM, None)
          | Some base_path =>
              let use_gzip := config_read_bool "use_gzip" true in
              optimization ← read_optimization;
              if optimization =? wrap 32 (-1) then Some (-1, None) else
              Some (0, Some (MkServerConfig bind_address port read_timeout_seconds device_serial
                optimization sdr_type device_index gain_mode gain ppm bias_t buffer_size
                band_sampling_rate queue_size lpf_cutoff_rate airspy_gain_mode airspy_vga_gain
                airspy_mixer_gain airspy_lna_gain airspy_linearity_gain airspy_sensitivity_gain
                hackrf_bias_t hackrf_amp hackrf_lna_gain hackrf_vga_gain msisdr_gain
                msisdr_gain_mode msisdr_if_freq msisdr_bandwidth msisdr_hw_flavour base_path use_gzip))
          end
      end
  end.

(** ** Specification *)

Definition between (lo x hi : Z) : Prop := lo <= x <= hi.

(** What the code promises of an accepted configuration. *)
Record valid_config (c : server_config) : Prop := {
  valid_vga : between 0 (airspy_vga_gain c) 15;
  valid_mixer : between 0 (airspy_mixer_gain c) 15;
  valid_lna : between 0 (airspy_lna_gain c) 14;
  valid_linearity : between 0 (airspy_linearity_gain c) 21;
  valid_sensitivity : between 0 (airspy_sensitivity_gain c) 21;
  valid_amp : hackrf_amp c <= 1;
  valid_hackrf_lna : between 0 (hackrf_lna_gain c) 40;
  valid_hackrf_vga : between 0 (hackrf_vga_gain c) 62;
  valid_msisdr_gain : between 0 (msisdr_gain c) 102;
  valid_queue : 0 < queue_size c;
  valid_timeout : 0 < read_timeout_seconds c;
  valid_optimization : optimization c = NATIVE_CF32 \/ optimization c = OPTIMIZED_CF32;
  valid_airspy_buffer : sdr_type c = SDR_TYPE_AIRSPY -> buffer_size c = AIRSPY_BUFFER_SIZE;
  valid_band_rate : is_unsigned 32 (band_sampling_rate c);
}.

(** The conditions a file has to satisfy. *)
Definition acceptable : Prop :=
  between 0 (config_read_int "airspy_vga_gain" 5) 15 /\
  between 0 (config_read_int "airspy_mixer_gain" 0) 15 /\
  between 0 (config_read_int "airspy_lna_gain" 1) 14 /\
  between 0 (config_read_int "airspy_linearity_gain" 0) 21 /\
  between 0 (config_read_int "airspy_sensitivity_gain" 0) 21 /\
  config_read_int "hackrf_amp" 0 <= 1 /\
  between 0 (config_read_int "hackrf_lna_gain" 16) 40 /\
  between 0 (config_read_int "hackrf_vga_gain" 16) 62 /\
  between 0 (config_read_int "msisdr_gain" 40) 102 /\
  0 < config_read_int "queue_size" 64 /\
  is_Some (lookup "band_sampling_rate") /\
  0 < config_read_int "read_timeout_seconds" 5 /\
  read_optimization <> Some (wrap 32 (-1)).

(** The settings that are read as strings are strings. *)
Definition string_settings : Prop :=
  forall name st, name ∈ ["device_serial"; "bind_address"; "base_path"; "cpu_optimization"] ->
    lookup name = Some st -> is_Some (get_string st).

(** ** Lemmas *)

Lemma outside_spec x hi : outside x hi = false <-> between 0 x hi.
Proof. unfold outside, between. rewrite orb_false_iff, !Z.ltb_ge. lia. Qed.

Lemma outside_true x hi : outside x hi = true -> ~ between 0 x hi.
Proof. intros H Hb. apply outside_spec in Hb. congruence. Qed.

Lemma read_and_copy_str_defined name malloc_ok d :
  string_settings -> name ∈ ["device_serial"; "bind_address"; "base_path"; "cpu_optimization"] ->
  exists r, read_and_copy_str malloc_ok (lookup name) d = Some r /\
    (malloc_ok = true -> (is_Some (lookup name) \/ is_Some d) -> is_Some r) /\
    (r = None -> malloc_ok = false \/ (lookup name = None /\ d = None)).
Proof using Type.
  clear get_int get_float get_bool.
  intros Hs Hin. unfold read_and_copy_str. destruct (lookup name) as [st|] eqn:E.
  - destruct (Hs name st Hin E) as [str ->]. simpl. eexists. split; [done|].
    destruct malloc_ok; split; naive_solver.
  - destruct d; (eexists; split; [done|]); destruct malloc_ok; split; naive_solver.
Qed.

Lemma read_optimization_cases o :
  read_optimization = Some o -> o = NATIVE_CF32 \/ o = OPTIMIZED_CF32 \/ o = wrap 32 (-1).
Proof using Type.
  clear get_int get_float get_bool.
  unfold read_optimization. destruct (lookup _); [|intros; simplify_eq; by left].
  intros H. apply bind_Some in H as (str & _ & H). simplify_eq.
  unfold config_parse_cpu_optimization. repeat case_match; auto.
Qed.

Lemma read_optimization_defined : string_settings -> is_Some read_optimization.
Proof using Type.
  clear get_int get_float get_bool.
  intros Hs. unfold read_optimization. destruct (lookup "cpu_optimization") as [st|] eqn:E; [|done].
  destruct (Hs "cpu_optimization" st ltac:(set_solver) E) as [str ->]. done.
Qed.

End libconfig.

(** A rejecting branch, and the branches of a range test. *)
Ltac reject := do 2 eexists; split; [reflexivity|]; split; [by right; auto|].
Ltac check_range :=
  match goal with
  | |- context [if outside ?x ?hi then _ else _] =>
      let E := fresh "E" in destruct (outside x hi) eqn:E;
      [apply outside_true in E; reject; unfold acceptable; tauto|apply outside_spec in E]
  end.

(** Validation of the configuration file: the parsing is total on files
    whose string settings are strings; it answers 0 with a configuration in
    which every checked field is in its range (gains, queue size, timeout,
    optimization, the forced AirSpy buffer size), or an error code and no
    configuration; and when no allocation fails a readable file is accepted
    exactly if it is [acceptable]. *)
Theorem create_server_config_correct {setting} (lookup : string -> option setting)
    get_int get_float get_bool get_string malloc_ok read_ok tmpdir :
  string_settings lookup get_string -> is_Some (read_gain lookup get_float) ->
  exists code r,
    create_server_config lookup get_int get_float get_bool get_string malloc_ok read_ok tmpdir
      = Some (code, r) /\
    ((code = 0 /\ acceptable lookup get_int get_string /\ exists c, r = Some c /\ valid_config c) \/
     ((code = - ENOMEM \/ code = -1) /\ r = None)) /\
    ((forall k, malloc_ok k = true) -> read_ok = true ->
     acceptable lookup get_int get_string -> code = 0).
Proof.
  intros Hs [g Hg]. unfold create_server_config.
  destruct (malloc_ok 0%nat) eqn:E0; cbn [negb]; [|reject; intros H; by rewrite H in E0].
  destruct read_ok; cbn [negb]; [|reject; done].
  rewrite Hg. cbn [mbind option_bind].
  do 5 check_range.
  destruct (1 <? _) eqn:E6; [apply Z.ltb_lt in E6; reject; unfold acceptable; lia|apply Z.ltb_ge in E6].
  do 3 check_range.
  destruct (_ <=? 0) eqn:E10; [apply Z.leb_le in E10; reject; unfold acceptable; lia|apply Z.leb_gt in E10].
  destruct (lookup "band_sampling_rate") as [st|] eqn:Eb.
  2: { reject. unfold acceptable. rewrite Eb. intros _ _ Ha. destruct Ha as (_&_&_&_&_&_&_&_&_&_&[? ?]&_). done. }
  destruct (read_and_copy_str_defined lookup get_string "device_serial" (malloc_ok 1%nat) None Hs)
    as (serial & -> & _); [set_solver|]. cbn [mbind option_bind].
  destruct (read_and_copy_str_defined lookup get_string "bind_address" (malloc_ok 2%nat) (Some "127.0.0.1") Hs)
    as (addr & -> & _ & Haddr); [set_solver|]. cbn [mbind option_bind].
  destruct addr as [addr|].
  2: { reject. intros H. destruct (Haddr eq_refl) as [Ex|[_ Ex]]; [by rewrite H in Ex|done]. }
  destruct (config_read_int lookup get_int "read_timeout_seconds" 5 <=? 0) eqn:Et;
    [apply Z.leb_le in Et; reject; unfold acceptable; lia|apply Z.leb_gt in Et].
  destruct (read_and_copy_str_defined lookup get_string "base_path" (malloc_ok 3%nat)
              (Some (default "/tmp" tmpdir)) Hs) as (base & -> & _ & Hbase); [set_solver|].
  cbn [mbind option_bind]. destruct base as [base|].
  2: { reject. intros H. destruct (Hbase eq_refl) as [Ex|[_ Ex]]; [by rewrite H in Ex|done]. }
  destruct (read_optimization_defined lookup get_string Hs) as [o Eo]. rewrite Eo. cbn [mbind option_bind].
  pose proof (read_optimization_cases lookup get_string o Eo) as Ho.
  destruct (o =? wrap 32 (-1)) eqn:Eq; [apply Z.eqb_eq in Eq; reject|apply Z.eqb_neq in Eq].
  { unfold acceptable. rewrite Eo, Eq. intros _ _ Ha. exfalso. by apply Ha. }
  do 2 eexists. split; [reflexivity|]. split; [left|done]. split; [done|]. split.
  - unfold acceptable. rewrite Eb, Eo. split_and!; try done; try lia. congruence.
  - eexists. split; [done|]. split; cbn; try done; try lia.
    + intros ->. rewrite Z.eqb_refl. by destruct (_ =? AIRSPY_BUFFER_SIZE) eqn:?; [apply Z.eqb_eq|].
    + apply wrap_range. lia.
Qed.

(** A file that sets the band rate, an AirSpy and the optimization. *)
Definition example_lookup (name : string) : option (Z + string) :=
  if String.eqb name "band_sampling_rate" then Some (inl 2016000)
  else if String.eqb name "sdr_type" then Some (inl 1)
  else if String.eqb name "cpu_optimization" then Some (inr "OPTIMIZED_CF32")
  else None.
Definition example_int (s : Z + string) : Z := match s with inl z => z | inr _ => 0 end.
Definition example_string (s : Z + string) : option string :=
  match s with inl _ => None | inr s => Some s end.

Lemma example_strings : string_settings example_lookup example_string.
Proof.
  intros name st Hin. repeat (apply elem_of_cons in Hin as [->|Hin]; [vm_compute; intros; simplify_eq; eauto|]).
  by apply not_elem_of_nil in Hin.
Qed.

Lemma create_server_config_correct_witness : exists c,
  create_server_config example_lookup example_int (fun _ => f_zero) example_int example_string
    (fun _ => true) true None = Some (0, Some c) /\
  valid_config c /\ buffer_size c = AIRSPY_BUFFER_SIZE /\ optimization c = OPTIMIZED_CF32.
Proof.
  destruct (create_server_config_correct example_lookup example_int (fun _ => f_zero) example_int
    example_string (fun _ => true) true None) as (code & r & E & [(-> & _ & c & -> & Hv)|[Hc _]] & Hok).
  - apply example_strings.
  - by eexists.
  - exists c. split; [exact E|]. split; [exact Hv|]. vm_compute in E. simplify_eq. done.
  - exfalso. assert (code = 0) as -> by (apply Hok; [done|done|unfold acceptable, between; vm_compute; split_and!; (congruence || done || by eexists)]).
    unfold ENOMEM in Hc. lia.
Defined.

End Config.
