(* ===== verification/Lpf.v ===== *)
(** * The low-pass filter design: src/lpf.c

    [sin] and [cos] of libm are parameters; everything else is computed in the
    C types ([double] and [float], in the evaluation order of the code). *)
From S2P Require Import Prelude Float.
From Stdlib Require Import SpecFloat.
Import Float.
#[local] Open Scope Z_scope.

Module Lpf.

(** [sanity_check_1f].  The comparison of the cutoff converts both sides to
    [float]. *)
Definition sanity_check_1f (sampling_freq cutoff_freq transition_width : Z) : Z :=
  if sampling_freq <=? 0 then -1
  else if (cutoff_freq <=? 0) ||
          f_lt (f32_div (f32_of_Z sampling_freq) (f32_of_Z 2)) (f32_of_Z cutoff_freq) then -1
  else if transition_width <=? 0 then -1
  else 0.

(** [computeNtaps]: [53.0 * sampling_freq] is a [double], [22.0F *
    transition_width] a [float]; the conversion of the quotient to [int] is
    undefined when it does not fit. *)
Definition computeNtaps (sampling_freq transition_width : Z) : option Z :=
  let a := f64_of_Z 53 in
  ntaps ← to_int 32 (f64_div (f64_mul a (f64_of_Z sampling_freq))
                             (f32_mul (f32_of_Z 22) (f32_of_Z transition_width)));
  Some (if Z.land ntaps 1 =? 0 then ntaps + 1 else ntaps).

(** The constants 0.54 and 0.46 as doubles. *)
Definition f0_54 : float := f64_div (f64_of_Z 54) (f64_of_Z 100).
Definition f0_46 : float := f64_div (f64_of_Z 46) (f64_of_Z 100).

Section libm.
Context (sin cos : float -> float).

Definition hamming (m n : Z) : float :=
  f32_of_f64 (f64_sub f0_54 (f64_mul f0_46
    (cos (f64_div (f64_mul (f64_mul (f64_of_Z 2) M_PI) (f64_of_Z n)) (f64_of_Z m))))).

(** [create_hamming_window]: the code and the window. *)
Definition create_hamming_window (malloc_ok : bool) (ntaps : Z) : Z * option (list float) :=
  if negb malloc_ok then (- ENOMEM, None)
  else
    let m := ntaps - 1 in
    (0, Some (map (fun n => hamming m (Z.of_nat n)) (seq 0 (Z.to_nat ntaps)))).

(** The tap number [n], from [-M] to [M], with the window value of its cell. *)
Definition tap (fwT0 : float) (n : Z) (w : float) : float :=
  if n =? 0 then f32_of_f64 (f64_mul (f64_div fwT0 M_PI) w)
  else f32_of_f64 (f64_mul (f64_div (sin (f64_mul (f64_of_Z n) fwT0)) (f64_mul (f64_of_Z n) M_PI)) w).

(** The gain at zero frequency, by which the taps are normalised. *)
Definition dc_gain (M : nat) (taps : list float) : option float :=
  fmax ← taps !! M;
  rest ← mapM (fun n => taps !! (n + M)%nat) (seq 1 M);
  Some (fold_left (fun fmax t => f32_add fmax (f32_mul (f32_of_Z 2) t)) rest fmax).

(** [create_low_pass_filter]: the code and the taps. *)
Definition create_low_pass_filter (malloc_ok : nat -> bool) (gain : float)
    (sampling_freq cutoff_freq transition_width : Z) : option (Z * option (list float)) :=
  let code := sanity_check_1f sampling_freq cutoff_freq transition_width in
  if negb (code =? 0) then Some (code, None) else
  ntaps ← computeNtaps sampling_freq transition_width;
  if negb (malloc_ok 0%nat) then Some (- ENOMEM, None) else
  match create_hamming_window (malloc_ok 1%nat) ntaps with
  | (code, None) => Some (code, None)
  | (code, Some w) =>
      if negb (code =? 0) then Some (code, None) else
      let M := Z.to_nat ((ntaps - 1) / 2) in
      let fwT0 := f32_of_f64 (f64_div (f64_mul (f64_mul (f64_of_Z 2) M_PI) (f64_of_Z cutoff_freq))
                                (f64_of_Z sampling_freq)) in
      taps ← mapM (fun i => wi ← w !! i; Some (tap fwT0 (Z.of_nat i - Z.of_nat M) wi)) (seq 0 (2 * M + 1));
      fmax ← dc_gain M taps;
      let gain := f32_div gain fmax in
      Some (0, Some (map (fun t => f32_mul t gain) taps))
  end.
End libm.

(** ** Specification *)

(** The number of taps in exact arithmetic: the quotient, made odd. *)
Definition make_odd (n : Z) : Z := if Z.even n then n + 1 else n.
Definition ntaps_ref (sampling_freq transition_width : Z) : Z :=
  make_odd (53 * sampling_freq / (22 * transition_width)).

(** ** Lemmas *)

Lemma land_1_even n : (Z.land n 1 =? 0) = Z.even n.
Proof.
  change 1 with (2 ^ 1 - 1) at 1. rewrite land_ones_mod by lia. change (2 ^ 1) with 2.
  rewrite Zmod_even. by destruct (Z.even n).
Qed.

Lemma make_odd_odd n : Z.odd (make_odd n) = true.
Proof.
  unfold make_odd. destruct (Z.even n) eqn:E; [|by rewrite <- Z.negb_even, E].
  by rewrite Z.add_1_r, Z.odd_succ.
Qed.

Lemma make_odd_bounds a d : 0 < d -> d * (make_odd (a / d) - 1) <= a < d * (make_odd (a / d) + 1).
Proof.
  intros Hd. assert (a / d <= make_odd (a / d) <= a / d + 1) as H by (unfold make_odd; destruct (Z.even _); lia).
  pose proof (Z.div_mod a d ltac:(lia)). pose proof (Z.mod_pos_bound a d Hd). nia.
Qed.

Lemma computeNtaps_odd sf tw n : computeNtaps sf tw = Some n -> Z.odd n = true.
Proof.
  unfold computeNtaps. intros H. apply bind_Some in H as (q & _ & H). simplify_eq.
  rewrite land_1_even. apply (make_odd_odd q).
Qed.

(** The divisor [22.0F * transition_width]. *)
Definition denominator (transition_width : Z) : float := f32_mul (f32_of_Z 22) (f32_of_Z transition_width).

(** An [uint32_t] as a [float]: 24 significant bits. *)
Lemma f32_of_Z_rounded n : 0 < n < 2 ^ 32 ->
  exists p e, f32_of_Z n = S754_finite false (Z.to_pos p) e /\ 2 ^ 23 <= p < 2 ^ 24 /\ - 23 <= e <= 9 /\
    Z.abs (p * 2 ^ (e + 23) - n * 2 ^ 23) <= n.
Proof.
  intros Hn. unfold f32_of_Z. destruct (decide (n < 2 ^ 24)) as [Hs|Hw].
  - assert (Z.log2 n < 24) by (apply Z.log2_lt_pow2; lia). pose proof (Z.log2_nonneg n).
    rewrite of_Z_spec by lia. exists (n * 2 ^ pad 24 n), (- pad 24 n). unfold pad. split; [done|].
    pose proof (Z.log2_spec n ltac:(lia)) as [Ha Hb]. split; [|split; [lia|]].
    + assert (2 ^ Z.log2 n * 2 ^ (24 - (Z.log2 n + 1)) = 2 ^ 23) as <- by (rewrite <- Z.pow_add_r by lia; f_equal; lia).
      assert (2 ^ Z.succ (Z.log2 n) * 2 ^ (24 - (Z.log2 n + 1)) = 2 ^ 24) as <- by (rewrite <- Z.pow_add_r by lia; f_equal; lia).
      assert (0 < 2 ^ (24 - (Z.log2 n + 1))) by (apply Z.pow_pos_nonneg; lia). nia.
    + rewrite <- Z.mul_assoc, <- Z.pow_add_r by lia.
      replace (24 - (Z.log2 n + 1) + (- (24 - (Z.log2 n + 1)) + 23)) with 23 by lia. lia.
  - assert (Z.log2 n < 32) by (apply Z.log2_lt_pow2; lia).
    assert (24 <= Z.log2 n) by (apply Z.log2_le_pow2; lia).
    destruct (of_Z_wide 24 128 ltac:(lia) ltac:(lia) n) as (p & e & -> & Hp & He & Herr); [lia..|].
    exists p, e. split; [done|]. change (24 - 1) with 23 in *. split; [done|]. split; [lia|].
    rewrite Z.pow_add_r by lia. nia.
Qed.

(** A wide divisor is rounded: 24 significant bits, no fraction. *)
Lemma denominator_wide tw : 0 < tw < 2 ^ 32 -> 2 ^ 24 <= 22 * tw ->
  exists p e, denominator tw = S754_finite false (Z.to_pos p) e /\ 0 < p /\ 0 <= e /\ Z.log2 p + e < 53 /\
    Z.abs (p * 2 ^ e - 22 * tw) * 2 ^ 21 <= 22 * tw.
Proof.
  intros Htw Hwide. destruct (f32_of_Z_rounded tw Htw) as (P & E & HE & HP & HEr & Herr).
  unfold denominator, f32_mul. rewrite HE. unfold f32_of_Z.
  rewrite of_Z_spec by lia. change (pad 24 22) with 19. cbn [SFmul xorb].
  set (m := 22 * 2 ^ 19 * P).
  replace (Z.pos (Z.to_pos (22 * 2 ^ 19) * Z.to_pos P)) with m by (subst m; rewrite Pos2Z.inj_mul, !Z2Pos.id by lia; done).
  assert (0 < m) as Hm by (subst m; lia).
  assert (46 <= Z.log2 m < 48) as Hlm.
  { split; [apply Z.log2_le_pow2; subst m; lia|apply Z.log2_lt_pow2; subst m; lia]. }
  destruct (round_aux_wide 24 128 ltac:(lia) ltac:(lia) m (- (19) + E)) as (p & k & -> & Hp & Hk & Hrnd); [lia..|].
  change (24 - 1) with 23 in *. set (T := 2 ^ (E + 23)) in *. assert (0 < T) as HT by (apply Z.pow_pos_nonneg; lia).
  assert (0 <= k + E - 19) as Hexp.
  { assert (2 ^ 65 <= m * T) as H65 by (subst m; nia).
    assert (65 <= Z.log2 (m * T)) as Hl by (apply Z.log2_le_pow2; nia).
    subst T. rewrite log2_shift in Hl by lia. lia. }
  exists p, (- (19) + E + k). split; [done|]. split; [lia|]. split; [lia|]. split.
  - assert (Z.log2 p < 24) by (apply Z.log2_lt_pow2; lia). lia.
  - assert (p * 2 ^ k * T = p * 2 ^ (- (19) + E + k) * 2 ^ 42) as Hd.
    { subst T. rewrite <- !Z.mul_assoc, <- !Z.pow_add_r by lia. do 2 f_equal. lia. }
    set (d := p * 2 ^ (- (19) + E + k)) in *.
    assert (Z.abs (d * 2 ^ 42 - m * T) * 2 ^ 23 <= m * T) as H1.
    { rewrite <- Hd, <- Z.mul_sub_distr_r, Z.abs_mul, (Z.abs_eq T) by lia. nia. }
    subst m. set (f := P * T) in *. replace (22 * 2 ^ 19 * P * T) with (22 * 2 ^ 19 * f) in H1 by (subst f; ring). lia.
Qed.

(** A narrow one is exact. *)
Lemma denominator_narrow tw : 0 < tw -> 22 * tw < 2 ^ 24 ->
  denominator tw = f32_of_Z (22 * tw) /\ trunc (denominator tw) = Some (22 * tw).
Proof.
  intros H0 H1. assert (denominator tw = f32_of_Z (22 * tw)) as ->.
  { unfold denominator, f32_mul, f32_of_Z. by rewrite mul_of_Z by lia. }
  split; [done|]. unfold f32_of_Z. rewrite of_Z_spec by lia.
  assert (Z.log2 (22 * tw) < 24) by (apply Z.log2_lt_pow2; lia). pose proof (Z.log2_nonneg (22 * tw)).
  rewrite trunc_shift by (unfold pad; lia). replace (- pad 24 (22 * tw) + pad 24 (22 * tw)) with 0 by lia.
  unfold trunc. cbn [Z.leb]. rewrite Z2Pos.id by lia. simpl Z.compare. by rewrite Z.pow_0_r, Z.mul_1_r.
Qed.

(** The number of taps from the divisor, out of the range of [int] included. *)
Lemma computeNtaps_div sf tw : 0 < sf < 2 ^ 32 -> 0 < tw < 2 ^ 32 ->
  exists d, 0 < d /\ trunc (denominator tw) = Some d /\ Z.abs (d - 22 * tw) * 2 ^ 21 <= 22 * tw /\
    (22 * tw < 2 ^ 24 -> d = 22 * tw) /\
    computeNtaps sf tw = (if decide (53 * sf / d < 2 ^ 31) then Some (make_odd (53 * sf / d)) else UB).
Proof.
  intros Hs Ht.
  assert (forall d, 0 < d -> trunc (f64_div (f64_of_Z (53 * sf)) (denominator tw)) = Some (53 * sf / d) ->
    computeNtaps sf tw = (if decide (53 * sf / d < 2 ^ 31) then Some (make_odd (53 * sf / d)) else UB)) as Hmain.
  { intros d Hd Htr. unfold computeNtaps. fold (denominator tw). unfold f64_mul, f64_of_Z. rewrite mul_of_Z by lia.
    fold (f64_of_Z (53 * sf)). unfold to_int. rewrite Htr. cbn [mbind option_bind].
    assert (0 <= 53 * sf / d) by (apply Z.div_pos; lia). change (32 - 1) with 31.
    destruct (decide (53 * sf / d < 2 ^ 31)); [rewrite decide_True by lia|rewrite decide_False by lia; done].
    cbn [mbind option_bind]. by rewrite land_1_even. }
  destruct (decide (22 * tw < 2 ^ 24)) as [Hn|Hw].
  - destruct (denominator_narrow tw) as [Ed Etr]; [lia..|]. exists (22 * tw). split; [lia|]. split; [done|].
    split; [lia|]. split; [done|]. apply Hmain; [lia|]. rewrite Ed. unfold f64_div, f64_of_Z, f32_of_Z.
    rewrite (of_Z_spec 24 128 ltac:(lia) ltac:(lia) (22 * tw)) by lia. apply trunc_div; [lia..|].
    unfold pad. pose proof (Z.log2_nonneg (22 * tw)). assert (Z.log2 (22 * tw) < 24) by (apply Z.log2_lt_pow2; lia). lia.
  - destruct (denominator_wide tw) as (p & e & Ed & Hp & He & Hl & Herr); [lia..|].
    assert (0 < 2 ^ e) by (apply Z.pow_pos_nonneg; lia).
    exists (p * 2 ^ e). split; [nia|]. split; [rewrite Ed; unfold trunc; rewrite (proj2 (Z.leb_le 0 e)) by lia; by rewrite Z2Pos.id by lia|].
    split; [done|]. split; [lia|]. apply Hmain; [nia|]. rewrite Ed. unfold f64_div, f64_of_Z.
    apply trunc_div_wide; lia.
Qed.

Lemma computeNtaps_ref sf tw :
  0 < sf < 2 ^ 32 -> 0 < tw -> 22 * tw < 2 ^ 24 -> 53 * sf / (22 * tw) < 2 ^ 31 ->
  computeNtaps sf tw = Some (ntaps_ref sf tw).
Proof.
  intros Hs Ht0 Ht Hq. destruct (computeNtaps_div sf tw Hs ltac:(lia)) as (d & _ & _ & _ & Hd & ->).
  rewrite Hd by done. by rewrite decide_True.
Qed.

Lemma ntaps_ref_bounds sf tw : 0 < tw ->
  53 * sf / (22 * tw) <= ntaps_ref sf tw <= 53 * sf / (22 * tw) + 1.
Proof. intros H. unfold ntaps_ref, make_odd. destruct (Z.even _); lia. Qed.

Lemma mapM_seq_defined {A} (f : nat -> option A) n : forall lo,
  (forall i, lo <= i < lo + n -> is_Some (f i))%nat ->
  exists l, mapM f (seq lo n) = Some l /\ length l = n.
Proof.
  induction n as [|n IH]; intros lo H; [by exists []|].
  destruct (H lo ltac:(lia)) as [a Ha]. destruct (IH (S lo)) as (l & Hl & Hlen).
  { intros i Hi. apply H. lia. }
  exists (a :: l). cbn [seq mapM]. rewrite Ha. cbn [mbind option_bind]. rewrite Hl.
  cbn [mbind option_bind]. split; [done|]. simpl. by rewrite Hlen.
Qed.

Lemma length_hamming_window cos ntaps w :
  create_hamming_window cos true ntaps = (0, Some w) -> length w = Z.to_nat ntaps.
Proof. unfold create_hamming_window. cbn. intros H. simplify_eq. by rewrite length_map, length_seq. Qed.

(** The loops stay inside the arrays: given the number of taps, the design
    is defined. *)
Lemma create_low_pass_filter_defined sin cos malloc_ok gain sf cutoff tw n :
  sanity_check_1f sf cutoff tw = 0 -> computeNtaps sf tw = Some n -> 0 < n ->
  (forall k, malloc_ok k = true) ->
  exists taps, create_low_pass_filter sin cos malloc_ok gain sf cutoff tw = Some (0, Some taps) /\
    Z.of_nat (length taps) = n.
Proof.
  intros Hs Hn Hpos Hm. unfold create_low_pass_filter. rewrite Hs. cbn [Z.eqb negb].
  pose proof (computeNtaps_odd _ _ _ Hn) as Hodd. rewrite Hn. cbn [mbind option_bind]. rewrite !Hm. cbn [negb].
  unfold create_hamming_window. cbn [negb Z.eqb]. set (w := map _ _).
  assert (length w = Z.to_nat n) as Hw by (subst w; by rewrite length_map, length_seq).
  set (M := Z.to_nat ((n - 1) / 2)).
  assert (2 * M + 1 = Z.to_nat n)%nat as HM.
  { apply Z.odd_spec in Hodd as [k ->]. subst M. replace (2 * k + 1 - 1) with (k * 2) by lia.
    rewrite Z.div_mul by lia. lia. }
  destruct (mapM_seq_defined (fun i => wi ← w !! i; Some (tap sin
      (f32_of_f64 (f64_div (f64_mul (f64_mul (f64_of_Z 2) M_PI) (f64_of_Z cutoff)) (f64_of_Z sf)))
      (Z.of_nat i - Z.of_nat M) wi)) (2 * M + 1) 0) as (taps & -> & Hlen).
  { intros i Hi. destruct (lookup_lt_is_Some_2 w i) as [wi ->]; [lia|]. by eexists. }
  cbn [mbind option_bind]. unfold dc_gain.
  destruct (lookup_lt_is_Some_2 taps M) as [t0 ->]; [lia|]. cbn [mbind option_bind].
  destruct (mapM_seq_defined (fun n0 => taps !! (n0 + M)%nat) M 1) as (rest & -> & _).
  { intros i Hi. apply lookup_lt_is_Some_2. lia. }
  cbn [mbind option_bind]. eexists. split; [done|]. rewrite length_map. lia.
Qed.

Lemma sanity_cases sf cutoff tw :
  sanity_check_1f sf cutoff tw = -1 \/ (sanity_check_1f sf cutoff tw = 0 /\ 0 < sf /\ 0 < tw).
Proof.
  unfold sanity_check_1f. destruct (sf <=? 0) eqn:E1; [by left|]. destruct (_ || _); [by left|].
  destruct (tw <=? 0) eqn:E2; [by left|]. right. lia.
Qed.

(** C23. The number of filter taps, for every rate and width that is not zero:
    with [d] the value of the [float] [22.0F * transition_width], which is an
    integer, equal to 22 * width below 2^24 and within 2^-21 of it above,
    [computeNtaps] divides as in exact arithmetic: the conversion to [int] is
    undefined when the integer quotient 53 * rate / d does not fit an [int],
    and the result is otherwise that quotient made odd, so that it is an odd
    number with d * (n - 1) <= 53 * rate < d * (n + 1). *)
Theorem computeNtaps_exact sf tw :
  0 < sf < 2 ^ 32 -> 0 < tw < 2 ^ 32 ->
  exists d, trunc (f32_mul (f32_of_Z 22) (f32_of_Z tw)) = Some d /\
    Z.abs (d - 22 * tw) * 2 ^ 21 <= 22 * tw /\ (22 * tw < 2 ^ 24 -> d = 22 * tw) /\
    computeNtaps sf tw = (if decide (53 * sf / d < 2 ^ 31) then Some (make_odd (53 * sf / d)) else UB) /\
    (forall n, computeNtaps sf tw = Some n -> Z.odd n = true /\ d * (n - 1) <= 53 * sf < d * (n + 1)).
Proof.
  intros H1 H2. destruct (computeNtaps_div sf tw H1 H2) as (d & Hd & Htr & Herr & Hex & E).
  exists d. do 4 (split; [done|]). intros n Hn. split; [by eapply computeNtaps_odd|].
  rewrite E in Hn. destruct (decide _) in Hn; [|done]. simplify_eq. apply make_odd_bounds; lia.
Qed.

(** The design of the low-pass filter: arguments that fail the sanity check
    give code -1 and a failed allocation [-ENOMEM]; otherwise, for the rates
    the server can be asked for and whatever [sin] and [cos] compute, the
    loops stay inside the arrays and the result is an odd number of taps, the
    one of [ntaps_ref]. *)
Theorem create_low_pass_filter_correct sin cos malloc_ok gain sf cutoff tw :
  sf < 2 ^ 32 -> 22 * tw < 2 ^ 24 -> 53 * sf / (22 * tw) < 2 ^ 31 ->
  exists code r, create_low_pass_filter sin cos malloc_ok gain sf cutoff tw = Some (code, r) /\
    ((code = -1 /\ r = None /\ sanity_check_1f sf cutoff tw = -1) \/
     (code = - ENOMEM /\ r = None /\ exists k, malloc_ok k = false) \/
     (code = 0 /\ sanity_check_1f sf cutoff tw = 0 /\
      exists taps, r = Some taps /\ Z.of_nat (length taps) = ntaps_ref sf tw)).
Proof.
  intros Hsf Htw Hq. destruct (sanity_cases sf cutoff tw) as [Hs|(Hs & Hsf0 & Htw0)].
  { unfold create_low_pass_filter. rewrite Hs. cbn. do 2 eexists. split; [done|]. by left. }
  pose proof (computeNtaps_ref sf tw ltac:(lia) Htw0 Htw Hq) as Hn.
  destruct (malloc_ok 0%nat) eqn:E0; [destruct (malloc_ok 1%nat) eqn:E1|].
  - destruct (create_low_pass_filter_defined sin cos (fun _ => true) gain sf cutoff tw _ Hs Hn)
      as (taps & Ht & Hl); [|done|].
    { unfold ntaps_ref, make_odd. assert (0 <= 53 * sf / (22 * tw)) by (apply Z.div_pos; lia).
      destruct (Z.even _) eqn:E; [lia|]. destruct (decide (53 * sf / (22 * tw) = 0)) as [H0|]; [|lia].
      by rewrite H0 in E. }
    exists 0, (Some taps). split; [|right; right; by eauto].
    unfold create_low_pass_filter in *. rewrite E0, E1. exact Ht.
  - unfold create_low_pass_filter. rewrite Hs, Hn. cbn. rewrite E0, E1. cbn.
    do 2 eexists. split; [done|]. right. left. eauto.
  - unfold create_low_pass_filter. rewrite Hs, Hn. cbn. rewrite E0. cbn.
    do 2 eexists. split; [done|]. right. left. eauto.
Qed.

(** A width whose divisor is exact, one whose divisor 22 * 2200003 is rounded, and
    one for which the quotient is too large. *)
Lemma computeNtaps_exact_witness :
  computeNtaps 2016000 9600 = Some 505 /\ computeNtaps 4000000000 2200003 = Some 4381 /\
  computeNtaps 4000000000 1 = UB.
Proof.
  destruct (computeNtaps_exact 2016000 9600) as (d1 & D1 & _ & _ & E1 & _); [lia|lia|].
  destruct (computeNtaps_exact 4000000000 2200003) as (d2 & D2 & _ & _ & E2 & _); [lia|lia|].
  destruct (computeNtaps_exact 4000000000 1) as (d3 & D3 & _ & _ & E3 & _); [lia|lia|].
  vm_compute in D1, D2, D3. injection D1 as <-. injection D2 as <-. injection D3 as <-.
  split; [rewrite E1; vm_compute; reflexivity|]. split; [rewrite E2; vm_compute; reflexivity|].
  rewrite E3. vm_compute. reflexivity.
Defined.

Lemma create_low_pass_filter_correct_witness : exists taps,
  create_low_pass_filter (fun x => x) (fun x => x) (fun _ => true) (f32_of_Z 1) 48000 4800 9600
    = Some (0, Some taps) /\ length taps = 13%nat.
Proof.
  destruct (create_low_pass_filter_correct (fun x => x) (fun x => x) (fun _ => true) (f32_of_Z 1) 48000 4800 9600)
    as (code & r & E & [(_ & _ & H)|[(_ & _ & k & H)|(-> & _ & taps & -> & H)]]);
    [lia|lia|vm_compute; done|discriminate H|discriminate H|].
  exists taps. split; [exact E|]. apply Nat2Z.inj. rewrite H. vm_compute. reflexivity.
Defined.

End Lpf.
