(* ===== verification/DspWorker.v ===== *)
(** * The DSP worker of a client: src/dsp_worker.h and src/dsp_worker.c

    A worker owns a queue, a filter, an output file and a thread.  The thread
    ([callback]) takes buffers until the queue is poisoned, filters them and
    writes the result to the file or the socket of the client. *)
From S2P Require Import Prelude Queue Api Float Xlating Lpf Config.
From Stdlib Require Import SpecFloat.
Import Queue Float Xlating.
#[local] Open Scope Z_scope.

Module DspWorker.

(** [client_config]; the socket is the model's stream of [write] results. *)
Record client_config := MkClientConfig {
  center_freq : Z;
  sampling_rate : Z;
  band_freq : Z;
  destination : Z;
  id : Z;
  sdr_type : Z;
  is_running : bool;
}.

(** [dsp_worker]: the fields that are not [NULL].  The queue comes with the
    heap of its nodes. *)
Record dsp_worker := MkDspWorker {
  w_config : client_config;
  w_queue : option (queue * gmap nat queue_node);
  w_filter : option xlating;
  w_thread : bool;
  w_file : bool;
  w_gz : bool;
}.

(** ** Output *)

(** A [float] in memory: the bits of the binary32 format. *)
Definition f32_bits (x : float) : Z :=
  match x with
  | S754_zero s => if s then 2 ^ 31 else 0
  | S754_infinity s => (if s then 2 ^ 31 else 0) + 255 * 2 ^ 23
  | S754_nan => 255 * 2 ^ 23 + 2 ^ 22
  | S754_finite s m e =>
      (if s then 2 ^ 31 else 0) +
      (if Z.pos m <? 2 ^ 23 then Z.pos m else (e + 150) * 2 ^ 23 + (Z.pos m - 2 ^ 23))
  end.

Definition complex_bytes (c : complex) : list Z :=
  Api.le32 (f32_bits (creal c)) ++ Api.le32 (f32_bits (cimag c)).

Definition output_bytes (output : list complex) : list Z := concat (map complex_bytes output).

(** [write_to_file]: [result] is what [fwrite] (items) or [gzwrite] (bytes, a
    negative number or 0 for an error) answers; it is stored in a [size_t]. *)
Definition write_to_file (has_file has_gz : bool) (result : Z) (filter_output_len : nat) : Z :=
  if has_file || has_gz then
    let n_written := wrap 64 result in
    if n_written <? Z.of_nat filter_output_len then -1 else 0
  else -1.

(** [write_to_socket] *)
Definition write_to_socket (output : list complex) (io : list Z) : Api.write_result :=
  Api.write_loop (output_bytes output) [] io.

(** ** The thread *)

(** What the thread does to the world. *)
Inductive effect :=
| FileWrite (data : list complex)
| SocketWrite (bytes : list Z)
| CompleteBuffer
| CloseSocket.

Definition int8s (input : list Z) : list Z := map (swrap 8) input.

(** The [int16_t]s of a byte buffer (little endian). *)
Definition int16s (input : list Z) : list Z :=
  map (fun lh => swrap 16 (fst lh + 256 * snd lh)) (pairs input).

Section callback.
Context (hypotf : float -> float -> float).

(** The function pointers of a worker, and the switch of [dsp_worker_start] that
    sets them from the [cpu_optimization] of the configuration; [None] where the
    start fails.  [process_optimized_*] are those of a build without AVX and
    NEON (or with [NO_MANUAL_SIMD]). *)
Record filter_calls := MkFilterCalls {
  xlating_process_cu8 : list Z -> xlating -> option (list complex * xlating);
  xlating_process_cs8 : list Z -> xlating -> option (list complex * xlating);
  xlating_process_cs16 : list Z -> xlating -> option (list complex * xlating);
}.

Definition filter_calls_of (optimization : Z) : option filter_calls :=
  if optimization =? Config.NATIVE_CF32 then
    Some (MkFilterCalls (process_native_cu8_cf32 hypotf) (process_native_cs8_cf32 hypotf)
                        (process_native_cs16_cf32 hypotf))
  else if optimization =? Config.OPTIMIZED_CF32 then
    Some (MkFilterCalls (process_optimized_cu8_cf32 hypotf) (process_optimized_cs8_cf32 hypotf)
                        (process_optimized_cs16_cf32 hypotf))
  else None.

(** The switch on the device type, through the pointers.  For any other type the
    local variables [filter_output] and [filter_output_len] keep their values. *)
Definition filter_input_through (calls : filter_calls) (sdr_type : Z) (input : list Z) (filter : xlating)
    (filter_output : list complex) : option (list complex * xlating) :=
  if sdr_type =? Config.SDR_TYPE_HACKRF then xlating_process_cs8 calls (int8s input) filter
  else if sdr_type =? Config.SDR_TYPE_RTL then xlating_process_cu8 calls input filter
  else if sdr_type =? Config.SDR_TYPE_AIRSPY then xlating_process_cs16 calls (int16s input) filter
  else Some (filter_output, filter).

(** The same with the functions the pointers stand for: in this build both
    choices call the same code ([filter_input_selected]), so that the thread
    below does not carry the pointers. *)
Definition filter_input (sdr_type : Z) (input : list Z) (filter : xlating)
    (filter_output : list complex) : option (list complex * xlating) :=
  if sdr_type =? Config.SDR_TYPE_HACKRF then
    process_native_cs8_cf32 hypotf (int8s input) filter
  else if sdr_type =? Config.SDR_TYPE_RTL then
    process_native_cu8_cf32 hypotf input filter
  else if sdr_type =? Config.SDR_TYPE_AIRSPY then
    process_native_cs16_cf32 hypotf (int16s input) filter
  else Some (filter_output, filter).

(** The write of the output: the code, the effect and the remaining results;
    [None] when the thread stays blocked in [write]. *)
Definition write_output (config : client_config) (has_file has_gz : bool) (output : list complex)
    (io : list Z) : option (Z * list effect * list Z) :=
  if destination config =? Api.REQUEST_DESTINATION_FILE then
    match io with
    | [] => None
    | result :: io' =>
        Some (write_to_file has_file has_gz result (length output), [FileWrite output], io')
    end
  else if destination config =? Api.REQUEST_DESTINATION_SOCKET then
    match write_to_socket output io with
    | Api.WriteBlocked => None
    | Api.WriteDone code sent io' => Some (code, [SocketWrite sent], io')
    end
  else Some (-1, [], io).

(** How a run of the thread ends: it returns, or it is blocked in a [write]. *)
Inductive run_result :=
| Returned (effects : list effect) (filter : xlating) (io : list Z)
| BlockedInWrite (effects : list effect).

(** [callback]: the loop over the buffers [inputs] that the queue hands out
    before [NULL]. *)
Fixpoint callback_loop (config : client_config) (has_file has_gz : bool) (inputs : list (list Z))
    (filter_output : list complex) (filter : xlating) (io : list Z) : option run_result :=
  match inputs with
  | [] => Some (Returned [] filter io)
  | input :: inputs' =>
      r ← filter_input (sdr_type config) input filter filter_output;
      let '(output, filter') := r in
      match write_output config has_file has_gz output io with
      | None => Some (BlockedInWrite [])
      | Some (code, written, io') =>
          let effects := written ++ CompleteBuffer :: (if code =? 0 then [] else [CloseSocket]) in
          rest ← callback_loop config has_file has_gz inputs' output filter' io';
          Some (match rest with
                | Returned effects' f io'' => Returned (effects ++ effects') f io''
                | BlockedInWrite effects' => BlockedInWrite (effects ++ effects')
                end)
      end
  end.

Definition callback (worker : dsp_worker) (inputs : list (list Z)) (io : list Z) : option run_result :=
  filter ← w_filter worker;
  callback_loop (w_config worker) (w_file worker) (w_gz worker) inputs [] filter io.
End callback.

(** ** Start and destruction *)

Inductive resource := RWorker | RTaps | RFilter | RGz | RFile | RQueue | RThread.

Inductive event :=
| Acquire (r : resource)
| Release (r : resource)
| InterruptQueue.

(** [dsp_worker_destroy]: join the thread before anything it uses is freed. *)
Definition dsp_worker_destroy (node : dsp_worker) : list event :=
  (if w_queue node is Some _ then [InterruptQueue] else []) ++
  (if w_thread node then [Release RThread] else []) ++
  (if w_queue node is Some _ then [Release RQueue] else []) ++
  (if w_file node then [Release RFile] else []) ++
  (if w_gz node then [Release RGz] else []) ++
  (if w_filter node is Some _ then [Release RFilter; Release RTaps] else []) ++
  [Release RWorker].

(** What the system answers to the calls of [dsp_worker_start]. *)
Record start_env := MkStartEnv {
  env_worker_malloc : bool;
  env_lpf_malloc : nat -> bool;
  env_filter_malloc : nat -> bool;
  env_addr32 : Z;
  env_addr16 : Z;
  env_garbage32 : list complex;
  env_garbage16 : list Z;
  env_open : bool;
  env_queue_malloc : nat -> bool;
  env_queue_garbage : nat -> list Z;
  env_thread_malloc : bool;
  env_pthread_create : bool;
}.

Section start.
Context (sin cos : float -> float) (cexpf : complex -> complex).

(** [dsp_worker_start]: the code, the worker, and the resources acquired and
    released on the way.  The taps become the filter's; its constructor frees
    them when it fails after having stored them. *)
Definition dsp_worker_start (env : start_env) (config : client_config)
    (server_config : Config.server_config) : option (Z * option dsp_worker * list event) :=
  _ ← ensure (env_worker_malloc env);
  let worker0 := MkDspWorker config None None false false false in
  let lpf_cutoff_rate := wrap 32 (Config.lpf_cutoff_rate server_config) in
  _ ← ensure (negb (lpf_cutoff_rate =? 0));
  lpf ← Lpf.create_low_pass_filter sin cos (env_lpf_malloc env) (f32_of_Z 1)
          (Config.band_sampling_rate server_config) (sampling_rate config / 2)
          (sampling_rate config / lpf_cutoff_rate);
  let tr0 := [Acquire RWorker] in
  match lpf with
  | (code, None) => Some (code, None, tr0 ++ dsp_worker_destroy worker0)
  | (_, Some taps) =>
      let tr1 := tr0 ++ [Acquire RTaps] in
      _ ← ensure (negb (sampling_rate config =? 0));
      xl ← create_frequency_xlating_filter cexpf (env_filter_malloc env) (env_addr32 env) (env_addr16 env)
             (env_garbage32 env) (env_garbage16 env)
             (Z.to_nat (Config.band_sampling_rate server_config / sampling_rate config)) taps
             (swrap 32 (center_freq config - band_freq config))
             (Config.band_sampling_rate server_config)
             (Z.to_nat (Config.buffer_size server_config));
      match xl with
      | (code, None) =>
          let freed := if negb (length taps =? 0)%nat && env_filter_malloc env 0%nat
                       then [Release RTaps] else [] in
          Some (code, None, tr1 ++ freed ++ dsp_worker_destroy worker0)
      | (_, Some filter) =>
          let tr2 := tr1 ++ [Acquire RFilter] in
          let worker1 := MkDspWorker config None (Some filter) false false false in
          if negb (Config.optimization server_config =? Config.NATIVE_CF32) &&
             negb (Config.optimization server_config =? Config.OPTIMIZED_CF32)
          then Some (-1, None, tr2 ++ dsp_worker_destroy worker1)
          else if negb (env_open env) then Some (-1, None, tr2 ++ dsp_worker_destroy worker1)
          else
            let gz := Config.use_gzip server_config in
            let tr3 := tr2 ++ [Acquire (if gz then RGz else RFile)] in
            let worker2 := MkDspWorker config None (Some filter) false (negb gz) gz in
            q ← create_queue (env_queue_malloc env) (env_queue_garbage env)
                  (Z.to_nat (Config.buffer_size server_config)) (Config.queue_size server_config) 0 ∅;
            match q with
            | (_, None, _) => Some (-1, None, tr3 ++ dsp_worker_destroy worker2)
            | (_, Some queue, heap) =>
                let tr4 := tr3 ++ [Acquire RQueue] in
                let worker3 := MkDspWorker config (Some (queue, heap)) (Some filter) false (negb gz) gz in
                if negb (env_thread_malloc env)
                then Some (- ENOMEM, None, tr4 ++ dsp_worker_destroy worker3)
                else if negb (env_pthread_create env)
                then Some (-1, None, tr4 ++ dsp_worker_destroy worker3)
                else Some (0, Some (MkDspWorker config (Some (queue, heap)) (Some filter) true (negb gz) gz),
                           tr4 ++ [Acquire RThread])
            end
      end
  end.
End start.

(** [dsp_worker_process] *)
Definition dsp_worker_process (buf : list Z) (node : dsp_worker) : option dsp_worker :=
  qh ← w_queue node;
  qh' ← queue_put buf (length buf) (fst qh) (snd qh);
  Some (MkDspWorker (w_config node) (Some qh') (w_filter node) (w_thread node) (w_file node) (w_gz node)).

(** ** Specification *)

(** The sample values of an input buffer and their conversion, per device. *)
Definition client_samples (sdr_type : Z) (input : list Z) : list Z :=
  if sdr_type =? Config.SDR_TYPE_HACKRF then int8s input
  else if sdr_type =? Config.SDR_TYPE_RTL then input
  else int16s input.

Definition client_conv (sdr_type : Z) : Z -> float :=
  if sdr_type =? Config.SDR_TYPE_HACKRF then of_cs8
  else if sdr_type =? Config.SDR_TYPE_RTL then of_cu8
  else of_cs16.

Definition supported (sdr_type : Z) : Prop :=
  sdr_type = Config.SDR_TYPE_RTL \/ sdr_type = Config.SDR_TYPE_AIRSPY \/
  sdr_type = Config.SDR_TYPE_HACKRF.

(** The bytes that went to the socket, and the buffers given back. *)
Definition socket_bytes (effects : list effect) : list Z :=
  concat (map (fun e => match e with SocketWrite bytes => bytes | _ => [] end) effects).
Definition completed (effects : list effect) : nat :=
  sum_list_with (fun e => match e with CompleteBuffer => 1%nat | _ => 0%nat end) effects.
Definition closes (effects : list effect) : nat :=
  sum_list_with (fun e => match e with CloseSocket => 1%nat | _ => 0%nat end) effects.

Definition effects_of (r : run_result) : list effect :=
  match r with Returned effects _ _ => effects | BlockedInWrite effects => effects end.

(** ** Lemmas: the thread *)

Lemma socket_bytes_app e1 e2 : socket_bytes (e1 ++ e2) = socket_bytes e1 ++ socket_bytes e2.
Proof. unfold socket_bytes. by rewrite map_app, concat_app. Qed.

Lemma output_bytes_app o1 o2 : output_bytes (o1 ++ o2) = output_bytes o1 ++ output_bytes o2.
Proof. unfold output_bytes. by rewrite map_app, concat_app. Qed.

(** Whatever optimization a worker was started with, its switch is [filter_input]. *)
Lemma filter_input_selected hypotf optimization calls t input f out :
  filter_calls_of hypotf optimization = Some calls ->
  filter_input_through calls t input f out = filter_input hypotf t input f out.
Proof.
  unfold filter_calls_of. destruct (optimization =? Config.NATIVE_CF32); [intros; by simplify_eq|].
  destruct (optimization =? Config.OPTIMIZED_CF32); [|done]. intros; by simplify_eq.
Qed.

(** The start refuses exactly the optimizations that select no functions. *)
Lemma filter_calls_refused hypotf optimization :
  filter_calls_of hypotf optimization = None <->
  negb (optimization =? Config.NATIVE_CF32) && negb (optimization =? Config.OPTIMIZED_CF32) = true.
Proof. unfold filter_calls_of. destruct (_ =? Config.NATIVE_CF32), (_ =? Config.OPTIMIZED_CF32); done. Qed.

Lemma filter_input_supported hypotf t input f out :
  supported t ->
  filter_input hypotf t input f out = process_cf32 hypotf (client_conv t) (client_samples t input) f.
Proof. intros [-> | [-> | ->]]; reflexivity. Qed.

Lemma client_samples_finite t input :
  supported t -> Forall (is_unsigned 8) input ->
  Forall (fun x => is_finite (client_conv t x) = true) (client_samples t input).
Proof.
  intros Ht Hin. assert (forall w (l : list Z), (0 < w) -> Forall (is_signed w) (map (swrap w) l)) as Hs.
  { intros w l Hw. apply Forall_map, Forall_forall. intros x _. by apply swrap_range. }
  destruct Ht as [-> | [-> | ->]]; cbn [client_conv client_samples].
  - eapply Forall_impl; [exact Hin|]. intros x Hx. apply of_cu8_finite. plia.
  - apply Forall_map, Forall_forall. intros [lo hi] _. apply of_cs16_finite, swrap_range. lia.
  - eapply Forall_impl; [apply (Hs 8); lia|]. intros x Hx. by apply of_cs8_finite.
Qed.

Lemma client_samples_length t input :
  supported t -> (length (client_samples t input) <= length input)%nat.
Proof.
  intros [-> | [-> | ->]].
  - apply Nat.le_refl.
  - change (length (int16s input) <= length input)%nat. unfold int16s.
    rewrite length_map, length_pairs. apply Nat.Div0.div_le_upper_bound. lia.
  - change (length (int8s input) <= length input)%nat. unfold int8s. by rewrite length_map.
Qed.

(** One turn of the loop with a socket: the bytes of the output, or a prefix of
    them and the socket closed. *)
Lemma write_output_socket config has_file has_gz output io :
  destination config = Api.REQUEST_DESTINATION_SOCKET ->
  match write_output config has_file has_gz output io with
  | None => True
  | Some (code, written, io') => exists bytes, written = [SocketWrite bytes] /\
      bytes `prefix_of` output_bytes output /\ (code = 0 -> bytes = output_bytes output)
  end.
Proof.
  intros Hd. unfold write_output. rewrite Hd. cbn [Z.eqb Pos.eqb Api.REQUEST_DESTINATION_SOCKET Api.REQUEST_DESTINATION_FILE]. unfold write_to_socket.
  destruct (Api.write_loop (output_bytes output) [] io) as [code sent rest|] eqn:E; [|done].
  exists sent. split; [done|]. pose proof E as E'. apply Api.write_loop_prefix in E' as (l1 & l2 & El & -> & _).
  split; [exists l2; by rewrite El|]. intros ->. by apply Api.write_loop_success in E.
Qed.

Lemma callback_loop_socket hypotf config has_file has_gz inputs : forall out f io cells f',
  supported (sdr_type config) -> destination config = Api.REQUEST_DESTINATION_SOCKET ->
  process_all (process_cf32 hypotf (client_conv (sdr_type config)))
    (map (client_samples (sdr_type config)) inputs) f = Some (cells, f') ->
  exists r, callback_loop hypotf config has_file has_gz inputs out f io = Some r /\
    match r with
    | Returned effects f'' _ => f'' = f' /\ completed effects = length inputs /\
        (closes effects = 0%nat -> socket_bytes effects = output_bytes cells)
    | BlockedInWrite effects => (completed effects < length inputs)%nat /\
        (closes effects = 0%nat -> socket_bytes effects `prefix_of` output_bytes cells)
    end.
Proof.
  induction inputs as [|input inputs IH]; intros out f io cells f' Ht Hd Hp.
  { simpl in *. simplify_eq. eexists. split; [done|]. done. }
  cbn [map process_all] in Hp. apply bind_Some in Hp as ([c1 f1] & H1 & Hp).
  apply bind_Some in Hp as ([c2 f2] & H2 & Hp). cbn [fst snd] in *. simplify_eq.
  cbn [callback_loop]. rewrite filter_input_supported, H1 by done. cbn [mbind option_bind].
  pose proof (write_output_socket config has_file has_gz c1 io Hd) as Hw.
  destruct (write_output config has_file has_gz c1 io) as [[[code written] io']|].
  2: { eexists. split; [done|]. split; [simpl; lia|]. intros _. apply prefix_nil. }
  destruct Hw as (bytes & -> & Hpre & Hcode).
  destruct (IH c1 f1 io' c2 f' Ht Hd H2) as (r & -> & Hr). cbn [mbind option_bind].
  eexists. split; [done|]. rewrite output_bytes_app.
  assert (forall effects, closes ([SocketWrite bytes] ++ CompleteBuffer ::
            (if code =? 0 then [] else [CloseSocket]) ++ effects) = 0%nat ->
          bytes = output_bytes c1 /\ closes effects = 0%nat) as Hclose.
  { intros effects. destruct (code =? 0) eqn:E; simpl; [|done]. apply Z.eqb_eq in E. auto. }
  destruct r as [effects f'' io''|effects]; rewrite <- app_assoc; cbn [app].
  - destruct Hr as (-> & Hc & Hb). split; [done|]. split.
    + unfold completed in *. destruct (code =? 0); simpl; lia.
    + intros Hcl. destruct (Hclose effects Hcl) as [-> Hcl'].
      destruct (code =? 0); simpl; rewrite <- (Hb Hcl'); done.
  - destruct Hr as (Hc & Hb). split.
    + unfold completed in *. destruct (code =? 0); simpl; lia.
    + intros Hcl. destruct (Hclose effects Hcl) as [-> Hcl'].
      destruct (code =? 0); simpl; apply prefix_app; apply (Hb Hcl').
Qed.

(** What a client that asked for a socket receives: for every device the
    server can drive through these conversions (RTL, AirSpy, HackRF), whatever
    the results of [write] are, the thread runs without undefined behaviour;
    if it returns it has given back every buffer it took and, unless a write
    failed (in which case the socket is closed), it has sent exactly the bytes
    of the filtered stream, the decimated FIR of the concatenated input; if it
    is blocked in a write it has sent a prefix of them. *)
Theorem socket_client_receives hypotf taps max worker f s inputs io :
  w_filter worker = Some f -> cf32_state taps f s -> cf32_capacity max f ->
  supported (sdr_type (w_config worker)) ->
  destination (w_config worker) = Api.REQUEST_DESTINATION_SOCKET ->
  Forall (fun input => (length input <= max)%nat /\ Forall (is_unsigned 8) input) inputs ->
  let t := sdr_type (w_config worker) in
  let chunks := map (client_samples t) inputs in
  let s' := s ++ concat (map (convert_cf32 (client_conv t)) chunks) in
  let cells := fst (ref_calls hypotf taps (phase_incr f) (decimation f) s' (length s)
                      (map (fun chunk => (length chunk / 2)%nat) chunks) (phase f)) in
  exists r, callback hypotf worker inputs io = Some r /\
    match r with
    | Returned effects f' _ => cf32_state taps f' s' /\ completed effects = length inputs /\
        (closes effects = 0%nat -> socket_bytes effects = output_bytes cells)
    | BlockedInWrite effects => (completed effects < length inputs)%nat /\
        (closes effects = 0%nat -> socket_bytes effects `prefix_of` output_bytes cells)
    end.
Proof.
  intros Hf Hst Hcap Ht Hd Hin t chunks s' cells. unfold callback. rewrite Hf. cbn [mbind option_bind].
  pose proof (process_all_cf32_spec hypotf taps max (client_conv t) chunks f s Hst Hcap) as H.
  cbv zeta in H. fold s' in H. subst cells.
  destruct (ref_calls hypotf taps (phase_incr f) (decimation f) s' (length s)
              (map (fun chunk => (length chunk / 2)%nat) chunks) (phase f)) as [c ph] eqn:E.
  cbn [fst]. destruct H as (f' & Hp & Hst' & _).
  { subst chunks. apply Forall_map. eapply Forall_impl; [exact Hin|]. intros input [Hl Hb]. split.
    - pose proof (client_samples_length t input Ht). lia.
    - by apply client_samples_finite. }
  destruct (callback_loop_socket hypotf (w_config worker) (w_file worker) (w_gz worker) inputs [] f io c f'
    Ht Hd Hp) as (r & Hr & Hm). exists r. split; [exact Hr|].
  destruct r as [effects f'' io'|]; [|done]. destruct Hm as (-> & Hc & Hb). done.
Qed.

(** A client of an MSi device receives nothing: the device type falls in
    the default branch of the switch, so that every buffer is taken and given
    back and no byte is ever written, whatever the device delivers. *)
Theorem msi_client_receives_nothing hypotf worker f inputs io :
  w_filter worker = Some f -> sdr_type (w_config worker) = Config.SDR_TYPE_MSI ->
  destination (w_config worker) = Api.REQUEST_DESTINATION_SOCKET ->
  exists effects, callback hypotf worker inputs io = Some (Returned effects f io) /\
    socket_bytes effects = [] /\ closes effects = 0%nat /\ completed effects = length inputs.
Proof.
  intros Hf Ht Hd. unfold callback. rewrite Hf. cbn [mbind option_bind]. clear Hf.
  induction inputs as [|input inputs IH]; [by exists []|].
  cbn [callback_loop]. rewrite Ht. unfold filter_input.
  cbn [Z.eqb Pos.eqb Config.SDR_TYPE_MSI Config.SDR_TYPE_HACKRF Config.SDR_TYPE_RTL Config.SDR_TYPE_AIRSPY mbind option_bind].
  unfold write_output. rewrite Hd. cbn [Z.eqb Pos.eqb Api.REQUEST_DESTINATION_SOCKET Api.REQUEST_DESTINATION_FILE]. unfold write_to_socket. cbn [output_bytes map concat].
  assert (Api.write_loop [] [] io = Api.WriteDone 0 [] io) as -> by (by destruct io).
  destruct IH as (effects & -> & Hb & Hcl & Hc). cbn [mbind option_bind].
  eexists. split; [done|]. simpl. unfold socket_bytes, closes, completed in *. simpl. auto.
Qed.

(** ** Lemmas: start *)

#[global] Instance resource_eq_dec : EqDecision resource.
Proof. solve_decision. Defined.

Definition acquired (r : resource) (tr : list event) : nat :=
  sum_list_with (fun e => match e with Acquire r' => if decide (r' = r) then 1%nat else 0%nat | _ => 0%nat end) tr.
Definition released (r : resource) (tr : list event) : nat :=
  sum_list_with (fun e => match e with Release r' => if decide (r' = r) then 1%nat else 0%nat | _ => 0%nat end) tr.

Lemma lpf_result sin cos malloc_ok gain sf cutoff tw code r :
  Lpf.create_low_pass_filter sin cos malloc_ok gain sf cutoff tw = Some (code, r) ->
  match r with
  | None => code = -1 \/ code = - ENOMEM
  | Some taps => code = 0 /\ length taps <> 0%nat
  end.
Proof.
  unfold Lpf.create_low_pass_filter. destruct (Lpf.sanity_cases sf cutoff tw) as [->|(-> & _)]; cbn [Z.eqb negb].
  { intros H. simplify_eq. by left. }
  destruct (Lpf.computeNtaps sf tw) as [ntaps|]; cbn [mbind option_bind]; [|done].
  destruct (malloc_ok 0%nat); cbn [negb]; [|intros H; simplify_eq; by right].
  unfold Lpf.create_hamming_window. destruct (malloc_ok 1%nat); cbn [negb Z.eqb];
    [|intros H; simplify_eq; by right].
  intros H. apply bind_Some in H as (taps & Ht & H). apply bind_Some in H as (dc & _ & H). simplify_eq.
  split; [done|]. rewrite length_map. apply length_mapM in Ht. rewrite length_seq in Ht. lia.
Qed.

Lemma filter_result cexpf malloc_ok a32 a16 g32 g16 dec taps cf sf max code r :
  create_frequency_xlating_filter cexpf malloc_ok a32 a16 g32 g16 dec taps cf sf max = Some (code, r) ->
  match r with None => code = -1 \/ code = - ENOMEM | Some _ => code = 0 end.
Proof.
  unfold create_frequency_xlating_filter.
  destruct (length taps =? 0)%nat; [intros H; simplify_eq; by left|].
  destruct (malloc_ok 0%nat); cbn [negb]; [|intros H; simplify_eq; by right].
  destruct (malloc_ok 1%nat); cbn [negb]; [|intros H; simplify_eq; by right].
  intros H. apply bind_Some in H as (bpf & _ & H). apply bind_Some in H as ([[c t32] t16] & Hct & H).
  assert (c = 0 \/ c = -1) as Hc.
  { unfold create_aligned_taps in Hct. destruct (_ || _); [simplify_eq; by right|].
    apply bind_Some in Hct as (? & _ & Hct). apply bind_Some in Hct as (? & _ & Hct).
    apply bind_Some in Hct as (? & _ & Hct). simplify_eq. by left. }
  destruct (negb (c =? 0)) eqn:E; [simplify_eq; destruct Hc as [-> | ->]; [done|by left]|].
  apply bind_Some in H as (ir & _ & H). apply bind_Some in H as (ii & _ & H).
  destruct (_ || _); [simplify_eq; by right|]. apply bind_Some in H as (? & _ & H).
  destruct (_ || _); simplify_eq; [by right|done].
Qed.

Lemma dsp_worker_start_code sin cos cexpf env config server code w tr :
  dsp_worker_start sin cos cexpf env config server = Some (code, Some w, tr) -> code = 0.
Proof.
  unfold dsp_worker_start. intros H. repeat (apply bind_Some in H as (? & _ & H)).
  repeat (case_match; simplify_eq; try (apply bind_Some in H as (? & _ & H))).
  all: try done.
Qed.

Lemma dsp_worker_start_config sin cos cexpf env config server code w tr :
  dsp_worker_start sin cos cexpf env config server = Some (code, Some w, tr) -> w_config w = config.
Proof.
  unfold dsp_worker_start. intros H. repeat (apply bind_Some in H as (? & _ & H)).
  repeat (case_match; simplify_eq; try (apply bind_Some in H as (? & _ & H))).
  all: try done.
Qed.

(** C25. [dsp_worker_start] leaks nothing: it returns 0 with a running worker that
    owns a filter, a queue, a thread and exactly one output file, everything
    it acquired being kept; or a negative code and no worker, everything it
    acquired (worker, taps, filter, file, queue) being released exactly once.
    The only exception is the taps when the very first allocation of the
    filter's constructor fails. *)
Theorem dsp_worker_start_balanced sin cos cexpf env config server code worker tr :
  dsp_worker_start sin cos cexpf env config server = Some (code, worker, tr) ->
  match worker with
  | Some w => code = 0 /\ w_config w = config /\ is_Some (w_filter w) /\ is_Some (w_queue w) /\
      w_thread w = true /\ w_file w = negb (w_gz w) /\ forall r, released r tr = 0%nat
  | None => code <> 0 /\
      forall r, (r = RTaps -> env_filter_malloc env 0%nat = true) -> acquired r tr = released r tr
  end.
Proof.
  unfold dsp_worker_start. intros H. apply bind_Some in H as (_ & _ & H).
  apply bind_Some in H as (_ & _ & H). apply bind_Some in H as ([c1 [taps|]] & Hl & H).
  2: { apply lpf_result in Hl. simplify_eq. unfold ENOMEM in Hl. split; [lia|]. intros [] _; reflexivity. }
  apply lpf_result in Hl as [_ Hlt]. apply bind_Some in H as (_ & _ & H).
  apply bind_Some in H as ([c2 [f|]] & Hx & H); apply filter_result in Hx.
  2: { simplify_eq. unfold ENOMEM in Hx. split; [lia|]. intros r Hr.
       rewrite (proj2 (Nat.eqb_neq _ _) Hlt). cbn [negb andb].
       destruct (env_filter_malloc env 0%nat) eqn:Em; [by destruct r|].
       destruct r; try reflexivity. by specialize (Hr eq_refl). }
  destruct (_ && _). { simplify_eq. split; [lia|]. intros [] _; reflexivity. }
  destruct (env_open env); cbn [negb] in H.
  2: { simplify_eq. split; [lia|]. intros [] _; reflexivity. }
  apply bind_Some in H as ([[c3 [q|]] h] & _ & H).
  2: { simplify_eq. split; [lia|]. destruct (Config.use_gzip server); intros [] _; reflexivity. }
  destruct (env_thread_malloc env); cbn [negb] in H.
  2: { simplify_eq. unfold ENOMEM. split; [lia|]. destruct (Config.use_gzip server); intros [] _; reflexivity. }
  destruct (env_pthread_create env); cbn [negb] in H; simplify_eq.
  - cbn. split_and!; try done; try by eexists.
  - split; [lia|]. destruct (Config.use_gzip server); intros [] _; reflexivity.
Qed.

(** The low-pass filter of a client: enough taps for its decimation. *)
Lemma client_low_pass sin cos malloc_ok gain band cutoff tw sr d :
  (forall k, malloc_ok k = true) -> 0 < band < 2 ^ 32 -> band = d * sr -> 0 < sr -> 0 < tw <= sr ->
  22 * tw < 2 ^ 24 -> 53 * band / (22 * tw) < 2 ^ 31 -> Lpf.sanity_check_1f band cutoff tw = 0 ->
  exists taps, Lpf.create_low_pass_filter sin cos malloc_ok gain band cutoff tw = Some (0, Some taps) /\
    Z.of_nat (length taps) = Lpf.ntaps_ref band tw /\ (length taps `mod` 2 = 1)%nat /\
    0 < d <= Z.of_nat (length taps) /\ Z.of_nat (length taps) < 2 ^ 64.
Proof.
  intros Hm Hband Hd Hsr [Htw0 Htwsr] Htw Hq Hsan. assert (0 < d) as Hd0 by nia.
  pose proof (Lpf.ntaps_ref_bounds band tw Htw0) as Hb.
  assert (d <= 53 * band / (22 * tw)) as Hdq by (apply Z.div_le_lower_bound; nia).
  destruct (Lpf.create_low_pass_filter_defined sin cos malloc_ok gain band cutoff tw
              (Lpf.ntaps_ref band tw) Hsan) as (taps & Hlpf & Hlen);
    [apply Lpf.computeNtaps_ref; lia|lia|done|].
  exists taps. split; [done|]. split; [done|]. split; [|lia].
  apply Nat2Z.inj. rewrite Nat2Z.inj_mod, Hlen. change (Z.of_nat 2) with 2.
  rewrite Zmod_odd. unfold Lpf.ntaps_ref. by rewrite Lpf.make_odd_odd.
Qed.

Lemma even_capacity z : 0 <= z -> Z.even z = true -> (2 * (Z.to_nat z / 2) = Z.to_nat z)%nat.
Proof.
  intros Hz Heven. apply Nat2Z.inj. rewrite Nat2Z.inj_mul, Nat2Z.inj_div, Z2Nat.id by lia.
  apply Z.even_spec in Heven as [k ->]. change (Z.of_nat 2) with 2.
  rewrite (Z.mul_comm 2 k), Z.div_mul by lia. lia.
Qed.


(** ** The properties on a concrete client *)

Definition example_config (sdr_type : Z) : client_config :=
  MkClientConfig 436700000 24000 436706000 Api.REQUEST_DESTINATION_SOCKET 3 sdr_type true.
Definition example_server : Config.server_config :=
  Config.MkServerConfig "127.0.0.1" 8090 5 None Config.NATIVE_CF32 Config.SDR_TYPE_RTL 0 0 0 0 0 1024
    48000 4 1 3 5 0 1 0 0 0 0 16 16 40 1 0 0 0 "/tmp" true.
Definition example_env : start_env :=
  MkStartEnv true (fun _ => true) (fun _ => true) 4096 8192 [] [] true (fun _ => true) (fun _ => [])
    true true.
Definition example_half : float := f32_div (f32_of_Z 1) (f32_of_Z 2).
Definition example_exp (c : complex) : complex := (example_half, example_half).


Lemma dsp_worker_start_balanced_witness : exists tr,
  dsp_worker_start (fun x => x) (fun _ => f_zero) example_exp
    (MkStartEnv true (fun _ => true) (fun _ => true) 4096 8192 [] [] false (fun _ => true) (fun _ => [])
       true true) (example_config 0) example_server = Some (-1, None, tr) /\
  acquired RFilter tr = released RFilter tr.
Proof.
  eexists. split; [vm_compute; reflexivity|].
  refine (proj2 (dsp_worker_start_balanced (fun x => x) (fun _ => f_zero) example_exp
    (MkStartEnv true (fun _ => true) (fun _ => true) 4096 8192 [] [] false (fun _ => true) (fun _ => [])
       true true) (example_config 0) example_server (-1) None _ _) RFilter _);
    [vm_compute; reflexivity|discriminate].
Defined.

Definition example_worker (sdr_type : Z) : dsp_worker :=
  MkDspWorker (example_config sdr_type) None (Some example_filter) true false true.

(** Two buffers of a HackRF, sent in three writes. *)
Lemma socket_client_receives_witness : exists effects f' io',
  callback example_hypotf (example_worker Config.SDR_TYPE_HACKRF)
    [[1; 254; 3; 4; 5; 6; 7; 128]; [127; 0]] [10; 100; 100] = Some (Returned effects f' io') /\
  length (socket_bytes effects) = 24%nat /\ completed effects = 2%nat.
Proof.
  destruct (socket_client_receives example_hypotf example_bpf 8 (example_worker Config.SDR_TYPE_HACKRF)
    example_filter (replicate 2 c_zero) [[1; 254; 3; 4; 5; 6; 7; 128]; [127; 0]] [10; 100; 100])
    as (r & E & Hr); [reflexivity|exact example_cf32_state|split_and!; vm_compute; reflexivity|
      right; right; reflexivity|reflexivity| |].
  - repeat (apply Forall_cons; split;
      [split; [simpl; lia|repeat (apply Forall_cons; split; [plia|]); apply Forall_nil; done]|]).
    by apply Forall_nil.
  - destruct r as [effects f' io'|effects].
    + exists effects, f', io'. destruct Hr as (_ & Hc & _). split; [exact E|]. split; [|exact Hc].
      clear - E. vm_compute in E. injection E as <- _ _. reflexivity.
    + exfalso. clear - E. vm_compute in E. discriminate E.
Defined.

Lemma msi_client_receives_nothing_witness : exists effects,
  callback example_hypotf (example_worker Config.SDR_TYPE_MSI) [[1; 254; 3; 4]; [127; 0]] []
    = Some (Returned effects example_filter []) /\ socket_bytes effects = [].
Proof.
  destruct (msi_client_receives_nothing example_hypotf (example_worker Config.SDR_TYPE_MSI) example_filter
    [[1; 254; 3; 4]; [127; 0]] []) as (effects & E & Hb & _); [reflexivity..|].
  exists effects. exact (conj E Hb).
Defined.

End DspWorker.
