(* ===== verification/Pipeline.v ===== *)
(** * From the receiver to a client: dsp_worker.c on top of queue.c

    The thread of the receiver puts buffers into the queue of a client while the
    worker of that client takes them, filters the detached buffer where it lies,
    writes the output and completes the buffer.  A step is a call of the queue
    (under its mutex), the filtering or the writing; the steps of the two threads
    interleave freely.  [clients] is the server's side: [sdr_callback] puts the same
    buffer into the queues of all the clients that are served. *)
From S2P Require Import Prelude Queue Api Float Xlating Config DspWorker.
Import Queue Float Xlating DspWorker.

Module Pipeline.

(** Where [callback] is in its loop, with the local variables that matter there. *)
Inductive worker_pc :=
| Taking
| Processing (input_len : nat)
| Writing
| Completing (code : Z)
| Ended.

(** A client: the queue with its nodes and the buffer the worker holds, the
    worker's place, its variable [filter_output], its filter, the answers of the
    writes to come, and what it did so far. *)
Record pipeline := MkPipeline {
  p_sys : system;
  p_pc : worker_pc;
  p_output : list complex;
  p_filter : xlating;
  p_io : list Z;
  p_effects : list effect;
}.

(** The calls of the queue, made by any thread, and the two other steps of the
    worker. *)
Inductive label :=
| OfQueue (e : Queue.event)
| Filter
| Write.

Section pipeline.
Context (hypotf : float -> float -> float) (config : client_config) (has_file has_gz : bool) (buffer_size : nat).

Definition with_sys (p : pipeline) (s : system) (pc : worker_pc) (effects : list effect) : pipeline :=
  MkPipeline s pc (p_output p) (p_filter p) (p_io p) (p_effects p ++ effects).

(** The queue's part of [callback] and of the other threads. *)
Definition queue_call (p : pipeline) (e : Queue.event) : option pipeline :=
  match e, p_pc p with
  | EvPut _, pc | EvInterrupt, pc => s ← sys_exec buffer_size (p_sys p) e; Some (with_sys p s pc [])
  | EvTake _, Taking =>
      r ← take_buffer_for_processing (sys_queue (p_sys p)) (sys_heap (p_sys p));
      match r with
      | (TakeBuffer _ input_len, _, _) =>
          s ← sys_exec buffer_size (p_sys p) e; Some (with_sys p s (Processing input_len) [])
      | _ => None
      end
  | EvTakeNull, Taking => s ← sys_exec buffer_size (p_sys p) e; Some (with_sys p s Ended [])
  | EvWait, Taking => s ← sys_exec buffer_size (p_sys p) e; Some (with_sys p s Taking [])
  | EvComplete, Completing code =>
      s ← sys_exec buffer_size (p_sys p) e;
      Some (with_sys p s Taking (CompleteBuffer :: (if (code =? 0)%Z then [] else [CloseSocket])))
  | _, _ => None
  end.

Definition exec (p : pipeline) (l : label) : option pipeline :=
  match l, p_pc p with
  | OfQueue e, _ => queue_call p e
  | Filter, Processing input_len =>
      l ← sys_held (p_sys p);
      n ← sys_heap (p_sys p) !! l;
      input ← read_at (node_buffer n) 0 input_len;
      r ← filter_input hypotf (sdr_type config) input (p_filter p) (p_output p);
      Some (MkPipeline (p_sys p) Writing (fst r) (snd r) (p_io p) (p_effects p))
  | Write, Writing =>
      r ← write_output config has_file has_gz (p_output p) (p_io p);
      let '(code, written, io) := r in
      Some (MkPipeline (p_sys p) (Completing code) (p_output p) (p_filter p) io (p_effects p ++ written))
  | _, _ => None
  end.

Definition step (p : pipeline) (l : label) (p' : pipeline) : Prop := exec p l = Some p'.
End pipeline.

Definition start (q : queue) (h : heap) (f : xlating) (io : list Z) : pipeline :=
  MkPipeline (MkSystem q h None) Taking [] f io [].

(** The calls of the queue along a run. *)
Definition queue_trace (tr : list label) : list Queue.event :=
  omap (fun l => match l with OfQueue e => Some e | _ => None end) tr.

(** ** All the clients: [sdr_callback] *)

(** What each client is. *)
Record client := MkClient { c_config : client_config; c_has_file : bool; c_has_gz : bool; c_size : nat }.

(** A buffer of the receiver, with the list of nodes of the server and their flags
    [is_running], or a step of one client other than a put. *)
Inductive server_label :=
| Buffer (nodes : list (nat * bool)) (data : list Z)
| OfClient (id : nat) (l : label).

Section clients.
Context (hypotf : float -> float -> float).

Definition exec_client (c : client * pipeline) (l : label) : option (client * pipeline) :=
  p ← exec hypotf (c_config (fst c)) (c_has_file (fst c)) (c_has_gz (fst c)) (c_size (fst c)) (snd c) l;
  Some (fst c, p).

(** The loop of [sdr_callback] over the nodes. *)
Fixpoint sdr_callback (nodes : list (nat * bool)) (data : list Z) (clients : gmap nat (client * pipeline))
    : option (gmap nat (client * pipeline)) :=
  match nodes with
  | [] => Some clients
  | (id, is_running) :: nodes' =>
      if is_running then
        c ← clients !! id;
        c' ← exec_client c (OfQueue (EvPut data));
        sdr_callback nodes' data (<[id := c']> clients)
      else sdr_callback nodes' data clients
  end.

Definition exec_clients (clients : gmap nat (client * pipeline)) (l : server_label)
    : option (gmap nat (client * pipeline)) :=
  match l with
  | Buffer nodes data => _ ← ensure (bool_decide (NoDup nodes.*1)); sdr_callback nodes data clients
  | OfClient id (OfQueue (EvPut _)) => None
  | OfClient id l => c ← clients !! id; c' ← exec_client c l; Some (<[id := c']> clients)
  end.

Definition step_clients (cs : gmap nat (client * pipeline)) (l : server_label) (cs' : gmap nat (client * pipeline)) : Prop :=
  exec_clients cs l = Some cs'.
End clients.

(** What a run of the server is for one client. *)
Definition projection (id : nat) (tr : list server_label) : list label :=
  omap (fun l => match l with
    | Buffer nodes data => if decide ((id, true) ∈ nodes) then Some (OfQueue (EvPut data)) else None
    | OfClient id' l => if decide (id' = id) then Some l else None
    end) tr.


(** ** Specification *)

(** The filtering of [inputs] alone: the thread's [filter_output] and its filter
    afterwards. *)
Fixpoint filter_all (hypotf : float -> float -> float) (sdr_type : Z) (inputs : list (list Z))
    (filter_output : list complex) (filter : xlating) : option (list complex * xlating) :=
  match inputs with
  | [] => Some (filter_output, filter)
  | input :: inputs' =>
      r ← filter_input hypotf sdr_type input filter filter_output;
      filter_all hypotf sdr_type inputs' (fst r) (snd r)
  end.

(** The buffer the worker holds. *)
Definition in_hand (p : pipeline) (pending : list (list Z)) : Prop :=
  match p_pc p with
  | Taking | Ended => pending = []
  | _ => exists data, pending = [data]
  end.

(** What a reachable state is, [taken] being the buffers taken so far: the
    worker is where [callback] is after [done], with one more buffer in hand
    unless it is between two takes. *)
Definition worker_at (hypotf : float -> float -> float) (config : client_config) (has_file has_gz : bool)
    (f0 : xlating) (io0 : list Z) (taken : list (list Z)) (holds : option (list Z)) (p : pipeline) : Prop :=
  exists handled pending out f effects io,
    taken = handled ++ pending /\ in_hand p pending /\ holds = head pending /\
    filter_all hypotf (sdr_type config) handled [] f0 = Some (out, f) /\
    callback_loop hypotf config has_file has_gz handled [] f0 io0 = Some (Returned effects f io) /\
    match p_pc p with
    | Taking | Ended => p_output p = out /\ p_filter p = f /\ p_io p = io /\ p_effects p = effects
    | Processing len =>
        (exists data, pending = [data] /\ len = length data) /\
        p_output p = out /\ p_filter p = f /\ p_io p = io /\ p_effects p = effects
    | Writing => (exists data, pending = [data] /\
        filter_input hypotf (sdr_type config) data f out = Some (p_output p, p_filter p)) /\
        p_io p = io /\ p_effects p = effects
    | Completing code => (exists data, pending = [data] /\
        filter_input hypotf (sdr_type config) data f out = Some (p_output p, p_filter p)) /\
        exists written, write_output config has_file has_gz (p_output p) io = Some (code, written, p_io p) /\
          p_effects p = effects ++ written
    end.

Definition close_after (code : Z) : list effect := if (code =? 0)%Z then [] else [CloseSocket].

(** ** Lemmas: the worker's loop, one buffer at a time *)

Lemma filter_all_snoc hypotf t inputs d : forall out f,
  filter_all hypotf t (inputs ++ [d]) out f =
    (filter_all hypotf t inputs out f ≫= fun r => filter_input hypotf t d (snd r) (fst r)).
Proof.
  induction inputs as [|input inputs IH]; intros out f; cbn [app filter_all mbind option_bind fst snd].
  - destruct (filter_input _ _ _ _ _) as [[]|]; reflexivity.
  - destruct (filter_input _ _ _ _ _); cbn [mbind option_bind]; [apply IH|done].
Qed.

Lemma callback_loop_snoc hypotf config has_file has_gz inputs d : forall out f io o f1 e io1 o2 f2 code w io2,
  filter_all hypotf (sdr_type config) inputs out f = Some (o, f1) ->
  callback_loop hypotf config has_file has_gz inputs out f io = Some (Returned e f1 io1) ->
  filter_input hypotf (sdr_type config) d f1 o = Some (o2, f2) ->
  write_output config has_file has_gz o2 io1 = Some (code, w, io2) ->
  callback_loop hypotf config has_file has_gz (inputs ++ [d]) out f io
    = Some (Returned ((e ++ w) ++ CompleteBuffer :: close_after code) f2 io2).
Proof.
  induction inputs as [|input inputs IH]; intros out f io o f1 e io1 o2 f2 code w io2 Ha Hl Hd Hw.
  - cbn in Ha, Hl. simplify_eq. cbn [app callback_loop]. rewrite Hd. cbn [mbind option_bind].
    rewrite Hw. cbn. by rewrite app_nil_r.
  - cbn [app filter_all callback_loop] in *. apply bind_Some in Ha as ([o' f'] & Hi & Ha).
    rewrite Hi in Hl |- *. cbn [mbind option_bind fst snd] in *.
    destruct (write_output config has_file has_gz o' io) as [[[c' w'] io']|] eqn:Hw'; [|simplify_eq].
    apply bind_Some in Hl as (r & Hr & Hl). destruct r as [e' f'' io''|e']; simplify_eq.
    rewrite (IH _ _ _ _ _ _ _ _ _ _ _ _ Ha Hr Hd Hw). cbn [mbind option_bind]. by rewrite !app_assoc.
Qed.

Lemma queue_trace_snoc tr l :
  queue_trace (tr ++ [l]) = queue_trace tr ++ match l with OfQueue e => [e] | _ => [] end.
Proof. unfold queue_trace. rewrite omap_app. by destruct l. Qed.

Section worker.
Context (hypotf : float -> float -> float) (config : client_config) (has_file has_gz : bool).
Context (buffer_size queue_size : nat).
Abbreviation exec := (exec hypotf config has_file has_gz buffer_size) (only parsing).
Abbreviation step := (step hypotf config has_file has_gz buffer_size) (only parsing).
Abbreviation at_ := (worker_at hypotf config has_file has_gz) (only parsing).

(** What a call of the queue changes. *)
Lemma exec_queue p e p' :
  exec p (OfQueue e) = Some p' ->
  sys_step buffer_size (p_sys p) e (p_sys p') /\
  p_output p' = p_output p /\ p_filter p' = p_filter p /\ p_io p' = p_io p /\
  match e with
  | EvPut _ | EvInterrupt => p_pc p' = p_pc p /\ p_effects p' = p_effects p
  | EvTake _ => p_pc p = Taking /\ p_effects p' = p_effects p /\ exists node len q h,
      take_buffer_for_processing (sys_queue (p_sys p)) (sys_heap (p_sys p)) = Some (TakeBuffer node len, q, h) /\
      p_pc p' = Processing len
  | EvTakeNull => p_pc p = Taking /\ p_pc p' = Ended /\ p_effects p' = p_effects p
  | EvWait => p_pc p = Taking /\ p_pc p' = Taking /\ p_effects p' = p_effects p
  | EvComplete => exists code, p_pc p = Completing code /\ p_pc p' = Taking /\
      p_effects p' = p_effects p ++ CompleteBuffer :: close_after code
  end.
Proof.
  intros H. cbn [Pipeline.exec] in H. destruct p as [s pc o f io e0]. unfold queue_call in H. cbn [p_sys p_pc] in *.
  assert (forall s' pc' e', Some (with_sys (MkPipeline s pc o f io e0) s' pc' e') = Some p' ->
    p' = MkPipeline s' pc' o f io (e0 ++ e')) as Hw by (intros; unfold with_sys in *; by simplify_eq).
  destruct e as [d|d| | | |]; destruct pc as [|len| |code|]; try done.
  all: try (apply bind_Some in H as (s' & Hs & H); apply Hw in H as ->; apply sys_exec_sound in Hs).
  all: try (cbn; rewrite ?app_nil_r; by eauto 10).
  apply bind_Some in H as ([[r q] h] & Hr & H). destruct r as [| |node len]; try done.
  apply bind_Some in H as (s' & Hs & H). apply Hw in H as ->. apply sys_exec_sound in Hs.
  cbn. rewrite ?app_nil_r. eauto 15.
Qed.

(** The worker filters the very bytes that were put. *)
Lemma exec_filter p f data :
  abstracts buffer_size queue_size (p_sys p) f -> held f = Some data -> p_pc p = Processing (length data) ->
  exec p Filter =
    (filter_input hypotf (sdr_type config) data (p_filter p) (p_output p) ≫= fun r =>
     Some (MkPipeline (p_sys p) Writing (fst r) (snd r) (p_io p) (p_effects p))).
Proof.
  intros (fs & xs & _ & _ & _ & Hh & _) Hd Hpc. cbn [Pipeline.exec]. rewrite Hpc, Hd in *.
  destruct (sys_held (p_sys p)) as [l|]; [|done]. cbn [mbind option_bind].
  unfold payload in Hh. apply bind_Some in Hh as (nd & Hn & Hr). rewrite Hn. cbn [mbind option_bind].
  assert (node_len nd = length data) as <-; [|by rewrite Hr].
  unfold read_at in Hr. case_decide; [|done]. simplify_eq. rewrite length_take, drop_0. lia.
Qed.

Lemma worker_at_same f0 io0 taken holds p p' :
  p_pc p' = p_pc p -> p_output p' = p_output p -> p_filter p' = p_filter p -> p_io p' = p_io p ->
  p_effects p' = p_effects p -> at_ f0 io0 taken holds p -> at_ f0 io0 taken holds p'.
Proof. unfold worker_at, in_hand. by intros -> -> -> -> ->. Qed.

Lemma worker_at_take f0 io0 taken q h f data p p' :
  abstracts buffer_size queue_size (MkSystem q h None) f -> head (filled f) = Some data ->
  p_pc p = Taking -> p_output p' = p_output p -> p_filter p' = p_filter p -> p_io p' = p_io p ->
  p_effects p' = p_effects p ->
  (exists node len q' h', take_buffer_for_processing q h = Some (TakeBuffer node len, q', h') /\
     p_pc p' = Processing len) ->
  at_ f0 io0 taken None p -> at_ f0 io0 (taken ++ [data]) (Some data) p'.
Proof.
  intros Habs Hhd Hpc Ho Hf Hi He (node & len & q' & h' & Ht & Hpc')
    (handled & pending & out & f1 & e & io & -> & Hp & _ & Ha & Hl & Hm).
  pose proof (take_simulated _ _ _ _ _ Habs) as Hs. destruct (filled f) as [|d rest]; simplify_eq/=.
  destruct Hs as (? & ? & ? & Ht' & _). rewrite Ht' in Ht. simplify_eq.
  unfold in_hand in Hp. rewrite Hpc in Hp, Hm. subst pending. rewrite app_nil_r.
  exists handled, [data], out, f1, e, io. unfold in_hand. rewrite Hpc', Ho, Hf, Hi, He.
  destruct Hm as (-> & -> & -> & ->). split_and!; eauto.
Qed.

Lemma worker_at_complete f0 io0 taken data code p p' :
  p_pc p = Completing code -> p_pc p' = Taking -> p_output p' = p_output p -> p_filter p' = p_filter p ->
  p_io p' = p_io p -> p_effects p' = p_effects p ++ CompleteBuffer :: close_after code ->
  at_ f0 io0 taken (Some data) p -> at_ f0 io0 taken None p'.
Proof.
  intros Hpc Hpc' Ho Hf Hi He (handled & pending & out & f1 & e & io & -> & _ & _ & Ha & Hl & Hm).
  rewrite Hpc in Hm. destruct Hm as ((d & -> & Hd) & w & Hw & Hew).
  exists (handled ++ [d]), [], (p_output p), (p_filter p),
    (p_effects p ++ CompleteBuffer :: close_after code), (p_io p).
  unfold in_hand. rewrite Hpc', Ho, Hf, Hi, He, app_nil_r.
  rewrite filter_all_snoc, Ha. cbn [mbind option_bind fst snd]. split_and!; try done.
  rewrite Hew. by eapply callback_loop_snoc.
Qed.

Definition queue_events (l : label) : list Queue.event :=
  match l with OfQueue e => [e] | _ => [] end.

(** The invariant is kept by every step of every thread. *)
Lemma worker_step f0 io0 taken f p l p' :
  2 <= queue_size -> abstracts buffer_size queue_size (p_sys p) f -> at_ f0 io0 taken (held f) p ->
  step p l p' ->
  exists f', abstracts buffer_size queue_size (p_sys p') f' /\
    run (fifo_step buffer_size) f (queue_events l) f' /\
    at_ f0 io0 (taken ++ takes (queue_events l)) (held f') p'.
Proof.
  intros H2 Habs Hat Hstep. unfold Pipeline.step in Hstep. destruct l as [e| |]; cbn [queue_events takes].
  - apply exec_queue in Hstep as (Hs & Ho & Hf & Hi & He).
    destruct (step_simulated _ _ _ _ _ _ H2 Habs Hs) as (f' & Hfs & Habs').
    exists f'. split; [done|]. split; [by apply (run_snoc _ _ []) with f; [constructor|]|].
    destruct (p_sys p) as [q h hl] eqn:Es.
    destruct Hfs as [f d Hlen|m d rest pp|m|m|m fl d pp|m fl d pp]; cbn [held] in *; rewrite ?app_nil_r.
    + destruct He. replace (held (fifo_put d f)) with (held f) by (unfold fifo_put; by destruct (free_slots f)).
      by apply (worker_at_same _ _ _ _ p).
    + destruct He as (Hpc & He & Ht). destruct hl; [by inversion Hs|].
      by eapply worker_at_take.
    + destruct He as (Hpc & Hpc' & He). destruct Hat as (hd & pd & out & f1 & e & io & Hat).
      exists hd, pd, out, f1, e, io. unfold in_hand in *. rewrite Hpc in Hat. by rewrite Hpc', Ho, Hf, Hi, He.
    + destruct He as (Hpc & Hpc' & He). apply (worker_at_same _ _ _ _ p); congruence.
    + destruct He as (code & Hpc & Hpc' & He). by eapply worker_at_complete.
    + destruct He. by apply (worker_at_same _ _ _ _ p).
  - exists f. destruct Hat as (hd & pd & out & f1 & e & io & -> & Hp & Hh & Ha & Hl & Hm).
    unfold in_hand in Hp. destruct (p_pc p) as [|len| |code|] eqn:Hpc; cbn [Pipeline.exec] in Hstep; rewrite ?Hpc in Hstep; try done.
    destruct Hm as ((d & -> & ->) & Ho & Hf & Hi & He). cbn [head] in Hh.
    pose proof (exec_filter p f d Habs Hh Hpc) as Hx. cbn [Pipeline.exec] in Hx. rewrite Hpc, Hstep in Hx.
    symmetry in Hx. apply bind_Some in Hx as ([o2 f2] & Hd & Hx). simplify_eq/=.
    split; [done|]. split; [constructor|]. rewrite app_nil_r.
    exists hd, [d], (p_output p), (p_filter p), (p_effects p), (p_io p). unfold in_hand. cbn. split_and!; eauto.
  - exists f. destruct Hat as (hd & pd & out & f1 & e & io & -> & Hp & Hh & Ha & Hl & Hm).
    unfold in_hand in Hp. destruct (p_pc p) as [|len| |code|] eqn:Hpc; cbn [Pipeline.exec] in Hstep; rewrite ?Hpc in Hstep; try done.
    apply bind_Some in Hstep as ([[code w] io'] & Hw & Hx). simplify_eq/=.
    destruct Hm as (Hd & <- & <-). split; [done|]. split; [constructor|]. rewrite app_nil_r.
    exists hd, pd, out, f1, (p_effects p), (p_io p). unfold in_hand. cbn. split_and!; eauto.
Qed.

Lemma takes_app tr1 tr2 : takes (tr1 ++ tr2) = takes tr1 ++ takes tr2.
Proof. apply omap_app. Qed.

(** Every reachable state, from the queue of [create_queue]. *)
Lemma reachable q h f0 io0 tr p :
  2 <= queue_size ->
  abstracts buffer_size queue_size (MkSystem q h None) (MkFifo queue_size [] None false) ->
  run step (start q h f0 io0) tr p ->
  exists f, abstracts buffer_size queue_size (p_sys p) f /\
    run (fifo_step buffer_size) (MkFifo queue_size [] None false) (queue_trace tr) f /\
    at_ f0 io0 (takes (queue_trace tr)) (held f) p.
Proof.
  intros H2 Habs Hrun. remember (start q h f0 io0) as p0 eqn:E0.
  induction Hrun as [p|p0 tr p1 l p2 Hrun IH Hstep]; subst.
  - exists (MkFifo queue_size [] None false). split; [done|]. split; [constructor|].
    exists [], [], [], f0, [], io0. by split_and!.
  - destruct (IH eq_refl) as (f & Ha & Hr & Hat). destruct (worker_step _ _ _ _ _ _ _ H2 Ha Hat Hstep) as (f' & Ha' & Hr' & Hat').
    exists f'. split; [done|]. rewrite queue_trace_snoc. split; [by eapply run_app|]. by rewrite takes_app.
Qed.

Lemma at_between f0 io0 taken p f :
  abstracts buffer_size queue_size (p_sys p) f -> at_ f0 io0 taken (held f) p ->
  match p_pc p with
  | Taking | Ended => held f = None /\ sys_held (p_sys p) = None
  | _ => (exists data, held f = Some data) /\ is_Some (sys_held (p_sys p))
  end.
Proof.
  intros (fs & xs & _ & _ & _ & Hh & _) (hd & pd & out & f1 & e & io & _ & Hp & Hd & _).
  unfold in_hand in Hp. rewrite Hd in *.
  destruct (p_pc p); [subst pd|destruct Hp as (d & ->)..|subst pd]; cbn [head] in *;
    destruct (sys_held (p_sys p)); try done; eauto.
Qed.

(** The producer and the interrupting thread can always go on. *)
Lemma others_progress p f :
  2 <= queue_size -> abstracts buffer_size queue_size (p_sys p) f ->
  (forall data, length data <= buffer_size -> is_Some (exec p (OfQueue (EvPut data)))) /\
  is_Some (exec p (OfQueue EvInterrupt)).
Proof.
  intros H2 Habs. destruct p as [[q h hl] pc o fl io e]. split; [intros data Hlen|by destruct pc].
  destruct (put_simulated _ _ _ _ _ _ data Habs Hlen (abs_room _ _ _ _ H2 Habs)) as (q' & h' & Hput & _).
  cbn [Pipeline.exec queue_call p_pc p_sys sys_exec sys_held sys_queue sys_heap].
  unfold ensure. rewrite bool_decide_eq_true_2 by done. cbn [mbind option_bind]. rewrite Hput.
  by destruct pc.
Qed.

(** The next step of the worker. *)
Definition next_label (p : pipeline) (f : fifo) : label :=
  match p_pc p with
  | Taking => OfQueue (match filled f with data :: _ => EvTake data | [] => if poisoned f then EvTakeNull else EvWait end)
  | Processing _ => Filter
  | Writing => Write
  | Completing _ | Ended => OfQueue EvComplete
  end.

(** The worker is blocked in a [write]. *)
Definition blocked (p : pipeline) : Prop :=
  p_pc p = Writing /\ write_output config has_file has_gz (p_output p) (p_io p) = None.

Lemma worker_progress f0 io0 taken p f :
  abstracts buffer_size queue_size (p_sys p) f -> at_ f0 io0 taken (held f) p ->
  (forall handled data out f1, taken = handled ++ [data] ->
     filter_all hypotf (sdr_type config) handled [] f0 = Some (out, f1) ->
     is_Some (filter_input hypotf (sdr_type config) data f1 out)) ->
  p_pc p = Ended \/ blocked p \/ is_Some (exec p (next_label p f)).
Proof.
  intros Habs Hat Hdef. pose proof (at_between _ _ _ _ _ Habs Hat) as Hb. unfold blocked, next_label.
  destruct (p_pc p) as [|len| |code|] eqn:Hpc; [right; right|right; right|right|right; right|by left].
  - destruct Hb as [Hh Hs]. destruct p as [[q h hl] pc o fl io e]; simplify_eq/=.
    pose proof (take_simulated _ _ _ _ _ Habs) as Ht.
    destruct (filled f) as [|d rest]; [by destruct (poisoned f); cbn; rewrite Ht|].
    destruct Ht as (l & q' & h' & Ht & Hpl & _). cbn. rewrite Ht. cbn. rewrite Hpl. cbn.
    by rewrite decide_True by done.
  - destruct Hat as (hd & pd & out & f1 & e & io & -> & _ & Hh & Ha & _ & Hm). rewrite Hpc in Hm.
    destruct Hm as ((d & -> & ->) & Ho & Hf & _). cbn [head] in Hh.
    pose proof (exec_filter p f d Habs Hh Hpc) as ->. rewrite Ho, Hf.
    destruct (Hdef hd d out f1 eq_refl Ha) as [r ->]. by eexists.
  - destruct (write_output _ _ _ _ _) as [[[code w] io']|] eqn:Hw; [right|by left].
    cbn [Pipeline.exec]. rewrite Hpc, Hw. by eexists.
  - destruct Hb as [[d Hd] [l Hl]]. destruct p as [[q h hl] pc o fl io e]; simplify_eq/=.
    destruct (complete_simulated _ _ _ _ _ _ Habs) as (q' & h' & Hc & _). cbn. by rewrite Hc.
Qed.
End worker.

(** ** Lemmas: the stream *)

Lemma process_all_filter_all hypotf t inputs : forall f out cells f',
  supported t ->
  process_all (process_cf32 hypotf (client_conv t)) (map (client_samples t) inputs) f = Some (cells, f') ->
  exists out', filter_all hypotf t inputs out f = Some (out', f').
Proof.
  induction inputs as [|input inputs IH]; intros f out cells f' Ht H; cbn [map process_all filter_all] in *.
  - simplify_eq. eauto.
  - apply bind_Some in H as ([c1 f1] & H1 & H). apply bind_Some in H as ([c2 f2] & H2 & H). simplify_eq/=.
    rewrite filter_input_supported, H1 by done. cbn [mbind option_bind fst snd]. by eapply IH.
Qed.

Lemma process_all_snoc (process : list Z -> xlating -> option (list complex * xlating)) inputs d : forall f,
  process_all process (inputs ++ [d]) f =
    (process_all process inputs f ≫= fun r1 => process d (snd r1) ≫= fun r2 => Some (fst r1 ++ fst r2, snd r2)).
Proof.
  induction inputs as [|input inputs IH]; intros f; cbn [app process_all mbind option_bind fst snd].
  - destruct (process d f) as [[c f']|]; cbn [mbind option_bind fst snd]; [|done]. by rewrite app_nil_r.
  - destruct (process input f) as [[c f']|]; cbn [mbind option_bind fst snd]; [|done]. rewrite IH.
    destruct (process_all process inputs f') as [[c1 f1]|]; cbn [mbind option_bind fst snd]; [|done].
    destruct (process d f1) as [[c2 f2]|]; cbn [mbind option_bind fst snd]; [|done]. by rewrite app_assoc.
Qed.

(** What a client of a device of the type [t] is to receive for [inputs]. *)
Definition client_cells (hypotf : float -> float -> float) (taps : list complex) (t : Z) (f : xlating)
    (s : list complex) (inputs : list (list Z)) : list complex :=
  let chunks := map (client_samples t) inputs in
  fst (ref_calls hypotf taps (phase_incr f) (decimation f)
         (s ++ concat (map (convert_cf32 (client_conv t)) chunks)) (length s)
         (map (fun chunk => (length chunk / 2)) chunks) (phase f)).

Definition good_input (buffer_size : nat) (input : list Z) : Prop :=
  length input <= buffer_size /\ Forall (is_unsigned 8) input.

Lemma client_cells_spec hypotf taps max t f s inputs :
  cf32_state taps f s -> cf32_capacity max f -> supported t -> Forall (good_input max) inputs ->
  exists f', process_all (process_cf32 hypotf (client_conv t)) (map (client_samples t) inputs) f
    = Some (client_cells hypotf taps t f s inputs, f').
Proof.
  intros Hst Hcap Ht Hin. unfold client_cells.
  pose proof (process_all_cf32_spec hypotf taps max (client_conv t) (map (client_samples t) inputs) f s Hst Hcap) as H.
  cbv zeta in H. destruct (ref_calls _ _ _ _ _ _ _ _) as [c ph]. cbn [fst].
  destruct H as (f' & Hp & _); [|by exists f']. apply Forall_map. eapply Forall_impl; [exact Hin|].
  intros input [Hl Hb]. split; [|by apply client_samples_finite].
  pose proof (client_samples_length t input Ht). cbn beta. lia.
Qed.

Lemma filters_defined hypotf taps max t f s taken handled data out f1 :
  cf32_state taps f s -> cf32_capacity max f -> supported t -> Forall (good_input max) taken ->
  taken = handled ++ [data] -> filter_all hypotf t handled [] f = Some (out, f1) ->
  is_Some (filter_input hypotf t data f1 out).
Proof.
  intros Hst Hcap Ht Hin -> Ha.
  destruct (client_cells_spec hypotf taps max t f s _ Hst Hcap Ht Hin) as (f' & Hp).
  destruct (process_all_filter_all _ _ _ _ [] _ _ Ht Hp) as (out' & Hf).
  rewrite filter_all_snoc, Ha in Hf. by eexists.
Qed.

(** The buffers put along a run are buffers of the receiver. *)
Lemma fifo_run_lengths buffer_size f0 tr f :
  run (fifo_step buffer_size) f0 tr f -> Forall (fun data => length data <= buffer_size) (puts tr).
Proof.
  induction 1 as [|f1 tr f2 e f3 Hrun IH Hstep]; [by apply Forall_nil|]. rewrite puts_snoc.
  apply Forall_app. split; [done|]. destruct Hstep; try by apply Forall_nil. by apply Forall_singleton.
Qed.

Lemma sublist_Forall {A} (P : A -> Prop) l k : l `sublist_of` k -> Forall P k -> Forall P l.
Proof. induction 1; rewrite ?Forall_cons; naive_solver. Qed.

Lemma taken_good buffer_size n max tr f :
  run (fifo_step buffer_size) (MkFifo n [] None false) tr f -> buffer_size <= max ->
  Forall (Forall (is_unsigned 8)) (puts tr) -> Forall (good_input max) (takes tr).
Proof.
  intros Hrun Hmax Hb. pose proof (fifo_run_lengths _ _ _ _ Hrun) as Hl.
  assert (takes tr `sublist_of` puts tr) as Hs.
  { etransitivity; [|by eapply fifo_run_sublist]. by apply sublist_inserts_r. }
  eapply sublist_Forall; [exact Hs|]. apply Forall_forall. intros x Hx. rewrite Forall_forall in Hb, Hl.
  split; [|by apply Hb]. specialize (Hl x Hx). cbn beta in Hl. lia.
Qed.

(** ** Lemmas: the end of the worker *)

(** The steps the worker makes without anyone's help. *)
Definition worker_label (l : label) : Prop :=
  match l with OfQueue (EvPut _) | OfQueue EvInterrupt | OfQueue EvWait => False | _ => True end.

(** The steps left before the worker of a poisoned queue ends. *)
Definition steps_left (p : pipeline) (f : fifo) : nat :=
  4 * length (filled f) +
  match p_pc p with Taking => 1 | Processing _ => 4 | Writing => 3 | Completing _ => 2 | Ended => 0 end.

Lemma next_step hypotf config has_file has_gz buffer_size p f f' p' :
  poisoned f = true -> p_pc p <> Ended ->
  step hypotf config has_file has_gz buffer_size p (next_label p f) p' ->
  run (fifo_step buffer_size) f (queue_events (next_label p f)) f' ->
  worker_label (next_label p f) /\ poisoned f' = true /\ S (steps_left p' f') = steps_left p f /\
  filled f = takes (queue_events (next_label p f)) ++ filled f'.
Proof.
  intros Hpo Hne Hstep Hrun. unfold step in Hstep. unfold steps_left, next_label in *. destruct (p_pc p) as [|len| |code|] eqn:Hpc.
  - apply (run_snoc_inv _ _ []) in Hrun as (f0 & Hr0 & Hf). apply run_nil_inv in Hr0 as ->.
    apply exec_queue in Hstep as (_ & _ & _ & _ & He). rewrite Hpo in *. destruct (filled f) as [|d rest] eqn:Ef.
    + destruct He as (_ & -> & _). inversion Hf; subst. simpl. done.
    + destruct He as (_ & _ & (? & ? & ? & ? & _ & ->)). inversion Hf; subst; simpl in *. simplify_eq. split_and!; [done..|lia|done].
  - apply run_nil_inv in Hrun as ->. cbn [exec] in Hstep. rewrite Hpc in Hstep.
    repeat (apply bind_Some in Hstep as (? & _ & Hstep)). simplify_eq/=. split_and!; [done..|lia|done].
  - apply run_nil_inv in Hrun as ->. cbn [exec] in Hstep. rewrite Hpc in Hstep.
    apply bind_Some in Hstep as ([[code w] io'] & _ & Hstep). simplify_eq/=. split_and!; [done..|lia|done].
  - apply (run_snoc_inv _ _ []) in Hrun as (f0 & Hr0 & Hf). apply run_nil_inv in Hr0 as ->.
    apply exec_queue in Hstep as (_ & _ & _ & _ & (c & _ & -> & _)). inversion Hf; subst; simpl. split_and!; [done..|lia|done].
  - done.
Qed.

(** A worker as [dsp_worker_start] leaves it: the queue is empty, the filter is
    in the state of the stream [s] and has room for the buffers. *)
Record served (config : client_config) (taps s : list complex) (max buffer_size queue_size : nat)
    (q : queue) (h : heap) (f : xlating) : Prop := {
  served_two : 2 <= queue_size;
  served_queue : abstracts buffer_size queue_size (MkSystem q h None) (MkFifo queue_size [] None false);
  served_max : buffer_size <= max;
  served_state : cf32_state taps f s;
  served_capacity : cf32_capacity max f;
  served_type : supported (sdr_type config);
}.

Lemma served_defined hypotf config taps s max buffer_size queue_size q h f taken :
  served config taps s max buffer_size queue_size q h f -> Forall (good_input max) taken ->
  forall handled data out f1, taken = handled ++ [data] ->
    filter_all hypotf (sdr_type config) handled [] f = Some (out, f1) ->
    is_Some (filter_input hypotf (sdr_type config) data f1 out).
Proof.
  intros Hs Hg handled data out f1. apply (filters_defined hypotf taps max _ f s);
    [apply Hs|apply Hs|apply Hs|done].
Qed.

Lemma worker_stops hypotf config has_file has_gz taps s max buffer_size n q h f io : forall m taken p fq,
  served config taps s max buffer_size n q h f ->
  abstracts buffer_size n (p_sys p) fq ->
  worker_at hypotf config has_file has_gz f io taken (held fq) p ->
  Forall (good_input max) (taken ++ filled fq) -> poisoned fq = true -> steps_left p fq = m ->
  exists tr' p', run (step hypotf config has_file has_gz buffer_size) p tr' p' /\
    Forall worker_label tr' /\ length tr' <= m /\ (p_pc p' = Ended \/ blocked config has_file has_gz p').
Proof.
  induction m as [|m IH]; intros taken p fq Hs Habs Hat Hg Hpo Hm.
  - exists [], p. split; [constructor|]. split; [by apply Forall_nil|]. split; [done|]. left.
    unfold steps_left in Hm. destruct (p_pc p); try lia. done.
  - pose proof (proj1 (proj1 (Forall_app _ _ _) Hg)) as Hg1.
    destruct (worker_progress _ _ _ _ _ _ _ _ _ _ _ Habs Hat (served_defined _ _ _ _ _ _ _ _ _ _ _ Hs Hg1))
      as [He|[Hb|[p1 Hp1]]].
    1, 2: exists [], p; split; [constructor|]; split; [by apply Forall_nil|]; split; [simpl; lia|by auto].
    assert (p_pc p <> Ended) as Hne.
    { intros He. unfold next_label, exec, queue_call in Hp1. by rewrite He in Hp1. }
    destruct (worker_step _ _ _ _ _ _ _ _ _ _ _ _ _ (served_two _ _ _ _ _ _ _ _ _ Hs) Habs Hat Hp1)
      as (f1 & Habs1 & Hr1 & Hat1).
    destruct (next_step _ _ _ _ _ _ _ _ _ Hpo Hne Hp1 Hr1) as (Hl & Hpo1 & Hm1 & Ef).
    destruct (IH _ _ _ Hs Habs1 Hat1) as (tr' & p' & Hrun & Hw & Hlen & Hend);
      [by rewrite <- app_assoc, <- Ef|done|lia|].
    exists (next_label p fq :: tr'), p'. split_and!; [|by apply Forall_cons|simpl; lia|done].
    apply (run_app _ _ [next_label p fq] p1); [|done]. by apply (run_snoc _ _ []) with p; [constructor|].
Qed.

Lemma good_queued buffer_size n max tr f :
  run (fifo_step buffer_size) (MkFifo n [] None false) tr f -> buffer_size <= max ->
  Forall (Forall (is_unsigned 8)) (puts tr) -> Forall (good_input max) (takes tr ++ filled f).
Proof.
  intros Hrun Hmax Hb. pose proof (fifo_run_lengths _ _ _ _ Hrun) as Hl.
  eapply sublist_Forall; [by eapply fifo_run_sublist|]. apply Forall_forall. intros x Hx.
  rewrite Forall_forall in Hb, Hl. split; [|by apply Hb]. specialize (Hl x Hx). cbn beta in Hl. lia.
Qed.

(** ** Lemmas: the other clients *)

Lemma sdr_callback_spec hypotf data nodes : forall cs cs',
  NoDup nodes.*1 -> sdr_callback hypotf nodes data cs = Some cs' ->
  forall id, if decide ((id, true) ∈ nodes)
    then exists c c', cs !! id = Some c /\ cs' !! id = Some c' /\ exec_client hypotf c (OfQueue (EvPut data)) = Some c'
    else cs' !! id = cs !! id.
Proof.
  induction nodes as [|[i running] nodes IH]; intros cs cs' Hnd H id; cbn [sdr_callback] in H.
  { simplify_eq. by rewrite decide_False by apply not_elem_of_nil. }
  apply NoDup_cons in Hnd as [Hi Hnd]. cbn [fst] in Hi.
  assert (id = i -> (id, true) ∉ nodes) as Hnot.
  { intros -> Hin. apply Hi. apply (list_elem_of_fmap_2 fst) in Hin. done. }
  destruct running.
  - apply bind_Some in H as (c & Hc & H). apply bind_Some in H as (c' & Hc' & H).
    specialize (IH _ _ Hnd H id). destruct (decide (id = i)) as [->|Hne].
    + rewrite decide_True by (by left). rewrite decide_False, lookup_insert_eq in IH by auto. eauto.
    + destruct (decide ((id, true) ∈ nodes)).
      * rewrite decide_True by (by right). destruct IH as (d & d' & Hd & IH). rewrite lookup_insert_ne in Hd by done. eauto.
      * rewrite decide_False by set_solver. by rewrite lookup_insert_ne in IH by done.
  - specialize (IH _ _ Hnd H id). destruct (decide ((id, true) ∈ nodes)).
    + by rewrite decide_True by (by right).
    + by rewrite decide_False by set_solver.
Qed.

Lemma projection_snoc id tr l :
  projection id (tr ++ [l]) = projection id tr ++ projection id [l].
Proof. apply omap_app. Qed.

Lemma exec_client_step hypotf c l c' :
  exec_client hypotf c l = Some c' -> fst c' = fst c /\
  step hypotf (c_config (fst c)) (c_has_file (fst c)) (c_has_gz (fst c)) (c_size (fst c)) (snd c) l (snd c').
Proof. unfold exec_client. intros H. apply bind_Some in H as (p & Hp & H). by simplify_eq. Qed.

(** A step of the server is a step, or nothing, for each client. *)
Lemma exec_clients_project hypotf cs l cs' id c :
  step_clients hypotf cs l cs' -> cs !! id = Some c ->
  exists p', cs' !! id = Some (fst c, p') /\
    run (step hypotf (c_config (fst c)) (c_has_file (fst c)) (c_has_gz (fst c)) (c_size (fst c)))
      (snd c) (projection id [l]) p'.
Proof.
  assert (forall c' l', exec_client hypotf c l' = Some c' -> cs' !! id = Some c' -> exists p', cs' !! id = Some (fst c, p') /\
    run (step hypotf (c_config (fst c)) (c_has_file (fst c)) (c_has_gz (fst c)) (c_size (fst c))) (snd c) [l'] p') as Hone.
  { intros c' l' Hc' Hl. apply exec_client_step in Hc' as [Hf Hs]. destruct c' as [k p']. simplify_eq/=.
    exists p'. split; [done|]. by apply (run_snoc _ _ []) with (snd c); [constructor|]. }
  assert (cs' !! id = cs !! id -> cs !! id = Some c -> exists p', cs' !! id = Some (fst c, p') /\
    run (step hypotf (c_config (fst c)) (c_has_file (fst c)) (c_has_gz (fst c)) (c_size (fst c))) (snd c) [] p') as Hnone.
  { intros -> Hc. exists (snd c). split; [by destruct c|constructor]. }
  intros Hstep Hc. unfold step_clients in Hstep. destruct l as [nodes data|id' l]; cbn [exec_clients projection omap list_omap] in *.
  - apply bind_Some in Hstep as ([] & Hnd & H). unfold ensure in Hnd. case_bool_decide as Hd; [|done].
    pose proof (sdr_callback_spec _ _ _ _ _ Hd H id) as Hs. destruct (decide ((id, true) ∈ nodes)); [|by apply Hnone].
    destruct Hs as (c0 & c' & Hc0 & Hc' & Hx). simplify_eq. by eapply Hone.
  - assert (exists c0 c', cs !! id' = Some c0 /\ exec_client hypotf c0 l = Some c' /\ cs' = <[id' := c']> cs) as
      (c0 & c' & Hc0 & Hx & ->).
    { destruct l as [e| |]; try (destruct e; [done|..]);
        apply bind_Some in Hstep as (c0 & ? & Hstep); apply bind_Some in Hstep as (c' & ? & Hstep); simplify_eq; eauto. }
    destruct (decide (id' = id)) as [->|Hne]; simplify_eq.
    + eapply Hone; [done|]. apply lookup_insert_eq.
    + apply Hnone; [|done]. by rewrite lookup_insert_ne.
Qed.

(** ** Properties *)

Lemma closes_app e1 e2 : closes (e1 ++ e2) = closes e1 + closes e2.
Proof. unfold closes. by rewrite sum_list_with_app. Qed.

(** What the bytes on the socket are, from the invariant. *)
Lemma worker_at_socket hypotf config has_file has_gz taps s max buffer_size n q h f io taken holds p :
  served config taps s max buffer_size n q h f -> destination config = Api.REQUEST_DESTINATION_SOCKET ->
  Forall (good_input max) taken -> worker_at hypotf config has_file has_gz f io taken holds p ->
  closes (p_effects p) = 0 ->
  let cells := client_cells hypotf taps (sdr_type config) f s taken in
  socket_bytes (p_effects p) `prefix_of` output_bytes cells /\
  (p_pc p = Taking \/ p_pc p = Ended -> socket_bytes (p_effects p) = output_bytes cells).
Proof.
  intros Hs Hd Hg (handled & pending & out & f1 & e & io1 & -> & Hp & _ & _ & Hl & Hm) Hcl cells.
  pose proof (served_type _ _ _ _ _ _ _ _ _ Hs) as Ht.
  destruct (client_cells_spec hypotf taps max _ f s _ (served_state _ _ _ _ _ _ _ _ _ Hs)
    (served_capacity _ _ _ _ _ _ _ _ _ Hs) Ht Hg) as (f2 & Hc). fold cells in Hc.
  assert (forall c1 f1', process_all (process_cf32 hypotf (client_conv (sdr_type config)))
    (map (client_samples (sdr_type config)) handled) f = Some (c1, f1') ->
    f1' = f1 /\ (closes e = 0 -> socket_bytes e = output_bytes c1)) as Hhd.
  { intros c1 f1' Hp1. destruct (callback_loop_socket hypotf config has_file has_gz handled [] f io c1 f1' Ht Hd Hp1)
      as (r & Hr & Hm'). rewrite Hl in Hr. simplify_eq. by destruct Hm' as (-> & _ & ?). }
  unfold in_hand in Hp. assert (p_pc p = Taking \/ p_pc p = Ended \/ exists d, pending = [d]) as
    [Hpc|[Hpc|[d ->]]] by (destruct (p_pc p); eauto).
  1, 2: rewrite Hpc in Hp, Hm; subst pending; rewrite app_nil_r in Hc; destruct (Hhd _ _ Hc) as [_ He];
    destruct Hm as (_ & _ & _ & Hpe); rewrite Hpe in *; rewrite (He Hcl); done.
  rewrite map_app in Hc. cbn [map] in Hc. rewrite process_all_snoc in Hc.
  apply bind_Some in Hc as ([c1 f1'] & Hc1 & Hc). apply bind_Some in Hc as ([c2 f2'] & Hc2 & Hc).
  injection Hc as Hcells _. cbn [fst snd] in *. destruct (Hhd _ _ Hc1) as [-> He]. rewrite <- Hcells, output_bytes_app.
  destruct (p_pc p) as [|len| |code|] eqn:Hpc; try done; (split; [|by intros [|]]).
  - destruct Hm as (_ & _ & _ & _ & Hpe). rewrite Hpe in *. rewrite He by done. by apply prefix_app_r.
  - destruct Hm as (_ & _ & Hpe). rewrite Hpe in *. rewrite He by done. by apply prefix_app_r.
  - destruct Hm as ((d' & [= <-] & Hfi) & w & Hw & Hpe). rewrite Hpe in *. rewrite closes_app in Hcl.
    rewrite socket_bytes_app, He by lia. apply prefix_app. rewrite filter_input_supported in Hfi by done. simplify_eq.
    pose proof (write_output_socket config has_file has_gz (p_output p) io1 Hd) as Hws. rewrite Hw in Hws.
    destruct Hws as (bytes & -> & Hpre & _). unfold socket_bytes. cbn [map concat]. by rewrite app_nil_r.
Qed.

(** C6. End to end, from the receiver to the socket: however the puts, the
    interrupts and the steps of the worker interleave, what was written to the
    socket of a client is at any time a prefix of the bytes of the decimated FIR of
    the concatenated buffers taken, all of them whenever the worker is between two
    buffers, as long as no write failed; and the buffers taken are the buffers
    put, in order, less those that were overwritten while [queue_size] of them
    were outstanding. *)
Theorem client_receives_its_stream hypotf config has_file has_gz taps s max buffer_size n q h f io tr p :
  served config taps s max buffer_size n q h f -> destination config = Api.REQUEST_DESTINATION_SOCKET ->
  run (step hypotf config has_file has_gz buffer_size) (start q h f io) tr p ->
  Forall (Forall (is_unsigned 8)) (puts (queue_trace tr)) ->
  let taken := takes (queue_trace tr) in
  taken `sublist_of` puts (queue_trace tr) /\
  (never_overruns n (queue_trace tr) -> exists rest, puts (queue_trace tr) = taken ++ rest) /\
  (closes (p_effects p) = 0 ->
     let cells := client_cells hypotf taps (sdr_type config) f s taken in
     socket_bytes (p_effects p) `prefix_of` output_bytes cells /\
     (p_pc p = Taking \/ p_pc p = Ended -> socket_bytes (p_effects p) = output_bytes cells)).
Proof.
  intros Hs Hd Hrun Hb taken.
  destruct (reachable _ _ _ _ _ _ _ _ _ _ _ _ (served_two _ _ _ _ _ _ _ _ _ Hs) (served_queue _ _ _ _ _ _ _ _ _ Hs) Hrun)
    as (fq & Habs & Hr & Hat). split_and!.
  - etransitivity; [|by eapply fifo_run_sublist]. by apply sublist_inserts_r.
  - intros Hno. destruct (fifo_run_lossless _ _ _ _ Hr Hno) as [<- _]. eauto.
  - intros Hcl. eapply worker_at_socket; [done..| |done|done].
    eapply taken_good; [done|apply Hs|done].
Qed.

(** C7. The thread of a client, interleaved in any way with the receiver and with
    the thread that stops it, does what [callback] does on the buffers it took:
    for the buffers it has completed the sequential function returns, with the
    filter and the pending answers of [write] that the worker has, and its effects
    are those of the worker, exactly between two buffers and up to the write of
    the one buffer in hand otherwise. *)
Theorem worker_refines_callback hypotf worker f io buffer_size n q h tr p :
  2 <= n -> abstracts buffer_size n (MkSystem q h None) (MkFifo n [] None false) ->
  w_filter worker = Some f ->
  run (step hypotf (w_config worker) (w_file worker) (w_gz worker) buffer_size) (start q h f io) tr p ->
  exists handled pending effects f' io',
    takes (queue_trace tr) = handled ++ pending /\ in_hand p pending /\
    callback hypotf worker handled io = Some (Returned effects f' io') /\
    match p_pc p with
    | Taking | Ended => p_effects p = effects /\ p_filter p = f' /\ p_io p = io'
    | Processing len => p_effects p = effects /\ p_filter p = f' /\ p_io p = io' /\ map length pending = [len]
    | Writing => p_effects p = effects /\ p_io p = io'
    | Completing code => exists written, p_effects p = effects ++ written /\
        write_output (w_config worker) (w_file worker) (w_gz worker) (p_output p) io' = Some (code, written, p_io p)
    end.
Proof.
  intros H2 Habs Hf Hrun. destruct (reachable _ _ _ _ _ _ _ _ _ _ _ _ H2 Habs Hrun) as (fq & _ & _ & Hat).
  destruct Hat as (hd & pd & out & f1 & e & io1 & Ht & Hp & _ & _ & Hl & Hm).
  exists hd, pd, e, f1, io1. unfold callback. rewrite Hf. split_and!; [done|done|done|].
  destruct (p_pc p); [..|naive_solver].
  - naive_solver.
  - destruct Hm as ((d & -> & ->) & _ & Hfi & Hio & He). done.
  - naive_solver.
  - destruct Hm as (_ & w & Hw & He). eauto.
Qed.

(** C8. No thread runs into undefined behaviour and none waits for the other
    but in the queue: in any reachable state the receiver can put a buffer and
    any thread can interrupt, and the worker has ended, is in a [write] that
    does not return, or can take its next step, which waits only on an empty
    queue that is not poisoned. *)
Theorem pipeline_never_stuck hypotf config has_file has_gz taps s max buffer_size n q h f io tr p :
  served config taps s max buffer_size n q h f ->
  run (step hypotf config has_file has_gz buffer_size) (start q h f io) tr p ->
  Forall (Forall (is_unsigned 8)) (puts (queue_trace tr)) ->
  (forall data, length data <= buffer_size ->
     is_Some (exec hypotf config has_file has_gz buffer_size p (OfQueue (EvPut data)))) /\
  is_Some (exec hypotf config has_file has_gz buffer_size p (OfQueue EvInterrupt)) /\
  (p_pc p = Ended \/ blocked config has_file has_gz p \/ exists l,
     is_Some (exec hypotf config has_file has_gz buffer_size p l) /\
     match l with
     | OfQueue (EvPut _) | OfQueue EvInterrupt => False
     | OfQueue EvWait => first_filled_node (sys_queue (p_sys p)) = None /\ poison_pill (sys_queue (p_sys p)) = false
     | _ => True
     end).
Proof.
  intros Hs Hrun Hb. pose proof (served_two _ _ _ _ _ _ _ _ _ Hs) as H2.
  destruct (reachable _ _ _ _ _ _ _ _ _ _ _ _ H2 (served_queue _ _ _ _ _ _ _ _ _ Hs) Hrun) as (fq & Habs & Hr & Hat).
  destruct (others_progress hypotf config has_file has_gz _ _ p fq H2 Habs) as [Hput Hint].
  split; [done|]. split; [done|]. assert (Forall (good_input max) (takes (queue_trace tr))) as Hg
    by (eapply taken_good; [done|apply Hs|done]).
  destruct (worker_progress _ _ _ _ _ _ _ _ _ _ _ Habs Hat (served_defined _ _ _ _ _ _ _ _ _ _ _ Hs Hg)) as [He|[Hw|Hx]];
    [by left|by right; left|right; right].
  exists (next_label p fq). split; [done|]. unfold next_label. destruct (p_pc p); try done.
  destruct Habs as (fs & xs & R & _ & Hxs & _ & Hpo). destruct (filled fq); [|done].
  destruct (poisoned fq) eqn:E; [done|]. inversion Hxs; subst. split; [|done].
  by destruct (is_list_nil _ _ _ (rep_filled _ _ _ _ _ _ _ R)).
Qed.

(** C9. Stopping a client terminates: from any reachable state in which the queue is
    poisoned, the worker alone, with no further help of the receiver and without
    waiting, comes to the end of [callback] (or to a [write] that does not
    return) within [4 * queue_size + 1] steps, so that the [pthread_join] of
    [dsp_worker_destroy] returns. *)
Theorem poisoned_worker_ends hypotf config has_file has_gz taps s max buffer_size n q h f io tr p :
  served config taps s max buffer_size n q h f ->
  run (step hypotf config has_file has_gz buffer_size) (start q h f io) tr p ->
  Forall (Forall (is_unsigned 8)) (puts (queue_trace tr)) ->
  poison_pill (sys_queue (p_sys p)) = true ->
  exists tr' p', run (step hypotf config has_file has_gz buffer_size) p tr' p' /\
    Forall worker_label tr' /\ length tr' <= 4 * n + 1 /\
    (p_pc p' = Ended \/ blocked config has_file has_gz p').
Proof.
  intros Hs Hrun Hb Hpo. pose proof (served_two _ _ _ _ _ _ _ _ _ Hs) as H2.
  destruct (reachable _ _ _ _ _ _ _ _ _ _ _ _ H2 (served_queue _ _ _ _ _ _ _ _ _ Hs) Hrun) as (fq & Habs & Hr & Hat).
  assert (poisoned fq = true) as Hpf by (destruct Habs as (?&?&?&?&?&?&->); done).
  destruct (worker_stops hypotf config has_file has_gz taps s max buffer_size n q h f io (steps_left p fq) _ p fq Hs Habs Hat)
    as (tr' & p' & Hrun' & Hl & Hlen & He); [eapply good_queued; [done|apply Hs|done]|done|reflexivity|].
  exists tr', p'. split_and!; [done|done| |done]. etransitivity; [exact Hlen|].
  pose proof (abs_count _ _ _ _ Habs) as Hc. pose proof (at_between _ _ _ _ _ _ _ _ _ _ _ Habs Hat) as Hbt.
  unfold steps_left. destruct (p_pc p); destruct Hbt as [Hh _]; try lia;
    destruct Hh as [d Hh]; rewrite Hh in Hc; simpl in Hc; lia.
Qed.

(** C10. The clients do not disturb one another: in any run of the server, in which
    [sdr_callback] hands each buffer to all the running nodes and the workers of
    the clients interleave, every client goes through a run of its own, of the
    buffers it was given and the steps of its own worker; a slow or failing
    client changes nothing for the others. *)
Theorem clients_do_not_interfere hypotf cs tr cs' id c :
  run (step_clients hypotf) cs tr cs' -> cs !! id = Some c ->
  exists p', cs' !! id = Some (fst c, p') /\
    run (step hypotf (c_config (fst c)) (c_has_file (fst c)) (c_has_gz (fst c)) (c_size (fst c)))
      (snd c) (projection id tr) p'.
Proof.
  intros Hrun Hc. induction Hrun as [cs|cs tr cs1 l cs2 Hrun IH Hstep].
  - exists (snd c). split; [by destruct c|constructor].
  - destruct (IH Hc) as (p1 & Hc1 & Hr1).
    destruct (exec_clients_project _ _ _ _ _ _ Hstep Hc1) as (p2 & Hc2 & Hr2).
    exists p2. split; [done|]. rewrite projection_snoc. by eapply run_app.
Qed.

(** ** The properties on a concrete run *)

(** A HackRF client with a queue of two buffers of eight bytes. *)
Definition example_queue : queue * heap :=
  match create_queue (fun _ => true) (fun _ => []) 8 2 0 ∅ with
  | Some (_, Some q, h) => (q, h)
  | _ => (MkQueue None None None None None false, ∅)
  end.
Definition example_start : pipeline := start (fst example_queue) (snd example_queue) example_filter [10; 100; 100]%Z.
Definition first_buffer : list Z := [1; 254; 3; 4; 5; 6; 7; 128]%Z.
Definition second_buffer : list Z := [127; 0]%Z.
Definition example_trace : list label :=
  [OfQueue EvWait; OfQueue (EvPut first_buffer); OfQueue (EvTake first_buffer); OfQueue (EvPut second_buffer);
   Filter; Write; OfQueue EvInterrupt; OfQueue EvComplete].
Definition example_exec : pipeline -> label -> option pipeline :=
  exec example_hypotf (example_config Config.SDR_TYPE_HACKRF) true false 8.
Definition example_end : pipeline := default example_start (exec_trace example_exec example_start example_trace).

Lemma example_served :
  served (example_config Config.SDR_TYPE_HACKRF) example_bpf (replicate 2 c_zero) 8 8 2
    (fst example_queue) (snd example_queue) example_filter.
Proof.
  split; [lia| |lia|exact example_cf32_state|split_and!; vm_compute; reflexivity|right; right; reflexivity].
  apply (create_queue_abstracts (fun _ => true) (fun _ => []) 8 2 0). vm_compute. reflexivity.
Qed.

Lemma example_run : run (step example_hypotf (example_config Config.SDR_TYPE_HACKRF) true false 8)
  example_start example_trace example_end.
Proof.
  apply exec_trace_run. unfold example_end. change (exec _ _ _ _ _) with example_exec.
  assert (is_Some (exec_trace example_exec example_start example_trace)) as [p Hp]
    by (vm_compute; by eexists). by rewrite Hp.
Qed.

Lemma example_puts : Forall (Forall (is_unsigned 8)) (puts (queue_trace example_trace)).
Proof. repeat (apply Forall_cons; split); try apply Forall_nil; try plia; done. Qed.

Lemma client_receives_its_stream_witness :
  length (socket_bytes (p_effects example_end)) = 16 /\
  socket_bytes (p_effects example_end) = output_bytes
    (client_cells example_hypotf example_bpf Config.SDR_TYPE_HACKRF example_filter (replicate 2 c_zero) [first_buffer]).
Proof.
  split; [vm_compute; reflexivity|].
  destruct (client_receives_its_stream _ _ _ _ _ _ _ _ _ _ _ _ _ _ _ example_served eq_refl example_run example_puts)
    as (_ & _ & H). destruct H as [_ H]; [vm_compute; reflexivity|]. apply H. left. vm_compute. reflexivity.
Defined.

Lemma worker_refines_callback_witness : exists effects f' io',
  callback example_hypotf (example_worker Config.SDR_TYPE_HACKRF) [first_buffer] [10; 100; 100]%Z
    = Some (Returned effects f' io') /\ p_effects example_end = effects.
Proof.
  destruct (worker_refines_callback example_hypotf (example_worker Config.SDR_TYPE_HACKRF) example_filter
    [10; 100; 100]%Z 8 2 (fst example_queue) (snd example_queue) example_trace example_end)
    as (hd & pd & e & f' & io' & Ht & Hp & Hc & Hm); [lia|apply example_served|reflexivity|exact example_run|].
  assert (p_pc example_end = Taking) as Hpc by (vm_compute; reflexivity). unfold in_hand in Hp. rewrite Hpc in Hp, Hm.
  destruct Hm as (He & _). subst pd. rewrite app_nil_r in Ht. cbn in Ht. subst hd. eauto.
Defined.

Lemma pipeline_never_stuck_witness :
  is_Some (example_exec example_end (OfQueue (EvPut second_buffer))).
Proof.
  refine (proj1 (pipeline_never_stuck _ _ _ _ _ _ _ _ _ _ _ _ _ _ _ example_served example_run example_puts)
    second_buffer _). cbn. lia.
Defined.

Lemma poisoned_worker_ends_witness : exists tr' p',
  run (step example_hypotf (example_config Config.SDR_TYPE_HACKRF) true false 8) example_end tr' p' /\
  length tr' <= 9 /\ (p_pc p' = Ended \/ blocked (example_config Config.SDR_TYPE_HACKRF) true false p').
Proof.
  destruct (poisoned_worker_ends _ _ _ _ _ _ _ _ _ _ _ _ _ _ _ example_served example_run example_puts)
    as (tr' & p' & Hr & _ & Hl & He); [vm_compute; reflexivity|]. exists tr', p'. exact (conj Hr (conj Hl He)).
Defined.

(** Two such clients; the second one's worker never runs. *)
Definition example_clients : gmap nat (client * pipeline) :=
  let c := (MkClient (example_config Config.SDR_TYPE_HACKRF) true false 8, example_start) in
  <[1%nat := c]> (<[0%nat := c]> ∅).
Definition example_labels : list server_label :=
  [Buffer [(0, true); (1, true)] first_buffer; OfClient 0 (OfQueue (EvTake first_buffer)); Buffer [(1, false); (0, true)] second_buffer;
   OfClient 0 Filter; Buffer [(1, true); (0, true)] first_buffer].

Lemma clients_do_not_interfere_witness : exists (cs' : gmap nat (client * pipeline)) p',
  cs' !! 0 = Some (MkClient (example_config Config.SDR_TYPE_HACKRF) true false 8, p') /\
  run (step example_hypotf (example_config Config.SDR_TYPE_HACKRF) true false 8) example_start
    [OfQueue (EvPut first_buffer); OfQueue (EvTake first_buffer); OfQueue (EvPut second_buffer); Filter;
     OfQueue (EvPut first_buffer)] p'.
Proof.
  exists (default ∅ (exec_trace (exec_clients example_hypotf) example_clients example_labels)).
  refine (clients_do_not_interfere example_hypotf example_clients example_labels _ 0
    (MkClient (example_config Config.SDR_TYPE_HACKRF) true false 8, example_start) _ _); [|reflexivity].
  apply exec_trace_run.
  assert (is_Some (exec_trace (exec_clients example_hypotf) example_clients example_labels)) as [p Hp]
    by (vm_compute; by eexists). by rewrite Hp.
Defined.

End Pipeline.
