(* ===== verification/TcpServer.v ===== *)
(** * Requests: the connection handling of src/tcp_server.c

    What the acceptor thread does with a connection up to the point where it
    registers the client: the header, the request, its validation, the start of
    the DSP worker and of the client's thread.  The registration itself and the
    life of the threads are in Lifecycle.v. *)
From S2P Require Import Prelude Queue Api Float Xlating Lpf Config DspWorker.
Import Float DspWorker.
#[local] Open Scope Z_scope.

Module TcpServer.

(** ** Reading and validating a request *)

(** [read_client_config]: the code, the configuration and the unread rest;
    [None] while the read is blocked.  The fields that the function leaves 0
    are [id], [sdr_type] and [is_running]. *)
Definition read_client_config (malloc_ok : bool) (server_config : Config.server_config)
    (io : list Api.recv_result) : option (Z * option client_config * list Api.recv_result) :=
  if negb malloc_ok then Some (- ENOMEM, None, io) else
  match Api.read_struct Api.sizeof_request [] io with
  | Api.ReadBlocked => None
  | Api.ReadDone code bs io' =>
      if code <? 0 then Some (-1, None, io')
      else
        let req := Api.bytes_request bs in
        let result := MkClientConfig (Api.ntohl (Api.center_freq req)) (Api.ntohl (Api.sampling_rate req))
                        (Api.ntohl (Api.band_freq req)) (Api.destination req) 0 0 false in
        if (0 <? sampling_rate result) &&
           negb (Config.band_sampling_rate server_config `mod` sampling_rate result =? 0)
        then Some (-1, None, io')
        else Some (0, Some result, io')
  end.

(** [validate_client_config]: all the frequencies are [uint32_t]. *)
Definition validate_client_config (config : client_config) (server_config : Config.server_config) : Z :=
  if center_freq config =? 0 then -1
  else if sampling_rate config =? 0 then -1
  else if band_freq config =? 0 then -1
  else if negb (destination config =? Api.REQUEST_DESTINATION_FILE) &&
          negb (destination config =? Api.REQUEST_DESTINATION_SOCKET) then -1
  else
    let requested_min_freq := wrap 32 (center_freq config - sampling_rate config / 2) in
    let server_min_freq := wrap 32 (band_freq config - Config.band_sampling_rate server_config / 2) in
    if requested_min_freq <? server_min_freq then -1
    else
      let requested_max_freq := wrap 32 (center_freq config + sampling_rate config / 2) in
      let server_max_freq := wrap 32 (band_freq config + Config.band_sampling_rate server_config / 2) in
      if server_max_freq <? requested_max_freq then -1 else 0.

(** ** One connection *)

(** What the acceptor does to the socket of the connection. *)
Inductive conn_effect :=
| Respond (status details : Z)
| Close.

(** [respond_failure] *)
Definition respond_failure (status details : Z) : list conn_effect := [Respond status details; Close].

(** [struct linked_list_tcp_node] as [malloc] leaves it: [dsp_worker] is not
    initialised; [None] is the null pointer and [Some None] a wild one. *)
Record tcp_node := MkTcpNode {
  node_config : client_config;
  node_worker : option (option dsp_worker);
}.

(** [tcp_node_destroy]: closes the socket and destroys the worker. *)
Definition tcp_node_destroy (node : tcp_node) : option (list conn_effect * list event) :=
  match node_worker node with
  | None => Some ([Close], [])
  | Some None => UB
  | Some (Some worker) => Some ([Close], dsp_worker_destroy worker)
  end.

Inductive outcome :=
| Finished (effects : list conn_effect)
| Registering (node : tcp_node).

(** What the calls of [handle_new_client] answer: the two [malloc]s, what the
    uninitialised pointer of the node contains, [dsp_worker_start] and
    [pthread_create]. *)
Record client_env := MkClientEnv {
  ce_config_malloc : bool;
  ce_node_malloc : bool;
  ce_garbage : option (option dsp_worker);
  ce_start : start_env;
  ce_pthread : bool;
}.

Section handle.
Context (sin cos : float -> float) (cexpf : complex -> complex).

(** [handle_new_client], up to the lock of the server's mutex. *)
Definition handle_new_client (env : client_env) (server_config : Config.server_config)
    (client_counter : Z) (io : list Api.recv_result) : option (option outcome) :=
  match read_client_config (ce_config_malloc env) server_config io with
  | None => Some None
  | Some (_, None, _) =>
      Some (Some (Finished (respond_failure Api.RESPONSE_STATUS_FAILURE Api.RESPONSE_DETAILS_INVALID_REQUEST)))
  | Some (_, Some config, _) =>
      if validate_client_config config server_config <? 0 then
        Some (Some (Finished (respond_failure Api.RESPONSE_STATUS_FAILURE Api.RESPONSE_DETAILS_INVALID_REQUEST)))
      else
        let config := MkClientConfig (center_freq config) (sampling_rate config) (band_freq config)
                        (destination config) client_counter (Config.sdr_type server_config) true in
        let internal := respond_failure Api.RESPONSE_STATUS_FAILURE Api.RESPONSE_DETAILS_INTERNAL_ERROR in
        if negb (ce_node_malloc env) then Some (Some (Finished internal))
        else
          started ← dsp_worker_start sin cos cexpf (ce_start env) config server_config;
          match started with
          | (_, None, _) =>
              destroyed ← tcp_node_destroy (MkTcpNode config (ce_garbage env));
              Some (Some (Finished (internal ++ fst destroyed)))
          | (_, Some worker, _) =>
              let node := MkTcpNode config (Some (Some worker)) in
              if negb (ce_pthread env) then
                destroyed ← tcp_node_destroy node;
                Some (Some (Finished (internal ++ fst destroyed)))
              else Some (Some (Registering node))
          end
  end.

(** The body of the loop of [acceptor_worker] for an accepted connection: the
    outcome ([None] while a read blocks) and the new counter. *)
Definition handle_connection (setsockopt_ok : bool) (env : client_env)
    (server_config : Config.server_config) (client_counter : Z) (io : list Api.recv_result)
    : option (option outcome * Z) :=
  if negb setsockopt_ok then Some (Some (Finished [Close]), client_counter)
  else
    let client_counter := wrap 32 (client_counter + 1) in
    let invalid := respond_failure Api.RESPONSE_STATUS_FAILURE Api.RESPONSE_DETAILS_INVALID_REQUEST in
    match Api.read_struct Api.sizeof_header [] io with
    | Api.ReadBlocked => Some (None, client_counter)
    | Api.ReadDone code bs io' =>
        if code <? 0 then Some (Some (Finished invalid), client_counter)
        else
          let header := Api.bytes_header bs in
          if negb (Api.protocol_version header =? Api.PROTOCOL_VERSION)
          then Some (Some (Finished invalid), client_counter)
          else if Api.type header =? Api.TYPE_REQUEST then
            r ← handle_new_client env server_config client_counter io';
            Some (r, client_counter)
          else if Api.type header =? Api.TYPE_PING then
            Some (Some (Finished [Respond Api.RESPONSE_STATUS_SUCCESS 0; Close]), client_counter)
          else Some (Some (Finished invalid), client_counter)
    end.
End handle.

(** ** Specification *)

(** The channel asked for lies in the band the receiver delivers. *)
Definition in_band (config : client_config) (server_config : Config.server_config) : Prop :=
  band_freq config - Config.band_sampling_rate server_config / 2
    <= center_freq config - sampling_rate config / 2 /\
  center_freq config + sampling_rate config / 2
    <= band_freq config + Config.band_sampling_rate server_config / 2.

Definition complete_request (config : client_config) : Prop :=
  center_freq config <> 0 /\ sampling_rate config <> 0 /\ band_freq config <> 0 /\
  (destination config = Api.REQUEST_DESTINATION_FILE \/
   destination config = Api.REQUEST_DESTINATION_SOCKET).

(** ** Lemmas *)

Lemma wrap32_add x k : wrap 32 (x + k * 2 ^ 32) = wrap 32 x.
Proof. unfold wrap. by rewrite Z.mod_add. Qed.

(** A frequency limit as [uint32_t]: one below 0 or above 2^32 wraps around. *)
Lemma wrap_below x : - 2 ^ 31 <= x < 2 ^ 32 -> wrap 32 x = if decide (x < 0) then x + 2 ^ 32 else x.
Proof. intros H. destruct (decide (x < 0)); [rewrite <- (wrap32_add _ 1)|]; apply wrap_small; plia. Qed.

Lemma wrap_above x : 0 <= x < 2 ^ 32 + 2 ^ 31 -> wrap 32 x = if decide (2 ^ 32 <= x) then x - 2 ^ 32 else x.
Proof. intros H. destruct (decide (2 ^ 32 <= x)); [rewrite <- (wrap32_add _ (-1))|]; apply wrap_small; plia. Qed.

(** C26. Validation of a request, on all 32-bit frequencies and rates: the code is 0
    or -1, and a complete request is accepted exactly as follows.  In a band without
    wrap-around: if the channel lies in the band, or if it reaches below 0 Hz or
    above 2^32 and its other limits, reduced modulo 2^32, are in order.  In a band
    that reaches below 0 Hz: only channels that reach below 0 Hz too and lie in the
    band, or that lie in it modulo 2^32; a channel of that band above 0 Hz is
    refused.  In a band that reaches above 2^32: likewise only channels that reach
    above 2^32. *)
Theorem validate_client_config_exact config server_config
    (center : is_unsigned 32 (center_freq config)) (rate : is_unsigned 32 (sampling_rate config))
    (band : is_unsigned 32 (band_freq config)) (band_rate : is_unsigned 32 (Config.band_sampling_rate server_config)) :
  let h := Config.band_sampling_rate server_config / 2 in
  let b := band_freq config in
  let r := sampling_rate config / 2 in
  let c := center_freq config in
  (validate_client_config config server_config = 0 \/ validate_client_config config server_config = -1) /\
  (validate_client_config config server_config = 0 <->
   complete_request config /\
   if decide (b < h) then
     (c < r /\ in_band config server_config) \/
     (2 ^ 32 <= c + r /\ b - h <= c - 2 ^ 32 - r /\ c - 2 ^ 32 + r <= b + h)
   else if decide (2 ^ 32 <= b + h) then
     (2 ^ 32 <= c + r /\ in_band config server_config) \/
     (c < r /\ b - h <= c + 2 ^ 32 - r /\ c + 2 ^ 32 + r <= b + h)
   else
     in_band config server_config \/
     (c < r /\ b - h <= c - r + 2 ^ 32 /\ c + r <= b + h) \/
     (2 ^ 32 <= c + r /\ b - h <= c - r /\ c + r - 2 ^ 32 <= b + h)).
Proof.
  intros h b r c. unfold validate_client_config. fold h b r c.
  unfold complete_request, in_band, is_unsigned in *. fold h b r c in center, band |- *.
  assert (0 <= h < 2 ^ 31) as Hh by (split; [apply Z.div_pos; lia|apply Z.div_lt_upper_bound; plia]).
  assert (0 <= r < 2 ^ 31) as Hr by (split; [apply Z.div_pos; lia|apply Z.div_lt_upper_bound; plia]).
  rewrite !wrap_below, !wrap_above by plia.
  unfold Api.REQUEST_DESTINATION_FILE, Api.REQUEST_DESTINATION_SOCKET.
  repeat match goal with
  | |- context [decide ?P] => destruct (decide P)
  end; repeat match goal with
  | |- context [if ?b then _ else _] => destruct b eqn:?
  end; pow2; split; lia.
Qed.

Lemma read_client_config_result malloc_ok server io code r rest :
  read_client_config malloc_ok server io = Some (code, r, rest) ->
  match r with
  | None => code <> 0
  | Some config => code = 0 /\
      (0 < sampling_rate config -> Config.band_sampling_rate server `mod` sampling_rate config = 0)
  end.
Proof.
  unfold read_client_config. destruct malloc_ok; cbn [negb]; [|unfold ENOMEM; intros H; simplify_eq; lia].
  destruct (Api.read_struct _ _ _) as [c bs io'|]; [|done].
  destruct (c <? 0); [intros H; simplify_eq; lia|]. cbv zeta. cbn [sampling_rate].
  set (sr := Api.ntohl _). destruct (_ && _) eqn:E; intros H; simplify_eq; [lia|].
  split; [done|]. cbn [sampling_rate]. fold sr. intros Hsr.
  rewrite (proj2 (Z.ltb_lt 0 sr)) in E by done. cbn [andb] in E.
  apply negb_false_iff, Z.eqb_eq in E. done.
Qed.

(** The ways a connection can end before it becomes a client. *)
Definition refusal (effects : list conn_effect) : Prop :=
  effects = [Respond Api.RESPONSE_STATUS_SUCCESS 0; Close] \/
  effects = [Respond Api.RESPONSE_STATUS_FAILURE Api.RESPONSE_DETAILS_INVALID_REQUEST; Close] \/
  effects = [Respond Api.RESPONSE_STATUS_FAILURE Api.RESPONSE_DETAILS_INTERNAL_ERROR; Close] \/
  effects = [Respond Api.RESPONSE_STATUS_FAILURE Api.RESPONSE_DETAILS_INTERNAL_ERROR; Close; Close].

Lemma validate_cases config server :
  validate_client_config config server = 0 \/ validate_client_config config server = -1.
Proof. unfold validate_client_config. repeat case_match; auto. Qed.

Lemma handle_new_client_result sin cos cexpf env server counter io o :
  handle_new_client sin cos cexpf env server counter io = Some (Some o) ->
  match o with
  | Finished effects => refusal effects
  | Registering node => exists w, node_worker node = Some (Some w) /\ w_config w = node_config node /\
      id (node_config node) = counter /\ sdr_type (node_config node) = Config.sdr_type server /\
      is_running (node_config node) = true /\
      validate_client_config (node_config node) server = 0 /\
      (0 < sampling_rate (node_config node) ->
       Config.band_sampling_rate server `mod` sampling_rate (node_config node) = 0)
  end.
Proof.
  unfold handle_new_client. intros H.
  destruct (read_client_config _ _ _) as [[[code [config|]] rest]|] eqn:Er;
    [|simplify_eq; right; by left|done].
  apply read_client_config_result in Er as [_ Hmod].
  destruct (validate_client_config config server <? 0) eqn:Ev; [simplify_eq; right; by left|].
  destruct (ce_node_malloc env); cbn [negb] in H; [|simplify_eq; right; right; by left].
  apply bind_Some in H as ([[c [w|]] tr] & Hs & H).
  - pose proof (dsp_worker_start_config _ _ _ _ _ _ _ _ _ Hs) as Hw.
    destruct (ce_pthread env); cbn [negb] in H.
    + simplify_eq. exists w. cbn. split_and!; try done.
      change (validate_client_config config server = 0).
      destruct (validate_cases config server) as [E|E]; [exact E|]. by rewrite E in Ev.
    + cbn in H. simplify_eq. by repeat right.
  - destruct (ce_garbage env) as [[g|]|]; cbn in H; simplify_eq; by repeat right.
Qed.

Lemma handle_new_client_blocked sin cos cexpf env server counter io :
  handle_new_client sin cos cexpf env server counter io = Some None -> read_client_config (ce_config_malloc env) server io = None.
Proof.
  unfold handle_new_client. destruct (read_client_config _ _ _) as [[[code [config|]] rest]|]; [|done..].
  destruct (_ <? 0); [done|]. destruct (ce_node_malloc env); [|done]. cbn [negb]. intros H.
  apply bind_Some in H as ([[c [w|]] tr] & _ & H); [destruct (ce_pthread env)|]; [done|..]; by apply bind_Some in H as (? & _ & ?).
Qed.

(** What [handle_new_client] asks [dsp_worker_start] to start. *)
Definition requested (server : Config.server_config) (counter : Z) (config : client_config) : client_config :=
  MkClientConfig (center_freq config) (sampling_rate config) (band_freq config) (destination config)
    counter (Config.sdr_type server) true.

Lemma handle_new_client_undefined sin cos cexpf env server counter io :
  handle_new_client sin cos cexpf env server counter io = UB ->
  exists config rest, read_client_config (ce_config_malloc env) server io = Some (0, Some config, rest) /\
    validate_client_config config server = 0 /\
    (dsp_worker_start sin cos cexpf (ce_start env) (requested server counter config) server = UB \/
     ce_garbage env = Some None /\
     exists code tr, dsp_worker_start sin cos cexpf (ce_start env) (requested server counter config) server = Some (code, None, tr)).
Proof.
  unfold handle_new_client, requested. destruct (read_client_config _ _ _) as [[[code [config|]] rest]|] eqn:Er; [|done..].
  pose proof (read_client_config_result _ _ _ _ _ _ Er) as [-> _].
  destruct (validate_cases config server) as [E|E]; rewrite E; [|done]. cbn [Z.ltb Z.compare].
  destruct (ce_node_malloc env); [|done]. cbn [negb]. intros H. exists config, rest. split; [done|]. split; [done|].
  destruct (dsp_worker_start _ _ _ _ _ _) as [[[code [w|]] tr]|] eqn:Es; [|right|by left].
  - by destruct (ce_pthread env).
  - unfold tcp_node_destroy in H. cbn [node_worker mbind option_bind] in H.
    destruct (ce_garbage env) as [[g|]|]; [done| |done]. split; [done|]. by exists code, tr.
Qed.


(** The error path of a failed worker start reads the [dsp_worker] field of
    a node that was allocated and not initialised: with a wild value there the
    behaviour is undefined. *)
Theorem failed_start_reads_uninitialised sin cos cexpf env server counter io config rest code tr :
  read_client_config (ce_config_malloc env) server io = Some (0, Some config, rest) ->
  validate_client_config config server = 0 -> ce_node_malloc env = true ->
  dsp_worker_start sin cos cexpf (ce_start env)
    (MkClientConfig (center_freq config) (sampling_rate config) (band_freq config) (destination config)
       counter (Config.sdr_type server) true) server = Some (code, None, tr) ->
  ce_garbage env = Some None ->
  handle_new_client sin cos cexpf env server counter io = UB.
Proof.
  intros Hr Hv Hm Hs Hg. unfold handle_new_client. rewrite Hr, Hv. cbn [Z.ltb Z.compare].
  rewrite Hm. cbn [negb]. rewrite Hs. cbn [mbind option_bind]. unfold tcp_node_destroy.
  cbn [node_worker]. by rewrite Hg.
Qed.

(** The configuration of a registered client is what was sent, whatever happened in
    between. *)
Lemma registering_config sin cos cexpf env server counter cf sr bf dest wio sent wrest io node counter' :
  is_unsigned 32 cf -> is_unsigned 32 sr -> is_unsigned 32 bf ->
  Api.send_message true Api.PROTOCOL_VERSION Api.TYPE_REQUEST cf sr bf dest wio
    = Api.WriteDone 0 sent wrest ->
  Api.quiet io -> sent `prefix_of` Api.delivered io ->
  handle_connection sin cos cexpf true env server counter io = Some (Some (Registering node), counter') ->
  node_config node = MkClientConfig cf sr bf dest (wrap 32 (counter + 1)) (Config.sdr_type server) true /\
  exists w tr, node_worker node = Some (Some w) /\
    dsp_worker_start sin cos cexpf (ce_start env) (node_config node) server = Some (0, Some w, tr).
Proof.
  intros Hcf Hsr Hbf Hsend Hq Hpre H.
  destruct (Api.request_received _ _ _ _ _ _ _ _ _ _ _ Hcf Hsr Hbf Hsend Hq Hpre)
    as (io1 & io2 & hbs & rbs & E1 & E2 & E3 & E4). cbv zeta in E4. destruct E4 as (F1 & F2 & F3 & F4).
  unfold handle_connection in H. cbn [negb] in H. rewrite E1 in H. cbn [Z.ltb Z.compare] in H. rewrite E2 in H.
  cbn [Api.protocol_version Api.type] in H. rewrite !Z.eqb_refl in H. cbn [negb] in H.
  apply bind_Some in H as (r & H & [= -> _]).
  unfold handle_new_client, read_client_config in H. destruct (ce_config_malloc env); cbn [negb] in H; [|done].
  rewrite E3 in H. cbn [Z.ltb Z.compare] in H. rewrite F1, F2, F3, F4 in H. cbn [sampling_rate] in H.
  destruct (_ && _); [done|]. destruct (validate_client_config _ _ <? 0); [done|].
  destruct (ce_node_malloc env); cbn [negb] in H; [|done]. cbn [center_freq sampling_rate band_freq destination] in H.
  apply bind_Some in H as ([[code [w|]] tr] & Hs & H); [|by apply bind_Some in H as (? & _ & ?)].
  destruct (ce_pthread env); cbn [negb] in H; [|by apply bind_Some in H as (? & _ & ?)].
  injection H as <-. cbn [node_config node_worker]. split; [done|]. exists w, tr. split; [done|].
  pose proof (dsp_worker_start_code _ _ _ _ _ _ _ _ _ Hs) as ->. done.
Qed.

(** C28. From the client's call to the registered client: the bytes of a
    successful [send_message] with a request type, however the network cuts
    them, are turned by the server into a client with exactly the frequencies,
    the rate and the destination that were given, when the request passes the
    server's checks and the worker and the thread start. *)
Theorem sent_request_registered sin cos cexpf env server counter cf sr bf dest wio sent wrest io w tr :
  is_unsigned 32 cf -> is_unsigned 32 sr -> is_unsigned 32 bf ->
  Api.send_message true Api.PROTOCOL_VERSION Api.TYPE_REQUEST cf sr bf dest wio
    = Api.WriteDone 0 sent wrest ->
  Api.quiet io -> sent `prefix_of` Api.delivered io ->
  let config := MkClientConfig cf sr bf dest (wrap 32 (counter + 1)) (Config.sdr_type server) true in
  0 < sr -> Config.band_sampling_rate server `mod` sr = 0 -> validate_client_config config server = 0 ->
  ce_config_malloc env = true -> ce_node_malloc env = true -> ce_pthread env = true ->
  dsp_worker_start sin cos cexpf (ce_start env) config server = Some (0, Some w, tr) ->
  handle_connection sin cos cexpf true env server counter io
    = Some (Some (Registering (MkTcpNode config (Some (Some w)))), wrap 32 (counter + 1)).
Proof.
  intros Hcf Hsr Hbf Hsend Hq Hpre config Hsr0 Hmod Hv Hm1 Hm2 Hp Hs.
  destruct (Api.request_received _ _ _ _ _ _ _ _ _ _ _ Hcf Hsr Hbf Hsend Hq Hpre)
    as (io1 & io2 & hbs & rbs & E1 & E2 & E3 & E4). cbv zeta in E4. destruct E4 as (F1 & F2 & F3 & F4).
  unfold handle_connection. cbn [negb]. rewrite E1. cbn [Z.ltb Z.compare]. rewrite E2.
  cbn [Api.protocol_version Api.type]. rewrite !Z.eqb_refl. cbn [negb].
  unfold handle_new_client, read_client_config. rewrite Hm1. cbn [negb]. rewrite E3.
  cbn [Z.ltb Z.compare]. rewrite F1, F2, F3, F4. cbn [sampling_rate]. rewrite Hmod.
  rewrite (proj2 (Z.ltb_lt _ _)) by done. cbn [Z.eqb negb andb].
  change (validate_client_config (MkClientConfig cf sr bf dest 0 0 false) server)
    with (validate_client_config config server). rewrite Hv. cbn [Z.ltb Z.compare]. rewrite Hm2. cbn [negb].
  cbn [center_freq sampling_rate band_freq destination]. fold config. rewrite Hs.
  cbn [mbind option_bind]. rewrite Hp. done.
Qed.

(** ** The properties on concrete requests *)

(** A channel around 1000 Hz, which reaches 23 kHz below zero, is accepted in a
    band that starts at 992 kHz. *)
Definition example_band : Config.server_config :=
  Config.MkServerConfig "127.0.0.1" 8090 5 None Config.NATIVE_CF32 Config.SDR_TYPE_RTL 0 0 0 0 0 1024
    2016000 4 5 3 5 0 1 0 0 0 0 16 16 40 1 0 0 0 "/tmp" true.
Definition below_zero : client_config := MkClientConfig 1000 48000 2000000 1 0 0 false.

(** A channel that lies in a band from -1 MHz to 1 MHz, and is refused. *)
Definition low_band : client_config := MkClientConfig 500000 48000 1000 1 0 0 false.

Lemma validate_client_config_exact_witness :
  (validate_client_config below_zero example_band = 0 /\ ~ in_band below_zero example_band) /\
  (validate_client_config low_band example_band = -1 /\ in_band low_band example_band).
Proof.
  assert (forall x, (0 <=? x) && (x <? 2 ^ 32) = true -> is_unsigned 32 x) as Hu.
  { intros x [Hx%Z.leb_le Hy%Z.ltb_lt]%andb_prop. by split. }
  split.
  - split; [|vm_compute; intros [H _]; exact (H eq_refl)].
    refine (proj2 (proj2 (validate_client_config_exact below_zero example_band _ _ _ _)) _); try (apply Hu; reflexivity).
    vm_compute. split; [split_and!; try congruence; by right|]. right. left. split; [reflexivity|split; congruence].
  - split; [|vm_compute; split; congruence].
    pose proof (validate_client_config_exact low_band example_band) as Hx.
    do 4 specialize (Hx ltac:(apply Hu; reflexivity)). destruct Hx as [[H|H] [Hyes _]]; [|exact H].
    destruct (Hyes H) as [_ [[Hc _]|[Hc _]]]; vm_compute in Hc; [discriminate Hc|by destruct Hc].
Defined.

Definition example_client_env (garbage : option (option dsp_worker)) (open : bool) : client_env :=
  MkClientEnv true true garbage
    (MkStartEnv true (fun _ => true) (fun _ => true) 4096 8192 [] [] open (fun _ => true) (fun _ => []) true true)
    true.


(** The request of the example client of DspWorker.v, and a file that cannot be
    opened. *)
Definition example_request : list Api.recv_result :=
  [Api.RecvData [0x1a; 0x07; 0x7f; 0x60; 0; 0; 0x5d; 0xc0]; Api.RecvData [0x1a; 0x07; 0x96; 0xd0; 1]].

Lemma failed_start_reads_uninitialised_witness :
  handle_new_client (fun x => x) (fun _ => f_zero) example_exp (example_client_env (Some None) false)
    example_server 3 example_request = UB.
Proof.
  assert (exists tr, dsp_worker_start (fun x => x) (fun _ => f_zero) example_exp
    (ce_start (example_client_env (Some None) false))
    (MkClientConfig 436698976 24000 436704976 1 3 0 true) example_server = Some (-1, None, tr)) as [tr E].
  { eexists. vm_compute. reflexivity. }
  refine (failed_start_reads_uninitialised _ _ _ _ _ _ _ (MkClientConfig 436698976 24000 436704976 1 0 0 false)
    [] (-1) tr _ _ _ E _); reflexivity.
Defined.

Lemma sent_request_registered_witness : exists w,
  handle_connection (fun x => x) (fun _ => f_zero) example_exp true (example_client_env None true)
    example_server 2 (Api.RecvData [0] :: Api.RecvData [0] :: example_request)
  = Some (Some (Registering (MkTcpNode (MkClientConfig 436698976 24000 436704976 1 3 0 true) (Some (Some w)))), 3).
Proof.
  assert (exists w tr, dsp_worker_start (fun x => x) (fun _ => f_zero) example_exp
    (ce_start (example_client_env None true))
    (MkClientConfig 436698976 24000 436704976 1 3 0 true) example_server = Some (0, Some w, tr)) as (w & tr & E).
  { do 2 eexists. vm_compute. reflexivity. }
  exists w. refine (sent_request_registered _ _ _ (example_client_env None true) example_server 2
    436698976 24000 436704976 1 [15] _ [] _ w tr _ _ _ eq_refl _ _ _ _ _ _ _ _ E);
    try reflexivity; try (vm_compute; split; congruence).
  repeat (apply Forall_cons; split; [discriminate|]). by apply Forall_nil.
Defined.

End TcpServer.
