(* ===== verification/EndToEnd.v ===== *)
(** * From the receiver to the file of the client program

    The socket of a client has two writers: the worker of the client writes its
    samples, and the acceptor writes the response at the end of
    [handle_new_client], after it has registered the client and given the mutex
    back.  A session is the client's pipeline and what was written to its socket,
    in the order of the writes.  The theorems put the parts together: Client.v and
    Api.v for the program of the client, TcpServer.v for its request, Pipeline.v
    and Queue.v for the two threads, Xlating.v for the filter. *)
From S2P Require Import Prelude Queue Api Float Xlating Config Client DspWorker Pipeline TcpServer.
Import Queue Float Xlating DspWorker Pipeline.

Module EndToEnd.

(** The client's pipeline, whether the acceptor has answered, and the bytes on the
    socket. *)
Record session := MkSession {
  ss_client : pipeline;
  ss_answered : bool;
  ss_wire : list Z;
}.

(** The last statement of [handle_new_client], whose [write]s answer [wio], or a step
    of the threads of the client. *)
Inductive session_label :=
| Answer (wio : list Z)
| Step (l : label).

Section session.
Context (hypotf : float -> float -> float) (config : client_config) (has_file has_gz : bool) (buffer_size : nat).

Definition exec_session (s : session) (l : session_label) : option session :=
  match l with
  | Answer wio =>
      _ ← ensure (negb (ss_answered s));
      match Api.write_message true Api.RESPONSE_STATUS_SUCCESS (id config) wio with
      | Some (Api.WriteDone _ sent _) => Some (MkSession (ss_client s) true (ss_wire s ++ sent))
      | _ => None
      end
  | Step l =>
      p ← exec hypotf config has_file has_gz buffer_size (ss_client s) l;
      let written := drop (length (p_effects (ss_client s))) (p_effects p) in
      Some (MkSession p (ss_answered s) (ss_wire s ++ socket_bytes written))
  end.

Definition session_step (s : session) (l : session_label) (s' : session) : Prop := exec_session s l = Some s'.
End session.

Definition open_session (q : queue) (h : heap) (f : xlating) (io : list Z) : session :=
  MkSession (start q h f io) false [].

(** ** Specification *)

(** The steps of the client's threads along a session. *)
Definition client_steps (tr : list session_label) : list label :=
  omap (fun l => match l with Step l => Some l | Answer _ => None end) tr.

(** The acceptor sent the whole [response] before the worker wrote anything. *)
Definition answered_first (config : client_config) (response : list Z) (tr : list session_label) : Prop :=
  exists wio rest before after, tr = map Step before ++ Answer wio :: map Step after /\ (Write ∉ before) /\
    Api.write_message true Api.RESPONSE_STATUS_SUCCESS (id config) wio = Some (Api.WriteDone 0 response rest).

Definition response_length : nat := Api.sizeof_header + Api.sizeof_response.

(** ** Lemmas: the writes of a step *)

Lemma exec_effects hypotf config has_file has_gz buffer_size p l p' :
  exec hypotf config has_file has_gz buffer_size p l = Some p' ->
  exists new, p_effects p' = p_effects p ++ new /\ (l <> Write -> socket_bytes new = []).
Proof.
  destruct l as [e| |].
  - intros H. apply exec_queue in H as (_ & _ & _ & _ & H). destruct e.
    + exists []. rewrite app_nil_r. by destruct H.
    + exists []. rewrite app_nil_r. by destruct H as (_ & ? & _).
    + exists []. rewrite app_nil_r. by destruct H as (_ & _ & ?).
    + exists []. rewrite app_nil_r. by destruct H as (_ & _ & ?).
    + destruct H as (code & _ & _ & ->). eexists. split; [reflexivity|]. intros _. unfold close_after. by destruct (code =? 0)%Z.
    + exists []. rewrite app_nil_r. by destruct H.
  - cbn [exec]. intros H. destruct (p_pc p); [done| |done..]. repeat (apply bind_Some in H as (? & _ & H)).
    simplify_eq. exists []. by rewrite app_nil_r.
  - cbn [exec]. intros H. destruct (p_pc p); [done..| |done|done]. apply bind_Some in H as ([[c w] io] & _ & H).
    simplify_eq. exists w. done.
Qed.

Lemma client_steps_map tr : omap (fun l => match l with Step l => Some l | Answer _ => None end) (map Step tr) = tr.
Proof. induction tr as [|l tr IH]; [done|]. cbn. f_equal. exact IH. Qed.

Section session_lemmas.
Context (hypotf : float -> float -> float) (config : client_config) (has_file has_gz : bool) (buffer_size : nat).
Abbreviation sstep := (session_step hypotf config has_file has_gz buffer_size) (only parsing).
Abbreviation pstep := (step hypotf config has_file has_gz buffer_size) (only parsing).

(** A stretch without the answer. *)
Lemma run_steps tr : forall s s', run sstep s (map Step tr) s' ->
  run pstep (ss_client s) tr (ss_client s') /\ exists new,
    p_effects (ss_client s') = p_effects (ss_client s) ++ new /\ ss_wire s' = ss_wire s ++ socket_bytes new /\
    (Write ∉ tr -> socket_bytes new = []).
Proof.
  induction tr as [|l tr IH] using rev_ind; intros s s' Hrun.
  - apply run_nil_inv in Hrun as ->. split; [constructor|]. exists []. by rewrite !app_nil_r.
  - rewrite map_app in Hrun. apply run_snoc_inv in Hrun as (s1 & Hrun & Hstep).
    destruct (IH _ _ Hrun) as (Hr & new & He & Hw & Hn). unfold session_step in Hstep. cbn [exec_session] in Hstep.
    apply bind_Some in Hstep as (p & Hp & [= <-]). split; [by econstructor|].
    destruct (exec_effects _ _ _ _ _ _ _ _ Hp) as (new1 & He1 & Hn1). exists (new ++ new1). cbn [ss_client ss_wire].
    rewrite He1, drop_app_length, He, Hw, !app_assoc, !socket_bytes_app. split; [done|]. split; [by rewrite app_assoc|].
    intros Hnot. rewrite Hn, Hn1; [done| |]; set_solver.
Qed.

(** The wire only grows. *)
Lemma run_wire s tr s' : run sstep s tr s' -> ss_wire s `prefix_of` ss_wire s'.
Proof.
  induction 1 as [|s tr s1 l s2 _ IH Hstep]; [done|]. etransitivity; [exact IH|].
  unfold session_step in Hstep. destruct l as [wio|l]; cbn [exec_session] in Hstep.
  - apply bind_Some in Hstep as (_ & _ & H). destruct (Api.write_message _ _ _ _) as [[]|]; simplify_eq. by eexists.
  - apply bind_Some in Hstep as (p & _ & H). simplify_eq. by eexists.
Qed.

(** The response, then the samples. *)
Lemma answered_wire q h f io response tr ss :
  run sstep (open_session q h f io) tr ss -> answered_first config response tr ->
  run pstep (start q h f io) (client_steps tr) (ss_client ss) /\
  ss_wire ss = response ++ socket_bytes (p_effects (ss_client ss)).
Proof.
  intros Hrun (wio & rest & before & after & -> & Hnot & Hw).
  assert (client_steps (map Step before ++ Answer wio :: map Step after) = before ++ after) as ->.
  { unfold client_steps. rewrite omap_app. cbn [omap list_omap]. by rewrite !client_steps_map. }
  assert (exists s1 s2, run sstep (open_session q h f io) (map Step before) s1 /\ sstep s1 (Answer wio) s2 /\
            run sstep s2 (map Step after) ss) as (s1 & s2 & H1 & H2 & H3).
  { clear -Hrun. revert ss Hrun. induction after as [|l after IH] using rev_ind; intros ss Hrun.
    - apply run_snoc_inv in Hrun as (s1 & H1 & H2). exists s1, ss. split; [done|]. split; [done|constructor].
    - rewrite map_app, app_comm_cons, app_assoc in Hrun. apply run_snoc_inv in Hrun as (s3 & Hr & Hs).
      destruct (IH _ Hr) as (s1 & s2 & ? & ? & ?). exists s1, s2. split; [done|]. split; [done|].
      rewrite map_app. by econstructor. }
  apply run_steps in H1 as (Hr1 & new1 & He1 & Hw1 & Hn1). apply run_steps in H3 as (Hr3 & new3 & He3 & Hw3 & _).
  unfold session_step in H2. cbn [exec_session] in H2. rewrite Hw in H2. apply bind_Some in H2 as (_ & _ & [= <-]).
  cbn [ss_client ss_wire] in *. split; [by eapply run_app|].
  rewrite Hw3, Hw1, He3, He1, !socket_bytes_app, Hn1 by done. done.
Qed.
End session_lemmas.

(** What a client that has received more than the response has received. *)
Lemma received_split (response samples received : list Z) :
  received `prefix_of` response ++ samples -> (length response <= length received)%nat ->
  exists stream, received = response ++ stream /\ stream `prefix_of` samples.
Proof.
  intros [rest Hr] Hl. exists (drop (length response) received).
  assert (take (length response) received = response) as Ht.
  { apply (f_equal (take (length response))) in Hr. rewrite take_app_length, take_app_le in Hr by done. done. }
  split; [rewrite <- Ht at 1; by rewrite take_drop|]. exists rest.
  apply (f_equal (drop (length response))) in Hr. rewrite drop_app_length, drop_app_le in Hr by done. done.
Qed.

Lemma response_is_7 status details wio response rest :
  Api.write_message true status details wio = Some (Api.WriteDone 0 response rest) ->
  length response = response_length.
Proof. intros [= H]. apply Api.write_loop_success in H as ->. reflexivity. Qed.

Lemma whole_buffers_prefix n stream : Client.whole_buffers n stream `prefix_of` stream.
Proof. exists (drop (n * (length stream / n)) stream). symmetry. apply take_drop. Qed.

(** A client whose first two bytes are not the header of a response. *)
Lemma read_foreign_header io : Api.quiet io -> (response_length <= length (Api.delivered io))%nat ->
  exists r io', Api.read_response true true io =
    Some (0%Z, Some (Api.bytes_header (take Api.sizeof_header (Api.delivered io)), r), io').
Proof.
  intros Hq Hl. unfold Api.read_response, Api.read_data. cbn [negb].
  destruct (Api.read_two io Api.sizeof_header Api.sizeof_response Hq Hl) as (io1 & io2 & -> & -> & _). cbn [Z.eqb negb]. eauto.
Qed.

(** ** Properties *)

(** C2. End to end: a client program whose request the server has registered, and whose
    response was written before its first samples, saves a prefix of the stream it
    asked for.  Its channel is served with the frequencies and the rate of its
    options, and its file holds whole buffers of the bytes of the decimated FIR of the
    receiver's buffers that its worker took: all the buffers in order, but those
    overwritten while the queue was full.  This holds however the network cuts
    the bytes, however the receiver, the worker and the acceptor interleave and
    wherever the stream is at the moment. *)
Theorem end_to_end hypotf sin cos cexpf server counter counter' cenv node w taps s max buffer_size n q h f io tr ss response
    do_exit buffer_length fuel env o wio sent wrest sio cio closed fio
    (centre : is_unsigned 32 (Client.opt_center_freq o)) (rate : is_unsigned 32 (Client.opt_sampling_rate o))
    (band : is_unsigned 32 (Client.opt_band_freq o)) (good : Client.good_env env)
    (requested : Api.send_message true Api.PROTOCOL_VERSION Api.TYPE_REQUEST (Client.opt_center_freq o)
       (Client.opt_sampling_rate o) (Client.opt_band_freq o) Api.REQUEST_DESTINATION_SOCKET wio = Api.WriteDone 0 sent wrest)
    (server_quiet : Api.quiet sio) (arrived : sent `prefix_of` Api.delivered sio)
    (registered : TcpServer.handle_connection sin cos cexpf true cenv server counter sio
       = Some (Some (TcpServer.Registering node), counter'))
    (worker : TcpServer.node_worker node = Some (Some w)) (filter_of : w_filter w = Some f) (queue_of : w_queue w = Some (q, h))
    (start_state : served (TcpServer.node_config node) taps s max buffer_size n q h f)
    (session : run (session_step hypotf (TcpServer.node_config node) (w_file w) (w_gz w) buffer_size) (open_session q h f io) tr ss)
    (in_order : answered_first (TcpServer.node_config node) response tr)
    (bytes : Forall (Forall (is_unsigned 8)) (puts (queue_trace (client_steps tr))))
    (no_close : closes (p_effects (ss_client ss)) = 0)
    (buffer : 0 < buffer_length) (no_signal : forall turn, do_exit turn = false)
    (client_quiet : Api.quiet cio) (received : Api.delivered cio `prefix_of` ss_wire ss)
    (answered : response_length <= length (Api.delivered cio)) (writable : Forall (fun k => 0 < k) fio)
    (writes : length (Api.delivered cio) <= length fio) (enough : length (Api.delivered cio) < fuel) :
  let config := TcpServer.node_config node in
  let taken := takes (queue_trace (client_steps tr)) in
  (center_freq config = Client.opt_center_freq o /\ sampling_rate config = Client.opt_sampling_rate o /\
   band_freq config = Client.opt_band_freq o /\ sdr_type config = Config.sdr_type server) /\
  taken `sublist_of` puts (queue_trace (client_steps tr)) /\
  exists file, Client.client_main do_exit buffer_length fuel env o wio (cio ++ Client.stream_end closed) fio
      = (if closed then Client.Exited Client.EXIT_FAILURE file else Client.Waiting file) /\
    file = Client.whole_buffers buffer_length (drop response_length (Api.delivered cio)) /\
    file `prefix_of` output_bytes (client_cells hypotf taps (sdr_type config) f s taken).
Proof.
  intros config taken. destruct (TcpServer.registering_config _ _ _ _ _ _ _ _ _ _ _ _ _ _ _ _ centre rate band requested
    server_quiet arrived registered) as [Hc _].
  assert (destination config = Api.REQUEST_DESTINATION_SOCKET) as Hdest by (unfold config; by rewrite Hc).
  assert (is_unsigned 32 (id config)) as Hid by (unfold config; rewrite Hc; by apply wrap_range).
  split; [unfold config; by rewrite Hc|].
  destruct (answered_wire _ _ _ _ _ _ _ _ _ _ _ _ session in_order) as [Hrun Hwire].
  destruct (reachable _ _ _ _ _ _ _ _ _ _ _ _ (served_two _ _ _ _ _ _ _ _ _ start_state)
    (served_queue _ _ _ _ _ _ _ _ _ start_state) Hrun) as (fq & _ & Hr & Hat).
  split; [etransitivity; [|by eapply fifo_run_sublist]; by apply sublist_inserts_r|].
  destruct in_order as (awio & arest & before & after & _ & _ & Hans).
  pose proof (response_is_7 _ _ _ _ _ Hans) as Hlen. rewrite Hwire in received.
  destruct (received_split _ _ _ received) as (stream & Hstream & Hpre); [by rewrite Hlen|].
  assert (length stream <= length (Api.delivered cio)) as Hsl by (rewrite Hstream, length_app; lia).
  exists (Client.whole_buffers buffer_length stream). split_and!.
  - by apply (Client.client_copies do_exit buffer_length fuel env o wio awio sent wrest response arest (id config)
      closed cio fio stream); (done || lia).
  - by rewrite Hstream, <- Hlen, drop_app_length.
  - etransitivity; [apply whole_buffers_prefix|]. etransitivity; [exact Hpre|].
    eapply worker_at_socket; [exact start_state|exact Hdest| |exact Hat|exact no_close].
    eapply taken_good; [exact Hr|apply start_state|exact bytes].
Qed.

(** C20. The response may come too late: the client is registered, and its worker served,
    before the acceptor writes the response, outside the mutex.  When the worker wins that
    race the client program takes the first samples for the response: unless their second
    byte happens to be the type of a response, it fails and saves nothing, although the
    server has accepted it, goes on sending and answers at last. *)
Theorem early_samples_break_client hypotf config has_file has_gz buffer_size q h f io before s1 after ss
    do_exit buffer_length fuel env o wio sent wrest cio fio :
  run (session_step hypotf config has_file has_gz buffer_size) (open_session q h f io) (map Step before) s1 ->
  let samples := socket_bytes (p_effects (ss_client s1)) in
  2 <= length samples -> nth 1 samples 0%Z <> Api.TYPE_RESPONSE ->
  run (session_step hypotf config has_file has_gz buffer_size) s1 after ss ->
  Client.good_env env ->
  Api.send_message true Api.PROTOCOL_VERSION Api.TYPE_REQUEST (Client.opt_center_freq o)
    (Client.opt_sampling_rate o) (Client.opt_band_freq o) Api.REQUEST_DESTINATION_SOCKET wio = Api.WriteDone 0 sent wrest ->
  Api.quiet cio -> Api.delivered cio `prefix_of` ss_wire ss -> response_length <= length (Api.delivered cio) ->
  Client.client_main do_exit buffer_length fuel env o wio cio fio = Client.Exited Client.EXIT_FAILURE [].
Proof.
  intros Hbefore samples Hl Hne Hrun (G1 & G2 & G3 & G4 & G5 & G6 & _) Hsend Hq Hpre Hlen.
  destruct (run_steps _ _ _ _ _ _ _ _ Hbefore) as (_ & new & He & Hw & _). cbn in He, Hw.
  subst samples. rewrite He, <- Hw in Hl, Hne. clear Hbefore He Hw.
  apply run_wire in Hrun. unfold Client.client_main, Client.create_client.
  rewrite G1, G3, G4, G5, G6, (proj2 (Z.eqb_neq _ _)) by done. cbn [negb Z.eqb]. rewrite Hsend. cbn [Z.eqb negb].
  destruct (read_foreign_header cio Hq Hlen) as (r & io' & ->).
  assert (Api.type (Api.bytes_header (take Api.sizeof_header (Api.delivered cio))) <> Api.TYPE_RESPONSE) as Ht.
  { destruct Hrun as [x Hx], Hpre as [y Hy]. rewrite Hx in Hy. unfold response_length in Hlen. cbn in Hlen.
    destruct (ss_wire s1) as [|a [|b wire]]; [cbn in Hl; lia..|]. destruct (Api.delivered cio) as [|a' [|b' d]]; [cbn in Hlen; lia..|].
    cbn [nth] in Hne. cbn in Hy. injection Hy as <- <- _. done. }
  by rewrite (proj2 (Z.eqb_neq _ _) Ht).
Qed.

(** ** The properties on a concrete session

    The server of the other examples with buffers of sixteen bytes, and the client that
    asks it for the channel at 436.7 MHz. *)
Definition small_server : Config.server_config :=
  Config.MkServerConfig "127.0.0.1" 8090 5 None Config.NATIVE_CF32 Config.SDR_TYPE_RTL 0 0 0 0 0 16
    48000 4 1 3 5 0 1 0 0 0 0 16 16 40 1 0 0 0 "/tmp" true.
Definition client_options : Client.options := Client.MkOptions "127.0.0.1" 8090 436698976 436704976 24000.
Definition request_wire : list Api.recv_result :=
  Api.RecvData [0%Z] :: Api.RecvData [0%Z] :: TcpServer.example_request.
Definition example_node : option TcpServer.tcp_node :=
  match TcpServer.handle_connection (fun x => x) (fun _ => f_zero) example_exp true
          (TcpServer.example_client_env None true) small_server 2 request_wire with
  | Some (Some (TcpServer.Registering node), _) => Some node
  | _ => None
  end.
Definition node0 : TcpServer.tcp_node := default (TcpServer.MkTcpNode (example_config 0) None) example_node.
Definition worker0 : dsp_worker :=
  match TcpServer.node_worker node0 with Some (Some w) => w | _ => example_worker 0 end.
Definition filter0 : xlating := default example_filter (w_filter worker0).
Definition queue0 : queue * heap := default example_queue (w_queue worker0).
Definition taps0 : list complex := match taps_cf32 filter0 with row :: _ => take (taps_len filter0) row | [] => [] end.

Lemma served0 : served (TcpServer.node_config node0) taps0 (replicate 4 c_zero) 16 16 4 (fst queue0) (snd queue0) filter0.
Proof.
  split; [lia| |lia| |split_and!; vm_compute; reflexivity|left; vm_compute; reflexivity].
  - apply (create_queue_abstracts (fun _ => true) (fun _ => []) 16 4 0). vm_compute. reflexivity.
  - split_and!; [|vm_compute; reflexivity|split_and!; vm_compute; (reflexivity || lia)|].
    + split; try (vm_compute; (reflexivity || congruence || lia)).
      intros [|[|[|[|a]]]] Ha; [..|lia]; eexists; vm_compute; reflexivity.
    + apply Forall_forall. intros c Hc. vm_compute in Hc.
      repeat (apply elem_of_cons in Hc as [->|Hc]; [reflexivity|]). by apply not_elem_of_nil in Hc.
Qed.

Definition samples0 : list Z := [1; 254; 3; 4; 5; 6; 7; 128; 9; 10; 11; 12]%Z.
Definition session0 (tr : list session_label) : session :=
  default (open_session (fst queue0) (snd queue0) filter0 [10; 100]%Z)
    (exec_trace (exec_session example_hypotf (TcpServer.node_config node0) (w_file worker0) (w_gz worker0) 16)
       (open_session (fst queue0) (snd queue0) filter0 [10; 100]%Z) tr).
Definition in_time : list session_label :=
  [Step (OfQueue (EvPut samples0)); Step (OfQueue (EvTake samples0)); Answer [3; 100]%Z; Step Filter; Step Write; Step (OfQueue EvComplete)].
Definition too_late : list label := [OfQueue (EvPut samples0); OfQueue (EvTake samples0); Filter; Write].

Lemma run0 tr : is_Some (exec_trace (exec_session example_hypotf (TcpServer.node_config node0) (w_file worker0) (w_gz worker0) 16)
    (open_session (fst queue0) (snd queue0) filter0 [10; 100]%Z) tr) ->
  run (session_step example_hypotf (TcpServer.node_config node0) (w_file worker0) (w_gz worker0) 16)
    (open_session (fst queue0) (snd queue0) filter0 [10; 100]%Z) tr (session0 tr).
Proof. intros [s Hs]. apply exec_trace_run. unfold session0. rewrite Hs. done. Qed.

(** What the client has received: twenty bytes, in two parts. *)
Definition received0 (wire : list Z) : list Api.recv_result :=
  [Api.RecvData (take 5 wire); Api.RecvError EINTR; Api.RecvData (take 15 (drop 5 wire))].
Definition good_env0 : Client.client_env := Client.MkClientEnv true 5 0 true true true true true.
Definition client_run0 (wire : list Z) : Client.client_result :=
  Client.client_main (fun _ => false) 5 30 good_env0 client_options [15]%Z (received0 wire ++ Client.stream_end false) (replicate 20 3).

Lemma end_to_end_witness : exists file, client_run0 (ss_wire (session0 in_time)) = Client.Waiting file /\ length file = 10 /\
  file `prefix_of` output_bytes (client_cells example_hypotf taps0 0 filter0 (replicate 4 c_zero) [samples0]).
Proof.
  destruct (end_to_end example_hypotf (fun x => x) (fun _ => f_zero) example_exp small_server 2 3 (TcpServer.example_client_env None true)
    node0 worker0 taps0 (replicate 4 c_zero) 16 16 4 (fst queue0) (snd queue0) filter0 [10; 100]%Z in_time (session0 in_time)
    [0; 2; 0; 0; 0; 0; 3]%Z (fun _ => false) 5 30 good_env0 client_options [15]%Z
    [0; 0; 0x1a; 0x07; 0x7f; 0x60; 0; 0; 0x5d; 0xc0; 0x1a; 0x07; 0x96; 0xd0; 1]%Z [] request_wire
    (received0 (ss_wire (session0 in_time))) false (replicate 20 3)) as (_ & _ & file & Hrun & Hfile & Hpre).
  1-3: vm_compute; split; congruence.
  - split_and!; (reflexivity || discriminate).
  - vm_compute. reflexivity.
  - repeat (apply Forall_cons; split; [discriminate|]). by apply Forall_nil.
  - exists []. vm_compute. reflexivity.
  - vm_compute. reflexivity.
  - vm_compute. reflexivity.
  - vm_compute. reflexivity.
  - vm_compute. reflexivity.
  - exact served0.
  - apply run0. vm_compute. by eexists.
  - exists [3; 100]%Z, [], [OfQueue (EvPut samples0); OfQueue (EvTake samples0)], [Filter; Write; OfQueue EvComplete].
    split; [reflexivity|]. split; [|vm_compute; reflexivity]. rewrite !not_elem_of_cons. split_and!; try discriminate. apply not_elem_of_nil.
  - repeat (apply Forall_cons; split); try apply Forall_nil; try plia; done.
  - vm_compute. reflexivity.
  - lia.
  - reflexivity.
  - repeat (apply Forall_cons; split; [vm_compute; (discriminate || reflexivity)|]). by apply Forall_nil.
  - exists (drop 20 (ss_wire (session0 in_time))). vm_compute. reflexivity.
  - vm_compute. lia.
  - repeat constructor.
  - vm_compute. lia.
  - vm_compute. lia.
  - exists file. split; [exact Hrun|]. split; [|exact Hpre]. rewrite Hfile. vm_compute. reflexivity.
Defined.

Lemma early_samples_break_client_witness :
  client_run0 (ss_wire (session0 (map Step too_late ++ [Answer [100]%Z]))) = Client.Exited Client.EXIT_FAILURE [].
Proof.
  refine (early_samples_break_client example_hypotf (TcpServer.node_config node0) (w_file worker0) (w_gz worker0) 16
    (fst queue0) (snd queue0) filter0 [10; 100]%Z too_late (session0 (map Step too_late)) [Answer [100]%Z] _ (fun _ => false) 5 30
    good_env0 client_options [15]%Z [0; 0; 0x1a; 0x07; 0x7f; 0x60; 0; 0; 0x5d; 0xc0; 0x1a; 0x07; 0x96; 0xd0; 1]%Z []
    (received0 (ss_wire (session0 (map Step too_late ++ [Answer [100]%Z]))) ++ Client.stream_end false) (replicate 20 3) _ _ _ _ _ _ _ _ _).
  - apply run0. vm_compute. by eexists.
  - vm_compute. lia.
  - vm_compute. discriminate.
  - apply (run_snoc _ _ []) with (session0 (map Step too_late)); [constructor|]. vm_compute. reflexivity.
  - split_and!; (reflexivity || discriminate).
  - vm_compute. reflexivity.
  - repeat (apply Forall_cons; split; [vm_compute; (discriminate || reflexivity)|]). by apply Forall_nil.
  - exists (drop 20 (ss_wire (session0 (map Step too_late ++ [Answer [100]%Z])))). vm_compute. reflexivity.
  - vm_compute. lia.
Defined.

End EndToEnd.
