(* ===== verification/Lifecycle.v ===== *)
(** * The life of the clients and of the receiver: the threads of
    src/tcp_server.c

    The acceptor, one [tcp_worker] thread per client and the shutdown thread
    share the list of nodes, the flags [sdr_stopped] and
    [shutdown_thread_created] and the device, under one mutex.  A transition is
    a critical section, or what a thread does between two of them.  The
    acceptor can block while it holds the mutex, in [pthread_join]: no other
    critical section is then possible. *)
From S2P Require Import Prelude.
From stdpp Require Import fin_maps.

Module Lifecycle.

Abbreviation client_id := nat (only parsing).

(** A client from the creation of its thread to the free of its node:
    [config->band_freq], [config->is_running], and whether [tcp_node_destroy]
    has not destroyed its DSP worker yet. *)
Record client := MkClient {
  band_freq : Z;
  is_running : bool;
  worker_alive : bool;
}.

(** Where the acceptor thread is.  [AJoin] and [AJoinFinal] hold the mutex. *)
Inductive acceptor_pc :=
| AIdle
| ARegister (id : client_id)
| AWait (id : client_id)
| AJoin (id : client_id)
| ADiscard (id : client_id)
| AStopping
| AJoinFinal
| ADone.

(** The shutdown thread: not created (or joined), before the end of
    [sdr_device_stop], before its critical section, terminated. *)
Inductive shutdown_pc := SNone | SStopping | SStopped | SDone.

Record server := MkServer {
  clients : gmap nat client;
  tcp_nodes : list client_id;
  sdr_stopped : bool;
  shutdown_thread_created : bool;
  shutdown_thread : shutdown_pc;
  device_running : bool;
  current_band_freq : Z;
  acceptor : acceptor_pc;
}.

(** [start_tcp_server] *)
Definition initial : server := MkServer ∅ [] true false SNone false 0 AIdle.

Definition mutex_free (s : server) : bool :=
  match acceptor s with AJoin _ | AJoinFinal => false | _ => true end.

Definition running (cs : gmap nat client) (id : client_id) : bool :=
  match cs !! id with Some c => is_running c | None => false end.

(** ** Transitions *)

(** The acceptor starts the thread of a validated client. *)
Definition accept_client (id : client_id) (band : Z) (s : server) : option server :=
  match acceptor s with
  | AIdle =>
      _ ← ensure (bool_decide (clients s !! id = None) && negb (band =? 0)%Z);
      Some (MkServer (<[id := MkClient band true true]> (clients s)) (tcp_nodes s) (sdr_stopped s)
              (shutdown_thread_created s) (shutdown_thread s) (device_running s)
              (current_band_freq s) (ARegister id))
  | _ => None
  end.

(** The critical section at the end of [tcp_worker], when the client has
    disconnected or asked to, or its socket was shut down. *)
Definition tcp_worker_end (id : client_id) (s : server) : option server :=
  _ ← ensure (mutex_free s);
  c ← clients s !! id;
  _ ← ensure (is_running c);
  let stopped := <[id := MkClient (band_freq c) false true]> (clients s) in
  let number_of_running := existsb (running stopped) (tcp_nodes s) in
  let create := negb number_of_running && negb (shutdown_thread_created s) in
  Some (MkServer (<[id := MkClient (band_freq c) false false]> (clients s)) (tcp_nodes s) (sdr_stopped s)
          (create || shutdown_thread_created s) (if create then SStopping else shutdown_thread s)
          (device_running s) (current_band_freq s) (acceptor s)).

(** [shutdown_callback]: the device is stopped without the mutex, then the flag
    is set with it. *)
Definition shutdown_callback_stop (s : server) : option server :=
  match shutdown_thread s with
  | SStopping => Some (MkServer (clients s) (tcp_nodes s) (sdr_stopped s) (shutdown_thread_created s)
                         SStopped false (current_band_freq s) (acceptor s))
  | _ => None
  end.

Definition shutdown_callback_finish (s : server) : option server :=
  match shutdown_thread s with
  | SStopped =>
      _ ← ensure (mutex_free s);
      Some (MkServer (clients s) (tcp_nodes s) true (shutdown_thread_created s) SDone
              (device_running s) (current_band_freq s) (acceptor s))
  | _ => None
  end.

(** [cleanup_terminated_threads]: the nodes that are not running leave the list
    and are freed (their threads are past their critical section, so that the
    join returns). *)
Definition cleanup_terminated_threads (cs : gmap nat client) (nodes : list client_id)
    : gmap nat client * list client_id :=
  (foldr (fun id cs' => if running cs id then cs' else delete id cs') cs nodes,
   List.filter (running cs) nodes).

(** The critical section of [handle_new_client] up to the wait or the join. *)
Definition register_client (s : server) : option server :=
  match acceptor s with
  | ARegister id =>
      let '(cs, nodes) := cleanup_terminated_threads (clients s) (tcp_nodes s) in
      c ← cs !! id;
      match nodes with
      | [] =>
          Some (MkServer cs [] (sdr_stopped s) (shutdown_thread_created s) (shutdown_thread s)
                  (device_running s) (band_freq c) (if sdr_stopped s then AJoin id else AWait id))
      | _ =>
          if negb (current_band_freq s =? 0)%Z && negb (current_band_freq s =? band_freq c)%Z then
            Some (MkServer cs nodes (sdr_stopped s) (shutdown_thread_created s) (shutdown_thread s)
                    (device_running s) (current_band_freq s) (ADiscard id))
          else
            Some (MkServer cs (nodes ++ [id]) (sdr_stopped s) (shutdown_thread_created s)
                    (shutdown_thread s) (device_running s) (current_band_freq s) AIdle)
      end
  | _ => None
  end.

(** The wait for [sdr_stopped_condition] ends. *)
Definition wake_acceptor (s : server) : option server :=
  match acceptor s with
  | AWait id =>
      _ ← ensure (sdr_stopped s);
      Some (MkServer (clients s) (tcp_nodes s) (sdr_stopped s) (shutdown_thread_created s)
              (shutdown_thread s) (device_running s) (current_band_freq s) (AJoin id))
  | _ => None
  end.

(** The join of the shutdown thread, if there is one, and [sdr_device_start],
    which answers 0 when [ok]. *)
Definition joinable (s : server) : bool :=
  if shutdown_thread_created s
  then match shutdown_thread s with SDone => true | _ => false end
  else true.

Definition start_device (ok : bool) (s : server) : option server :=
  match acceptor s with
  | AJoin id =>
      _ ← ensure (joinable s);
      if ok then
        Some (MkServer (clients s) [id] false false SNone true (current_band_freq s) AIdle)
      else
        Some (MkServer (clients s) (tcp_nodes s) (sdr_stopped s) false SNone (device_running s)
                (current_band_freq s) (ADiscard id))
  | _ => None
  end.

(** The end of a client that is refused: its socket is closed, and the acceptor
    waits for the end of its thread to free the node. *)
Definition discard_client (s : server) : option server :=
  match acceptor s with
  | ADiscard id =>
      c ← clients s !! id;
      _ ← ensure (negb (is_running c));
      Some (MkServer (delete id (clients s)) (tcp_nodes s) (sdr_stopped s) (shutdown_thread_created s)
              (shutdown_thread s) (device_running s) (current_band_freq s) AIdle)
  | _ => None
  end.

(** The end of [acceptor_worker]. *)
Definition stop_acceptor (s : server) : option server :=
  match acceptor s with
  | AIdle => Some (MkServer (clients s) (tcp_nodes s) (sdr_stopped s) (shutdown_thread_created s)
                     (shutdown_thread s) (device_running s) (current_band_freq s) AStopping)
  | _ => None
  end.

Definition reap_client (s : server) : option server :=
  match acceptor s, tcp_nodes s with
  | AStopping, id :: nodes =>
      c ← clients s !! id;
      _ ← ensure (negb (is_running c));
      Some (MkServer (delete id (clients s)) nodes (sdr_stopped s) (shutdown_thread_created s)
              (shutdown_thread s) (device_running s) (current_band_freq s) AStopping)
  | _, _ => None
  end.

Definition wait_sdr_stopped (s : server) : option server :=
  match acceptor s, tcp_nodes s with
  | AStopping, [] =>
      _ ← ensure (sdr_stopped s);
      Some (MkServer (clients s) [] (sdr_stopped s) (shutdown_thread_created s)
              (shutdown_thread s) (device_running s) (current_band_freq s) AJoinFinal)
  | _, _ => None
  end.

Definition destroy_device (s : server) : option server :=
  match acceptor s with
  | AJoinFinal =>
      _ ← ensure (joinable s);
      Some (MkServer (clients s) (tcp_nodes s) (sdr_stopped s) false SNone (device_running s)
              (current_band_freq s) ADone)
  | _ => None
  end.

Inductive event :=
| EvAccept (id : client_id) (band : Z)
| EvDisconnect (id : client_id)
| EvDeviceStop
| EvSdrStopped
| EvRegister
| EvWake
| EvStart (ok : bool)
| EvDiscard
| EvStopServer
| EvReap
| EvWaitStopped
| EvFinish.

Definition exec (s : server) (e : event) : option server :=
  match e with
  | EvAccept id band => accept_client id band s
  | EvDisconnect id => tcp_worker_end id s
  | EvDeviceStop => shutdown_callback_stop s
  | EvSdrStopped => shutdown_callback_finish s
  | EvRegister => register_client s
  | EvWake => wake_acceptor s
  | EvStart ok => start_device ok s
  | EvDiscard => discard_client s
  | EvStopServer => stop_acceptor s
  | EvReap => reap_client s
  | EvWaitStopped => wait_sdr_stopped s
  | EvFinish => destroy_device s
  end.

Definition step (s : server) (e : event) (s' : server) : Prop := exec s e = Some s'.

Fixpoint exec_all (s : server) (tr : list event) : option server :=
  match tr with
  | [] => Some s
  | e :: tr' => s' ← exec s e; exec_all s' tr'
  end.

(** [sdr_callback]: the workers that get a buffer of the device. *)
Definition recipients (s : server) : list client_id := List.filter (running (clients s)) (tcp_nodes s).

(** A history in which a client only leaves once it is registered (or after it
    was refused) and the device always starts. *)
Definition orderly_step (s : server) (e : event) (s' : server) : Prop :=
  step s e s' /\
  match e with
  | EvDisconnect id => id ∈ tcp_nodes s \/ acceptor s = ADiscard id
  | EvStart ok => ok = true
  | _ => True
  end.

(** ** The invariant *)

(** The client the acceptor is busy with. *)
Definition pending (pc : acceptor_pc) : option client_id :=
  match pc with
  | ARegister id | AWait id | AJoin id | ADiscard id => Some id
  | _ => None
  end.

Record inv (s : server) : Prop := {
  inv_nodup : NoDup (tcp_nodes s);
  inv_nodes : forall id, id ∈ tcp_nodes s -> is_Some (clients s !! id);
  inv_pending : forall id, pending (acceptor s) = Some id ->
    is_Some (clients s !! id) /\ id ∉ tcp_nodes s;
  inv_owned : forall id, is_Some (clients s !! id) ->
    id ∈ tcp_nodes s \/ pending (acceptor s) = Some id;
  inv_alive : forall id c, clients s !! id = Some c -> is_running c = true -> worker_alive c = true;
  inv_band : forall id c, id ∈ tcp_nodes s -> clients s !! id = Some c -> band_freq c = current_band_freq s;
  inv_band_set : forall id c, clients s !! id = Some c -> band_freq c <> 0%Z;
  inv_created : shutdown_thread_created s = false <-> shutdown_thread s = SNone;
  inv_stopped : sdr_stopped s = true -> device_running s = false;
  inv_device : shutdown_thread s = SDone \/ shutdown_thread s = SStopped -> device_running s = false;
  inv_wait : forall id, acceptor s = AWait id -> tcp_nodes s = [];
  inv_join : forall id, acceptor s = AJoin id -> tcp_nodes s = [] /\ sdr_stopped s = true;
  inv_wait_band : forall id c, acceptor s = AWait id \/ acceptor s = AJoin id ->
    clients s !! id = Some c -> band_freq c = current_band_freq s;
  inv_final : acceptor s = AJoinFinal -> tcp_nodes s = [] /\ sdr_stopped s = true;
  inv_done : acceptor s = ADone -> tcp_nodes s = [] /\ sdr_stopped s = true /\ device_running s = false;
}.

(** ** Lemmas *)

Lemma cleanup_lookup cs nodes j :
  fst (cleanup_terminated_threads cs nodes) !! j
  = if bool_decide (j ∈ nodes) && negb (running cs j) then None else cs !! j.
Proof.
  unfold cleanup_terminated_threads. cbn [fst].
  induction nodes as [|k nodes IH]; [done|]. cbn [foldr].
  destruct (decide (j = k)) as [->|Hne].
  - rewrite bool_decide_true by left. destruct (running cs k) eqn:E; cbn [andb negb].
    + rewrite IH. rewrite andb_false_r. done.
    + by rewrite lookup_delete_eq.
  - assert (bool_decide (j ∈ k :: nodes) = bool_decide (j ∈ nodes)) as ->.
    { apply bool_decide_ext. rewrite elem_of_cons. naive_solver. }
    rewrite <- IH. destruct (running cs k); [done|]. by rewrite lookup_delete_ne.
Qed.

Lemma cleanup_nodes cs nodes j :
  j ∈ snd (cleanup_terminated_threads cs nodes) <-> j ∈ nodes /\ running cs j = true.
Proof.
  unfold cleanup_terminated_threads. cbn [snd].
  rewrite !list_elem_of_In, filter_In. done.
Qed.

Lemma cleanup_NoDup cs nodes : NoDup nodes -> NoDup (snd (cleanup_terminated_threads cs nodes)).
Proof. unfold cleanup_terminated_threads. cbn [snd]. rewrite !NoDup_ListNoDup. apply List.NoDup_filter. Qed.

Lemma cleanup_client cs nodes id c :
  fst (cleanup_terminated_threads cs nodes) !! id = Some c -> cs !! id = Some c.
Proof. rewrite cleanup_lookup. by destruct (_ && _). Qed.

Lemma running_Some cs id : running cs id = true -> exists c, cs !! id = Some c /\ is_running c = true.
Proof. unfold running. destruct (cs !! id); [eauto|done]. Qed.

Lemma initial_inv : inv initial.
Proof.
  split; cbn; try done; try (intros; set_solver).
  - apply NoDup_nil_2.
  - intros id [c Hc]. by rewrite lookup_empty in Hc.
Qed.

(** Transitions that leave the clients and the list alone. *)
Ltac break_step H :=
  repeat (case_match; simplify_eq/=; try done);
  repeat (apply bind_Some in H as (? & ? & H)); simplify_eq/=.

Lemma accept_inv id band s s' : inv s -> accept_client id band s = Some s' -> inv s'.
Proof.
  intros [] H. unfold accept_client, ensure in H. destruct (acceptor s) eqn:Ea; try done.
  destruct (bool_decide (clients s !! id = None) && negb (band =? 0)%Z) eqn:E; [|done].
  apply andb_prop in E as [E1%bool_decide_eq_true E2]. cbn in H. simplify_eq.
  apply negb_true_iff, Z.eqb_neq in E2.
  assert (id ∉ tcp_nodes s) as Hid by (intros Hin; destruct (inv_nodes0 id Hin); congruence).
  split; cbn; try done.
  - intros j Hj. rewrite lookup_insert_ne by set_solver. auto.
  - intros j [= ->]. rewrite lookup_insert_eq. done.
  - intros j Hj. destruct (decide (j = id)) as [->|Hne]; [by right|].
    rewrite lookup_insert_ne in Hj by done. left. destruct (inv_owned0 j Hj) as [?|Hp]; [done|by simplify_eq/=].
  - intros j c Hj. destruct (decide (j = id)) as [->|Hne].
    + rewrite lookup_insert_eq in Hj. by simplify_eq.
    + rewrite lookup_insert_ne in Hj by done. eauto.
  - intros j c Hj Hc. rewrite lookup_insert_ne in Hc by set_solver. eauto.
  - intros j c Hj. destruct (decide (j = id)) as [->|Hne].
    + rewrite lookup_insert_eq in Hj. by simplify_eq.
    + rewrite lookup_insert_ne in Hj by done. eauto.
  - intros j c [?|?]; done.
Qed.

Lemma worker_end_inv id s s' : inv s -> tcp_worker_end id s = Some s' -> inv s'.
Proof.
  intros [] H. unfold tcp_worker_end in H.
  apply bind_Some in H as ([] & Hm & H). apply bind_Some in H as (c & Hc & H).
  apply bind_Some in H as ([] & Hr & H).
  assert (is_running c = true) as Hrun by (by destruct (is_running c)).
  clear Hr.
  assert (mutex_free s = true) as Hfree by (by destruct (mutex_free s)).
  set (create := negb _ && negb _) in H. simplify_eq.
  assert (forall j, is_Some (<[id:=MkClient (band_freq c) false false]> (clients s) !! j) <->
                    is_Some (clients s !! j)) as Hdom.
  { intros j. destruct (decide (j = id)) as [->|Hne].
    - rewrite lookup_insert_eq, Hc. split; by eexists.
    - by rewrite lookup_insert_ne. }
  assert (forall j d, <[id:=MkClient (band_freq c) false false]> (clients s) !! j = Some d ->
            exists d', clients s !! j = Some d' /\ band_freq d = band_freq d' /\
              (is_running d = true -> d = d')) as Hval.
  { intros j d. destruct (decide (j = id)) as [->|Hne].
    - rewrite lookup_insert_eq. intros. simplify_eq. exists c. done.
    - rewrite lookup_insert_ne by done. intros. exists d. done. }
  split; cbn; try done.
  - intros j Hj. apply Hdom. auto.
  - intros j Hj. destruct (inv_pending0 j Hj). by rewrite Hdom.
  - intros j Hj. apply Hdom in Hj. auto.
  - intros j d Hj Hd. destruct (Hval j d Hj) as (d' & Hd' & _ & E).
    rewrite (E Hd) in Hd |- *. exact (inv_alive0 j d' Hd' Hd).
  - intros j d Hj Hd. destruct (Hval j d Hd) as (d' & Hd' & -> & _).
    by apply (inv_band0 j).
  - intros j d Hd. destruct (Hval j d Hd) as (d' & ? & -> & _). by eapply inv_band_set0.
  - destruct create; cbn; [done|]. done.
  - destruct create eqn:Ecr; [intros [?|?]; done|done].
  - intros j d Hj Hd. destruct (Hval j d Hd) as (d' & Hd' & -> & _). by apply (inv_wait_band0 j).
Qed.

Lemma shutdown_stop_inv s s' : inv s -> shutdown_callback_stop s = Some s' -> inv s'.
Proof.
  intros [] H. unfold shutdown_callback_stop in H. destruct (shutdown_thread s) eqn:Et; simplify_eq.
  split; cbn; try done; [by rewrite inv_created0|].
  intros Hj. by destruct (inv_done0 Hj) as (? & ? & _).
Qed.

Lemma shutdown_finish_inv s s' : inv s -> shutdown_callback_finish s = Some s' -> inv s'.
Proof.
  intros [] H. unfold shutdown_callback_finish in H. destruct (shutdown_thread s) eqn:Et; try done.
  apply bind_Some in H as ([] & Hm & H). simplify_eq.
  assert (device_running s = false) as Hd by auto.
  assert (mutex_free s = true) as Hfree by (by destruct (mutex_free s)). unfold mutex_free in Hfree.
  split; cbn; try done.
  - by rewrite inv_created0.
  - intros id Hj. by rewrite Hj in Hfree.
  - intros Hj. by rewrite Hj in Hfree.
  - intros Hj. destruct (inv_done0 Hj) as (? & ? & ?). done.
Qed.

(** The clients that are left when the terminated ones were removed. *)
Lemma cleanup_inv s id : inv s -> pending (acceptor s) = Some id ->
  let '(cs, nodes) := cleanup_terminated_threads (clients s) (tcp_nodes s) in
  NoDup nodes /\ (id ∉ nodes) /\ (forall j d, cs !! j = Some d -> clients s !! j = Some d) /\
  (forall j, is_Some (cs !! j) -> j ∈ nodes \/ j = id) /\ (forall j, j ∈ nodes -> is_Some (cs !! j)) /\
  (forall j d, j ∈ nodes -> cs !! j = Some d -> band_freq d = current_band_freq s).
Proof.
  intros [] Hp.
  pose proof (cleanup_lookup (clients s) (tcp_nodes s)) as Hlook.
  pose proof (cleanup_nodes (clients s) (tcp_nodes s)) as Hin.
  pose proof (cleanup_NoDup (clients s) (tcp_nodes s) inv_nodup0) as Hnd.
  pose proof (cleanup_client (clients s) (tcp_nodes s)) as Hcl.
  destruct (cleanup_terminated_threads _ _) as [cs nodes]. cbn [fst snd] in *.
  destruct (inv_pending0 id Hp) as [_ Hid]. split; [done|]. split; [rewrite Hin; tauto|]. split; [done|]. split; [|split].
  - intros j [d Hd]. pose proof (Hcl j d Hd) as Hs. rewrite Hlook in Hd.
    destruct (inv_owned0 j (mk_is_Some _ _ Hs)) as [Hj|Hj]; [|right; congruence]. left. apply Hin.
    rewrite bool_decide_true in Hd by done. by destruct (running (clients s) j).
  - intros j Hj. apply Hin in Hj as [Hj Hr]. rewrite Hlook, Hr, andb_false_r. auto.
  - intros j d Hj Hd. apply Hin in Hj as [Hj _]. eauto.
Qed.

Lemma register_inv s s' : inv s -> register_client s = Some s' -> inv s'.
Proof.
  intros Hi H. unfold register_client in H. destruct (acceptor s) as [|id| | | | | |] eqn:Ea; try done.
  pose proof (cleanup_inv s id Hi ltac:(by rewrite Ea)) as Hclean. destruct Hi. rewrite Ea in *.
  destruct (cleanup_terminated_threads _ _) as [cs nodes]. destruct Hclean as (Hnd & Hidn & Hcl & Howned & Hnodes & Hband).
  apply bind_Some in H as (c & Hc & H).
  destruct nodes as [|n0 nodes].
  - simplify_eq. assert (forall j, pending (if sdr_stopped s then AJoin id else AWait id) = Some j -> j = id) as Hp.
    { intros j. destruct (sdr_stopped s); cbn; congruence. }
    split; cbn; try done; try (destruct (sdr_stopped s); done).
    + intros j Hj. apply Hp in Hj as ->. eauto.
    + intros j Hj. destruct (Howned j Hj) as [Hz| ->]; [by apply not_elem_of_nil in Hz|].
      right. by destruct (sdr_stopped s).
    + intros j d Hd. eauto.
    + intros j d Hj. set_solver.
    + intros j d Hd. by eapply inv_band_set0, Hcl.
    + intros j d Hj Hd. assert (j = id) as -> by (apply Hp; by destruct Hj as [-> | ->]). congruence.
  - destruct (negb _ && negb _) eqn:E; simplify_eq.
    + split; cbn; try done; try tauto.
      * intros j [= ->]. eauto.
      * intros j Hj. destruct (Howned j Hj) as [?| ->]; [by left|by right].
      * intros j d Hd. eauto.
      * intros j d Hd. by eapply inv_band_set0, Hcl.
      * intros j d [?|?]; done.
    + assert (band_freq c = current_band_freq s) as Hcb.
      { apply andb_false_iff in E as [E|E]; apply negb_false_iff, Z.eqb_eq in E; [|done].
        exfalso. destruct (Hnodes n0 ltac:(left)) as [d Hd].
        apply (inv_band_set0 n0 d (Hcl _ _ Hd)). rewrite (Hband n0 d ltac:(left) Hd). done. }
      change (n0 :: nodes ++ [id]) with ((n0 :: nodes) ++ [id]).
      split; cbn [tcp_nodes clients acceptor pending shutdown_thread sdr_stopped device_running current_band_freq
                  shutdown_thread_created]; try done.
      * apply NoDup_app. split; [done|]. split; [|apply NoDup_singleton].
        intros j Hj Hj'. apply list_elem_of_singleton in Hj' as ->. done.
      * intros j Hj. apply elem_of_app in Hj as [Hj|Hj]; [auto|].
        apply list_elem_of_singleton in Hj as ->. eauto.
      * intros j Hj. left. apply elem_of_app. destruct (Howned j Hj) as [?| ->]; [by left|right; left].
      * intros j d Hd. eauto.
      * intros j d Hj Hd. apply elem_of_app in Hj as [Hj|Hj]; [eauto|].
        apply list_elem_of_singleton in Hj as ->. congruence.
      * intros j d Hd. by eapply inv_band_set0, Hcl.
      * intros j d [?|?]; done.
Qed.

Lemma wake_inv s s' : inv s -> wake_acceptor s = Some s' -> inv s'.
Proof.
  intros [] H. unfold wake_acceptor in H. destruct (acceptor s) as [| |id| | | | |] eqn:Ea; try done.
  apply bind_Some in H as ([] & Hs & H). simplify_eq.
  assert (sdr_stopped s = true) as Hst by (by destruct (sdr_stopped s)).
  split; cbn; try done; try (intros; congruence).
  - intros j Hj. eauto.
  - intros j c [?|[= ->]] Hc; [done|]. apply (inv_wait_band0 j); auto.
Qed.

(** The device is started on a server without clients and with the device
    stopped. *)
Lemma start_ready s ok s' : inv s -> start_device ok s = Some s' ->
  device_running s = false /\ tcp_nodes s = [] /\ exists id, acceptor s = AJoin id /\ is_Some (clients s !! id).
Proof.
  intros [] H. unfold start_device in H. destruct (acceptor s) as [| | |id| | | |] eqn:Ea; try done.
  destruct (inv_join0 id eq_refl) as [Hn Hs]. split; [auto|]. split; [done|].
  exists id. split; [done|]. by destruct (inv_pending0 id eq_refl).
Qed.

Lemma start_inv ok s s' : inv s -> start_device ok s = Some s' -> inv s'.
Proof.
  intros [] H. unfold start_device in H. destruct (acceptor s) as [| | |id| | | |] eqn:Ea; try done.
  apply bind_Some in H as ([] & _ & H). destruct (inv_join0 id eq_refl) as [Hn Hs].
  destruct (inv_pending0 id eq_refl) as [Hid _]. destruct ok; simplify_eq.
  - split; cbn; try done; try (intros ? ? [?|?]; done); try (intros; done).
    + apply NoDup_singleton.
    + intros j Hj. apply list_elem_of_singleton in Hj as ->. done.
    + intros j Hj. left. destruct (inv_owned0 j Hj) as [Hz|Hz].
      * rewrite Hn in Hz. by apply not_elem_of_nil in Hz.
      * simplify_eq/=. apply list_elem_of_singleton. done.
    + intros j c Hj Hc. apply list_elem_of_singleton in Hj as ->. eauto.
    + intros [Hz|Hz]; done.
  - split; cbn; try done; try (intros ? ? [?|?]; done); try (intros; congruence).
    intros [Hz|Hz]; done.
Qed.

Lemma discard_inv s s' : inv s -> discard_client s = Some s' -> inv s'.
Proof.
  intros [] H. unfold discard_client in H. destruct (acceptor s) as [| | | |id| | |] eqn:Ea; try done.
  apply bind_Some in H as (c & Hc & H). apply bind_Some in H as ([] & _ & H). simplify_eq.
  destruct (inv_pending0 id eq_refl) as [_ Hid]. split; cbn; try done; try (intros ? ? [?|?]; done).
  - intros j Hj. rewrite lookup_delete_ne by set_solver. auto.
  - intros j Hj. apply lookup_delete_is_Some in Hj as [Hne Hj].
    destruct (inv_owned0 j Hj) as [?|Hz]; [by left|]. simplify_eq/=.
  - intros j d Hd. apply lookup_delete_Some in Hd as [_ Hd]. eauto.
  - intros j d Hj Hd. apply lookup_delete_Some in Hd as [_ Hd]. eauto.
  - intros j d Hd. apply lookup_delete_Some in Hd as [_ Hd]. by eapply inv_band_set0.
Qed.

Lemma stop_inv s s' : inv s -> stop_acceptor s = Some s' -> inv s'.
Proof.
  intros [] H. unfold stop_acceptor in H. destruct (acceptor s) eqn:Ea; simplify_eq.
  split; cbn; try done; try (intros ? ? [?|?]; done).
Qed.

Lemma reap_inv s s' : inv s -> reap_client s = Some s' -> inv s'.
Proof.
  intros [] H. unfold reap_client in H. destruct (acceptor s) eqn:Ea; try done.
  destruct (tcp_nodes s) as [|id nodes] eqn:En; [done|].
  apply bind_Some in H as (c & Hc & H). apply bind_Some in H as ([] & _ & H). simplify_eq.
  apply NoDup_cons in inv_nodup0 as [Hid Hnd]. split; cbn; try done; try (intros ? ? [?|?]; done).
  - intros j Hj. rewrite lookup_delete_ne by set_solver. apply inv_nodes0. by right.
  - intros j Hj. apply lookup_delete_is_Some in Hj as [Hne Hj]. left.
    destruct (inv_owned0 j Hj) as [Hz|Hz]; [|done]. by apply elem_of_cons in Hz as [?|?].
  - intros j d Hd. apply lookup_delete_Some in Hd as [_ Hd]. eauto.
  - intros j d Hj Hd. apply lookup_delete_Some in Hd as [_ Hd]. apply (inv_band0 j); [by right|done].
  - intros j d Hd. apply lookup_delete_Some in Hd as [_ Hd]. by eapply inv_band_set0.
Qed.

Lemma wait_stopped_inv s s' : inv s -> wait_sdr_stopped s = Some s' -> inv s'.
Proof.
  intros [] H. unfold wait_sdr_stopped in H. destruct (acceptor s) eqn:Ea; try done.
  destruct (tcp_nodes s) as [|id nodes] eqn:En; [|done].
  apply bind_Some in H as ([] & Hs & H). simplify_eq.
  assert (sdr_stopped s = true) as Hst by (by destruct (sdr_stopped s)).
  split; cbn; rewrite ?Hst; try done; auto. intros ? ? [?|?]; done.
Qed.

Lemma destroy_inv s s' : inv s -> destroy_device s = Some s' -> inv s'.
Proof.
  intros [] H. unfold destroy_device in H. destruct (acceptor s) eqn:Ea; try done.
  apply bind_Some in H as ([] & _ & H). simplify_eq. destruct (inv_final0 eq_refl) as [Hn Hs].
  split; cbn; try done; try (intros ? ? [?|?]; done).
  - intros [?|?]; done.
  - intros _. auto.
Qed.

Lemma step_inv s e s' : inv s -> step s e s' -> inv s'.
Proof.
  destruct e; unfold step; cbn [exec]; intros Hi H;
    eauto using accept_inv, worker_end_inv, shutdown_stop_inv, shutdown_finish_inv, register_inv,
      wake_inv, start_inv, discard_inv, stop_inv, reap_inv, wait_stopped_inv, destroy_inv.
Qed.

Lemma reachable_inv tr s : run step initial tr s -> inv s.
Proof. intros H. eapply run_invariant; [|exact H|apply initial_inv]. eauto using step_inv. Qed.

(** In an orderly history the device never runs without a client or a shutdown
    thread that is going to stop it, and the acceptor never has to wait for a
    shutdown thread that needs the mutex. *)
Record orderly (s : server) : Prop := {
  ord_pending : forall id, acceptor s = ARegister id \/ acceptor s = AWait id \/ acceptor s = AJoin id ->
    running (clients s) id = true;
  ord_busy : sdr_stopped s = false -> recipients s = [] ->
    shutdown_thread s = SStopping \/ shutdown_thread s = SStopped;
  ord_active : shutdown_thread s = SStopping \/ shutdown_thread s = SStopped ->
    recipients s = [] /\ sdr_stopped s = false;
  ord_not_done : sdr_stopped s = false -> shutdown_thread s <> SDone;
  ord_idle : sdr_stopped s = true -> recipients s = [];
  ord_discard : forall id, acceptor s = ADiscard id -> sdr_stopped s = true -> shutdown_thread s = SDone;
  ord_running : sdr_stopped s = false -> shutdown_thread s = SNone \/ shutdown_thread s = SStopping ->
    device_running s = true;
}.

Lemma filter_existsb {A} (f : A -> bool) l : existsb f l = false <-> List.filter f l = [].
Proof.
  induction l as [|x l IH]; [done|]. simpl. destruct (f x); simpl; [split; discriminate|done].
Qed.

Lemma filter_ext_list {A} (f g : A -> bool) l :
  (forall x, x ∈ l -> f x = g x) -> List.filter f l = List.filter g l.
Proof.
  induction l as [|x l IH]; intros H; [done|]. simpl. rewrite (H x) by left.
  rewrite IH; [done|]. intros y Hy. apply H. by right.
Qed.

Lemma running_insert cs id c j :
  running (<[id := c]> cs) j = if decide (j = id) then is_running c else running cs j.
Proof.
  unfold running. destruct (decide (j = id)) as [->|Hne].
  - by rewrite lookup_insert_eq.
  - by rewrite lookup_insert_ne.
Qed.

Lemma recipients_insert_ne cs id c nodes :
  id ∉ nodes -> List.filter (running (<[id := c]> cs)) nodes = List.filter (running cs) nodes.
Proof.
  intros Hid. apply filter_ext_list. intros x Hx. rewrite running_insert, decide_False; [done|].
  intros ->. done.
Qed.

(** A refused or a registered client leaves. *)
(** The recipients when the worker of [id] stops running. *)
Lemma worker_end_recipients id c s : inv s -> orderly s -> clients s !! id = Some c -> is_running c = true ->
  id ∈ tcp_nodes s \/ acceptor s = ADiscard id ->
  let r' := List.filter (running (<[id:=MkClient (band_freq c) false false]> (clients s))) (tcp_nodes s) in
  (recipients s = [] -> r' = []) /\ (id ∉ tcp_nodes s -> r' = recipients s) /\
  (id ∈ tcp_nodes s -> sdr_stopped s = false /\ shutdown_thread s = SNone) /\
  (forall j, acceptor s = ARegister j \/ acceptor s = AWait j \/ acceptor s = AJoin j ->
     running (<[id:=MkClient (band_freq c) false false]> (clients s)) j = true).
Proof.
  intros Hi [] Hc Hrun Hid r'. split; [|split; [|split]].
  - unfold recipients, r'. rewrite <- !filter_existsb. intros Hz.
    apply not_true_iff_false. apply not_true_iff_false in Hz. intros Hx. apply Hz.
    apply existsb_exists in Hx as (x & Hx & Hxr). apply existsb_exists. exists x. split; [done|].
    rewrite running_insert in Hxr. by destruct (decide (x = id)).
  - intros Hn. by apply recipients_insert_ne.
  - intros Hn. assert (recipients s <> []) as Hne.
    { unfold recipients. intros Hz. apply filter_existsb in Hz.
      assert (existsb (running (clients s)) (tcp_nodes s) = true) as Ht; [|congruence].
      apply existsb_exists. exists id. split; [by apply list_elem_of_In|]. unfold running. by rewrite Hc. }
    destruct (sdr_stopped s) eqn:Es; [by destruct (Hne (ord_idle0 eq_refl))|]. split; [done|].
    destruct (shutdown_thread s) eqn:Et; [done|..].
    + by destruct Hne, (ord_active0 (or_introl eq_refl)).
    + by destruct Hne, (ord_active0 (or_intror eq_refl)).
    + by destruct (ord_not_done0 eq_refl).
  - intros j Hj. rewrite running_insert, decide_False; [by apply ord_pending0|]. intros ->.
    destruct Hid as [Hn|Hd]; [|rewrite Hd in Hj; by destruct Hj as [?|[?|?]]].
    destruct (inv_pending _ Hi id) as [_ ?]; [|done]. by destruct Hj as [-> | [-> | ->]].
Qed.

Lemma worker_end_orderly id s s' : inv s -> orderly s ->
  id ∈ tcp_nodes s \/ acceptor s = ADiscard id -> tcp_worker_end id s = Some s' -> orderly s'.
Proof.
  intros Hi Hord Hid H. unfold tcp_worker_end in H.
  apply bind_Some in H as ([] & Hm & H). apply bind_Some in H as (c & Hc & H).
  apply bind_Some in H as ([] & Hr & H). pose proof (inv_created _ Hi) as Hcr.
  assert (is_running c = true) as Hrun by (by destruct (is_running c)). clear Hr.
  destruct (worker_end_recipients id c s Hi Hord Hc Hrun Hid) as (Hmono & Hout & Hin & Hpend'). destruct Hord.
  assert (forall a, List.filter (running (<[id:=MkClient (band_freq c) false a]> (clients s))) (tcp_nodes s)
            = List.filter (running (<[id:=MkClient (band_freq c) false false]> (clients s))) (tcp_nodes s)) as Hsame.
  { intros a. apply filter_ext_list. intros x _. by rewrite !running_insert. }
  remember (List.filter (running (<[id:=MkClient (band_freq c) false false]> (clients s))) (tcp_nodes s)) as r' eqn:Er.
  destruct (existsb _ (tcp_nodes s)) eqn:En; cbn [negb andb orb] in H.
  - assert (r' <> []) as Hne.
    { rewrite <- (Hsame true). intros Hz. apply filter_existsb in Hz. congruence. }
    injection H as <-. split; cbn; unfold recipients; cbn; rewrite <- ?Er; try done.
    + intros Ht. destruct (ord_active0 Ht) as [Hz _]. by destruct (Hne (Hmono Hz)).
    + intros Ht. by destruct (Hne (Hmono (ord_idle0 Ht))).
  - assert (r' = []) as Hz by (rewrite <- (Hsame true); by apply filter_existsb).
    destruct (shutdown_thread_created s) eqn:Ecr; cbn [negb andb orb] in H; injection H as <-.
    + assert (id ∉ tcp_nodes s) as Hn by (intros Hn; destruct (Hin Hn) as [_ Hx]; apply Hcr in Hx; done).
      split; cbn; unfold recipients; cbn; rewrite <- ?Er; rewrite ?(Hout Hn); try done.
    + assert (shutdown_thread s = SNone) as Et by (by apply Hcr).
      assert (sdr_stopped s = false) as Es.
      { destruct Hid as [Hn|Hd]; [by apply Hin|]. destruct (sdr_stopped s) eqn:Es; [|done].
        rewrite (ord_discard0 id Hd eq_refl) in Et. done. }
      split; cbn; unfold recipients; cbn; rewrite <- ?Er; rewrite ?Es; try done; [by left|].
      intros _ _. apply ord_running0; auto.
Qed.

Lemma running_delete cs id j :
  running (delete id cs) j = if decide (j = id) then false else running cs j.
Proof.
  unfold running. destruct (decide (j = id)) as [->|Hne].
  - by rewrite lookup_delete_eq.
  - by rewrite lookup_delete_ne.
Qed.

Lemma recipients_delete_ne cs id nodes :
  id ∉ nodes -> List.filter (running (delete id cs)) nodes = List.filter (running cs) nodes.
Proof.
  intros Hid. apply filter_ext_list. intros x Hx. rewrite running_delete, decide_False; [done|].
  intros ->. done.
Qed.

(** After the cleanup every listed client runs. *)
Lemma recipients_cleanup cs nodes :
  let p := cleanup_terminated_threads cs nodes in
  snd p = List.filter (running cs) nodes /\ List.filter (running (fst p)) (snd p) = snd p /\
  forall j, running cs j = true -> running (fst p) j = true.
Proof.
  cbn zeta. split; [done|].
  assert (forall j, running cs j = true -> running (fst (cleanup_terminated_threads cs nodes)) j = true) as Hr.
  { intros j Hj. unfold running at 1. rewrite cleanup_lookup, Hj, andb_false_r. exact Hj. }
  split; [|done]. induction (snd (cleanup_terminated_threads cs nodes)) as [|x l IH] eqn:El in *.
  - done.
  - assert (forall y, y ∈ x :: l -> running (fst (cleanup_terminated_threads cs nodes)) y = true) as Hall.
    { intros y Hy. apply Hr. rewrite <- El in Hy. by apply cleanup_nodes in Hy as [_ ?]. }
    clear -Hall. induction (x :: l) as [|y m IH]; [done|]. simpl. rewrite Hall by left.
    f_equal. apply IH. intros z Hz. apply Hall. by right.
Qed.

Lemma accept_orderly id band s s' : inv s -> orderly s -> accept_client id band s = Some s' -> orderly s'.
Proof.
  intros Hi [] H. unfold accept_client, ensure in H. destruct (acceptor s) eqn:Ea; try done.
  destruct (bool_decide (clients s !! id = None) && negb (band =? 0)%Z) eqn:E; [|done].
  apply andb_prop in E as [E1%bool_decide_eq_true E2]. cbn in H. injection H as <-.
  assert (id ∉ tcp_nodes s) as Hid by (intros Hin; destruct (inv_nodes _ Hi id Hin); congruence).
  split; cbn; unfold recipients; cbn; rewrite ?(recipients_insert_ne _ _ _ _ Hid); try done.
  intros j [[= ->]|[?|?]]; try done. by rewrite running_insert, decide_True.
Qed.

Lemma shutdown_orderly s s' : orderly s ->
  shutdown_callback_stop s = Some s' \/ shutdown_callback_finish s = Some s' -> orderly s'.
Proof.
  intros [] [H|H].
  - unfold shutdown_callback_stop in H. destruct (shutdown_thread s) eqn:Et; try done. injection H as <-.
    destruct (ord_active0 (or_introl eq_refl)) as [Hr Hs].
    split; cbn; unfold recipients; cbn; rewrite ?Hs; try done; [by right|by intros _ [?|?]].
  - unfold shutdown_callback_finish in H. destruct (shutdown_thread s) eqn:Et; try done.
    apply bind_Some in H as ([] & _ & H). injection H as <-.
    destruct (ord_active0 (or_intror eq_refl)) as [Hr Hs].
    split; cbn; unfold recipients; cbn; try done. by intros [?|?].
Qed.

Lemma register_orderly s s' : inv s -> orderly s -> register_client s = Some s' -> orderly s'.
Proof.
  intros Hi [] H. unfold register_client in H. destruct (acceptor s) as [|id| | | | | |] eqn:Ea; try done.
  pose proof (recipients_cleanup (clients s) (tcp_nodes s)) as (Hn & Hf & Hr).
  destruct (cleanup_terminated_threads _ _) as [cs nodes]. cbn [fst snd] in *.
  fold (recipients s) in Hn. specialize (ord_pending0 id (or_introl eq_refl)) as Hid. apply Hr in Hid.
  apply bind_Some in H as (c & Hc & H). destruct nodes as [|n0 nodes].
  - injection H as <-.
    split; cbn; unfold recipients at 1 || idtac; cbn; rewrite <- ?Hn in *; try done; auto.
    + intros j Hj. assert (j = id) as ->; [|done].
      destruct (sdr_stopped s); by destruct Hj as [Hj|[Hj|Hj]]; simplify_eq.
    + intros j Hj. by destruct (sdr_stopped s).
  - assert (recipients s <> []) as Hne by (by rewrite <- Hn).
    assert (sdr_stopped s = false) as Hs.
    { destruct (sdr_stopped s); [|done]. by destruct (Hne (ord_idle0 eq_refl)). }
    assert (~ (shutdown_thread s = SStopping \/ shutdown_thread s = SStopped)) as Hact.
    { intros Ht. by destruct (ord_active0 Ht). }
    destruct (negb _ && negb _); injection H as <-.
    + split; cbn [tcp_nodes clients acceptor shutdown_thread sdr_stopped]; unfold recipients;
        cbn [tcp_nodes clients]; rewrite ?Hf, ?Hs; try done; try tauto. by intros j [?|[?|?]].
    + assert (forall l, List.filter (running cs) (l ++ [id]) <> []) as Happ.
      { intros l. rewrite List.filter_app. simpl. rewrite Hid. by destruct (List.filter _ l). }
      change (n0 :: nodes ++ [id]) with ((n0 :: nodes) ++ [id]).
      split; cbn [tcp_nodes clients acceptor shutdown_thread sdr_stopped]; unfold recipients;
        cbn [tcp_nodes clients]; rewrite ?Hs; try done; try tauto.
      * by intros j [?|[?|?]].
      * intros _ Hz. by destruct (Happ _ Hz).
Qed.

Lemma wake_orderly s s' : orderly s -> wake_acceptor s = Some s' -> orderly s'.
Proof.
  intros [] H. unfold wake_acceptor in H. destruct (acceptor s) as [| |id| | | | |] eqn:Ea; try done.
  apply bind_Some in H as ([] & Hs & H). injection H as <-.
  split; cbn; try done. intros j [?|[?|[= ->]]]; try done. apply ord_pending0. by right; left.
Qed.

Lemma start_orderly s s' : inv s -> orderly s -> start_device true s = Some s' -> orderly s'.
Proof.
  intros Hi [] H. unfold start_device in H. destruct (acceptor s) as [| | |id| | | |] eqn:Ea; try done.
  apply bind_Some in H as ([] & _ & H). injection H as <-.
  assert (running (clients s) id = true) as Hr by (apply ord_pending0; tauto).
  split; cbn; unfold recipients; cbn; rewrite ?Hr; try done; try tauto.
  - by intros j [?|[?|?]].
  - by intros [?|?].
Qed.

Lemma discard_orderly s s' : inv s -> orderly s -> discard_client s = Some s' -> orderly s'.
Proof.
  intros Hi [] H. unfold discard_client in H. destruct (acceptor s) as [| | | |id| | |] eqn:Ea; try done.
  apply bind_Some in H as (c & Hc & H). apply bind_Some in H as ([] & _ & H). injection H as <-.
  destruct (inv_pending _ Hi id) as [_ Hid]; [by rewrite Ea|].
  split; cbn; unfold recipients; cbn; rewrite ?(recipients_delete_ne _ _ _ Hid); try done.
  by intros j [?|[?|?]].
Qed.

Lemma stop_orderly s s' : inv s -> orderly s ->
  stop_acceptor s = Some s' \/ wait_sdr_stopped s = Some s' \/ destroy_device s = Some s' -> orderly s'.
Proof.
  intros Hi [] [H|[H|H]].
  - unfold stop_acceptor in H. destruct (acceptor s) eqn:Ea; try done. injection H as <-.
    split; cbn; try done. by intros j [?|[?|?]].
  - unfold wait_sdr_stopped in H. destruct (acceptor s) eqn:Ea; try done.
    destruct (tcp_nodes s) eqn:En; [|done].
    apply bind_Some in H as ([] & Hs & H). injection H as <-.
    split; cbn; unfold recipients in *; cbn; rewrite En in *; try done. by intros j [?|[?|?]].
  - unfold destroy_device in H. destruct (acceptor s) eqn:Ea; try done.
    apply bind_Some in H as ([] & Hs & H). injection H as <-.
    destruct (inv_final _ Hi Ea) as [Hn Hst]. split; cbn; rewrite ?Hst; try done; auto.
    + by intros j [?|[?|?]].
    + by intros [?|?].
Qed.

Lemma reap_orderly s s' : inv s -> orderly s -> reap_client s = Some s' -> orderly s'.
Proof.
  intros Hi [] H. unfold reap_client in H. destruct (acceptor s) eqn:Ea; try done.
  destruct (tcp_nodes s) as [|id nodes] eqn:En; [done|].
  apply bind_Some in H as (c & Hc & H). apply bind_Some in H as ([] & Hr & H). injection H as <-.
  pose proof (inv_nodup _ Hi) as Hnd. rewrite En in Hnd. apply NoDup_cons in Hnd as [Hid _].
  assert (running (clients s) id = false) as Hrun.
  { unfold running. rewrite Hc. by destruct (is_running c). }
  unfold recipients in *. rewrite En in *. simpl in *. rewrite Hrun in *.
  split; cbn; unfold recipients; cbn; rewrite ?(recipients_delete_ne _ _ _ Hid); try done.
  by intros j [?|[?|?]].
Qed.

Lemma initial_orderly : orderly initial.
Proof. split; cbn; try done; [by intros j [?|[?|?]]|by intros [?|?]]. Qed.

Lemma step_orderly s e s' : inv s -> orderly s -> orderly_step s e s' -> orderly s'.
Proof.
  unfold orderly_step, step. intros Hi Ho [H Hside].
  destruct e; cbn [exec] in H; eauto using accept_orderly, worker_end_orderly, shutdown_orderly, register_orderly,
    wake_orderly, discard_orderly, reap_orderly, stop_orderly.
  subst ok. eauto using start_orderly.
Qed.

Lemma reachable_orderly tr s : run orderly_step initial tr s -> inv s /\ orderly s.
Proof.
  intros H. eapply (run_invariant orderly_step (fun s => inv s /\ orderly s)); [|exact H|].
  - intros s0 e s1 [Hi Ho] Hs. split; [eapply step_inv; [exact Hi|apply Hs]|by eapply step_orderly].
  - split; [apply initial_inv|apply initial_orderly].
Qed.

(** ** Progress of the acceptor *)

Definition registering (pc : acceptor_pc) (id : client_id) : Prop :=
  pc = ARegister id \/ pc = AWait id \/ pc = AJoin id.

(** What the acceptor and the shutdown thread do on their own. *)
Definition own_event (e : event) : bool :=
  match e with
  | EvRegister | EvDeviceStop | EvSdrStopped | EvWake | EvStart true => true
  | _ => false
  end.

Definition served (id : client_id) (s : server) : Prop :=
  acceptor s = AIdle /\ id ∈ recipients s /\ device_running s = true.

Lemma exec_all_app tr1 tr2 s s1 : exec_all s tr1 = Some s1 -> exec_all s (tr1 ++ tr2) = exec_all s1 tr2.
Proof.
  revert s. induction tr1 as [|e tr1 IH]; intros s H; [by injection H as ->|].
  cbn [exec_all app] in *. apply bind_Some in H as (s2 & -> & H). cbn. by apply IH.
Qed.

Lemma exec_all_run tr s0 tr0 s s' : run step s0 tr0 s -> exec_all s tr = Some s' -> run step s0 (tr0 ++ tr) s'.
Proof.
  revert s tr0. induction tr as [|e tr IH]; intros s tr0 Hr H.
  - injection H as <-. by rewrite app_nil_r.
  - cbn [exec_all] in H. apply bind_Some in H as (s2 & Hs & H).
    change (e :: tr) with ([e] ++ tr). rewrite app_assoc. apply (IH s2); [|done]. by econstructor.
Qed.

Lemma wait_progress s id : inv s -> orderly s -> acceptor s = AWait id \/ acceptor s = AJoin id ->
  exists tr s', (length tr <= 4)%nat /\ forallb own_event tr = true /\ exec_all s tr = Some s' /\ served id s'.
Proof.
  intros Hi Ho Ha.
  assert (running (clients s) id = true) as Hrun by (apply (ord_pending _ Ho); tauto).
  assert (tcp_nodes s = []) as Hn by (destruct Ha; [by eapply inv_wait|by eapply inv_join]).
  pose proof (inv_join _ Hi id) as Hj. pose proof (inv_created _ Hi) as Hc.
  pose proof (ord_busy _ Ho) as Hb. pose proof (ord_active _ Ho) as Hact. clear Hi Ho.
  assert (forall cur band, served id (MkServer (clients s) [id] false false SNone true cur band) <-> band = AIdle)
    as Hserved.
  { intros cur pc. unfold served, recipients. cbn. rewrite Hrun. cbn. set_solver. }
  destruct s as [cs nodes st cr sh dev cur acc]. cbn in *. subst nodes.
  unfold recipients in *. cbn in *.
  destruct sh.
  - destruct Hc as [_ Hc]. rewrite Hc in * by done. destruct st.
    + destruct Ha as [-> | ->]; [exists [EvWake; EvStart true]|exists [EvStart true]];
        eexists; (split; [cbn; lia|]); (split; [done|]); (split; [reflexivity|]); by apply Hserved.
    + by destruct (Hb eq_refl eq_refl).
  - destruct (Hact (or_introl eq_refl)) as [_ ->]. destruct Ha as [-> | ->]; [|by destruct (Hj eq_refl)].
    exists [EvDeviceStop; EvSdrStopped; EvWake; EvStart true].
    destruct cr; [|by destruct Hc as [Hc _]; specialize (Hc eq_refl)].
    eexists; (split; [cbn; lia|]); (split; [done|]); (split; [reflexivity|]); by apply Hserved.
  - destruct (Hact (or_intror eq_refl)) as [_ ->]. destruct Ha as [-> | ->]; [|by destruct (Hj eq_refl)].
    exists [EvSdrStopped; EvWake; EvStart true].
    destruct cr; [|by destruct Hc as [Hc _]; specialize (Hc eq_refl)].
    eexists; (split; [cbn; lia|]); (split; [done|]); (split; [reflexivity|]); by apply Hserved.
  - destruct st; [|by destruct (Hb eq_refl eq_refl)].
    destruct cr; [|by destruct Hc as [Hc _]; specialize (Hc eq_refl)].
    destruct Ha as [-> | ->]; [exists [EvWake; EvStart true]|exists [EvStart true]];
      eexists; (split; [cbn; lia|]); (split; [done|]); (split; [reflexivity|]); by apply Hserved.
Qed.

(** The critical section of a registration. *)
Lemma register_cases s id : inv s -> orderly s -> acceptor s = ARegister id ->
  exists s', exec s EvRegister = Some s' /\
    (served id s' \/
     (acceptor s' = AWait id \/ acceptor s' = AJoin id) \/
     (acceptor s' = ADiscard id /\ exists c, clients s !! id = Some c /\
        recipients s <> [] /\ band_freq c <> current_band_freq s)).
Proof.
  intros Hi Ho Ha. cbn [exec].
  pose proof (recipients_cleanup (clients s) (tcp_nodes s)) as (Hn & Hf & Hr). fold (recipients s) in Hn.
  assert (running (clients s) id = true) as Hrun by (apply (ord_pending _ Ho); tauto).
  pose proof (Hr _ Hrun) as Hrun'. apply running_Some in Hrun' as (c & Hc & Hcr).
  pose proof (cleanup_client (clients s) (tcp_nodes s) id c Hc) as Hc0.
  unfold register_client. rewrite Ha. destruct (cleanup_terminated_threads _ _) as [cs nodes]. cbn [fst snd] in *.
  rewrite Hc. cbn [mbind option_bind]. destruct nodes as [|n0 nodes].
  - eexists; split; [done|]. right; left. cbn. destruct (sdr_stopped s); tauto.
  - assert (recipients s <> []) as Hne by (by rewrite <- Hn).
    destruct (negb (current_band_freq s =? 0)%Z && negb (current_band_freq s =? band_freq c)%Z) eqn:E.
    + eexists; split; [done|]. right; right. split; [done|]. exists c. split; [done|]. split; [done|].
      apply andb_prop in E as [_ E]. apply negb_true_iff, Z.eqb_neq in E. congruence.
    + eexists; split; [done|]. left. split; [done|]. split.
      * unfold recipients. cbn [tcp_nodes clients].
        change (n0 :: nodes ++ [id]) with ((n0 :: nodes) ++ [id]). rewrite List.filter_app.
        apply elem_of_app. right. simpl. unfold running. rewrite Hc, Hcr. by left.
      * cbn. destruct (sdr_stopped s) eqn:Es; [by destruct (Hne (ord_idle _ Ho Es))|].
        apply (ord_running _ Ho Es). destruct (shutdown_thread s) eqn:Et; [tauto|tauto| |].
        -- by destruct Hne, (ord_active _ Ho (or_intror Et)).
        -- by destruct (ord_not_done _ Ho Es).
Qed.

(** The acceptor waits for a shutdown thread that nobody is going to start. *)
Definition starved (s : server) : Prop :=
  sdr_stopped s = false /\ shutdown_thread s = SNone /\ recipients s = [] /\ device_running s = true.

Lemma starved_wait_step s id e s' : inv s -> starved s -> acceptor s = AWait id -> step s e s' ->
  e = EvDisconnect id.
Proof.
  intros Hi (Hst & Hsh & Hrec & _) Ha H. unfold step in H.
  destruct e; cbn [exec] in H; unfold accept_client, shutdown_callback_stop, shutdown_callback_finish,
    register_client, wake_acceptor, start_device, discard_client, stop_acceptor, reap_client, wait_sdr_stopped,
    destroy_device in H; rewrite ?Ha, ?Hsh, ?Hst in H; try discriminate.
  unfold tcp_worker_end in H. apply bind_Some in H as ([] & _ & H). apply bind_Some in H as (c & Hc & H).
  destruct (inv_owned _ Hi id0) as [Hn|Hp]; [by eexists| |].
  - rewrite (inv_wait _ Hi id Ha) in Hn. by apply not_elem_of_nil in Hn.
  - rewrite Ha in Hp. by injection Hp as ->.
Qed.

Lemma starved_accept s id band : inv s -> starved s -> acceptor s = AIdle -> clients s !! id = None ->
  band <> 0%Z -> exists s1, exec_all s [EvAccept id band; EvRegister] = Some s1 /\ acceptor s1 = AWait id /\
    starved s1 /\ clients s1 !! id = Some (MkClient band true true) /\ tcp_nodes s1 = [].
Proof.
  intros Hi (Hst & Hsh & Hrec & Hd) Ha Hid Hb.
  assert (id ∉ tcp_nodes s) as Hn by (intros Hin; destruct (inv_nodes _ Hi id Hin); congruence).
  cbn [exec_all exec]. unfold accept_client at 1. rewrite Ha, bool_decide_true by done.
  assert ((band =? 0)%Z = false) as -> by (by apply Z.eqb_neq). cbn [andb negb ensure mbind option_bind].
  unfold register_client. cbn [acceptor clients tcp_nodes].
  set (cs := <[id:=MkClient band true true]> (clients s)).
  assert (snd (cleanup_terminated_threads cs (tcp_nodes s)) = []) as Hnil.
  { unfold cleanup_terminated_threads, cs. cbn [snd]. rewrite recipients_insert_ne by done. exact Hrec. }
  pose proof (cleanup_lookup cs (tcp_nodes s) id) as Hl. rewrite bool_decide_false in Hl by done.
  cbn [andb] in Hl. destruct (cleanup_terminated_threads cs (tcp_nodes s)) as [cs' nodes]. cbn [fst snd] in *. subst nodes.
  unfold cs in Hl. rewrite lookup_insert_eq in Hl. rewrite Hl. cbn [mbind option_bind exec_all sdr_stopped].
  rewrite Hst. eexists; split; [reflexivity|]. cbn. unfold starved, recipients. cbn. auto 12.
Qed.

Lemma joined_blocked s id e s' : acceptor s = AJoin id -> shutdown_thread_created s = true ->
  shutdown_thread s = SStopping \/ shutdown_thread s = SStopped -> step s e s' ->
  acceptor s' = AJoin id /\ shutdown_thread_created s' = true /\
  (shutdown_thread s' = SStopping \/ shutdown_thread s' = SStopped).
Proof.
  intros Ha Hc Ht H. unfold step in H.
  destruct e; cbn [exec] in H; unfold accept_client, tcp_worker_end, mutex_free, shutdown_callback_stop,
    shutdown_callback_finish, register_client, wake_acceptor, start_device, joinable, discard_client, stop_acceptor,
    reap_client, wait_sdr_stopped, destroy_device, mutex_free in H; rewrite ?Ha, ?Hc in H; try discriminate.
  - destruct Ht as [Ht|Ht]; rewrite Ht in H; [|discriminate]. injection H as <-. cbn. auto.
  - destruct Ht as [Ht|Ht]; rewrite Ht in H; discriminate.
  - destruct Ht as [Ht|Ht]; rewrite Ht in H; discriminate.
Qed.

(** ** Theorems *)

(** C18. In every reachable state of the server, however the threads interleave
    and whether or not the device starts: no client is listed twice; every
    listed client is on the band of the device; [sdr_callback] only feeds DSP
    workers that are not destroyed; the device is only started when it does not
    run and nobody is listed; and when the acceptor has returned the device does
    not run and every node has been freed. *)
Theorem lifecycle_safe tr s (H : run step initial tr s) :
  NoDup (tcp_nodes s) /\
  (forall id, id ∈ recipients s -> exists c, clients s !! id = Some c /\ worker_alive c = true) /\
  (forall id, id ∈ tcp_nodes s -> exists c, clients s !! id = Some c /\ band_freq c = current_band_freq s) /\
  (forall ok s', step s (EvStart ok) s' -> device_running s = false /\ tcp_nodes s = []) /\
  (acceptor s = ADone -> device_running s = false /\ clients s = ∅).
Proof.
  pose proof (reachable_inv _ _ H) as Hi. split; [apply inv_nodup, Hi|].
  split; [|split; [|split]].
  - intros id Hid. unfold recipients in Hid. apply list_elem_of_In, filter_In in Hid as [_ Hr].
    apply running_Some in Hr as (c & Hc & Hr). exists c. split; [done|]. exact (inv_alive _ Hi id c Hc Hr).
  - intros id Hid. destruct (inv_nodes _ Hi id Hid) as [c Hc]. exists c. split; [done|].
    exact (inv_band _ Hi id c Hid Hc).
  - intros ok s' Hs. destruct (start_ready s ok s' Hi Hs) as (? & ? & _). done.
  - intros Ha. destruct (inv_done _ Hi Ha) as (Hn & _ & Hd). split; [done|].
    apply map_empty. intros id. apply eq_None_not_Some. intros Hsome.
    destruct (inv_owned _ Hi id Hsome) as [Hz|Hz]; [|by rewrite Ha in Hz].
    rewrite Hn in Hz. by apply not_elem_of_nil in Hz.
Qed.

(** C19. In a history in which clients only leave after the answer to their
    request and the device always starts, a client whose request is being handled
    is always served after at most five steps of the acceptor and of the shutdown
    thread (it is listed, the device runs and it gets the buffers), or it is
    refused because a served client holds the device on another band. *)
Theorem orderly_client_registered tr s id
  (H : run orderly_step initial tr s) (Ha : registering (acceptor s) id) :
  exists tr' s', (length tr' <= 5)%nat /\ forallb own_event tr' = true /\ exec_all s tr' = Some s' /\
    (served id s' \/
     (acceptor s' = ADiscard id /\ exists c, clients s !! id = Some c /\
        recipients s <> [] /\ band_freq c <> current_band_freq s)).
Proof.
  destruct (reachable_orderly _ _ H) as [Hi Ho]. destruct Ha as [Ha|Ha].
  - destruct (register_cases s id Hi Ho Ha) as (s1 & Hs1 & [Hs|[Hw|Hd]]).
    + exists [EvRegister], s1. cbn [exec_all]. rewrite Hs1. split; [cbn; lia|]. auto.
    + assert (inv s1 /\ orderly s1) as [Hi1 Ho1].
      { split; [by eapply (step_inv s EvRegister)|by eapply (step_orderly s EvRegister)]. }
      destruct (wait_progress s1 id Hi1 Ho1 Hw) as (tr' & s' & Hl & Hf & He & Hsrv).
      exists (EvRegister :: tr'), s'. cbn [exec_all]. rewrite Hs1. cbn. split; [lia|]. auto.
    + exists [EvRegister], s1. cbn [exec_all]. rewrite Hs1. split; [cbn; lia|]. auto.
  - destruct (wait_progress s id Hi Ho Ha) as (tr' & s' & Hl & Hf & He & Hsrv).
    exists tr', s'. split; [lia|]. auto.
Qed.

(** C21. The acceptor joins the shutdown thread while it holds the mutex: it is
    blocked for ever, whatever the other threads do, exactly when the shutdown
    thread exists and has not finished its own critical section. *)
Theorem join_deadlock_exact tr s id (H : run step initial tr s) (Ha : acceptor s = AJoin id) :
  (forall tr' s', run step s tr' s' -> acceptor s' = AJoin id) <->
  shutdown_thread s = SStopping \/ shutdown_thread s = SStopped.
Proof.
  pose proof (reachable_inv _ _ H) as Hi. pose proof (inv_created _ Hi) as Hc. split.
  - intros Hall. destruct (joinable s) eqn:Ej.
    + assert (exists s', step s (EvStart true) s' /\ acceptor s' = AIdle) as (s' & Hs & Hs').
      { eexists. unfold step. cbn [exec]. unfold start_device. rewrite Ha, Ej. split; reflexivity. }
      pose proof (Hall [EvStart true] s') as Hx. rewrite Hs' in Hx. discriminate Hx.
      apply (run_snoc _ s [] s (EvStart true) s'); [apply run_nil|exact Hs].
    + unfold joinable in Ej. destruct (shutdown_thread_created s); [|done].
      destruct (shutdown_thread s); try done; [|tauto|tauto]. by destruct Hc as [_ Hc]; specialize (Hc eq_refl).
  - intros Ht tr' s' Hr.
    assert (acceptor s' = AJoin id /\ shutdown_thread_created s' = true /\
            (shutdown_thread s' = SStopping \/ shutdown_thread s' = SStopped)) as [? _]; [|done].
    eapply (run_invariant step (fun s => acceptor s = AJoin id /\ shutdown_thread_created s = true /\
      (shutdown_thread s = SStopping \/ shutdown_thread s = SStopped))); [|exact Hr|].
    + intros s1 e s2 (H1 & H2 & H3) Hs. by eapply joined_blocked.
    + split; [done|]. split; [|done]. destruct (shutdown_thread_created s); [done|].
      destruct Hc as [Hc _]. rewrite (Hc eq_refl) in Ht. by destruct Ht.
Qed.

(** When the device runs without any running client and without a shutdown
    thread (what a client leaves behind that disconnects while its request is
    handled), the next client's request blocks: the acceptor waits, and the only
    thing that can happen in the whole server is that this client gives up; the
    server is then in the same situation again. *)
Theorem abandoned_device_starves tr s id band (H : run step initial tr s) (Hs : starved s)
  (Ha : acceptor s = AIdle) (Hid : clients s !! id = None) (Hb : band <> 0%Z) :
  exists s1, exec_all s [EvAccept id band; EvRegister] = Some s1 /\ acceptor s1 = AWait id /\
    (forall e s', step s1 e s' -> e = EvDisconnect id) /\
    exists s2, exec_all s1 [EvDisconnect id; EvDeviceStop; EvSdrStopped; EvWake; EvStart true] = Some s2 /\
      starved s2 /\ acceptor s2 = AIdle.
Proof.
  pose proof (reachable_inv _ _ H) as Hi.
  destruct (starved_accept s id band Hi Hs Ha Hid Hb) as (s1 & He & Ha1 & Hs1 & Hc1 & Hn1).
  pose proof (reachable_inv _ _ (exec_all_run _ _ _ _ _ H He)) as Hi1.
  exists s1. split; [done|]. split; [done|]. split; [intros e s'; by apply starved_wait_step|].
  destruct Hs1 as (Hst & Hsh & _ & Hd). pose proof (inv_created _ Hi1) as [_ Hcr]. specialize (Hcr Hsh).
  destruct s1 as [cs nodes st cr sh dev cur pc]. cbn in *. subst.
  unfold tcp_worker_end. cbn. rewrite Hc1. cbn. eexists. split; [reflexivity|]. split; [|done].
  unfold starved, recipients. cbn. unfold running. by rewrite lookup_insert_eq.
Qed.

(** ** Witnesses *)

Definition early_disconnect : list event := [EvAccept 0 851000000; EvDisconnect 0].

Definition state_after (tr : list event) : server :=
  match exec_all initial tr with Some s => s | None => initial end.

Lemma state_after_run tr : exec_all initial tr <> None -> run step initial tr (state_after tr).
Proof.
  unfold state_after. intros H. destruct (exec_all initial tr) as [s|] eqn:E; [|done].
  apply (exec_all_run tr initial [] initial s); [apply run_nil|exact E].
Qed.

Definition two_clients : list event :=
  [EvAccept 0 851000000; EvRegister; EvStart true; EvAccept 1 851000000; EvRegister; EvDisconnect 0;
   EvDisconnect 1; EvStopServer; EvReap; EvReap; EvDeviceStop; EvSdrStopped; EvWaitStopped; EvFinish].

Lemma lifecycle_safe_witness : acceptor (state_after two_clients) = ADone /\
  clients (state_after two_clients) = ∅.
Proof.
  split; [vm_compute; reflexivity|].
  refine (proj2 (proj2 (proj2 (proj2 (proj2 (lifecycle_safe two_clients _ _)))) _)).
  - apply state_after_run. vm_compute. discriminate.
  - vm_compute. reflexivity.
Defined.

Lemma orderly_client_registered_witness : exists tr' s',
  (length tr' <= 5)%nat /\ forallb own_event tr' = true /\
  exec_all (state_after [EvAccept 0 851000000]) tr' = Some s' /\
  (served 0 s' \/ (acceptor s' = ADiscard 0 /\ exists c, clients (state_after [EvAccept 0 851000000]) !! 0%nat = Some c /\
        recipients (state_after [EvAccept 0 851000000]) <> [] /\
        band_freq c <> current_band_freq (state_after [EvAccept 0 851000000]))).
Proof.
  apply (orderly_client_registered [EvAccept 0 851000000]); [|left; vm_compute; reflexivity].
  apply (run_snoc _ initial [] initial (EvAccept 0 851000000)); [apply run_nil|].
  split; [vm_compute; reflexivity|exact Logic.I].
Defined.

(** A client that leaves between the start of its thread and its registration
    blocks the acceptor for ever. *)
Lemma join_deadlock_exact_witness :
  acceptor (state_after (early_disconnect ++ [EvRegister])) = AJoin 0 /\
  forall tr' s', run step (state_after (early_disconnect ++ [EvRegister])) tr' s' -> acceptor s' = AJoin 0.
Proof.
  split; [vm_compute; reflexivity|].
  assert (shutdown_thread (state_after (early_disconnect ++ [EvRegister])) = SStopping) as Ht
    by (vm_compute; reflexivity).
  refine (proj2 (join_deadlock_exact (early_disconnect ++ [EvRegister]) _ 0 _ _) (or_introl Ht)).
  - apply state_after_run. vm_compute. discriminate.
  - vm_compute. reflexivity.
Defined.

Definition abandoned : list event :=
  early_disconnect ++ [EvDeviceStop; EvSdrStopped; EvRegister; EvStart true].

Lemma abandoned_device_starves_witness : starved (state_after abandoned) /\
  exists s1, exec_all (state_after abandoned) [EvAccept 1 851000000; EvRegister] = Some s1 /\ acceptor s1 = AWait 1 /\
    (forall e s', step s1 e s' -> e = EvDisconnect 1) /\
    exists s2, exec_all s1 [EvDisconnect 1; EvDeviceStop; EvSdrStopped; EvWake; EvStart true] = Some s2 /\
      starved s2 /\ acceptor s2 = AIdle.
Proof.
  assert (starved (state_after abandoned)) as Hs by (vm_compute; repeat split).
  split; [exact Hs|].
  apply (abandoned_device_starves abandoned); [|exact Hs| | |discriminate].
  - apply state_after_run. vm_compute. discriminate.
  - vm_compute. reflexivity.
  - vm_compute. reflexivity.
Defined.

End Lifecycle.
