(* ===== verification/Io.v ===== *)
(** * Calls of the drivers to the libraries and to the system

    The drivers of src/sdr/ are sequences of calls to a vendor library (reached
    through the table of function pointers of src/sdr/*_lib.h), to malloc and to
    pthreads.  None of that code is modelled: an oracle gives the answer of each
    call from the calls made so far.  [io] is the monad of code that makes calls:
    it records them, and fails where the C code has no defined behaviour.

    A call may open a device (or a library), use an open one or close it;
    [live] replays a record and gives the handles that are still open, or
    nothing when a handle is used or closed that is not open.  [wp] is the
    weakest precondition of [io], with one rule for each kind of call. *)
From S2P Require Import Prelude.

Module Io.

(** The code a call returns, and what it writes through its pointers. *)
Abbreviation answer := (Z * list Z)%type.

(** What a call does with a handle. *)
Inductive handle_use :=
| Opens
| Uses (h : Z)
| Closes (h : Z)
| Unrelated.

Class Calls (C : Type) := use : C -> handle_use.

Section io.
Context {C : Type} `{Calls C}.

Definition record := list (C * answer).

Definition oracle := record -> C -> answer.

Definition io (A : Type) := oracle -> record -> option (A * record).

Definition io_ret {A} (x : A) : io A := fun _ tr => Some (x, tr).

Definition io_bind {A B} (m : io A) (k : A -> io B) : io B :=
  fun o tr => match m o tr with Some (x, tr') => k x o tr' | None => None end.

(** The [ERROR_CHECK] macros: a call whose code means failure is followed by the
    clean-up of the driver, which returns. *)
Definition check {R} (failed : Z -> bool) (cleanup : Z -> io R) (x : io Z) (k : io R) : io R :=
  io_bind x (fun rc => if failed rc then cleanup rc else k).

(** Undefined behaviour. *)
Definition io_undefined {A} : io A := fun _ _ => None.

Definition call (c : C) : io answer :=
  fun o tr => let a := o tr c in Some (a, tr ++ [(c, a)]).

(** A call of which only the code matters. *)
Definition code_of (c : C) : io Z := io_bind (call c) (fun a => io_ret (fst a)).

(** ** Open handles *)

Definition close_handle (h : Z) (hs : list Z) : option (list Z) :=
  if decide (h ∈ hs) then Some (List.remove Z.eq_dec h hs) else None.

Definition live_step (acc : option (list Z)) (ca : C * answer) : option (list Z) :=
  hs ← acc;
  match use (fst ca) with
  | Opens => if (fst (snd ca) =? 0)%Z then
               match snd (snd ca) with h :: _ => Some (h :: hs) | [] => Some hs end
             else Some hs
  | Uses h => if decide (h ∈ hs) then Some hs else None
  | Closes h => close_handle h hs
  | Unrelated => Some hs
  end.

Definition live (tr : record) : option (list Z) := fold_left live_step tr (Some []).

(** What the drivers rely on: a successful open gives a handle that is not NULL
    and not in use; a failed one writes nothing, or NULL. *)
Definition opens_documented (o : oracle) : Prop :=
  forall tr c, use c = Opens ->
    (fst (o tr c) <> 0%Z -> Forall (fun h => h = 0%Z) (snd (o tr c))) /\
    (forall hs, live tr = Some hs -> fst (o tr c) = 0%Z -> exists h, snd (o tr c) = [h] /\ h <> 0%Z /\ h ∉ hs).

(** The calls of a record. *)
Definition calls (tr : record) : list C := map fst tr.

Definition wp {A} (m : io A) (Q : A -> record -> Prop) (o : oracle) (tr : record) : Prop :=
  match m o tr with Some (x, tr') => Q x tr' | None => False end.

(** The open handles, in any order. *)
Definition holding (tr : record) (hs : list Z) : Prop :=
  exists l, live tr = Some l /\ l ≡ₚ hs /\ NoDup hs /\ 0%Z ∉ hs.

(** ** Rules *)

Lemma wp_ret {A} (x : A) Q o tr : Q x tr -> wp (io_ret x) Q o tr.
Proof. done. Qed.

Lemma wp_bind {A B} (m : io A) (k : A -> io B) Q o tr :
  wp m (fun x tr' => wp (k x) Q o tr') o tr -> wp (io_bind m k) Q o tr.
Proof. unfold wp, io_bind. by destruct (m o tr) as [[x tr']|]. Qed.

Lemma wp_mono {A} (m : io A) (P Q : A -> record -> Prop) o tr :
  wp m P o tr -> (forall x tr', P x tr' -> Q x tr') -> wp m Q o tr.
Proof. unfold wp. destruct (m o tr) as [[x tr']|]; auto. Qed.

Lemma live_snoc tr ca : live (tr ++ [ca]) = live_step (live tr) ca.
Proof. unfold live. by rewrite fold_left_app. Qed.

Lemma calls_snoc tr c a : calls (tr ++ [(c, a)]) = calls tr ++ [c].
Proof. unfold calls. by rewrite map_app. Qed.

Lemma close_middle h before after : NoDup (before ++ h :: after) ->
  close_handle h (before ++ h :: after) = Some (before ++ after).
Proof.
  intros Hnd. unfold close_handle. rewrite decide_True by (apply elem_of_app; right; left). f_equal.
  apply NoDup_app in Hnd as (_ & Hb & Ha). apply NoDup_cons in Ha as [Ha _].
  rewrite List.remove_app. f_equal.
  - apply notin_remove. rewrite <- list_elem_of_In. intros Hin. apply (Hb h Hin). by left.
  - simpl. destruct (Z.eq_dec h h); [|done]. apply notin_remove. by rewrite <- list_elem_of_In.
Qed.

Lemma close_head h hs : h ∉ hs -> close_handle h (h :: hs) = Some hs.
Proof.
  intros Hh. unfold close_handle. rewrite decide_True by left. f_equal. simpl.
  destruct (Z.eq_dec h h); [|done]. apply notin_remove. by rewrite <- list_elem_of_In.
Qed.

(** Nothing but the call is recorded. *)
Lemma wp_call c Q o tr :
  Q (o tr c) (tr ++ [(c, o tr c)]) -> wp (call c) Q o tr.
Proof. done. Qed.

Lemma wp_unrelated c Q o tr hs :
  use c = Unrelated -> live tr = Some hs ->
  (forall a tr', live tr' = Some hs -> calls tr' = calls tr ++ [c] -> a = o tr c -> Q a tr') ->
  wp (call c) Q o tr.
Proof.
  intros Hc Hl HQ. apply wp_call, HQ; [|apply calls_snoc|done].
  rewrite live_snoc, Hl. unfold live_step. cbn [fst mbind option_bind]. by rewrite Hc.
Qed.

Lemma wp_use c h Q o tr hs :
  use c = Uses h -> live tr = Some hs -> h ∈ hs ->
  (forall a tr', live tr' = Some hs -> calls tr' = calls tr ++ [c] -> a = o tr c -> Q a tr') ->
  wp (call c) Q o tr.
Proof.
  intros Hc Hl Hh HQ. apply wp_call, HQ; [|apply calls_snoc|done].
  rewrite live_snoc, Hl. unfold live_step. cbn [fst mbind option_bind]. by rewrite Hc, decide_True.
Qed.

Lemma wp_close c h Q o tr hs hs' :
  use c = Closes h -> live tr = Some hs -> close_handle h hs = Some hs' ->
  (forall a tr', live tr' = Some hs' -> calls tr' = calls tr ++ [c] -> Q a tr') ->
  wp (call c) Q o tr.
Proof.
  intros Hc Hl Hh HQ. apply wp_call, HQ; [|apply calls_snoc].
  rewrite live_snoc, Hl. unfold live_step. cbn [fst mbind option_bind]. by rewrite Hc.
Qed.

Lemma wp_open c Q o tr hs :
  use c = Opens -> live tr = Some hs -> opens_documented o ->
  (forall h tr', h <> 0%Z -> h ∉ hs -> live tr' = Some (h :: hs) -> calls tr' = calls tr ++ [c] -> Q (0%Z, [h]) tr') ->
  (forall code out tr', o tr c = (code, out) -> code <> 0%Z -> Forall (fun h => h = 0%Z) out -> live tr' = Some hs ->
     calls tr' = calls tr ++ [c] -> Q (code, out) tr') ->
  wp (call c) Q o tr.
Proof.
  intros Hc Hl Ho H1 H2. apply wp_call. destruct (Ho tr c Hc) as [Hnull Hf]. specialize (Hf hs Hl).
  destruct (o tr c) as [code out] eqn:E. cbn [fst snd] in *.
  destruct (decide (code = 0%Z)) as [->|Hne].
  - destruct (Hf eq_refl) as (h & -> & Hh & Hfr). apply H1; [done|done| |apply calls_snoc].
    rewrite live_snoc, Hl. unfold live_step. cbn. by rewrite Hc.
  - apply H2; [done|done|by apply Hnull| |apply calls_snoc].
    rewrite live_snoc, Hl. unfold live_step. cbn. rewrite Hc. by rewrite (proj2 (Z.eqb_neq code 0)).
Qed.

(** A checked call on an open handle. *)
Lemma check_use_wp {R} failed (cleanup : Z -> io R) k (Q : R -> record -> Prop) o tr c h hs :
  use c = Uses h -> live tr = Some hs -> h ∈ hs ->
  (forall code tr', failed code = true -> live tr' = Some hs -> wp (cleanup code) Q o tr') ->
  (forall tr', live tr' = Some hs -> calls tr' = calls tr ++ [c] -> wp k Q o tr') ->
  wp (check failed cleanup (code_of c) k) Q o tr.
Proof.
  intros Hc Hl Hh Hf Hk. unfold check, code_of. apply wp_bind, wp_bind.
  eapply wp_use; [exact Hc|exact Hl|exact Hh|]. intros a tr' Hl' Hc' _. apply wp_ret.
  destruct (failed (fst a)) eqn:E; eauto.
Qed.

Lemma check_ret_wp {R} failed (cleanup : Z -> io R) k (Q : R -> record -> Prop) o tr rc :
  (failed rc = true -> wp (cleanup rc) Q o tr) -> (failed rc = false -> wp k Q o tr) ->
  wp (check failed cleanup (io_ret rc) k) Q o tr.
Proof. intros Hf Hk. unfold check. apply wp_bind, wp_ret. destruct (failed rc); auto. Qed.

(** ** Rules up to the order of the handles *)

#[export] Instance holding_proper tr : Proper ((≡ₚ) ==> iff) (holding tr).
Proof.
  assert (forall x y, x ≡ₚ y -> holding tr x -> holding tr y) as Hxy.
  { intros x y Hp (l & Hl & Hx & Hnd & Hz). exists l. split; [done|]. split; [by rewrite Hx|]. by rewrite <- Hp. }
  intros x y Hp. split; apply Hxy; [done|by symmetry].
Qed.

Lemma holding_perm tr hs hs' : holding tr hs -> hs ≡ₚ hs' -> holding tr hs'.
Proof. intros Hh Hp. by rewrite <- Hp. Qed.

Lemma holding_nil : holding [] [].
Proof. exists []. split; [done|]. split; [done|]. split; [apply NoDup_nil_2|by apply not_elem_of_nil]. Qed.

Lemma holding_none tr : holding tr [] -> live tr = Some [].
Proof. intros (l & Hl & Hp & _). apply Permutation_nil_r in Hp as ->. done. Qed.

Lemma holding_single tr h : holding tr [h] -> live tr = Some [h].
Proof. intros (l & Hl & Hp & _). apply Permutation_singleton_r in Hp as ->. done. Qed.

(** The answer of a call can be told from the record before it. *)
Lemma wp_answer c Q o tr :
  wp (call c) (fun a tr' => a = o tr c -> Q a tr') o tr -> wp (call c) Q o tr.
Proof. intros Ha. by apply Ha. Qed.

Lemma hold_unrelated c Q o tr hs :
  use c = Unrelated -> holding tr hs ->
  (forall a tr', holding tr' hs -> calls tr' = calls tr ++ [c] -> Q a tr') -> wp (call c) Q o tr.
Proof.
  intros Hc (l & Hl & Hp) HQ. eapply wp_unrelated; [exact Hc|exact Hl|]. intros a tr' Hl' Hc' _.
  apply HQ; [by exists l|done].
Qed.

Lemma hold_use c h Q o tr hs :
  use c = Uses h -> holding tr hs -> h ∈ hs ->
  (forall a tr', holding tr' hs -> calls tr' = calls tr ++ [c] -> Q a tr') -> wp (call c) Q o tr.
Proof.
  intros Hc (l & Hl & Hp) Hh HQ. eapply wp_use; [exact Hc|exact Hl|by rewrite (proj1 Hp)|]. intros a tr' Hl' Hc' _.
  apply HQ; [by exists l|done].
Qed.

Lemma hold_close c h Q o tr hs :
  use c = Closes h -> holding tr (h :: hs) ->
  (forall a tr', holding tr' hs -> calls tr' = calls tr ++ [c] -> Q a tr') -> wp (call c) Q o tr.
Proof.
  intros Hc (l & Hl & Hp & Hnd & Hz) HQ.
  assert (h ∈ l) as Hin by (rewrite Hp; left).
  assert (NoDup l) as Hl' by (by rewrite Hp).
  apply list_elem_of_split in Hin as (l1 & l2 & ->).
  eapply wp_close; [exact Hc|exact Hl|by apply close_middle|]. intros a tr' Hl2 Hc'. apply HQ; [|done].
  exists (l1 ++ l2). split; [done|]. split.
  - apply (Permutation_cons_inv (a := h)). by rewrite Permutation_middle.
  - apply NoDup_cons in Hnd as [_ Hnd]. rewrite not_elem_of_cons in Hz. by destruct Hz.
Qed.

Lemma hold_open c Q o tr hs :
  use c = Opens -> holding tr hs -> opens_documented o ->
  (forall h tr', h <> 0%Z -> holding tr' (h :: hs) -> calls tr' = calls tr ++ [c] -> Q (0%Z, [h]) tr') ->
  (forall code out tr', code <> 0%Z -> holding tr' hs -> calls tr' = calls tr ++ [c] -> Q (code, out) tr') ->
  wp (call c) Q o tr.
Proof.
  intros Hc (l & Hl & Hp & Hnd & Hz) Hd H1 H2. eapply wp_open; [exact Hc|exact Hl|exact Hd| |].
  - intros h tr' Hh Hfr Hl' Hc'. apply H1; [done| |done]. exists (h :: l). split; [done|]. split; [by rewrite Hp|].
    rewrite Hp in Hfr. split; [by apply NoDup_cons|]. by rewrite not_elem_of_cons.
  - intros code out tr' _ Hne _ Hl' Hc'. apply H2; [done| |done]. by exists l.
Qed.
End io.

End Io.

(** Code in the monad [io]. *)
Declare Scope io_scope.
Delimit Scope io_scope with io.
Notation "x <- m ; k" := (Io.io_bind m (fun x => k)) (at level 100, m at next level, right associativity) : io_scope.
Notation "m ;; k" := (Io.io_bind m (fun _ => k)) (at level 100, right associativity) : io_scope.
