(* ===== verification/Lib.v ===== *)
(** * The functions the drivers call: src/sdr/*_lib.h, dlopen, malloc, pthreads

    One constructor per function, with the arguments that matter.  A device is
    opened by the [*_open] functions and used or closed through its handle;
    memory, threads and libraries are handles as well, so that a leak, a double
    free or a join of a thread that does not exist shows in [Io.live].
    [rtlsdr_close], [msisdr_close] and
    [msisdr_read_async] do nothing on a NULL device,
    and the socket functions only fail on the descriptor -1. *)
From S2P Require Import Prelude Io.
Import Io.
#[local] Open Scope Z_scope.

Module Lib.

Inductive lib_call :=
| malloc (size : Z)
| aligned_alloc (alignment size : Z)
| free (ptr : Z)
| pthread_create
| pthread_join (thread : Z)
| dlopen (name : string)
| dlsym (handle : Z) (symbol : string)
| dlclose (handle : Z)
(* librtlsdr *)
| rtlsdr_get_index_by_serial (serial : string)
| rtlsdr_open (index : Z)
| rtlsdr_close (dev : Z)
| rtlsdr_set_sample_rate (dev rate : Z)
| rtlsdr_set_tuner_gain_mode (dev manual : Z)
| rtlsdr_set_freq_correction (dev ppm : Z)
| rtlsdr_get_tuner_gains (dev : Z) (gains : bool)
| rtlsdr_set_tuner_gain (dev gain : Z)
| rtlsdr_set_bias_tee (dev on : Z)
| rtlsdr_reset_buffer (dev : Z)
| rtlsdr_set_center_freq (dev freq : Z)
(* libairspy *)
| airspy_lib_version
| airspy_open
| airspy_close (dev : Z)
| airspy_set_sample_type (dev type : Z)
| airspy_set_samplerate (dev rate : Z)
| airspy_set_packing (dev value : Z)
| airspy_set_rf_bias (dev value : Z)
| airspy_set_sensitivity_gain (dev value : Z)
| airspy_set_linearity_gain (dev value : Z)
| airspy_set_lna_agc (dev value : Z)
| airspy_set_mixer_agc (dev value : Z)
| airspy_set_vga_gain (dev value : Z)
| airspy_set_mixer_gain (dev value : Z)
| airspy_set_lna_gain (dev value : Z)
| airspy_set_freq (dev freq : Z)
| airspy_start_rx (dev : Z)
| airspy_stop_rx (dev : Z)
(* libhackrf *)
| hackrf_init
| hackrf_exit
| hackrf_open
| hackrf_open_by_serial (serial : string)
| hackrf_close (dev : Z)
| hackrf_version_string_read (dev len : Z)
| hackrf_usb_api_version_read (dev : Z)
| hackrf_set_freq (dev freq : Z)
| hackrf_set_sample_rate (dev rate : Z)
| hackrf_set_baseband_filter_bandwidth (dev bandwidth : Z)
| hackrf_set_amp_enable (dev value : Z)
| hackrf_set_lna_gain (dev value : Z)
| hackrf_set_vga_gain (dev value : Z)
| hackrf_set_antenna_enable (dev value : Z)
| hackrf_start_rx (dev : Z)
| hackrf_stop_rx (dev : Z)
(* libmsisdr *)
| msisdr_open (index : Z)
| msisdr_close (dev : Z)
| msisdr_set_hw_flavour (dev flavour : Z)
| msisdr_rsp1a_gpio_init (dev : Z)
| msisdr_set_sample_format (dev : Z) (format : string)
| msisdr_set_if_freq (dev freq : Z)
| msisdr_set_bandwidth (dev bandwidth : Z)
| msisdr_set_sample_rate (dev rate : Z)
| msisdr_set_center_freq (dev freq : Z)
| msisdr_set_tuner_gain_mode (dev mode : Z)
| msisdr_set_tuner_gain (dev gain : Z)
| msisdr_reset_buffer (dev : Z)
| msisdr_cancel_async (dev : Z)
| msisdr_read_async (dev num len : Z)
| sleep (seconds : Z)
(* sockets *)
| socket
| setsockopt (fd option : Z)
| inet_pton (address : string)
| bind (fd port : Z)
| listen (fd backlog : Z)
| shutdown (fd : Z)
| close (fd : Z)
(* libconfig *)
| config_init
| config_read_file (config : Z) (path : string)
| config_destroy (config : Z).

#[export] Instance lib_calls : Calls lib_call := fun c =>
  match c with
  | malloc _ | aligned_alloc _ _ | pthread_create | dlopen _ | rtlsdr_open _ | airspy_open | hackrf_open | hackrf_open_by_serial _
  | msisdr_open _ | socket | config_init => Opens
  | free h | pthread_join h | dlclose h | airspy_close h | hackrf_close h | close h | config_destroy h => Closes h
  | rtlsdr_close h | msisdr_close h => if h =? 0 then Unrelated else Closes h
  | msisdr_read_async h _ _ => if h =? 0 then Unrelated else Uses h
  | rtlsdr_get_index_by_serial _ | airspy_lib_version | hackrf_init | hackrf_exit | sleep _ | inet_pton _ => Unrelated
  | setsockopt h _ | bind h _ | listen h _ | shutdown h => if h =? -1 then Unrelated else Uses h
  | dlsym h _ | config_read_file h _
  | rtlsdr_set_sample_rate h _ | rtlsdr_set_tuner_gain_mode h _ | rtlsdr_set_freq_correction h _
  | rtlsdr_get_tuner_gains h _ | rtlsdr_set_tuner_gain h _ | rtlsdr_set_bias_tee h _ | rtlsdr_reset_buffer h
  | rtlsdr_set_center_freq h _
  | airspy_set_sample_type h _ | airspy_set_samplerate h _ | airspy_set_packing h _ | airspy_set_rf_bias h _
  | airspy_set_sensitivity_gain h _ | airspy_set_linearity_gain h _ | airspy_set_lna_agc h _
  | airspy_set_mixer_agc h _ | airspy_set_vga_gain h _ | airspy_set_mixer_gain h _ | airspy_set_lna_gain h _
  | airspy_set_freq h _ | airspy_start_rx h | airspy_stop_rx h
  | hackrf_version_string_read h _ | hackrf_usb_api_version_read h | hackrf_set_freq h _ | hackrf_set_sample_rate h _
  | hackrf_set_baseband_filter_bandwidth h _ | hackrf_set_amp_enable h _ | hackrf_set_lna_gain h _
  | hackrf_set_vga_gain h _ | hackrf_set_antenna_enable h _ | hackrf_start_rx h | hackrf_stop_rx h
  | msisdr_set_hw_flavour h _ | msisdr_rsp1a_gpio_init h | msisdr_set_sample_format h _ | msisdr_set_if_freq h _
  | msisdr_set_bandwidth h _ | msisdr_set_sample_rate h _ | msisdr_set_center_freq h _
  | msisdr_set_tuner_gain_mode h _ | msisdr_set_tuner_gain h _ | msisdr_reset_buffer h | msisdr_cancel_async h => Uses h
  end.

(** The calls that change a receiver: those on an open device, but for what only
    reads or ends. *)
Definition is_setting (c : lib_call) : bool :=
  match c with
  | dlsym _ _ | rtlsdr_close _ | msisdr_close _ | rtlsdr_get_tuner_gains _ _ | hackrf_version_string_read _ _ | hackrf_usb_api_version_read _
  | msisdr_read_async _ _ _ | setsockopt _ _ | bind _ _ | listen _ _ | shutdown _ | config_read_file _ _ => false
  | _ => match use c with Uses _ => true | _ => false end
  end.

Definition settings (tr : record) : list lib_call := List.filter is_setting (calls tr).

Lemma settings_snoc tr tr' c : calls tr' = calls tr ++ [c] ->
  settings tr' = settings tr ++ (if is_setting c then [c] else []).
Proof. unfold settings. intros ->. rewrite List.filter_app. simpl. by destruct (is_setting c). Qed.

Lemma use_close_device h : h <> 0 -> use (rtlsdr_close h) = Closes h /\ use (msisdr_close h) = Closes h.
Proof. intros Hh. cbn. by rewrite (proj2 (Z.eqb_neq _ _)). Qed.

#[local] Open Scope io_scope.

(** ** Memory *)

(** The pointer a call of an allocator gives. *)
Definition pointer (a : answer) : Z :=
  match a with (0, [p]) => p | _ => 0 end.

(** [if (p != NULL) free(p)] *)
Definition free_unless_null (p : Z) : io (C := lib_call) unit :=
  if p =? 0 then io_ret tt else (call (free p);; io_ret tt).

(** The handle of a pointer that may be NULL. *)
Definition nonnull (p : Z) : list Z := if p =? 0 then [] else [p].

Lemma nonnull_neq p : p <> 0 -> nonnull p = [p].
Proof. intros Hp. unfold nonnull. by rewrite (proj2 (Z.eqb_neq _ 0) Hp). Qed.

Lemma hold_alloc c hs (Q : answer -> record -> Prop) (o : oracle (C := lib_call)) tr :
  use c = Opens -> holding tr hs -> opens_documented o ->
  (forall a tr', pointer a <> 0 -> a = o tr c -> holding tr' (pointer a :: hs) -> Q a tr') ->
  (forall a tr', pointer a = 0 -> a = o tr c -> holding tr' hs -> Q a tr') ->
  wp (call c) Q o tr.
Proof.
  intros Hc Hw Ho H1 H2. apply wp_answer. eapply hold_open; [exact Hc|exact Hw|exact Ho| |].
  - intros h tr' Hh Hw' _ Ha. by apply H1.
  - intros code out tr' Hne Hw' _ Ha. apply H2; [by destruct code|done|done].
Qed.

Lemma hold_free p hs (Q : answer -> record -> Prop) (o : oracle (C := lib_call)) tr :
  holding tr (p :: hs) -> (forall a tr', holding tr' hs -> Q a tr') -> wp (call (free p)) Q o tr.
Proof. intros Hw HQ. eapply hold_close; [done|exact Hw|]. auto. Qed.

Lemma free_unless_null_wp p hs (Q : unit -> record -> Prop) (o : oracle (C := lib_call)) tr :
  holding tr (nonnull p ++ hs) -> (forall tr', holding tr' hs -> Q tt tr') -> wp (free_unless_null p) Q o tr.
Proof.
  unfold free_unless_null, nonnull. destruct (p =? 0); intros Hw HQ; [by apply wp_ret, HQ|].
  apply wp_bind. eapply hold_free; [exact Hw|]. intros _ tr' Hw'. by apply wp_ret, HQ.
Qed.

(** The same handles in another order. *)
Ltac reorder H := revert H; apply holding_proper; solve_Permutation.

(** ** The libraries: src/sdr/rtlsdr_lib.c, airspy_lib.c, hackrf_lib.c *)

(** The table of a library: its own address and the handle of [dlopen]. *)
Record library := MkLibrary { lib_self : Z; handle : Z }.

(** [*_lib_destroy] *)
Definition lib_destroy (lib : library) : io unit :=
  (if handle lib =? 0 then io_ret tt else (call (dlclose (handle lib));; io_ret tt));;
  call (free (lib_self lib));;
  io_ret tt.

(** The [SETUP_FUNCTION]s of a create function; [dlsym] answers NULL (code 0 with
    a NULL pointer) for a symbol the library lacks. *)
Fixpoint setup_functions (lib : library) (names : list string) : io bool :=
  match names with
  | [] => io_ret true
  | name :: names' =>
      a <- call (dlsym (handle lib) name);
      match snd a with
      | p :: _ => if p =? 0 then (lib_destroy lib;; io_ret false) else setup_functions lib names'
      | [] => lib_destroy lib;; io_ret false
      end
  end.

(** The create functions differ by the size of the table, the file and the
    symbols; [version] is a call after the last symbol. *)
Definition lib_create (size : Z) (file : string) (names : list string) (version : list lib_call)
    : io (Z * option library) :=
  result <- call (malloc size);
  match result with
  | (0, [p]) =>
      opened <- call (dlopen file);
      match opened with
      | (0, [h]) =>
          ok <- setup_functions (MkLibrary p h) names;
          if ok : bool then
            (match version with c :: _ => call c;; io_ret tt | [] => io_ret tt end);;
            io_ret (0, Some (MkLibrary p h))
          else io_ret (-1, None)
      | _ => lib_destroy (MkLibrary p 0);; io_ret (-1, None)
      end
  | _ => io_ret (- ENOMEM, None)
  end.

(** The function pointers of the tables, in the order of the headers. *)
Definition rtlsdr_lib_fields : list string :=
  ["rtlsdr_open"; "rtlsdr_close"; "rtlsdr_set_sample_rate"; "rtlsdr_set_center_freq"; "rtlsdr_set_tuner_gain_mode";
   "rtlsdr_get_tuner_gains"; "rtlsdr_set_tuner_gain"; "rtlsdr_set_bias_tee"; "rtlsdr_reset_buffer";
   "rtlsdr_read_sync"; "rtlsdr_set_freq_correction"; "rtlsdr_get_index_by_serial"].

Definition airspy_lib_fields : list string :=
  ["airspy_open"; "airspy_set_sample_type"; "airspy_close"; "airspy_set_lna_agc"; "airspy_set_mixer_agc";
   "airspy_set_samplerate"; "airspy_set_packing"; "airspy_set_rf_bias"; "airspy_set_lna_gain"; "airspy_set_vga_gain";
   "airspy_set_mixer_gain"; "airspy_set_linearity_gain"; "airspy_set_sensitivity_gain"; "airspy_start_rx";
   "airspy_set_freq"; "airspy_stop_rx"; "airspy_lib_version"].

Definition hackrf_lib_fields : list string :=
  ["hackrf_init"; "hackrf_error_name"; "hackrf_version_string_read"; "hackrf_usb_api_version_read";
   "hackrf_set_vga_gain"; "hackrf_set_lna_gain"; "hackrf_set_amp_enable"; "hackrf_set_freq";
   "hackrf_set_baseband_filter_bandwidth"; "hackrf_set_sample_rate"; "hackrf_start_rx"; "hackrf_stop_rx";
   "hackrf_close"; "hackrf_exit"; "hackrf_open"; "hackrf_open_by_serial"; "hackrf_set_antenna_enable"].

Definition rtlsdr_lib_create : io (Z * option library) :=
  lib_create 104 "librtlsdr.so"
    ["rtlsdr_open"; "rtlsdr_close"; "rtlsdr_set_sample_rate"; "rtlsdr_set_center_freq"; "rtlsdr_set_tuner_gain_mode";
     "rtlsdr_get_tuner_gains"; "rtlsdr_set_tuner_gain"; "rtlsdr_set_bias_tee"; "rtlsdr_reset_buffer";
     "rtlsdr_read_sync"; "rtlsdr_set_freq_correction"; "rtlsdr_get_index_by_serial"] [].

Definition airspy_lib_create : io (Z * option library) :=
  lib_create 144 "libairspy.so"
    ["airspy_lib_version"; "airspy_open"; "airspy_set_sample_type"; "airspy_close"; "airspy_set_lna_agc";
     "airspy_set_samplerate"; "airspy_set_packing"; "airspy_set_rf_bias"; "airspy_set_lna_gain";
     "airspy_set_mixer_agc"; "airspy_set_vga_gain"; "airspy_set_mixer_gain"; "airspy_set_linearity_gain";
     "airspy_set_sensitivity_gain"; "airspy_start_rx"; "airspy_set_freq"; "airspy_stop_rx"] [airspy_lib_version].

Definition hackrf_lib_create : io (Z * option library) :=
  lib_create 144 "libhackrf.so"
    ["hackrf_init"; "hackrf_error_name"; "hackrf_version_string_read"; "hackrf_usb_api_version_read";
     "hackrf_set_vga_gain"; "hackrf_set_lna_gain"; "hackrf_set_amp_enable"; "hackrf_set_freq";
     "hackrf_set_baseband_filter_bandwidth"; "hackrf_set_sample_rate"; "hackrf_start_rx"; "hackrf_stop_rx";
     "hackrf_close"; "hackrf_exit"; "hackrf_open"; "hackrf_open_by_serial"; "hackrf_set_antenna_enable"] [].

(** libmsisdr is linked statically: there is nothing to load. *)
Definition msisdr_lib_create : io (Z * option library) :=
  result <- call (malloc 128);
  match result with
  | (0, [p]) => io_ret (0, Some (MkLibrary p 0))
  | _ => io_ret (- ENOMEM, None)
  end.

(** ** A simple environment

    Every open that answers 0 gives a new handle; every symbol is found. *)
Definition fresh_handle (tr : record (C := lib_call)) : Z :=
  match live tr with Some hs => 1 + foldr Z.max 0 hs | None => 1 end.

Definition simple_oracle (codes : lib_call -> Z) : oracle (C := lib_call) := fun tr c =>
  match c with
  | dlsym _ _ => (0, [1])
  | airspy_open => if codes c =? 0 then (0, [fresh_handle tr]) else (codes c, [0])
  | _ =>
      match use c with
      | Opens => if codes c =? 0 then (0, [fresh_handle tr]) else (codes c, [])
      | _ => (codes c, [])
      end
  end.

Lemma fold_max_le hs h : h ∈ hs -> h <= foldr Z.max 0 hs.
Proof. induction 1; cbn; lia. Qed.

Lemma fold_max_pos hs : 0 <= foldr Z.max 0 hs.
Proof. induction hs; cbn; lia. Qed.

Lemma fresh_handle_pos tr : 0 < fresh_handle tr.
Proof. unfold fresh_handle. case_match; [|lia]. pose proof (fold_max_pos l). lia. Qed.

Lemma fresh_handle_fresh tr hs : live tr = Some hs -> fresh_handle tr <> 0 /\ fresh_handle tr ∉ hs.
Proof.
  intros Hl. unfold fresh_handle. rewrite Hl. pose proof (fold_max_pos hs). split; [lia|].
  intros Hin. apply fold_max_le in Hin. lia.
Qed.

Lemma simple_oracle_documented codes : opens_documented (simple_oracle codes).
Proof.
  intros tr c Hc.
  assert (exists out, simple_oracle codes tr c = (if codes c =? 0 then (0, [fresh_handle tr]) else (codes c, out)) /\
            Forall (fun h => h = 0) out) as (out & -> & Hout).
  { destruct c; cbn in Hc; try discriminate; try (exists []; by split).
    - by destruct (dev =? 0).
    - exists [0]. split; [done|]. by constructor.
    - by destruct (dev =? 0).
    - by destruct (dev =? 0).
    - by destruct (fd =? -1).
    - by destruct (fd =? -1).
    - by destruct (fd =? -1).
    - by destruct (fd =? -1). }
  destruct (codes c =? 0) eqn:E; cbn.
  - split; [done|]. intros hs Hl _. exists (fresh_handle tr). split; [done|]. by apply fresh_handle_fresh.
  - split; [done|]. intros hs _ Hz. rewrite Hz in E. done.
Qed.


(** ** The tables are complete *)

(** A symbol was looked up and found. *)
Definition resolved (tr : record (C := lib_call)) (h : Z) (name : string) : Prop :=
  exists code p rest, (dlsym h name, (code, p :: rest)) ∈ tr /\ p <> 0.

Lemma resolved_app tr tr' h name : resolved tr h name -> resolved (tr ++ tr') h name.
Proof. intros (c & p & r & Hin & Hp). exists c, p, r. split; [|done]. apply elem_of_app. by left. Qed.

(** A call only adds to the record. *)
Lemma setup_functions_resolved lib o names : forall tr tr',
  setup_functions lib names o tr = Some (true, tr') ->
  (exists new, tr' = tr ++ new) /\ Forall (resolved tr' (handle lib)) names.
Proof.
  induction names as [|name names IH]; intros tr tr' H; cbn [setup_functions] in H.
  - unfold io_ret in H. simplify_eq. split; [exists []; by rewrite app_nil_r|by constructor].
  - unfold io_bind, call in H. destruct (o tr (dlsym (handle lib) name)) as [code out] eqn:E. cbn [snd] in H.
    destruct out as [|p rest].
    { destruct (lib_destroy lib o _) as [[[] ?]|]; [|done]. unfold io_ret in H. done. }
    destruct (p =? 0) eqn:Ep.
    { destruct (lib_destroy lib o _) as [[[] ?]|]; [|done]. unfold io_ret in H. done. }
    apply IH in H as ((new & ->) & Hall). rewrite <- app_assoc. split; [by eexists|].
    rewrite <- app_assoc in Hall. constructor; [|done].
    exists code, p, rest. split; [|by apply Z.eqb_neq]. apply elem_of_app. right. left.
Qed.

(** A library that was created has the symbols it asked for. *)
Lemma lib_create_resolved size file names version o tr lib tr' :
  lib_create size file names version o tr = Some ((0, Some lib), tr') -> Forall (resolved tr' (handle lib)) names.
Proof.
  unfold lib_create, io_bind, io_ret. destruct (call (malloc size) o tr) as [[[c [|q [|]]] tr1]|]; try done; try (destruct c; done).
  destruct c; [|done..]. destruct (call (dlopen file) o tr1) as [[[c [|h [|]]] tr2]|]; try done;
    try (destruct c; [..|]; destruct (lib_destroy _ o _) as [[[] ?]|]; done).
  destruct c; [|destruct (lib_destroy _ o _) as [[[] ?]|]; done..].
  destruct (setup_functions (MkLibrary q h) names o tr2) as [[[|] tr3]|] eqn:Es; [|done..].
  apply setup_functions_resolved in Es as [_ Hs]. destruct version as [|v version]; cbn; intros H; simplify_eq; [done|].
  eapply Forall_impl; [exact Hs|]. intros n Hn. by apply resolved_app.
Qed.

(** No NULL function pointer: when the table of a vendor library is created with
    code 0, every one of its function pointers, as the header declares them, is a
    symbol the library was found to have. *)
Theorem tables_complete o tr lib tr' :
  (rtlsdr_lib_create o tr = Some ((0, Some lib), tr') -> Forall (resolved tr' (handle lib)) rtlsdr_lib_fields) /\
  (airspy_lib_create o tr = Some ((0, Some lib), tr') -> Forall (resolved tr' (handle lib)) airspy_lib_fields) /\
  (hackrf_lib_create o tr = Some ((0, Some lib), tr') -> Forall (resolved tr' (handle lib)) hackrf_lib_fields).
Proof.
  assert (forall names fields, Forall (resolved tr' (handle lib)) names -> forallb (fun x => bool_decide (x ∈ names)) fields = true ->
    Forall (resolved tr' (handle lib)) fields) as Hsub.
  { intros names fields Hall Hf. apply Forall_forall. intros x Hx. rewrite List.forallb_forall in Hf.
    apply list_elem_of_In, Hf, bool_decide_eq_true_1 in Hx. by rewrite Forall_forall in Hall; apply Hall. }
  split_and!; intros H; apply lib_create_resolved in H; (eapply Hsub; [exact H|vm_compute; reflexivity]).
Qed.

End Lib.
