(* ===== verification/Rtlsdr.v ===== *)
(** * The RTL-SDR driver: src/sdr/rtlsdr_device.c

    The creation, the start and the stop of a device are code of the monad [io]
    over the calls of the table [rtlsdr_lib], of malloc and of pthreads; the
    receiver thread is the function from the answers of [rtlsdr_read_sync] to
    the buffers it delivers. *)
From S2P Require Import Prelude Float Config Io Lib.
Import Io Lib.
#[local] Open Scope Z_scope.
#[local] Open Scope io_scope.

Module Rtlsdr.

(** [struct rtlsdr_device_t]; the address of the structure is [self]. *)
Record rtlsdr_device := MkRtlsdr {
  self : Z;
  dev : Z;
  rtlsdr_device_thread : Z;
  output : Z;
}.

Definition with_dev (d : rtlsdr_device) (h : Z) : rtlsdr_device :=
  MkRtlsdr (self d) h (rtlsdr_device_thread d) (output d).

Definition with_thread (d : rtlsdr_device) (t : Z) : rtlsdr_device :=
  MkRtlsdr (self d) (dev d) t (output d).

(** ** [find_nearest_gain] *)

(** [abs(a - b)] on int. *)
Definition int_distance (a b : Z) : option Z :=
  _ ← ensure (bool_decide (- 2 ^ 31 < a - b < 2 ^ 31));
  Some (Z.abs (a - b)).

(** The loop, over cells that may not have been written. *)
Fixpoint nearest_loop (target nearest : Z) (gains : list (option Z)) : option Z :=
  match gains with
  | [] => Some nearest
  | cell :: gains' =>
      g ← cell;
      err1 ← int_distance target nearest;
      err2 ← int_distance target g;
      nearest_loop target (if err2 <? err1 then g else nearest) gains'
  end.

(** The array of [count] cells after the library has written [written]. *)
Definition gain_cells (count : nat) (written : list Z) : option (list (option Z)) :=
  if decide (length written <= count)%nat
  then Some (map Some written ++ replicate (count - length written) None)
  else UB.

Definition find_nearest_gain (dev target_gain : Z) : io (Z * Z) :=
  count <- call (rtlsdr_get_tuner_gains dev false);
  if fst count <=? 0 then io_ret (-1, 0)
  else
    gains <- call (malloc (4 * fst count));
    match gains with
    | (0, [p]) =>
        code <- call (rtlsdr_get_tuner_gains dev true);
        if fst code <=? 0 then call (free p);; io_ret (-1, 0)
        else
          match gain_cells (Z.to_nat (fst count)) (snd code) with
          | Some (Some g :: cells) =>
              match nearest_loop target_gain g (Some g :: cells) with
              | Some nearest => call (free p);; io_ret (0, nearest)
              | None => io_undefined
              end
          | _ => io_undefined
          end
    | _ => io_ret (- ENOMEM, 0)
    end.

(** ** The operations of the driver *)

Section driver.
Context (server_config : Config.server_config).

(** [ERROR_CHECK] *)
Definition error_check (d : rtlsdr_device) (x : io Z) (k : io (Z * rtlsdr_device)) : io (Z * rtlsdr_device) :=
  rc <- x;
  if rc =? 0 then k
  else (call (rtlsdr_close (dev d));; io_ret (rc, with_dev d 0)).

Definition rtlsdr_device_create : io (Z * option rtlsdr_device) :=
  device <- call (malloc 72);
  match device with
  | (0, [p]) =>
      out <- call (malloc (Config.buffer_size server_config));
      match out with
      | (0, [q]) => io_ret (0, Some (MkRtlsdr p 0 0 q))
      | _ => call (free p);; io_ret (- ENOMEM, None)
      end
  | _ => io_ret (- ENOMEM, None)
  end.

Definition device_index : io Z :=
  match Config.device_serial server_config with
  | Some serial =>
      index <- code_of (rtlsdr_get_index_by_serial serial);
      io_ret (if index <? 0 then Config.device_index server_config else index)
  | None => io_ret (Config.device_index server_config)
  end.

(** The correction, when there is one. *)
Definition set_ppm (d : rtlsdr_device) (k : io (Z * rtlsdr_device)) : io (Z * rtlsdr_device) :=
  if Config.ppm server_config =? 0 then k
  else error_check d (code_of (rtlsdr_set_freq_correction (dev d) (Config.ppm server_config))) k.

(** The gain of a device in manual mode. *)
Definition set_gain (d : rtlsdr_device) (k : io (Z * rtlsdr_device)) : io (Z * rtlsdr_device) :=
  if Config.gain_mode server_config =? 1 then
    nearest <- find_nearest_gain (dev d) (Config.gain server_config);
    error_check d (io_ret (fst nearest))
      (error_check d (code_of (rtlsdr_set_tuner_gain (dev d) (snd nearest))) k)
  else k.

Definition rtlsdr_device_start_rx (band_freq : Z) (d : rtlsdr_device) : io (Z * rtlsdr_device) :=
  index <- device_index;
  opened <- call (rtlsdr_open (wrap 32 index));
  let d1 := match snd opened with h :: _ => with_dev d h | [] => d end in
  error_check d1 (io_ret (fst opened))
    (error_check d1 (code_of (rtlsdr_set_sample_rate (dev d1) (Config.band_sampling_rate server_config)))
    (error_check d1 (code_of (rtlsdr_set_tuner_gain_mode (dev d1) (Config.gain_mode server_config)))
    (set_ppm d1
    (set_gain d1
    (error_check d1 (code_of (rtlsdr_set_bias_tee (dev d1) (Config.bias_t server_config)))
    (error_check d1 (code_of (rtlsdr_reset_buffer (dev d1)))
    (error_check d1 (code_of (rtlsdr_set_center_freq (dev d1) band_freq))
    (thread <- call pthread_create;
     match thread with
     | (0, [t]) => io_ret (0, with_thread d1 t)
     | _ => io_ret (4, d1)
     end)))))))).

Definition rtlsdr_device_stop_rx (d : rtlsdr_device) : io rtlsdr_device :=
  call (rtlsdr_close (dev d));;
  call (pthread_join (rtlsdr_device_thread d));;
  io_ret (with_dev d 0).

Definition rtlsdr_device_destroy (d : rtlsdr_device) : io unit :=
  (if output d =? 0 then io_ret tt else (call (free (output d));; io_ret tt));;
  call (free (self d));;
  io_ret tt.
End driver.

(** ** The receiver thread

    [reads] are the answers of [rtlsdr_read_sync] (its code, the number of
    bytes it says it read, the cells it wrote), each with the value of
    [device->running] before the read. *)
Fixpoint rtlsdr_callback (buffer : list Z) (reads : list (bool * (Z * Z * list Z))) : option (list (list Z)) :=
  match reads with
  | (true, (code, n_read, data)) :: reads' =>
      buffer' ← write_at buffer 0 data;
      if code =? 0 then
        sent ← read_at buffer' 0 (Z.to_nat n_read);
        rest ← rtlsdr_callback buffer' reads';
        Some (sent :: rest)
      else Some []
  | _ => Some []
  end.

(** ** Specifications *)

(** The first of the gains that are nearest to the target. *)
Definition nearest_gain (target : Z) (gains : list Z) (g : Z) : Prop :=
  exists before after, gains = before ++ g :: after /\
    (forall x, x ∈ before -> Z.abs (target - g) < Z.abs (target - x)) /\
    (forall x, x ∈ after -> Z.abs (target - g) <= Z.abs (target - x)).

Definition small (x : Z) : Prop := - 2 ^ 30 <= x < 2 ^ 30.

(** [rtlsdr_get_tuner_gains] returns the number of gains, and writes them when
    it gets an array. *)
Definition gains_documented (o : oracle) (gains : list Z) : Prop :=
  Forall small gains /\
  forall tr h, fst (o tr (rtlsdr_get_tuner_gains h false)) = Z.of_nat (length gains) /\
               o tr (rtlsdr_get_tuner_gains h true) = (Z.of_nat (length gains), gains).

(** What [rtlsdr_device_start_rx] is meant to set up on device [h]. *)
Definition configured (config : Config.server_config) (gains : list Z) (band_freq h : Z) (l : list lib_call) : Prop :=
  exists gain_setting,
    l = [rtlsdr_set_sample_rate h (Config.band_sampling_rate config);
         rtlsdr_set_tuner_gain_mode h (Config.gain_mode config)]
        ++ (if Config.ppm config =? 0 then [] else [rtlsdr_set_freq_correction h (Config.ppm config)])
        ++ gain_setting
        ++ [rtlsdr_set_bias_tee h (Config.bias_t config); rtlsdr_reset_buffer h; rtlsdr_set_center_freq h band_freq] /\
    if Config.gain_mode config =? 1
    then exists g, gain_setting = [rtlsdr_set_tuner_gain h g] /\ nearest_gain (Config.gain config) gains g
    else gain_setting = [].

(** ** Lemmas *)

Lemma int_distance_small a b : small a -> small b -> int_distance a b = Some (Z.abs (a - b)).
Proof. unfold small, int_distance. intros. rewrite bool_decide_true by lia. done. Qed.

Lemma nearest_loop_spec target gains : small target -> forall seen cur, Forall small (seen ++ gains) -> small cur ->
  nearest_gain target seen cur ->
  exists g, nearest_loop target cur (map Some gains) = Some g /\ nearest_gain target (seen ++ gains) g.
Proof.
  intros Ht. induction gains as [|x gains IH]; intros seen cur Hs Hc Hn.
  - exists cur. by rewrite app_nil_r.
  - assert (small x) as Hx by (apply Forall_app in Hs as [_ Hs]; by apply Forall_cons in Hs as [? _]).
    cbn [map nearest_loop mbind option_bind]. rewrite !int_distance_small by done. cbn [mbind option_bind].
    replace (seen ++ x :: gains) with ((seen ++ [x]) ++ gains) in * by (by rewrite <- app_assoc).
    apply IH; [done|by destruct (_ <? _)|]. destruct Hn as (before & after & -> & Hb & Ha).
    destruct (Z.abs (target - x) <? Z.abs (target - cur)) eqn:E.
    + apply Z.ltb_lt in E. exists (before ++ cur :: after), []. split; [done|]. split; [|set_solver].
      intros y Hy. apply elem_of_app in Hy as [Hy|Hy]; [specialize (Hb y Hy); lia|].
      apply elem_of_cons in Hy as [->|Hy]; [done|specialize (Ha y Hy); lia].
    + apply Z.ltb_ge in E. exists before, (after ++ [x]). split; [by rewrite <- app_assoc|]. split; [done|].
      intros y Hy. apply elem_of_app in Hy as [Hy|Hy]; [by apply Ha|]. apply list_elem_of_singleton in Hy as ->. done.
Qed.

Lemma gain_cells_full gains : gain_cells (length gains) gains = Some (map Some gains).
Proof. unfold gain_cells. rewrite decide_True by lia. by rewrite Nat.sub_diag, app_nil_r. Qed.

(** [find_nearest_gain] gives back its memory. *)
Lemma find_nearest_gain_wp o tr h hs target gains Q :
  opens_documented o -> gains_documented o gains -> small target -> live tr = Some (h :: hs) ->
  (forall r tr', live tr' = Some (h :: hs) -> settings tr' = settings tr ->
    (fst r = 0 /\ nearest_gain target gains (snd r)) \/
    (fst r < 0 /\ (gains = [] \/ exists tr0 n, fst (o tr0 (malloc n)) <> 0)) -> Q r tr') ->
  wp (find_nearest_gain h target) Q o tr.
Proof.
  intros Ho [Hsm Hg] Ht Hl HQ. unfold find_nearest_gain. apply wp_bind.
  eapply (wp_use _ h); [done|done|left|]. intros a tr1 Hl1 Hc1 ->. destruct (Hg tr h) as [-> _].
  apply settings_snoc in Hc1. cbn [is_setting use lib_calls] in Hc1. rewrite app_nil_r in Hc1.
  destruct (Z.of_nat (length gains) <=? 0) eqn:E.
  { apply HQ; [done|done|]. right. split; [done|]. left. apply Z.leb_le in E. destruct gains; [done|]. cbn [length] in E. lia. }
  apply Z.leb_gt in E. apply wp_bind. eapply wp_open; [done|done|done| |].
  2:{ intros code out tr2 Hans Hne _ Hl2 Hc2. apply settings_snoc in Hc2. cbn in Hc2.
      assert (wp (io_ret (- ENOMEM, 0)) Q o tr2) as Hx.
      { apply wp_ret, HQ; [done|by rewrite Hc2, app_nil_r|]. right. split; [done|]. right.
        eexists _, _. by rewrite Hans. }
      by destruct code. }
  intros p tr2 Hp Hfr Hl2 Hc2. apply settings_snoc in Hc2. cbn [is_setting use lib_calls] in Hc2. rewrite app_nil_r in Hc2.
  apply wp_bind. eapply (wp_use _ h); [done|done|right; left|]. intros a tr3 Hl3 Hc3 ->. destruct (Hg tr2 h) as [_ ->].
  apply settings_snoc in Hc3. cbn [is_setting use lib_calls] in Hc3. rewrite app_nil_r in Hc3. cbn [fst snd].
  rewrite (proj2 (Z.leb_gt _ _)) by done. rewrite Nat2Z.id, gain_cells_full.
  destruct gains as [|g gains]; [done|]. cbn [map].
  destruct (nearest_loop_spec target (g :: gains) Ht [g] g) as (n & Hn & Hspec).
  { apply Forall_cons in Hsm as [Hx Hsm]. cbn [app]. by constructor; [|constructor]. }
  { by apply Forall_cons in Hsm as [? _]. }
  { exists [], []. split; [done|]. split; intros x Hx; by apply not_elem_of_nil in Hx. }
  cbn [map] in Hn. rewrite Hn. apply wp_bind. eapply (wp_close _ p); [done|done|by apply close_head|].
  intros a tr4 Hl4 Hc4. apply settings_snoc in Hc4. cbn [is_setting use lib_calls] in Hc4. rewrite app_nil_r in Hc4.
  apply wp_ret, HQ; [done|congruence|]. left. split; [done|]. destruct Hspec as (before & after & He & Hb & Ha).
  destruct before as [|b before].
  - cbn in He. injection He as <- <-. exists [], gains. split; [done|]. split; [intros x Hx; by apply not_elem_of_nil in Hx|].
    intros x Hx. apply Ha. by right.
  - cbn in He. injection He as <- He. exists before, after. split; [done|]. split; [|done].
    intros x Hx. apply Hb. by right.
Qed.

(** One [ERROR_CHECK] on an open device: a failure closes the device. *)
Lemma rtlsdr_error_check_wp (Q : Z * rtlsdr_device -> record -> Prop) o tr d (h : Z) hs rc k :
  opens_documented o -> dev d = h -> h <> 0 -> h ∉ hs -> live tr = Some (h :: hs) ->
  (forall code tr', code <> 0 -> live tr' = Some hs -> Q (code, with_dev d 0) tr') ->
  (rc = 0 -> wp k Q o tr) ->
  wp (error_check d (io_ret rc) k) Q o tr.
Proof.
  intros Ho Hd Hh Hfr Hl Hfail Hk. unfold error_check. apply wp_bind, wp_ret.
  destruct (rc =? 0) eqn:E; [by apply Hk, Z.eqb_eq|]. apply Z.eqb_neq in E. rewrite Hd.
  apply wp_bind. eapply (wp_close _ h); [|done|by apply close_head|].
  { cbn. by rewrite (proj2 (Z.eqb_neq _ _)). }
  intros a tr' Hl' _. by apply wp_ret, Hfail.
Qed.

Lemma rtlsdr_error_check_use_wp (Q : Z * rtlsdr_device -> record -> Prop) o tr d (h : Z) hs c k :
  opens_documented o -> dev d = h -> h <> 0 -> h ∉ hs -> live tr = Some (h :: hs) -> use c = Uses h ->
  (forall code tr', code <> 0 -> live tr' = Some hs -> Q (code, with_dev d 0) tr') ->
  (forall tr', live tr' = Some (h :: hs) -> settings tr' = settings tr ++ (if is_setting c then [c] else []) ->
     wp k Q o tr') ->
  wp (error_check d (code_of c) k) Q o tr.
Proof.
  intros Ho Hd Hh Hfr Hl Hc Hfail Hk. unfold error_check at 1, code_of at 1.
  apply wp_bind, wp_bind. eapply (wp_use _ h); [done|done|left|]. intros a tr1 Hl1 Hc1 _. apply wp_ret.
  apply settings_snoc in Hc1.
  pose proof (rtlsdr_error_check_wp Q o tr1 d h hs (fst a) k Ho Hd Hh Hfr Hl1 Hfail) as Hx. apply Hx.
  intros _. by apply Hk.
Qed.

Lemma rtlsdr_device_index_wp config o tr hs (Q : Z -> record -> Prop) : live tr = Some hs ->
  (forall i tr', live tr' = Some hs -> settings tr' = settings tr -> Q i tr') ->
  wp (device_index config) Q o tr.
Proof.
  intros Hl HQ. unfold device_index. destruct (Config.device_serial config); [|by apply wp_ret, HQ].
  apply wp_bind, wp_bind. eapply wp_unrelated; [done|done|]. intros a tr1 Hl1 Hc1 _.
  apply wp_ret, wp_ret, HQ; [done|]. apply settings_snoc in Hc1. by rewrite Hc1, app_nil_r.
Qed.

Lemma rtlsdr_ppm_wp config (Q : Z * rtlsdr_device -> record -> Prop) o tr d (h : Z) hs k :
  opens_documented o -> dev d = h -> h <> 0 -> h ∉ hs -> live tr = Some (h :: hs) ->
  (forall code tr', code <> 0 -> live tr' = Some hs -> Q (code, with_dev d 0) tr') ->
  (forall tr', live tr' = Some (h :: hs) ->
     settings tr' = settings tr ++ (if Config.ppm config =? 0 then [] else [rtlsdr_set_freq_correction h (Config.ppm config)]) ->
     wp k Q o tr') ->
  wp (set_ppm config d k) Q o tr.
Proof.
  intros Ho Hd Hh Hfr Hl Hfail Hk. unfold set_ppm. destruct (Config.ppm config =? 0).
  - apply Hk; [done|by rewrite app_nil_r].
  - rewrite Hd. eapply rtlsdr_error_check_use_wp; [done..|]. intros tr1 Hl1 Hs1. by apply Hk.
Qed.

Lemma rtlsdr_set_gain_wp config (Q : Z * rtlsdr_device -> record -> Prop) o tr d (h : Z) hs gains k :
  opens_documented o -> gains_documented o gains -> small (Config.gain config) ->
  dev d = h -> h <> 0 -> h ∉ hs -> live tr = Some (h :: hs) ->
  (forall code tr', code <> 0 -> live tr' = Some hs -> Q (code, with_dev d 0) tr') ->
  (forall tr' l, live tr' = Some (h :: hs) -> settings tr' = settings tr ++ l ->
     (if Config.gain_mode config =? 1
      then exists g, l = [rtlsdr_set_tuner_gain h g] /\ nearest_gain (Config.gain config) gains g
      else l = []) ->
     wp k Q o tr') ->
  wp (set_gain config d k) Q o tr.
Proof.
  intros Ho Hg Hsm Hd Hh Hfr Hl Hfail Hk. unfold set_gain. destruct (Config.gain_mode config =? 1).
  - apply wp_bind. rewrite Hd. eapply find_nearest_gain_wp; [done..|]. intros [code n] tr1 Hl1 Hs1 Hr. cbn [fst snd] in *.
    eapply rtlsdr_error_check_wp; [done..|]. intros ->. destruct Hr as [[_ Hn]|[? _]]; [|lia].
    eapply rtlsdr_error_check_use_wp; [done..|]. intros tr2 Hl2 Hs2. cbn [is_setting use lib_calls] in Hs2.
    apply (Hk tr2 [rtlsdr_set_tuner_gain h n]); [done|congruence|]. by exists n.
  - apply (Hk tr []); [done|by rewrite app_nil_r|done].
Qed.

(** [rtlsdr_device_start_rx] opens and configures the device and starts its
    thread; a failure of the library closes what was opened. *)
Lemma rtlsdr_start_rx_wp config o tr d hs gains f (Q : Z * rtlsdr_device -> record -> Prop) :
  opens_documented o -> gains_documented o gains -> small (Config.gain config) ->
  dev d = 0 -> live tr = Some hs ->
  (forall code tr', code <> 0 -> live tr' = Some hs -> Q (code, with_dev d 0) tr') ->
  (forall h tr', h <> 0 -> h ∉ hs -> live tr' = Some (h :: hs) -> Q (4, with_dev d h) tr') ->
  (forall h t tr', h <> 0 -> h ∉ hs -> t <> 0 -> t ∉ h :: hs -> live tr' = Some (t :: h :: hs) ->
     (exists l, settings tr' = settings tr ++ l /\ configured config gains f h l) ->
     Q (0, with_thread (with_dev d h) t) tr') ->
  wp (rtlsdr_device_start_rx config f d) Q o tr.
Proof.
  intros Ho Hg Hsm Hd Hl Hfail Hthread Hok. unfold rtlsdr_device_start_rx.
  apply wp_bind. eapply rtlsdr_device_index_wp; [done|]. intros i tr0 Hl0 Hs0. apply wp_bind.
  eapply wp_open; [done|done|done| |].
  2:{ intros code out tr1 Hans Hne Hnull Hl1 Hc1. cbn [fst snd]. unfold error_check at 1. apply wp_bind, wp_ret.
      rewrite (proj2 (Z.eqb_neq _ _)) by done.
      assert (dev (match out with h :: _ => with_dev d h | [] => d end) = 0) as ->.
      { destruct out; [done|]. by apply Forall_cons in Hnull as [-> _]. }
      apply wp_bind. eapply wp_unrelated; [done|done|]. intros a tr2 Hl2 _ _. apply wp_ret.
      replace (with_dev _ 0) with (with_dev d 0) by (by destruct out). by apply Hfail. }
  intros h tr1 Hh Hfr Hl1 Hc1. apply settings_snoc in Hc1. cbn [is_setting use lib_calls] in Hc1. rewrite app_nil_r in Hc1.
  cbn [snd fst].
  assert (forall code tr', code <> 0 -> live tr' = Some hs -> Q (code, with_dev (with_dev d h) 0) tr') as Hfail'
    by exact Hfail.
  eapply rtlsdr_error_check_wp; [done..|]. intros _.
  eapply rtlsdr_error_check_use_wp; [done..|]. intros tr2 Hl2 Hs2.
  eapply rtlsdr_error_check_use_wp; [done..|]. intros tr3 Hl3 Hs3.
  eapply (rtlsdr_ppm_wp config Q o tr3); [done..|]. intros tr4 Hl4 Hs4.
  eapply rtlsdr_set_gain_wp; [done..|]. intros tr5 lg Hl5 Hs5 Hlg.
  eapply rtlsdr_error_check_use_wp; [done..|]. intros tr6 Hl6 Hs6.
  eapply rtlsdr_error_check_use_wp; [done..|]. intros tr7 Hl7 Hs7.
  eapply rtlsdr_error_check_use_wp; [done..|]. intros tr8 Hl8 Hs8.
  cbn [is_setting use lib_calls] in *. apply wp_bind. eapply wp_open; [done|done|done| |].
  - intros t tr9 Ht Htf Hl9 Hc9. apply settings_snoc in Hc9. cbn [is_setting use lib_calls] in Hc9. rewrite app_nil_r in Hc9.
    apply wp_ret, Hok; [done..|]. eexists. split; [|by exists lg].
    rewrite Hc9, Hs8, Hs7, Hs6, Hs5, Hs4, Hs3, Hs2, Hc1, Hs0. by rewrite <- !app_assoc.
  - intros code out tr9 Hans Hne _ Hl9 _. destruct code; try done; by apply wp_ret, Hthread.
Qed.

(** ** Theorems *)

(** C29. Given what librtlsdr documents, [find_nearest_gain] leaves nothing
    allocated, and either yields the first of the supported gains that are
    nearest to the requested one, or fails because there is no gain or no
    memory. *)
Theorem find_nearest_gain_correct o tr h hs target gains
  (Ho : opens_documented o) (Hg : gains_documented o gains) (Ht : small target) (Hl : live tr = Some (h :: hs)) :
  wp (find_nearest_gain h target) (fun r tr' =>
    live tr' = Some (h :: hs) /\ settings tr' = settings tr /\
    ((fst r = 0 /\ nearest_gain target gains (snd r)) \/
     (fst r < 0 /\ (gains = [] \/ exists tr0 n, fst (o tr0 (malloc n)) <> 0)))) o tr.
Proof. eapply find_nearest_gain_wp; [done..|]. auto. Qed.

(** C30. [rtlsdr_device_start_rx] on a stopped receiver has one of three outcomes:
    a failure with everything closed; a failure (code 4) of the creation of the
    thread, with the device left open; or the receiver running, with exactly the
    settings of the configuration, in the order librtlsdr needs. *)
Theorem rtlsdr_start_rx_correct config o tr d hs gains f
  (Ho : opens_documented o) (Hg : gains_documented o gains) (Hsm : small (Config.gain config))
  (Hd : dev d = 0) (Hl : live tr = Some hs) :
  wp (rtlsdr_device_start_rx config f d) (fun r tr' =>
    (fst r <> 0 /\ snd r = with_dev d 0 /\ live tr' = Some hs) \/
    (fst r = 4 /\ exists h, snd r = with_dev d h /\ h <> 0 /\ live tr' = Some (h :: hs)) \/
    (fst r = 0 /\ exists h t l, snd r = with_thread (with_dev d h) t /\ live tr' = Some (t :: h :: hs) /\
       settings tr' = settings tr ++ l /\ configured config gains f h l)) o tr.
Proof.
  eapply rtlsdr_start_rx_wp; [done..| | |].
  - intros code tr' Hne Hl'. by left.
  - intros h tr' Hh _ Hl'. right; left. split; [done|]. by exists h.
  - intros h t tr' _ _ _ _ Hl' (l & Hs & Hc). right; right. split; [done|]. by exists h, t, l.
Qed.

(** [rtlsdr_device_stop_rx] does not check that the receiver was started: after
    a start that failed (the server stops the device in that case too) it joins
    a thread that does not exist. *)
Theorem rtlsdr_stop_after_failed_start config o tr d hs gains f
  (Ho : opens_documented o) (Hg : gains_documented o gains) (Hsm : small (Config.gain config))
  (Hd : dev d = 0) (Hl : live tr = Some hs) (Ht : rtlsdr_device_thread d ∉ hs) :
  wp (rtlsdr_device_start_rx config f d) (fun r tr' =>
    fst r <> 0 -> wp (rtlsdr_device_stop_rx (snd r)) (fun _ tr'' => live tr'' = None) o tr') o tr.
Proof.
  assert (forall tr1 thread (d' : rtlsdr_device), live tr1 = Some hs -> thread ∉ hs ->
            wp (call (pthread_join thread);; io_ret d') (fun _ tr'' => live tr'' = None) o tr1) as Hjoin.
  { intros tr1 thread d' Hl1 Hth. apply wp_bind, wp_call, wp_ret. rewrite live_snoc, Hl1. unfold live_step. cbn.
    unfold close_handle. by rewrite decide_False. }
  eapply rtlsdr_start_rx_wp; [done..| | |].
  - intros code tr' Hne Hl' _. cbn [snd]. unfold rtlsdr_device_stop_rx. apply wp_bind.
    eapply wp_unrelated; [done|exact Hl'|]. intros a tr1 Hl1 _ _. by apply Hjoin.
  - intros h tr' Hh Hfr Hl' _. cbn [snd]. unfold rtlsdr_device_stop_rx. apply wp_bind.
    eapply (wp_close _ h); [|exact Hl'|by apply close_head|].
    { cbn. by rewrite (proj2 (Z.eqb_neq _ _)). }
    intros a tr1 Hl1 _. by apply Hjoin.
  - intros h t tr' _ _ _ _ _ _ Hz. done.
Qed.

(** ** Witnesses *)

Definition example_gains : list Z := [0; 9; 14; 27; 402; 496].

Definition example_config : Config.server_config :=
  Config.MkServerConfig "127.0.0.1" 8090 5 None 0 0 0 1 420 10 0 262144 2400000 64 5 0 0 0 0 0 0 0 0 0 0 0 0 0 0 0
    "/tmp" false.

(** A receiver with these gains; [codes] are the answers of the other calls. *)
Definition example_oracle (codes : lib_call -> Z) : oracle (C := lib_call) := fun tr c =>
  match c with
  | rtlsdr_get_tuner_gains _ b => (Z.of_nat (length example_gains), if b then example_gains else [])
  | _ => simple_oracle codes tr c
  end.

Lemma example_oracle_documented codes :
  opens_documented (example_oracle codes) /\ gains_documented (example_oracle codes) example_gains.
Proof.
  split.
  - intros tr c Hc. pose proof (simple_oracle_documented codes tr c Hc) as Hx. by destruct c.
  - split; [unfold small, example_gains; repeat constructor; lia|]. done.
Qed.

Lemma find_nearest_gain_correct_witness :
  wp (find_nearest_gain 1 420) (fun r tr' =>
    live tr' = Some [1] /\ settings tr' = settings [(rtlsdr_open 0, (0, [1]))] /\
    ((fst r = 0 /\ nearest_gain 420 example_gains (snd r)) \/
     (fst r < 0 /\ (example_gains = [] \/ exists tr0 n, fst (example_oracle (fun _ => 0) tr0 (malloc n)) <> 0))))
    (example_oracle (fun _ => 0)) [(rtlsdr_open 0, (0, [1]))].
Proof.
  apply (find_nearest_gain_correct (example_oracle (fun _ => 0)) [(rtlsdr_open 0, (0, [1]))] 1 [] 420 example_gains).
  - apply example_oracle_documented.
  - apply example_oracle_documented.
  - unfold small. lia.
  - reflexivity.
Defined.

Lemma rtlsdr_start_rx_correct_witness :
  wp (rtlsdr_device_start_rx example_config 100000000 (MkRtlsdr 1 0 0 2)) (fun r tr' =>
    (fst r <> 0 /\ snd r = with_dev (MkRtlsdr 1 0 0 2) 0 /\ live tr' = Some []) \/
    (fst r = 4 /\ exists h, snd r = with_dev (MkRtlsdr 1 0 0 2) h /\ h <> 0 /\ live tr' = Some [h]) \/
    (fst r = 0 /\ exists h t l, snd r = with_thread (with_dev (MkRtlsdr 1 0 0 2) h) t /\ live tr' = Some [t; h] /\
       settings tr' = [] ++ l /\ configured example_config example_gains 100000000 h l))
    (example_oracle (fun _ => 0)) [].
Proof.
  apply (rtlsdr_start_rx_correct example_config (example_oracle (fun _ => 0)) [] (MkRtlsdr 1 0 0 2) [] example_gains).
  - apply example_oracle_documented.
  - apply example_oracle_documented.
  - unfold small. cbn. lia.
  - reflexivity.
  - reflexivity.
Defined.

Lemma rtlsdr_stop_after_failed_start_witness :
  wp (rtlsdr_device_start_rx example_config 100000000 (MkRtlsdr 1 0 0 2)) (fun r tr' =>
    fst r <> 0 -> wp (rtlsdr_device_stop_rx (snd r)) (fun _ tr'' => live tr'' = None)
      (example_oracle (fun c => match c with rtlsdr_open _ => -3 | _ => 0 end)) tr')
    (example_oracle (fun c => match c with rtlsdr_open _ => -3 | _ => 0 end)) [].
Proof.
  apply (rtlsdr_stop_after_failed_start example_config _ [] (MkRtlsdr 1 0 0 2) [] example_gains).
  - apply example_oracle_documented.
  - apply example_oracle_documented.
  - unfold small. cbn. lia.
  - reflexivity.
  - reflexivity.
  - apply not_elem_of_nil.
Defined.

End Rtlsdr.
