(* ===== verification/Airspy.v ===== *)
(** * The Airspy driver: src/sdr/airspy_device.c

    A plugin whose structure has been freed is [None]: any further operation on
    it is undefined. *)
From S2P Require Import Prelude Float Config Io Lib.
Import Io Lib.
#[local] Open Scope Z_scope.
#[local] Open Scope io_scope.

Module Airspy.

(** [struct airspy_device_t]; its address is [self]. *)
Record airspy_device := MkAirspy { self : Z; dev : Z }.

Definition with_dev (d : airspy_device) (h : Z) : airspy_device := MkAirspy (self d) h.

Definition airspy_device_create : io (Z * option airspy_device) :=
  device <- call (malloc 48);
  match device with
  | (0, [p]) => io_ret (0, Some (MkAirspy p 0))
  | _ => io_ret (- ENOMEM, None)
  end.

Definition airspy_device_destroy (plugin : option airspy_device) : io unit :=
  match plugin with
  | Some d => call (free (self d));; io_ret tt
  | None => io_undefined
  end.

Section driver.
Context (server_config : Config.server_config) (AIRSPY_SAMPLE_INT16_IQ : Z).

(** [ERROR_CHECK] *)
Definition error_check (d : airspy_device) (x : io Z) (k : io (Z * option airspy_device))
    : io (Z * option airspy_device) :=
  check (fun rc => negb (rc =? 0))
        (fun rc => if dev d =? 0 then io_ret (rc, Some d)
                   else (call (airspy_close (dev d));; io_ret (rc, Some (with_dev d 0)))) x k.

(** The switch over the gain mode. *)
Definition set_gain (d : airspy_device) (k : io (Z * option airspy_device)) : io (Z * option airspy_device) :=
  let mode := Config.airspy_gain_mode server_config in
  if mode =? Config.AIRSPY_GAIN_SENSITIVITY then
    error_check d (code_of (airspy_set_sensitivity_gain (dev d) (wrap 8 (Config.airspy_sensitivity_gain server_config)))) k
  else if mode =? Config.AIRSPY_GAIN_LINEARITY then
    error_check d (code_of (airspy_set_linearity_gain (dev d) (wrap 8 (Config.airspy_linearity_gain server_config)))) k
  else if mode =? Config.AIRSPY_GAIN_AUTO then
    error_check d (code_of (airspy_set_lna_agc (dev d) 1))
    (error_check d (code_of (airspy_set_mixer_agc (dev d) 1)) k)
  else if mode =? Config.AIRSPY_GAIN_MANUAL then
    error_check d (code_of (airspy_set_vga_gain (dev d) (wrap 8 (Config.airspy_vga_gain server_config))))
    (error_check d (code_of (airspy_set_mixer_gain (dev d) (wrap 8 (Config.airspy_mixer_gain server_config))))
    (error_check d (code_of (airspy_set_lna_gain (dev d) (wrap 8 (Config.airspy_lna_gain server_config)))) k))
  else (airspy_device_destroy (Some d);; io_ret (1, None)).

Definition start_rx (band_freq : Z) (d : airspy_device) : io (Z * option airspy_device) :=
  opened <- call airspy_open;
  let d1 := match snd opened with h :: _ => with_dev d h | [] => d end in
  error_check d1 (io_ret (fst opened))
  (error_check d1 (code_of (airspy_set_sample_type (dev d1) AIRSPY_SAMPLE_INT16_IQ))
  (error_check d1 (code_of (airspy_set_samplerate (dev d1) (Config.band_sampling_rate server_config)))
  (error_check d1 (code_of (airspy_set_packing (dev d1) 1))
  (error_check d1 (code_of (airspy_set_rf_bias (dev d1) (wrap 8 (Config.bias_t server_config))))
  (set_gain d1
  (error_check d1 (code_of (airspy_set_freq (dev d1) band_freq))
  (code <- code_of (Lib.airspy_start_rx (dev d1)); io_ret (code, Some d1)))))))).

Definition airspy_device_start_rx (band_freq : Z) (plugin : option airspy_device) : io (Z * option airspy_device) :=
  match plugin with Some d => start_rx band_freq d | None => io_undefined end.
End driver.

Definition airspy_device_stop_rx (plugin : option airspy_device) : io (option airspy_device) :=
  match plugin with
  | Some d =>
      if dev d =? 0 then io_ret plugin
      else (call (Lib.airspy_stop_rx (dev d));; call (airspy_close (dev d));; io_ret plugin)
  | None => io_undefined
  end.

(** The gain modes the switch knows. *)
Definition known_gain_mode (config : Config.server_config) : Prop :=
  0 <= Config.airspy_gain_mode config <= 3.

Definition gain_settings (config : Config.server_config) (h : Z) : list lib_call :=
  let mode := Config.airspy_gain_mode config in
  if mode =? Config.AIRSPY_GAIN_SENSITIVITY then
    [airspy_set_sensitivity_gain h (wrap 8 (Config.airspy_sensitivity_gain config))]
  else if mode =? Config.AIRSPY_GAIN_LINEARITY then
    [airspy_set_linearity_gain h (wrap 8 (Config.airspy_linearity_gain config))]
  else if mode =? Config.AIRSPY_GAIN_AUTO then [airspy_set_lna_agc h 1; airspy_set_mixer_agc h 1]
  else [airspy_set_vga_gain h (wrap 8 (Config.airspy_vga_gain config));
        airspy_set_mixer_gain h (wrap 8 (Config.airspy_mixer_gain config));
        airspy_set_lna_gain h (wrap 8 (Config.airspy_lna_gain config))].

(** What a successful start sets up on device [h]. *)
Definition configured (config : Config.server_config) (int16_iq band_freq h : Z) : list lib_call :=
  [airspy_set_sample_type h int16_iq; airspy_set_samplerate h (Config.band_sampling_rate config);
   airspy_set_packing h 1; airspy_set_rf_bias h (wrap 8 (Config.bias_t config))]
  ++ gain_settings config h ++ [airspy_set_freq h band_freq; Lib.airspy_start_rx h].

(** A failing [airspy_open] sets the pointer to NULL. *)
Definition open_clears (o : oracle) : Prop :=
  forall tr, fst (o tr airspy_open) <> 0 -> snd (o tr airspy_open) = [0].

(** ** Lemmas *)

Section lemmas.
Context (config : Config.server_config) (int16_iq : Z) (o : oracle (C := lib_call)) (hs : list Z)
  (Q : Z * option airspy_device -> record (C := lib_call) -> Prop).

Lemma airspy_error_check_use_wp tr d (h : Z) c k :
  dev d = h -> h <> 0 -> h ∉ hs -> live tr = Some (h :: hs) -> use c = Uses h ->
  (forall code tr', code <> 0 -> live tr' = Some hs -> Q (code, Some (with_dev d 0)) tr') ->
  (forall tr', live tr' = Some (h :: hs) -> settings tr' = settings tr ++ (if is_setting c then [c] else []) ->
     wp k Q o tr') ->
  wp (error_check d (code_of c) k) Q o tr.
Proof using Type.
  intros Hd Hh Hfr Hl Hc Hfail Hk. unfold error_check. eapply check_use_wp; [exact Hc|exact Hl|left| |].
  - intros code tr' Hcode Hl'. apply negb_true_iff, Z.eqb_neq in Hcode. rewrite Hd, (proj2 (Z.eqb_neq _ _)) by done.
    apply wp_bind. eapply wp_close; [done|done|by apply close_head|].
    intros a tr2 Hl2 _. by apply wp_ret, Hfail.
  - intros tr' Hl' Hc'. by apply Hk, settings_snoc.
Qed.

Lemma airspy_set_gain_wp tr d (h : Z) k :
  known_gain_mode config -> dev d = h -> h <> 0 -> h ∉ hs -> live tr = Some (h :: hs) ->
  (forall code tr', code <> 0 -> live tr' = Some hs -> Q (code, Some (with_dev d 0)) tr') ->
  (forall tr', live tr' = Some (h :: hs) -> settings tr' = settings tr ++ gain_settings config h -> wp k Q o tr') ->
  wp (set_gain config d k) Q o tr.
Proof using Type.
  unfold known_gain_mode, set_gain, gain_settings, Config.AIRSPY_GAIN_SENSITIVITY, Config.AIRSPY_GAIN_LINEARITY,
    Config.AIRSPY_GAIN_AUTO, Config.AIRSPY_GAIN_MANUAL.
  intros Hm Hd Hh Hfr Hl Hfail Hk. rewrite Hd.
  repeat case_match; try lia;
    repeat (eapply airspy_error_check_use_wp; [done..|]; intros ? ? ?); apply Hk; try done;
    repeat match goal with E : settings ?t = _ |- context [settings ?t] => rewrite E end;
    by rewrite <- ?app_assoc.
Qed.

(** Every failure closes the device, but for that of the last call, which leaves
    it open for the stop. *)
Lemma airspy_start_rx_wp tr d f :
  opens_documented o -> open_clears o -> known_gain_mode config -> live tr = Some hs ->
  (forall code tr', code <> 0 -> live tr' = Some hs -> Q (code, Some (with_dev d 0)) tr') ->
  (forall code h tr', h <> 0 -> h ∉ hs -> live tr' = Some (h :: hs) ->
     settings tr' = settings tr ++ configured config int16_iq f h ->
     (exists tr0, code = fst (o tr0 (Lib.airspy_start_rx h))) -> Q (code, Some (with_dev d h)) tr') ->
  wp (start_rx config int16_iq f d) Q o tr.
Proof using Type.
  intros Ho Hcl Hm Hl Hfail Hok. unfold start_rx. apply wp_bind.
  eapply (wp_open airspy_open); [done|done|done| |].
  2:{ intros code out tr1 Hans Hne _ Hl1 _. cbn [fst snd]. apply check_ret_wp.
      2:{ intros Hx. by apply negb_false_iff, Z.eqb_eq in Hx. }
      intros _. pose proof (Hcl tr) as Hz. rewrite Hans in Hz. cbn in Hz. rewrite (Hz Hne). cbn [dev with_dev].
      by apply wp_ret, Hfail. }
  intros h tr1 Hh Hfr Hl1 Hc1. apply settings_snoc in Hc1. cbn [snd fst].
  assert (forall code tr', code <> 0 -> live tr' = Some hs -> Q (code, Some (with_dev (with_dev d h) 0)) tr') as Hfail'
    by exact Hfail.
  apply check_ret_wp; [done|]. intros _.
  do 4 (eapply airspy_error_check_use_wp; [done..|]; intros ? ? ?).
  eapply airspy_set_gain_wp; [done..|]. intros tr2 Hl2 Hs2.
  eapply airspy_error_check_use_wp; [done..|]. intros tr3 Hl3 Hs3.
  apply wp_bind, wp_bind. eapply (wp_use _ h); [done|done|left|]. intros a tr4 Hl4 Hc4 Ha. apply settings_snoc in Hc4.
  apply wp_ret, wp_ret, Hok; [done..| |by exists tr3; rewrite Ha].
  repeat match goal with E : settings ?t = _ |- context [settings ?t] => rewrite E end.
  unfold configured. by rewrite !app_nil_r, <- !app_assoc.
Qed.
End lemmas.

Lemma set_gain_unknown config d k : ~ known_gain_mode config ->
  set_gain config d k = (airspy_device_destroy (Some d);; io_ret (1, None)).
Proof.
  unfold known_gain_mode, set_gain, Config.AIRSPY_GAIN_SENSITIVITY, Config.AIRSPY_GAIN_LINEARITY,
    Config.AIRSPY_GAIN_AUTO, Config.AIRSPY_GAIN_MANUAL. intros Hm.
  repeat case_match; try done; exfalso; apply Hm; lia.
Qed.

(** ** Theorems *)

(** The configuration does not restrict [airspy_gain_mode].  With an unknown
    mode, a start that gets as far as the gain frees the plugin and returns 1:
    the device stays open, and the plugin that [sdr_device] still holds cannot be
    started, stopped or destroyed any more. *)
Theorem airspy_unknown_gain_mode config int16_iq o tr d f hs
  (Ho : opens_documented o) (Hcl : open_clears o) (Hm : ~ known_gain_mode config)
  (Hl : live tr = Some (self d :: hs)) (Hnd : NoDup (self d :: hs)) :
  wp (airspy_device_start_rx config int16_iq f (Some d)) (fun r tr' =>
    (fst r <> 0 /\ snd r = Some (with_dev d 0) /\ live tr' = Some (self d :: hs)) \/
    (fst r = 1 /\ (exists h, live tr' = Some (h :: hs)) /\
     ~ wp (airspy_device_start_rx config int16_iq f (snd r)) (fun _ _ => True) o tr' /\
     ~ wp (airspy_device_stop_rx (snd r)) (fun _ _ => True) o tr' /\
     ~ wp (airspy_device_destroy (snd r)) (fun _ _ => True) o tr')) o tr.
Proof.
  cbn [airspy_device_start_rx]. unfold start_rx. apply wp_bind.
  eapply (wp_open airspy_open); [done|exact Hl|done| |].
  2:{ intros code out tr1 Hans Hne _ Hl1 _. cbn [fst snd]. apply check_ret_wp.
      2:{ intros Hx. by apply negb_false_iff, Z.eqb_eq in Hx. }
      intros _. pose proof (Hcl tr) as Hz. rewrite Hans in Hz. cbn in Hz. rewrite (Hz Hne). cbn [dev with_dev].
      apply wp_ret. by left. }
  intros h tr1 Hh Hfr Hl1 _. cbn [snd fst]. apply check_ret_wp; [done|]. intros _.
  do 4 (eapply (airspy_error_check_use_wp o (self d :: hs)); [done..|by left|]; intros ? ? _).
  rewrite set_gain_unknown by done. cbn [airspy_device_destroy]. apply wp_bind, wp_bind.
  eapply (wp_close _ (self d)); [done|eassumption| |].
  { cbn [self with_dev]. apply (close_middle (self d) [h] hs). by apply NoDup_cons. }
  intros a tr2 Hl2 _. apply wp_ret, wp_ret. right. split; [done|]. split; [by exists h|]. cbn. auto.
Qed.

(** ** Witnesses *)

Definition example_config (gain_mode : Z) : Config.server_config :=
  Config.MkServerConfig "127.0.0.1" 8090 5 None 0 1 0 1 420 10 0 262144 6000000 64 5 gain_mode 5 0 1 0 0 0 0 0 0 0 0 0 0 0
    "/tmp" false.

Lemma simple_oracle_clears codes : open_clears (simple_oracle codes).
Proof.
  intros tr. cbn. destruct (codes airspy_open =? 0); cbn; [lia|done].
Qed.

Lemma airspy_unknown_gain_mode_witness :
  wp (airspy_device_start_rx (example_config 7) 2 100000000 (Some (MkAirspy 1 0))) (fun r tr' =>
    (fst r <> 0 /\ snd r = Some (with_dev (MkAirspy 1 0) 0) /\ live tr' = Some [1]) \/
    (fst r = 1 /\ (exists h, live tr' = Some [h]) /\
     ~ wp (airspy_device_start_rx (example_config 7) 2 100000000 (snd r)) (fun _ _ => True) (simple_oracle (fun _ => 0)) tr' /\
     ~ wp (airspy_device_stop_rx (snd r)) (fun _ _ => True) (simple_oracle (fun _ => 0)) tr' /\
     ~ wp (airspy_device_destroy (snd r)) (fun _ _ => True) (simple_oracle (fun _ => 0)) tr'))
    (simple_oracle (fun _ => 0)) [(malloc 48, (0, [1]))].
Proof.
  apply (airspy_unknown_gain_mode (example_config 7) 2 (simple_oracle (fun _ => 0)) [(malloc 48, (0, [1]))]
           (MkAirspy 1 0) 100000000 []).
  - apply simple_oracle_documented.
  - apply simple_oracle_clears.
  - unfold known_gain_mode. cbn. lia.
  - reflexivity.
  - apply NoDup_singleton.
Defined.

End Airspy.
