(* ===== verification/Hackrf.v ===== *)
(** * The HackRF driver: src/sdr/hackrf_device.c *)
From S2P Require Import Prelude Float Config Io Lib.
Import Io Lib.
#[local] Open Scope Z_scope.
#[local] Open Scope io_scope.

Module Hackrf.

(** [hackrf_wrapper]; its address is [self]. *)
Record hackrf_wrapper := MkHackrf { self : Z; dev : Z }.

Definition with_dev (w : hackrf_wrapper) (h : Z) : hackrf_wrapper := MkHackrf (self w) h.

Definition hackrf_device_create : io (Z * option hackrf_wrapper) :=
  code <- code_of hackrf_init;
  if negb (code =? 0) then io_ret (code, None)
  else
    wrapper <- call (malloc 48);
    match wrapper with
    | (0, [p]) => io_ret (0, Some (MkHackrf p 0))
    | _ => io_ret (- ENOMEM, None)
    end.

Definition hackrf_device_stop_rx (w : hackrf_wrapper) : io hackrf_wrapper :=
  if dev w =? 0 then io_ret w
  else (call (hackrf_stop_rx (dev w));; call (hackrf_close (dev w));; io_ret (with_dev w 0)).

Definition hackrf_device_destroy (w : hackrf_wrapper) : io unit :=
  call hackrf_exit;; call (free (self w));; io_ret tt.

Section driver.
Context (server_config : Config.server_config).

(** [ERROR_CHECK] *)
Definition error_check (w : hackrf_wrapper) (x : io Z) (k : io (Z * hackrf_wrapper)) : io (Z * hackrf_wrapper) :=
  check (fun rc => negb (rc =? 0))
        (fun rc => w' <- hackrf_device_stop_rx w; io_ret (rc, w')) x k.

Definition open_call : lib_call :=
  match Config.device_serial server_config with
  | Some serial => hackrf_open_by_serial serial
  | None => hackrf_open
  end.

Definition hackrf_device_start_rx (band_freq : Z) (w : hackrf_wrapper) : io (Z * hackrf_wrapper) :=
  opened <- call open_call;
  let w1 := match snd opened with h :: _ => with_dev w h | [] => w end in
  error_check w1 (io_ret (fst opened))
  (error_check w1 (code_of (hackrf_version_string_read (dev w1) 255))
  (error_check w1 (code_of (hackrf_usb_api_version_read (dev w1)))
  (error_check w1 (code_of (hackrf_set_freq (dev w1) band_freq))
  (error_check w1 (code_of (hackrf_set_sample_rate (dev w1) (Config.band_sampling_rate server_config)))
  (error_check w1 (code_of (hackrf_set_baseband_filter_bandwidth (dev w1) (Config.band_sampling_rate server_config)))
  (error_check w1 (code_of (hackrf_set_amp_enable (dev w1) (wrap 8 (Config.hackrf_amp server_config))))
  (error_check w1 (code_of (hackrf_set_lna_gain (dev w1) (wrap 32 (Config.hackrf_lna_gain server_config))))
  (error_check w1 (code_of (hackrf_set_vga_gain (dev w1) (wrap 32 (Config.hackrf_vga_gain server_config))))
  (error_check w1 (code_of (hackrf_set_antenna_enable (dev w1) (Config.hackrf_bias_t server_config)))
  (error_check w1 (code_of (hackrf_start_rx (dev w1)))
  (io_ret (0, w1)))))))))))).
End driver.

(** What a successful start sets up on device [h]. *)
Definition configured (config : Config.server_config) (band_freq h : Z) : list lib_call :=
  [hackrf_set_freq h band_freq; hackrf_set_sample_rate h (Config.band_sampling_rate config);
   hackrf_set_baseband_filter_bandwidth h (Config.band_sampling_rate config);
   hackrf_set_amp_enable h (wrap 8 (Config.hackrf_amp config));
   hackrf_set_lna_gain h (wrap 32 (Config.hackrf_lna_gain config));
   hackrf_set_vga_gain h (wrap 32 (Config.hackrf_vga_gain config));
   hackrf_set_antenna_enable h (Config.hackrf_bias_t config); hackrf_start_rx h].

(** ** Lemmas *)

Lemma hackrf_stop_rx_wp o tr w h hs (Q : hackrf_wrapper -> record -> Prop) :
  dev w = h -> h <> 0 -> h ∉ hs -> live tr = Some (h :: hs) ->
  (forall tr', live tr' = Some hs -> Q (with_dev w 0) tr') -> wp (hackrf_device_stop_rx w) Q o tr.
Proof.
  intros Hd Hh Hfr Hl HQ. unfold hackrf_device_stop_rx. rewrite Hd, (proj2 (Z.eqb_neq _ _)) by done.
  apply wp_bind. eapply wp_use; [done|done|left|]. intros _ tr1 Hl1 _ _. apply wp_bind.
  eapply wp_close; [done|done|by apply close_head|]. intros _ tr2 Hl2 _. by apply wp_ret, HQ.
Qed.

Lemma hackrf_error_check_use_wp (Q : Z * hackrf_wrapper -> record -> Prop) o tr w (h : Z) hs c k :
  dev w = h -> h <> 0 -> h ∉ hs -> live tr = Some (h :: hs) -> use c = Uses h ->
  (forall code tr', code <> 0 -> live tr' = Some hs -> Q (code, with_dev w 0) tr') ->
  (forall tr', live tr' = Some (h :: hs) -> settings tr' = settings tr ++ (if is_setting c then [c] else []) ->
     wp k Q o tr') ->
  wp (error_check w (code_of c) k) Q o tr.
Proof.
  intros Hd Hh Hfr Hl Hc Hfail Hk. unfold error_check. eapply check_use_wp; [exact Hc|exact Hl|left| |].
  - intros code tr' Hcode Hl'. apply negb_true_iff, Z.eqb_neq in Hcode. apply wp_bind.
    eapply hackrf_stop_rx_wp; [done..|]. intros tr2 Hl2. by apply wp_ret, Hfail.
  - intros tr' Hl' Hc'. by apply Hk, settings_snoc.
Qed.

Lemma use_open_call config : use (open_call config) = Opens.
Proof. unfold open_call. by destruct (Config.device_serial config). Qed.

Lemma hackrf_start_rx_wp config o tr w hs f (Q : Z * hackrf_wrapper -> record -> Prop) :
  opens_documented o -> dev w = 0 -> live tr = Some hs ->
  (forall code tr', code <> 0 -> live tr' = Some hs -> Q (code, with_dev w 0) tr') ->
  (forall h tr', h <> 0 -> h ∉ hs -> live tr' = Some (h :: hs) ->
     settings tr' = settings tr ++ configured config f h -> Q (0, with_dev w h) tr') ->
  wp (hackrf_device_start_rx config f w) Q o tr.
Proof.
  intros Ho Hd Hl Hfail Hok. unfold hackrf_device_start_rx. apply wp_bind.
  eapply wp_open; [apply use_open_call|done|done| |].
  2:{ intros code out tr1 Hans Hne Hnull Hl1 _. cbn [fst snd]. apply check_ret_wp.
      2:{ intros Hx. by apply negb_false_iff, Z.eqb_eq in Hx. }
      intros _. unfold hackrf_device_stop_rx.
      replace (match out with h :: _ => with_dev w h | [] => w end) with (with_dev w 0).
      2:{ destruct out as [|x out]; [by destruct w; cbn in *; subst|]. by apply Forall_cons in Hnull as [-> _]. }
      cbn [dev with_dev]. apply wp_bind, wp_ret, wp_ret. by apply Hfail. }
  intros h tr1 Hh Hfr Hl1 Hc1. apply settings_snoc in Hc1. cbn [snd fst].
  replace (is_setting (open_call config)) with false in Hc1
    by (unfold open_call; by destruct (Config.device_serial config)).
  assert (forall code tr', code <> 0 -> live tr' = Some hs -> Q (code, with_dev (with_dev w h) 0) tr') as Hfail'
    by exact Hfail.
  apply check_ret_wp; [done|]. intros _.
  do 10 (eapply hackrf_error_check_use_wp; [done..|]; intros ? ? ?).
  apply wp_ret, Hok; [done..|].
  repeat match goal with E : settings ?t = _ |- context [settings ?t] => rewrite E end.
  by rewrite !app_nil_r, <- !app_assoc.
Qed.

End Hackrf.
