(* ===== verification/Msisdr.v ===== *)
(** * The MSi driver: src/sdr/msisdr_device.c

    libmsisdr, which the driver reaches through the table [msisdr_lib], is a
    library like the others here. *)
From S2P Require Import Prelude Float Config Io Lib.
Import Io Lib.
#[local] Open Scope Z_scope.
#[local] Open Scope io_scope.

Module Msisdr.

Definition MSISDR_HW_DEFAULT : Z := 0.

(** [struct msisdr_device_t]; its address is [self]. *)
Record msisdr_device := MkMsisdr { self : Z; dev : Z; rx_thread : Z; running : bool }.

Definition with_dev (d : msisdr_device) (h : Z) : msisdr_device := MkMsisdr (self d) h (rx_thread d) (running d).

Definition with_running (d : msisdr_device) (b : bool) : msisdr_device := MkMsisdr (self d) (dev d) (rx_thread d) b.

Definition with_thread (d : msisdr_device) (t : Z) : msisdr_device := MkMsisdr (self d) (dev d) t (running d).

(** [msisdr_async_callback]: the buffers that are forwarded, [running] being
    read before each of them. *)
Definition msisdr_async_callback (transfers : list (bool * list Z)) : list (list Z) :=
  map snd (List.filter fst transfers).

Definition msisdr_device_create : io (Z * option msisdr_device) :=
  device <- call (malloc 56);
  match device with
  | (0, [p]) => io_ret (0, Some (MkMsisdr p 0 0 false))
  | _ => io_ret (- ENOMEM, None)
  end.

Definition msisdr_device_destroy (d : msisdr_device) : io unit := call (free (self d));; io_ret tt.

Section driver.
Context (server_config : Config.server_config).

(** [ERROR_CHECK]: only negative codes are failures. *)
Definition error_check (d : msisdr_device) (x : io Z) (k : io (Z * msisdr_device)) : io (Z * msisdr_device) :=
  check (fun rc => rc <? 0)
        (fun rc => if dev d =? 0 then io_ret (rc, d)
                   else (call (msisdr_close (dev d));; io_ret (rc, with_dev d 0))) x k.

(** The notch filter of an RSP1A. *)
Definition gpio_init (d : msisdr_device) (k : io (Z * msisdr_device)) : io (Z * msisdr_device) :=
  if Config.msisdr_hw_flavour server_config =? 1 then (call (msisdr_rsp1a_gpio_init (dev d));; k) else k.

Definition if_freq : Z :=
  wrap 32 (if Config.msisdr_if_freq server_config <? 0 then 0 else Config.msisdr_if_freq server_config).

Definition bandwidth : Z :=
  if 0 <? Config.msisdr_bandwidth server_config then Config.msisdr_bandwidth server_config else 8000000.

Definition set_gain (d : msisdr_device) (k : io (Z * msisdr_device)) : io (Z * msisdr_device) :=
  if Config.msisdr_gain_mode server_config =? 1
  then error_check d (code_of (msisdr_set_tuner_gain (dev d) (Config.msisdr_gain server_config))) k
  else k.

Definition start_thread (d : msisdr_device) : io (Z * msisdr_device) :=
  thread <- call pthread_create;
  match thread with
  | (0, [t]) => io_ret (0, with_thread (with_running d true) t)
  | (rc, _) => call (msisdr_close (dev d));; io_ret (- rc, with_running (with_dev d 0) false)
  end.

Definition msisdr_device_start_rx (band_freq : Z) (d : msisdr_device) : io (Z * msisdr_device) :=
  opened <- call (msisdr_open (wrap 32 (Config.device_index server_config)));
  let d1 := match snd opened with h :: _ => with_dev d h | [] => d end in
  error_check d1 (io_ret (fst opened))
  (error_check d1 (code_of (msisdr_set_hw_flavour (dev d1) MSISDR_HW_DEFAULT))
  (gpio_init d1
  (error_check d1 (code_of (msisdr_set_sample_format (dev d1) "504_S16"))
  (error_check d1 (code_of (msisdr_set_if_freq (dev d1) if_freq))
  (error_check d1 (code_of (msisdr_set_bandwidth (dev d1) bandwidth))
  (error_check d1 (code_of (msisdr_set_sample_rate (dev d1) (Config.band_sampling_rate server_config)))
  (error_check d1 (code_of (msisdr_set_center_freq (dev d1) band_freq))
  (error_check d1 (code_of (msisdr_set_tuner_gain_mode (dev d1) (Config.msisdr_gain_mode server_config)))
  (set_gain d1
  (error_check d1 (code_of (msisdr_reset_buffer (dev d1)))
  (start_thread d1))))))))))).

Definition msisdr_device_stop_rx (d : msisdr_device) : io msisdr_device :=
  if dev d =? 0 then io_ret d
  else
    call (msisdr_cancel_async (dev d));;
    call (pthread_join (rx_thread d));;
    call (msisdr_close (dev d));;
    io_ret (with_dev (with_running d false) 0).
End driver.

(** What a successful start sets up on device [h]. *)
Definition configured (config : Config.server_config) (band_freq h : Z) : list lib_call :=
  [msisdr_set_hw_flavour h MSISDR_HW_DEFAULT]
  ++ (if Config.msisdr_hw_flavour config =? 1 then [msisdr_rsp1a_gpio_init h] else [])
  ++ [msisdr_set_sample_format h "504_S16"; msisdr_set_if_freq h (if_freq config);
      msisdr_set_bandwidth h (bandwidth config); msisdr_set_sample_rate h (Config.band_sampling_rate config);
      msisdr_set_center_freq h band_freq; msisdr_set_tuner_gain_mode h (Config.msisdr_gain_mode config)]
  ++ (if Config.msisdr_gain_mode config =? 1 then [msisdr_set_tuner_gain h (Config.msisdr_gain config)] else [])
  ++ [msisdr_reset_buffer h].

(** An open of libmsisdr answers 0, or a negative code. *)
Definition opens_negative (o : oracle) : Prop := forall tr i, fst (o tr (msisdr_open i)) <= 0.

(** ** Lemmas *)

Lemma msisdr_error_check_use_wp (Q : Z * msisdr_device -> record -> Prop) o tr d (h : Z) hs c k :
  dev d = h -> h <> 0 -> h ∉ hs -> live tr = Some (h :: hs) -> use c = Uses h ->
  (forall code tr', code <> 0 -> live tr' = Some hs -> Q (code, with_dev d 0) tr') ->
  (forall tr', live tr' = Some (h :: hs) -> settings tr' = settings tr ++ (if is_setting c then [c] else []) ->
     wp k Q o tr') ->
  wp (error_check d (code_of c) k) Q o tr.
Proof.
  intros Hd Hh Hfr Hl Hc Hfail Hk. unfold error_check. eapply check_use_wp; [exact Hc|exact Hl|left| |].
  - intros code tr' Hcode Hl'. apply Z.ltb_lt in Hcode. rewrite Hd, (proj2 (Z.eqb_neq _ _)) by done.
    apply wp_bind. eapply wp_close; [by apply use_close_device|done|by apply close_head|].
    intros a tr2 Hl2 _. apply wp_ret, Hfail; [lia|done].
  - intros tr' Hl' Hc'. by apply Hk, settings_snoc.
Qed.

Lemma msisdr_gpio_init_wp config (Q : Z * msisdr_device -> record -> Prop) o tr d (h : Z) hs k :
  dev d = h -> live tr = Some (h :: hs) ->
  (forall tr', live tr' = Some (h :: hs) ->
     settings tr' = settings tr ++ (if Config.msisdr_hw_flavour config =? 1 then [msisdr_rsp1a_gpio_init h] else []) ->
     wp k Q o tr') ->
  wp (gpio_init config d k) Q o tr.
Proof.
  intros Hd Hl Hk. unfold gpio_init. destruct (Config.msisdr_hw_flavour config =? 1).
  - rewrite Hd. apply wp_bind. eapply wp_use; [done|done|left|]. intros a tr1 Hl1 Hc1 _.
    by apply Hk; [|apply (settings_snoc tr tr1 (msisdr_rsp1a_gpio_init h))].
  - apply Hk; [done|by rewrite app_nil_r].
Qed.

Lemma msisdr_set_gain_wp config (Q : Z * msisdr_device -> record -> Prop) o tr d (h : Z) hs k :
  dev d = h -> h <> 0 -> h ∉ hs -> live tr = Some (h :: hs) ->
  (forall code tr', code <> 0 -> live tr' = Some hs -> Q (code, with_dev d 0) tr') ->
  (forall tr', live tr' = Some (h :: hs) ->
     settings tr' = settings tr ++ (if Config.msisdr_gain_mode config =? 1
                                    then [msisdr_set_tuner_gain h (Config.msisdr_gain config)] else []) ->
     wp k Q o tr') ->
  wp (set_gain config d k) Q o tr.
Proof.
  intros Hd Hh Hfr Hl Hfail Hk. unfold set_gain. destruct (Config.msisdr_gain_mode config =? 1).
  - rewrite Hd. eapply msisdr_error_check_use_wp; [done..|]. intros tr1 Hl1 Hs1. by apply Hk.
  - apply Hk; [done|by rewrite app_nil_r].
Qed.

Lemma msisdr_start_thread_wp (Q : Z * msisdr_device -> record -> Prop) o tr d (h : Z) hs :
  opens_documented o -> dev d = h -> h <> 0 -> h ∉ hs -> live tr = Some (h :: hs) ->
  (forall code tr', code <> 0 -> live tr' = Some hs -> Q (code, with_running (with_dev d 0) false) tr') ->
  (forall t tr', t <> 0 -> t ∉ h :: hs -> live tr' = Some (t :: h :: hs) -> settings tr' = settings tr ->
     Q (0, with_thread (with_running d true) t) tr') ->
  wp (start_thread d) Q o tr.
Proof.
  intros Ho Hd Hh Hfr Hl Hfail Hk. unfold start_thread. apply wp_bind. eapply wp_open; [done|done|done| |].
  - intros t tr1 Ht Htf Hl1 Hc1. apply wp_ret, Hk; [done|done|done|]. apply settings_snoc in Hc1.
    by rewrite Hc1, app_nil_r.
  - intros code out tr1 Hans Hne _ Hl1 _. rewrite Hd.
    assert (wp (call (msisdr_close h);; io_ret (- code, with_running (with_dev d 0) false)) Q o tr1) as Hw.
    { apply wp_bind. eapply wp_close; [by apply use_close_device|done|by apply close_head|]. intros a tr2 Hl2 _.
      apply wp_ret, Hfail; [lia|done]. }
    by destruct code.
Qed.

Lemma msisdr_start_rx_wp config o tr d hs f (Q : Z * msisdr_device -> record -> Prop) :
  opens_documented o -> opens_negative o -> dev d = 0 -> live tr = Some hs ->
  (forall code d' tr', code <> 0 -> self d' = self d -> dev d' = 0 -> live tr' = Some hs -> Q (code, d') tr') ->
  (forall h t tr', h <> 0 -> h ∉ hs -> t <> 0 -> t ∉ h :: hs -> live tr' = Some (t :: h :: hs) ->
     settings tr' = settings tr ++ configured config f h ->
     Q (0, with_thread (with_running (with_dev d h) true) t) tr') ->
  wp (msisdr_device_start_rx config f d) Q o tr.
Proof.
  intros Ho Hneg Hd Hl Hfail Hok. unfold msisdr_device_start_rx. apply wp_bind.
  eapply (wp_open (msisdr_open _)); [done|done|done| |].
  2:{ intros code out tr1 Hans Hne Hnull Hl1 _. cbn [fst snd]. apply check_ret_wp.
      - intros _. assert (dev (match out with h :: _ => with_dev d h | [] => d end) = 0) as Hz.
        { destruct out; [done|]. by apply Forall_cons in Hnull as [-> _]. }
        rewrite Hz. apply wp_ret, Hfail; [done|by destruct out|done|done].
      - intros Hx. apply Z.ltb_ge in Hx. pose proof (Hneg tr (wrap 32 (Config.device_index config))) as Hn.
        rewrite Hans in Hn. cbn in Hn. lia. }
  intros h tr1 Hh Hfr Hl1 Hc1. apply settings_snoc in Hc1. cbn [snd fst].
  assert (forall code tr', code <> 0 -> live tr' = Some hs -> Q (code, with_dev (with_dev d h) 0) tr') as Hfail'
    by (intros; by apply Hfail).
  apply check_ret_wp; [done|]. intros _.
  eapply msisdr_error_check_use_wp; [done..|]. intros tr2 Hl2 Hs2.
  eapply msisdr_gpio_init_wp; [done..|]. intros tr3 Hl3 Hs3.
  do 6 (eapply msisdr_error_check_use_wp; [done..|]; intros ? ? ?).
  eapply msisdr_set_gain_wp; [done..|]. intros tr4 Hl4 Hs4.
  eapply msisdr_error_check_use_wp; [done..|]. intros tr5 Hl5 Hs5.
  eapply msisdr_start_thread_wp; [done..| |].
  - intros code tr6 Hc Hl6. by apply Hfail.
  - intros t tr6 Ht0 Ht Hl6 Hs6. apply Hok; [done..|].
  repeat match goal with E : settings ?t = _ |- context [settings ?t] => rewrite E end.
  unfold configured. by rewrite !app_nil_r, <- !app_assoc.
Qed.

End Msisdr.
