(* ===== verification/Driver.v ===== *)
(** * What a driver promises to src/sdr_device.c

    [struct sdr_device_t] reaches its driver through the function pointers
    [destroy], [start_rx] and [stop_rx], and through the create function of the
    driver.  [Driver] is that interface; [DriverLaws] says what the four
    functions do with the handles: which ones a plugin owns when it is at rest,
    when it receives and after a start that failed.  The drivers are instances. *)
From S2P Require Import Prelude Float Config Io Lib Rtlsdr Airspy Hackrf Msisdr.
Import Io Lib.
#[local] Open Scope Z_scope.
#[local] Open Scope io_scope.

Module Driver.

Class Driver (D : Type) := {
  device_create : io (C := lib_call) (Z * option D);
  device_start_rx : Z -> D -> io (C := lib_call) (Z * D);
  device_stop_rx : D -> io (C := lib_call) D;
  device_destroy : D -> io (C := lib_call) unit;
  (* whether [stop_rx] checks its argument against NULL *)
  stop_rx_checks_null : bool;
  (* the handles of a plugin *)
  at_rest : D -> list Z -> Prop;
  receiving : D -> list Z -> Prop;
  failed : D -> list Z -> Prop;
}.

(** The open handles are those of the plugin and [hs]. *)
Definition owns (tr : record (C := lib_call)) (own hs : list Z) : Prop :=
  live tr = Some (own ++ hs) /\ NoDup (own ++ hs) /\ 0 ∉ own ++ hs.

Class DriverLaws (D : Type) `{Driver D} (o : oracle (C := lib_call)) := {
  create_law tr hs : owns tr [] hs ->
    wp device_create (fun r tr' =>
      match r with
      | (0, Some d) => exists own, at_rest d own /\ owns tr' own hs
      | (_, None) => fst r <> 0 /\ owns tr' [] hs
      | _ => False
      end) o tr;
  start_law f tr d own hs : at_rest d own -> owns tr own hs ->
    wp (device_start_rx f d) (fun r tr' =>
      exists own', owns tr' own' hs /\
        if fst r =? 0 then receiving (snd r) own' else failed (snd r) own') o tr;
  stop_law tr d own hs : receiving d own -> owns tr own hs ->
    wp (device_stop_rx d) (fun d' tr' => exists own', at_rest d' own' /\ owns tr' own' hs) o tr;
  destroy_law tr d own hs : at_rest d own -> owns tr own hs ->
    wp (device_destroy d) (fun _ tr' => owns tr' [] hs) o tr;
}.

(** A driver that can be stopped after a failed start, as the server does. *)
Class DriverRecovers (D : Type) `{Driver D} (o : oracle (C := lib_call)) := {
  stop_failed_law tr d own hs : failed d own -> owns tr own hs ->
    wp (device_stop_rx d) (fun d' tr' => exists own', at_rest d' own' /\ owns tr' own' hs) o tr;
}.

(** A driver that survives a session of the server: a start, whether it succeeds
    or not, and the stop. *)
Class DriverSessions (D : Type) `{Driver D} (o : oracle (C := lib_call)) := {
  session_law f tr d own hs : at_rest d own -> owns tr own hs ->
    wp (r <- device_start_rx f d; device_stop_rx (snd r)) (fun d' tr' => exists own', at_rest d' own' /\ owns tr' own' hs) o tr;
}.

#[export] Instance recovers_sessions {D} `{DriverLaws D o} `{!DriverRecovers D o} : DriverSessions D o.
Proof.
  split. intros f tr d own hs Hr Hw. apply wp_bind. eapply wp_mono; [by apply (start_law f tr d own hs)|].
  intros [code d1] tr1 (own1 & Hw1 & H1). cbn [fst snd] in *.
  destruct (code =? 0); [by eapply stop_law|by eapply stop_failed_law].
Qed.

(** ** Instances *)

#[export] Instance rtlsdr_driver (config : Config.server_config) : Driver Rtlsdr.rtlsdr_device := {
  device_create := Rtlsdr.rtlsdr_device_create config;
  device_start_rx := Rtlsdr.rtlsdr_device_start_rx config;
  device_stop_rx := Rtlsdr.rtlsdr_device_stop_rx;
  device_destroy := Rtlsdr.rtlsdr_device_destroy;
  stop_rx_checks_null := true;
  at_rest d own := Rtlsdr.dev d = 0 /\ own = [Rtlsdr.output d; Rtlsdr.self d];
  receiving d own := own = [Rtlsdr.rtlsdr_device_thread d; Rtlsdr.dev d; Rtlsdr.output d; Rtlsdr.self d];
  failed d own := own = (if Rtlsdr.dev d =? 0 then [] else [Rtlsdr.dev d]) ++ [Rtlsdr.output d; Rtlsdr.self d];
}.

#[export] Instance hackrf_driver (config : Config.server_config) : Driver Hackrf.hackrf_wrapper := {
  device_create := Hackrf.hackrf_device_create;
  device_start_rx := Hackrf.hackrf_device_start_rx config;
  device_stop_rx := Hackrf.hackrf_device_stop_rx;
  device_destroy := Hackrf.hackrf_device_destroy;
  stop_rx_checks_null := false;
  at_rest w own := Hackrf.dev w = 0 /\ own = [Hackrf.self w];
  receiving w own := own = [Hackrf.dev w; Hackrf.self w];
  failed w own := Hackrf.dev w = 0 /\ own = [Hackrf.self w];
}.

#[export] Instance msisdr_driver (config : Config.server_config) : Driver Msisdr.msisdr_device := {
  device_create := Msisdr.msisdr_device_create;
  device_start_rx := Msisdr.msisdr_device_start_rx config;
  device_stop_rx := Msisdr.msisdr_device_stop_rx;
  device_destroy := Msisdr.msisdr_device_destroy;
  stop_rx_checks_null := false;
  at_rest d own := Msisdr.dev d = 0 /\ own = [Msisdr.self d];
  receiving d own := own = [Msisdr.rx_thread d; Msisdr.dev d; Msisdr.self d];
  failed d own := Msisdr.dev d = 0 /\ own = [Msisdr.self d];
}.

#[export] Instance airspy_driver (config : Config.server_config) (int16_iq : Z)
    : Driver (option Airspy.airspy_device) := {
  device_create := r <- Airspy.airspy_device_create;
                   io_ret (match r with (code, Some d) => (code, Some (Some d)) | (code, None) => (code, None) end);
  device_start_rx := Airspy.airspy_device_start_rx config int16_iq;
  device_stop_rx := Airspy.airspy_device_stop_rx;
  device_destroy := Airspy.airspy_device_destroy;
  stop_rx_checks_null := false;
  at_rest p own := exists d, p = Some d /\ own = [Airspy.self d];
  receiving p own := exists d, p = Some d /\ own = [Airspy.dev d; Airspy.self d];
  failed p own := exists d, p = Some d /\
    own = (if Airspy.dev d =? 0 then [] else [Airspy.dev d]) ++ [Airspy.self d];
}.

(** ** Lemmas *)

Lemma owns_open tr own hs h : owns tr own hs -> h <> 0 -> h ∉ own ++ hs ->
  forall tr', live tr' = Some (h :: own ++ hs) -> owns tr' (h :: own) hs.
Proof.
  intros (_ & Hnd & Hz) Hh Hfr tr' Hl. split; [done|]. cbn [app]. split.
  - by apply NoDup_cons.
  - rewrite not_elem_of_cons. done.
Qed.

Lemma owns_same tr own hs tr' : owns tr own hs -> live tr' = Some (own ++ hs) -> owns tr' own hs.
Proof. intros (_ & ? & ?) ?. by split. Qed.

Lemma owns_assoc tr own own' hs : owns tr (own ++ own') hs <-> owns tr own (own' ++ hs).
Proof. unfold owns. by rewrite <- app_assoc. Qed.

(** A release of any of the handles of a plugin. *)
Lemma wp_release c h before after own hs (Q : answer -> record -> Prop) o tr :
  use c = Closes h -> own = before ++ h :: after -> owns tr own hs ->
  (forall a tr', owns tr' (before ++ after) hs -> Q a tr') ->
  wp (call c) Q o tr.
Proof.
  intros Hc -> (Hl & Hnd & Hz) HQ. rewrite <- app_assoc in *. cbn [app] in *.
  eapply wp_close; [exact Hc|exact Hl|by apply close_middle|]. intros a tr' Hl' _. apply HQ.
  split; [by rewrite <- app_assoc|]. rewrite <- app_assoc. split.
  - apply NoDup_app in Hnd as (Hb & Hd & Ha). apply NoDup_cons in Ha as [_ Ha]. apply NoDup_app. split; [done|].
    split; [|done]. intros x Hx Hx'. apply (Hd x Hx). by right.
  - rewrite elem_of_app in *. rewrite elem_of_cons in Hz. tauto.
Qed.

Lemma wp_acquire c own hs (Q : answer -> record -> Prop) o tr :
  use c = Opens -> owns tr own hs -> opens_documented o ->
  (forall h tr', h <> 0 -> owns tr' (h :: own) hs -> Q (0, [h]) tr') ->
  (forall code out tr', code <> 0 -> owns tr' own hs -> Q (code, out) tr') ->
  wp (call c) Q o tr.
Proof.
  intros Hc Ho Hd H1 H2. pose proof Ho as (Hl & _). eapply wp_open; [exact Hc|exact Hl|exact Hd| |].
  - intros h tr' Hh Hfr Hl' _. apply H1; [done|]. by eapply owns_open.
  - intros code out tr' _ Hne _ Hl' _. apply H2; [done|]. by eapply owns_same.
Qed.

Lemma wp_with c own hs h (Q : answer -> record -> Prop) o tr :
  use c = Uses h -> h ∈ own -> owns tr own hs ->
  (forall a tr', owns tr' own hs -> Q a tr') -> wp (call c) Q o tr.
Proof.
  intros Hc Hin Ho HQ. pose proof Ho as (Hl & _). eapply wp_use; [exact Hc|exact Hl|apply elem_of_app; by left|].
  intros a tr' Hl' _ _. apply HQ. by eapply owns_same.
Qed.

Section laws.
Context (config : Config.server_config) (o : oracle (C := lib_call)) (Ho : opens_documented o).

#[export] Instance hackrf_laws : @DriverLaws _ (hackrf_driver config) o.
Proof using Ho.
  split.
  - intros tr hs Hw. cbn [device_create hackrf_driver]. unfold Hackrf.hackrf_device_create, code_of.
    apply wp_bind, wp_bind. eapply wp_unrelated; [done|apply Hw|]. intros [code out] tr1 Hl1 _ _.
    apply wp_ret. cbn [fst]. pose proof (owns_same tr [] hs tr1 Hw Hl1) as Hw1.
    destruct (negb (code =? 0)) eqn:E.
    { apply negb_true_iff, Z.eqb_neq in E. apply wp_ret. cbn. by destruct code. }
    apply wp_bind. eapply wp_acquire; [done|exact Hw1|done| |].
    + intros h tr2 Hh Hw2. apply wp_ret. exists [h]. by split.
    + intros c2 out2 tr2 Hne Hw2. destruct c2; [done|..]; by apply wp_ret.
  - intros f tr w own hs [Hd ->] Hw. eapply (Hackrf.hackrf_start_rx_wp config o tr w ([Hackrf.self w] ++ hs)); [done|done|apply Hw| |].
    + intros code tr' Hne Hl'. exists [Hackrf.self w]. split; [by eapply owns_same|]. cbn [fst snd].
      by rewrite (proj2 (Z.eqb_neq _ _)).
    + intros h tr' Hh Hfr Hl' _. exists [h; Hackrf.self w]. split; [|done].
      by apply (owns_open tr [Hackrf.self w] hs h Hw Hh Hfr).
  - intros tr w own hs Hrec Hw. cbn in Hrec. subst own. cbn [device_stop_rx hackrf_driver].
    pose proof Hw as (Hl & Hnd & Hz). eapply (Hackrf.hackrf_stop_rx_wp o tr w (Hackrf.dev w) (Hackrf.self w :: hs)); [done| | |done|].
    + intros E. apply Hz. rewrite E. left.
    + cbn in Hnd. by apply NoDup_cons in Hnd as [? _].
    + intros tr' Hl'. exists [Hackrf.self w]. split; [done|]. split; [done|]. cbn in *.
      apply NoDup_cons in Hnd as [_ Hnd]. split; [done|]. by apply not_elem_of_cons in Hz as [_ Hz].
  - intros tr w own hs [Hd ->] Hw. cbn [device_destroy hackrf_driver]. unfold Hackrf.hackrf_device_destroy.
    apply wp_bind. eapply wp_unrelated; [done|apply Hw|]. intros a tr1 Hl1 _ _. apply wp_bind.
    eapply (wp_release _ (Hackrf.self w) [] []); [done|done|by eapply owns_same|]. intros a2 tr2 Hw2. by apply wp_ret.
Qed.

#[export] Instance hackrf_recovers : @DriverRecovers _ (hackrf_driver config) o.
Proof using Type.
  split. intros tr w own hs [Hd ->] Hw. cbn [device_stop_rx hackrf_driver]. unfold Hackrf.hackrf_device_stop_rx.
  rewrite Hd. apply wp_ret. by exists [Hackrf.self w].
Qed.

Section msisdr.
Context (Hneg : Msisdr.opens_negative o).

#[export] Instance msisdr_laws : @DriverLaws _ (msisdr_driver config) o.
Proof using Ho Hneg.
  split.
  - intros tr hs Hw. cbn [device_create msisdr_driver]. unfold Msisdr.msisdr_device_create.
    apply wp_bind. eapply wp_acquire; [done|exact Hw|done| |].
    + intros h tr2 Hh Hw2. apply wp_ret. exists [h]. by split.
    + intros c2 out2 tr2 Hne Hw2. destruct c2; [done|..]; by apply wp_ret.
  - intros f tr d own hs [Hd ->] Hw.
    eapply (Msisdr.msisdr_start_rx_wp config o tr d ([Msisdr.self d] ++ hs)); [done|done|done|apply Hw| |].
    + intros code d' tr' Hne Hs Hd' Hl'. exists [Msisdr.self d]. split; [by eapply owns_same|]. cbn [fst snd].
      rewrite (proj2 (Z.eqb_neq _ _)) by done. by split; [|rewrite Hs].
    + intros h t tr' Hh Hfr Ht0 Ht Hl' _. exists [t; h; Msisdr.self d]. split; [|done].
      split; [done|]. destruct Hw as (_ & Hnd & Hz). cbn [app] in *. split.
      * apply NoDup_cons. split; [done|]. by apply NoDup_cons.
      * rewrite !not_elem_of_cons in *. done.
  - intros tr d own hs Hrec Hw. cbn in Hrec. subst own. cbn [device_stop_rx msisdr_driver].
    unfold Msisdr.msisdr_device_stop_rx. assert (Msisdr.dev d <> 0) as Hd0.
    { intros E. destruct Hw as (_ & _ & Hz). apply Hz. rewrite E. right; left. }
    rewrite (proj2 (Z.eqb_neq (Msisdr.dev d) 0)) by done.
    apply wp_bind. eapply (wp_with _ _ _ (Msisdr.dev d)); [done|by right; left|exact Hw|]. intros _ tr1 Hw1.
    apply wp_bind. eapply (wp_release _ (Msisdr.rx_thread d) []); [done|done|exact Hw1|]. intros _ tr2 Hw2.
    apply wp_bind. eapply (wp_release _ (Msisdr.dev d) []); [by apply use_close_device|done|exact Hw2|]. intros _ tr3 Hw3.
    apply wp_ret. by exists [Msisdr.self d].
  - intros tr d own hs [Hd ->] Hw. cbn [device_destroy msisdr_driver]. unfold Msisdr.msisdr_device_destroy.
    apply wp_bind. eapply (wp_release _ (Msisdr.self d) [] []); [done|done|exact Hw|]. intros a2 tr2 Hw2. by apply wp_ret.
Qed.

#[export] Instance msisdr_recovers : @DriverRecovers _ (msisdr_driver config) o.
Proof using Type.
  split. intros tr d own hs [Hd ->] Hw. cbn [device_stop_rx msisdr_driver]. unfold Msisdr.msisdr_device_stop_rx.
  rewrite Hd. apply wp_ret. by exists [Msisdr.self d].
Qed.
End msisdr.

Section airspy.
Context (int16_iq : Z) (Hcl : Airspy.open_clears o) (Hmode : Airspy.known_gain_mode config).

#[export] Instance airspy_laws : @DriverLaws _ (airspy_driver config int16_iq) o.
Proof using Ho Hcl Hmode.
  split.
  - intros tr hs Hw. cbn [device_create airspy_driver]. unfold Airspy.airspy_device_create.
    apply wp_bind, wp_bind. eapply wp_acquire; [done|exact Hw|done| |].
    + intros h tr2 Hh Hw2. apply wp_ret, wp_ret. exists [h]. split; [|done]. by exists (Airspy.MkAirspy h 0).
    + intros c2 out2 tr2 Hne Hw2. destruct c2; [done|..]; by apply wp_ret, wp_ret.
  - intros f tr p own hs (d & -> & ->) Hw. cbn [device_start_rx airspy_driver Airspy.airspy_device_start_rx].
    apply (Airspy.airspy_start_rx_wp config int16_iq o ([Airspy.self d] ++ hs)); [done|done|done|apply Hw| |].
    + intros code tr' Hne Hl'. exists [Airspy.self d]. split; [by eapply owns_same|]. cbn [fst snd].
      rewrite (proj2 (Z.eqb_neq _ _)) by done. by exists (Airspy.with_dev d 0).
    + intros code h tr' Hh Hfr Hl' _ _. exists [h; Airspy.self d].
      split; [by apply (owns_open tr [Airspy.self d] hs h Hw Hh Hfr)|]. cbn [fst snd].
      destruct (code =? 0); exists (Airspy.with_dev d h); [done|]. split; [done|].
      cbn [Airspy.dev Airspy.self Airspy.with_dev]. by rewrite (proj2 (Z.eqb_neq _ _)).
  - intros tr p own hs (d & -> & ->) Hw. cbn [device_stop_rx airspy_driver Airspy.airspy_device_stop_rx].
    rewrite (proj2 (Z.eqb_neq (Airspy.dev d) 0)).
    2:{ intros E. destruct Hw as (_ & _ & Hz). apply Hz. rewrite E. left. }
    apply wp_bind. eapply (wp_with _ _ _ (Airspy.dev d)); [done|by left|exact Hw|]. intros _ tr1 Hw1.
    apply wp_bind. eapply (wp_release _ (Airspy.dev d) []); [done|done|exact Hw1|]. intros _ tr2 Hw2.
    apply wp_ret. exists [Airspy.self d]. split; [|done]. by exists d.
  - intros tr p own hs (d & -> & ->) Hw. cbn [device_destroy airspy_driver Airspy.airspy_device_destroy].
    apply wp_bind. eapply (wp_release _ (Airspy.self d) [] []); [done|done|exact Hw|]. intros a2 tr2 Hw2. by apply wp_ret.
Qed.

#[export] Instance airspy_recovers : @DriverRecovers _ (airspy_driver config int16_iq) o.
Proof using Type.
  split. intros tr p own hs (d & -> & ->) Hw. cbn [device_stop_rx airspy_driver Airspy.airspy_device_stop_rx].
  destruct (Airspy.dev d =? 0) eqn:E.
  - apply wp_ret. exists [Airspy.self d]. split; [|done]. by exists d.
  - apply wp_bind. eapply (wp_with _ _ _ (Airspy.dev d)); [done|by left|exact Hw|]. intros _ tr1 Hw1.
    apply wp_bind. eapply (wp_release _ (Airspy.dev d) []); [done|done|exact Hw1|]. intros _ tr2 Hw2.
    apply wp_ret. exists [Airspy.self d]. split; [|done]. by exists d.
Qed.
End airspy.

Section rtlsdr.
Context (gains : list Z) (Hgains : Rtlsdr.gains_documented o gains) (Hgain : Rtlsdr.small (Config.gain config)).

#[export] Instance rtlsdr_laws : @DriverLaws _ (rtlsdr_driver config) o.
Proof using Ho Hgains Hgain.
  split.
  - intros tr hs Hw. cbn [device_create rtlsdr_driver]. unfold Rtlsdr.rtlsdr_device_create.
    apply wp_bind. eapply wp_acquire; [done|exact Hw|done| |].
    + intros p tr2 Hh Hw2. apply wp_bind. eapply wp_acquire; [done|exact Hw2|done| |].
      * intros q tr3 Hq Hw3. apply wp_ret. exists [q; p]. by split.
      * intros c2 out2 tr3 Hne Hw3.
        assert (wp (call (free p);; io_ret (- ENOMEM, @None Rtlsdr.rtlsdr_device)) (fun r tr' => r = (- ENOMEM, None) /\ owns tr' [] hs) o tr3) as Hf.
        { apply wp_bind. eapply (wp_release _ p [] []); [done|done|exact Hw3|]. intros _ tr4 Hw4. by apply wp_ret. }
        destruct c2; [done|..]; (eapply wp_mono; [exact Hf|]); by intros r tr' [-> Hr].
    + intros c2 out2 tr2 Hne Hw2. destruct c2; [done|..]; by apply wp_ret.
  - intros f tr d own hs [Hd ->] Hw. set (own := [Rtlsdr.output d; Rtlsdr.self d]) in *.
    eapply (Rtlsdr.rtlsdr_start_rx_wp config o tr d (own ++ hs) gains); [done|done|done|done|apply Hw| | |].
    + intros code tr' Hne Hl'. exists own. split; [by eapply owns_same|]. cbn [fst snd].
      by rewrite (proj2 (Z.eqb_neq _ _)).
    + intros h tr' Hh Hfr Hl'. exists (h :: own). split; [by apply (owns_open tr own hs h Hw Hh Hfr)|].
      cbn. by rewrite (proj2 (Z.eqb_neq _ _)).
    + intros h t tr' Hh Hfr Ht Htf Hl' _. exists (t :: h :: own). split; [|done].
      destruct Hw as (_ & Hnd & Hz). split; [done|]. cbn [app]. rewrite !not_elem_of_cons. split; [|done].
      apply NoDup_cons. split; [done|]. by apply NoDup_cons.
  - intros tr d own hs Hrec Hw. cbn in Hrec. subst own. cbn [device_stop_rx rtlsdr_driver].
    unfold Rtlsdr.rtlsdr_device_stop_rx.
    assert (Rtlsdr.dev d <> 0) as Hd0.
    { intros E. destruct Hw as (_ & _ & Hz). apply Hz. rewrite E. right; left. }
    apply wp_bind. eapply (wp_release _ (Rtlsdr.dev d) [_]); [|done|exact Hw|].
    { cbn. by rewrite (proj2 (Z.eqb_neq _ _)). }
    intros _ tr1 Hw1. cbn [app] in Hw1.
    apply wp_bind. eapply (wp_release _ (Rtlsdr.rtlsdr_device_thread d) []); [done|done|exact Hw1|]. intros _ tr2 Hw2.
    apply wp_ret. by eexists.
  - intros tr d own hs [Hd ->] Hw. cbn [device_destroy rtlsdr_driver]. unfold Rtlsdr.rtlsdr_device_destroy.
    rewrite (proj2 (Z.eqb_neq (Rtlsdr.output d) 0)).
    2:{ intros E. destruct Hw as (_ & _ & Hz). apply Hz. rewrite E. left. }
    apply wp_bind, wp_bind. eapply (wp_release _ (Rtlsdr.output d) []); [done|done|exact Hw|]. intros _ tr1 Hw1.
    apply wp_ret, wp_bind. eapply (wp_release _ (Rtlsdr.self d) [] []); [done|done|exact Hw1|]. intros a2 tr2 Hw2.
    by apply wp_ret.
Qed.

(** The stop of an RTL-SDR is only defined after a start that succeeded. *)
Definition rtlsdr_starts : Prop :=
  forall f tr d own hs, at_rest (Driver := rtlsdr_driver config) d own -> owns tr own hs ->
    wp (Rtlsdr.rtlsdr_device_start_rx config f d) (fun r _ => fst r = 0) o tr.

Lemma rtlsdr_sessions : rtlsdr_starts -> @DriverSessions _ (rtlsdr_driver config) o.
Proof using Ho Hgains Hgain.
  intros Hstarts. split. intros f tr d own hs Hr Hw. apply wp_bind.
  pose proof (start_law (D := Rtlsdr.rtlsdr_device) f tr d own hs Hr Hw) as Hs. pose proof (Hstarts f tr d own hs Hr Hw) as H0.
  unfold wp in *. cbn [device_start_rx rtlsdr_driver] in *.
  destruct (Rtlsdr.rtlsdr_device_start_rx config f d o tr) as [[[code d1] tr1]|]; [|done].
  destruct Hs as (own1 & Hw1 & H1). cbn [fst snd] in *. subst code. by apply (stop_law tr1 d1 own1 hs).
Qed.
End rtlsdr.
End laws.

End Driver.
