(* ===== verification/FilterMemory.v ===== *)
(** * The memory of a filter: the constructor and the destructor of src/xlating.c

    [Xlating] computes the contents of a filter; here are its fourteen blocks of
    memory, as the pointers of [struct xlating_t], with every call of the
    allocator in order.  The taps given to the constructor belong to the filter
    from the first successful allocation on. *)
From S2P Require Import Prelude Io Lib Xlating.
Import Io Lib.
#[local] Open Scope Z_scope.
#[local] Open Scope io_scope.

Module FilterMemory.

(** The pointers of [struct xlating_t], 0 being NULL; [rows_cf32] and [rows_cs16]
    are what the arrays [taps_cf32] and [taps_cs16] point to. *)
Record filter_memory := MkFilterMemory {
  self : Z;
  taps_cf32 : Z;
  rows_cf32 : list Z;
  taps_cs16 : Z;
  rows_cs16 : list Z;
  original_taps : Z;
  working_buffer_cf32 : Z;
  working_buffer_cs16 : Z;
  output_cf32 : Z;
  output_cs16 : Z;
}.

Definition sizeof_xlating : Z := 152.
Definition sizeof_complex : Z := 8.
Definition sizeof_int16 : Z := 2.
Definition sizeof_pointer : Z := 8.
Definition alignment : Z := 32.

Definition sdrserver_aligned_alloc (alignment size : Z) : io (C := lib_call) answer :=
  let size := if size `mod` alignment =? 0 then size else wrap 64 ((size / alignment + 1) * alignment) in
  call (aligned_alloc alignment size).

(** The loops of [create_aligned_taps]: a row is written without a test, which is
    undefined for a NULL row. *)
Fixpoint alloc_rows (size : Z) (number : nat) : io (C := lib_call) (list Z) :=
  match number with
  | O => io_ret []
  | S number' =>
      a <- sdrserver_aligned_alloc alignment size;
      if pointer a =? 0 then io_undefined
      else rows <- alloc_rows size number'; io_ret (pointer a :: rows)
  end.

Definition with_taps (m : filter_memory) (cf32 : Z) (rows32 : list Z) (cs16 : Z) (rows16 : list Z) : filter_memory :=
  MkFilterMemory (self m) cf32 rows32 cs16 rows16 (original_taps m) (working_buffer_cf32 m)
    (working_buffer_cs16 m) (output_cf32 m) (output_cs16 m).

Definition create_aligned_taps (m : filter_memory) (taps_len : nat) : io (C := lib_call) (Z * filter_memory) :=
  a32 <- call (malloc (Z.of_nat Xlating.number_of_aligned_cf32 * sizeof_pointer));
  if pointer a32 =? 0 then io_ret (-1, m) else
  a16 <- call (malloc (Z.of_nat Xlating.number_of_aligned_cs16 * sizeof_pointer));
  if pointer a16 =? 0 then (call (free (pointer a32));; io_ret (-1, m)) else
  rows32 <- alloc_rows (Z.of_nat (taps_len + Xlating.number_of_aligned_cf32 - 1) * sizeof_complex)
              Xlating.number_of_aligned_cf32;
  rows16 <- alloc_rows (Z.of_nat (taps_len + Xlating.number_of_aligned_cs16 - 1) * 2 * sizeof_int16)
              Xlating.number_of_aligned_cs16;
  io_ret (0, with_taps m (pointer a32) rows32 (pointer a16) rows16).

Fixpoint free_rows (rows : list Z) : io (C := lib_call) unit :=
  match rows with
  | [] => io_ret tt
  | p :: rows' => call (free p);; free_rows rows'
  end.

Definition free_array (array : Z) (rows : list Z) : io (C := lib_call) unit :=
  if array =? 0 then io_ret tt else (free_rows rows;; call (free array);; io_ret tt).

Definition destroy_xlating (filter : option filter_memory) : io (C := lib_call) unit :=
  match filter with
  | None => io_ret tt
  | Some m =>
      free_array (taps_cf32 m) (rows_cf32 m);;
      free_array (taps_cs16 m) (rows_cs16 m);;
      free_unless_null (original_taps m);;
      free_unless_null (output_cf32 m);;
      free_unless_null (output_cs16 m);;
      free_unless_null (working_buffer_cf32 m);;
      free_unless_null (working_buffer_cs16 m);;
      call (free (self m));;
      io_ret tt
  end.

Definition out_of_memory (m : filter_memory) : io (C := lib_call) (Z * option filter_memory) :=
  destroy_xlating (Some m);; io_ret (- ENOMEM, None).

(** From the working buffers to the end of the constructor, which divides by the
    decimation between them and the output buffers. *)
Definition create_buffers (m : filter_memory) (working_len half decimation : nat)
    : io (C := lib_call) (Z * option filter_memory) :=
  let working_len := Z.of_nat working_len in
  w32 <- sdrserver_aligned_alloc alignment (sizeof_complex * working_len);
  if pointer w32 =? 0 then out_of_memory m else
  let m := MkFilterMemory (self m) (taps_cf32 m) (rows_cf32 m) (taps_cs16 m) (rows_cs16 m) (original_taps m)
             (pointer w32) 0 0 0 in
  w16 <- sdrserver_aligned_alloc alignment (sizeof_int16 * 2 * working_len);
  if pointer w16 =? 0 then out_of_memory m else
  let m := MkFilterMemory (self m) (taps_cf32 m) (rows_cf32 m) (taps_cs16 m) (rows_cs16 m) (original_taps m)
             (pointer w32) (pointer w16) 0 0 in
  if (decimation =? 0)%nat then io_undefined else
  let output_len := Z.of_nat (half / decimation + 1) in
  o32 <- call (malloc (sizeof_complex * output_len));
  if pointer o32 =? 0 then out_of_memory m else
  let m := MkFilterMemory (self m) (taps_cf32 m) (rows_cf32 m) (taps_cs16 m) (rows_cs16 m) (original_taps m)
             (pointer w32) (pointer w16) (pointer o32) 0 in
  o16 <- call (malloc (sizeof_int16 * 2 * output_len));
  if pointer o16 =? 0 then out_of_memory m else
  io_ret (0, Some (MkFilterMemory (self m) (taps_cf32 m) (rows_cf32 m) (taps_cs16 m) (rows_cs16 m)
             (original_taps m) (pointer w32) (pointer w16) (pointer o32) (pointer o16))).

(** From the aligned taps on; [bpf_taps] are only needed for them. *)
Definition create_taps (m : filter_memory) (bpf_taps : Z) (taps_len max_input_buffer_length decimation : nat)
    : io (C := lib_call) (Z * option filter_memory) :=
  r <- create_aligned_taps m taps_len;
  if negb (fst r =? 0) then
    (call (free bpf_taps);; destroy_xlating (Some (snd r));; io_ret (fst r, None))
  else
    call (free bpf_taps);;
    create_buffers (snd r) (max_input_buffer_length / 2 + (taps_len - 1)) (max_input_buffer_length / 2) decimation.

(** [create_frequency_xlating_filter]. *)
Definition create_frequency_xlating_filter (decimation : nat) (taps : Z) (taps_len max_input_buffer_length : nat)
    : io (C := lib_call) (Z * option filter_memory) :=
  if (taps_len =? 0)%nat then io_ret (-1, None) else
  a <- call (malloc sizeof_xlating);
  if pointer a =? 0 then io_ret (- ENOMEM, None) else
  let m := MkFilterMemory (pointer a) 0 [] 0 [] taps 0 0 0 0 in
  bpf <- call (malloc (sizeof_complex * Z.of_nat taps_len));
  if pointer bpf =? 0 then out_of_memory m else
  create_taps m (pointer bpf) taps_len max_input_buffer_length decimation.

(** ** Specification *)

Definition array_blocks (array : Z) (rows : list Z) : list Z := if array =? 0 then [] else rows ++ [array].

(** The blocks of a filter. *)
Definition blocks (m : filter_memory) : list Z :=
  array_blocks (taps_cf32 m) (rows_cf32 m) ++ array_blocks (taps_cs16 m) (rows_cs16 m) ++
  nonnull (original_taps m) ++ nonnull (output_cf32 m) ++ nonnull (output_cs16 m) ++
  nonnull (working_buffer_cf32 m) ++ nonnull (working_buffer_cs16 m) ++ [self m].

(** An allocation fails somewhere. *)
Definition refused (o : oracle (C := lib_call)) : Prop :=
  exists tr c, use c = Opens /\ pointer (o tr c) = 0.
Definition row_refused (o : oracle (C := lib_call)) : Prop :=
  exists tr size, pointer (o tr (aligned_alloc alignment size)) = 0.

(** The postcondition [Q], or [U] when the code runs into undefined behaviour. *)
Definition wp_or {A} (m : io (C := lib_call) A) (Q : A -> record -> Prop) (U : Prop)
    (o : oracle (C := lib_call)) (tr : record) : Prop :=
  match m o tr with Some (x, tr') => Q x tr' | None => U end.

(** ** Lemmas *)

Section rules.
Context (o : oracle (C := lib_call)) (Ho : opens_documented o).

Lemma wp_or_bind {A B} (m : io (C := lib_call) A) (k : A -> io B) Q U tr :
  wp_or m (fun x tr' => wp_or (k x) Q U o tr') U o tr -> wp_or (io_bind m k) Q U o tr.
Proof. unfold wp_or, io_bind. by destruct (m o tr) as [[x tr']|]. Qed.

Lemma wp_or_wp {A} (m : io (C := lib_call) A) Q U tr : wp m Q o tr -> wp_or m Q U o tr.
Proof. unfold wp, wp_or. by destruct (m o tr) as [[x tr']|]. Qed.

Lemma wp_or_mono {A} (m : io (C := lib_call) A) (P Q : A -> record -> Prop) (U V : Prop) tr :
  wp_or m P U o tr -> (forall x tr', P x tr' -> Q x tr') -> (U -> V) -> wp_or m Q V o tr.
Proof. unfold wp_or. destruct (m o tr) as [[x tr']|]; auto. Qed.

Lemma wp_alloc c hs (Q : answer -> record -> Prop) tr :
  use c = Opens -> holding tr hs ->
  (forall a tr', pointer a <> 0 -> holding tr' (pointer a :: hs) -> Q a tr') ->
  (forall a tr', pointer a = 0 -> refused o -> a = o tr c -> holding tr' hs -> Q a tr') ->
  wp (call c) Q o tr.
Proof.
  intros Hc Hw H1 H2. eapply hold_alloc; [exact Hc|exact Hw|exact Ho|auto|].
  intros a tr' Ha E Hw'. apply H2; [done|exists tr, c; by rewrite <- E|done|done].
Qed.

Lemma free_rows_wp rows : forall own (Q : unit -> record -> Prop) tr,
  holding tr (rows ++ own) -> (forall tr', holding tr' own -> Q tt tr') -> wp (free_rows rows) Q o tr.
Proof using Ho.
  induction rows as [|p rows IH]; intros own Q tr Hw HQ; cbn [free_rows app] in *; [by apply wp_ret, HQ|].
  apply wp_bind. eapply hold_free; [exact Hw|]. intros _ tr' Hw'. by eapply IH.
Qed.

Lemma free_array_wp array rows own (Q : unit -> record -> Prop) tr :
  holding tr (array_blocks array rows ++ own) -> (forall tr', holding tr' own -> Q tt tr') ->
  wp (free_array array rows) Q o tr.
Proof using Ho.
  unfold free_array, array_blocks. destruct (array =? 0); intros Hw HQ; [by apply wp_ret, HQ|].
  apply wp_bind. rewrite <- app_assoc in Hw. eapply free_rows_wp; [exact Hw|]. intros tr1 Hw1.
  apply wp_bind. eapply hold_free; [exact Hw1|]. intros _ tr2 Hw2. by apply wp_ret, HQ.
Qed.

(** The destructor frees exactly the blocks of the filter. *)
Lemma destroy_wp m own (Q : unit -> record -> Prop) tr :
  holding tr (blocks m ++ own) -> (forall tr', holding tr' own -> Q tt tr') ->
  wp (destroy_xlating (Some m)) Q o tr.
Proof using Ho.
  unfold blocks, destroy_xlating. intros Hw HQ. rewrite <- !app_assoc in Hw.
  apply wp_bind. eapply free_array_wp; [exact Hw|]. clear Hw. intros tr1 Hw.
  apply wp_bind. eapply free_array_wp; [exact Hw|]. clear Hw. intros tr2 Hw.
  do 5 (apply wp_bind; eapply free_unless_null_wp; [exact Hw|]; clear Hw; intros ? Hw).
  apply wp_bind. eapply hold_free; [exact Hw|]. intros _ tr9 Hw9. by apply wp_ret, HQ.
Qed.

(** Rows: allocated in full, or one of them is NULL and written to. *)
Lemma alloc_rows_wp size number : forall own (Q : list Z -> record -> Prop) tr,
  holding tr own ->
  (forall rows tr', length rows = number -> Forall (fun p => p <> 0) rows -> holding tr' (rows ++ own) -> Q rows tr') ->
  wp_or (alloc_rows size number) Q (row_refused o) o tr.
Proof using Ho.
  induction number as [|number IH]; intros own Q tr Hw HQ; cbn [alloc_rows].
  { apply wp_or_wp, wp_ret, HQ; done. }
  apply wp_or_bind, wp_or_wp. eapply wp_alloc; [done|exact Hw|..].
  - intros a tr1 Ha Hw1. rewrite (proj2 (Z.eqb_neq _ 0) Ha). apply wp_or_bind. eapply IH; [exact Hw1|].
    intros rows tr2 Hl Hf Hw2. apply wp_or_wp, wp_ret, HQ; [simpl; lia|by constructor|].
    eapply holding_perm; [exact Hw2|]. cbn [app]. by rewrite Permutation_middle.
  - intros a tr1 Ha _ -> Hw1. rewrite (proj2 (Z.eqb_eq _ 0) Ha). unfold wp_or, io_undefined. by do 2 eexists.
Qed.

(** [create_aligned_taps]: both arrays of rows or nothing. *)
Lemma create_aligned_taps_wp m taps_len own (Q : Z * filter_memory -> record -> Prop) tr :
  holding tr own ->
  (forall a32 rows32 a16 rows16 tr', a32 <> 0 -> a16 <> 0 ->
     holding tr' (array_blocks a32 rows32 ++ array_blocks a16 rows16 ++ own) ->
     Q (0, with_taps m a32 rows32 a16 rows16) tr') ->
  (forall tr', refused o -> holding tr' own -> Q (-1, m) tr') ->
  wp_or (create_aligned_taps m taps_len) Q (row_refused o) o tr.
Proof using Ho.
  intros Hw H1 H2. unfold create_aligned_taps. apply wp_or_bind, wp_or_wp. eapply wp_alloc; [done|exact Hw|..].
  2: { intros a tr1 Ha Hr _ Hw1. rewrite (proj2 (Z.eqb_eq _ 0) Ha). by apply wp_or_wp, wp_ret, H2. }
  intros a tr1 Ha Hw1. rewrite (proj2 (Z.eqb_neq _ 0) Ha). apply wp_or_bind, wp_or_wp. eapply wp_alloc; [done|exact Hw1|..].
  2: { intros b tr2 Hb Hr _ Hw2. rewrite (proj2 (Z.eqb_eq _ 0) Hb). apply wp_or_wp, wp_bind.
       eapply hold_free; [exact Hw2|]. intros _ tr3 Hw3. by apply wp_ret, H2. }
  intros b tr2 Hb Hw2. rewrite (proj2 (Z.eqb_neq _ 0) Hb). apply wp_or_bind. eapply alloc_rows_wp; [exact Hw2|].
  intros rows32 tr3 _ _ Hw3. apply wp_or_bind. eapply alloc_rows_wp; [exact Hw3|].
  intros rows16 tr4 _ _ Hw4. apply wp_or_wp, wp_ret, H1; [done|done|]. unfold array_blocks.
  rewrite (proj2 (Z.eqb_neq _ 0) Ha), (proj2 (Z.eqb_neq _ 0) Hb). eapply holding_perm; [exact Hw4|].
  rewrite <- !app_assoc. cbn [app]. rewrite (Permutation_app_swap_app rows16 rows32). apply Permutation_app_head.
  rewrite (Permutation_app_comm rows16). cbn [app]. rewrite Permutation_swap. apply Permutation_skip.
  rewrite (Permutation_app_comm rows16). cbn [app]. by rewrite Permutation_middle, (Permutation_app_comm own).
Qed.

Lemma out_of_memory_wp m own (Q : Z * option filter_memory -> record -> Prop) tr :
  holding tr (blocks m ++ own) -> (forall tr', holding tr' own -> Q (- ENOMEM, None) tr') ->
  wp (out_of_memory m) Q o tr.
Proof using Ho.
  intros Hw HQ. unfold out_of_memory. apply wp_bind. eapply destroy_wp; [exact Hw|]. intros tr' Hw'. by apply wp_ret, HQ.
Qed.
End rules.

(** The blocks of a filter are those of one without a buffer, and the buffer. *)
Lemma blocks_add_working32 s t32 r32 t16 r16 orig p : p <> 0 ->
  blocks (MkFilterMemory s t32 r32 t16 r16 orig p 0 0 0) ≡ₚ p :: blocks (MkFilterMemory s t32 r32 t16 r16 orig 0 0 0 0).
Proof. intros Hp. unfold blocks. cbn -[array_blocks nonnull]. rewrite (nonnull_neq p) by done. cbn. by rewrite !Permutation_middle. Qed.

Lemma blocks_add_working16 s t32 r32 t16 r16 orig w p : p <> 0 ->
  blocks (MkFilterMemory s t32 r32 t16 r16 orig w p 0 0) ≡ₚ p :: blocks (MkFilterMemory s t32 r32 t16 r16 orig w 0 0 0).
Proof. intros Hp. unfold blocks. cbn -[array_blocks nonnull]. rewrite (nonnull_neq p) by done. cbn. by rewrite !Permutation_middle. Qed.

Lemma blocks_add_output32 s t32 r32 t16 r16 orig w w' p : p <> 0 ->
  blocks (MkFilterMemory s t32 r32 t16 r16 orig w w' p 0) ≡ₚ p :: blocks (MkFilterMemory s t32 r32 t16 r16 orig w w' 0 0).
Proof. intros Hp. unfold blocks. cbn -[array_blocks nonnull]. rewrite (nonnull_neq p) by done. cbn. by rewrite !Permutation_middle. Qed.

Lemma blocks_add_output16 s t32 r32 t16 r16 orig w w' o p : p <> 0 ->
  blocks (MkFilterMemory s t32 r32 t16 r16 orig w w' o p) ≡ₚ p :: blocks (MkFilterMemory s t32 r32 t16 r16 orig w w' o 0).
Proof. intros Hp. unfold blocks. cbn -[array_blocks nonnull]. rewrite (nonnull_neq p) by done. cbn. by rewrite !Permutation_middle. Qed.

Lemma blocks_initial p taps own : taps <> 0 ->
  blocks (MkFilterMemory p 0 [] 0 [] taps 0 0 0 0) ++ own ≡ₚ p :: taps :: own.
Proof. intros Ht. unfold blocks. cbn -[nonnull]. rewrite nonnull_neq by done. apply Permutation_swap. Qed.

Section create.
Context (o : oracle (C := lib_call)) (Ho : opens_documented o).

(** An allocation of the constructor: the block joins those of the filter, or the
    filter is destroyed and the code is [-ENOMEM]. *)
Lemma alloc_or_destroy_wp c m own k (Q : Z * option filter_memory -> record -> Prop) tr :
  use c = Opens -> holding tr (blocks m ++ own) ->
  (forall tr', refused o -> holding tr' own -> Q (- ENOMEM, None) tr') ->
  (forall a tr', pointer a <> 0 -> holding tr' (pointer a :: blocks m ++ own) -> wp (k a) Q o tr') ->
  wp (io_bind (call c) (fun a => if pointer a =? 0 then out_of_memory m else k a)) Q o tr.
Proof using Ho.
  intros Hc Hw H1 H2. apply wp_bind. eapply wp_alloc; [exact Ho|exact Hc|exact Hw|..].
  - intros a tr' Ha Hw'. rewrite (proj2 (Z.eqb_neq _ 0) Ha). by apply H2.
  - intros a tr' Ha Hr _ Hw'. rewrite (proj2 (Z.eqb_eq _ 0) Ha). eapply out_of_memory_wp; [exact Ho|exact Hw'|].
    intros tr2 Hw2. by apply H1.
Qed.

Lemma create_buffers_wp s t32 r32 t16 r16 taps own wl half dec (Q : Z * option filter_memory -> record -> Prop) tr :
  (0 < dec)%nat -> let m := MkFilterMemory s t32 r32 t16 r16 taps 0 0 0 0 in
  holding tr (blocks m ++ own) ->
  (forall tr', refused o -> holding tr' own -> Q (- ENOMEM, None) tr') ->
  (forall w w' b b' tr', Forall (fun p => p <> 0) [w; w'; b; b'] ->
     let m' := MkFilterMemory s t32 r32 t16 r16 taps w w' b b' in
     holding tr' (blocks m' ++ own) -> Q (0, Some m') tr') ->
  wp (create_buffers m wl half dec) Q o tr.
Proof using Ho.
  intros Hdec m Hw H1 H2. unfold create_buffers, sdrserver_aligned_alloc.
  apply alloc_or_destroy_wp with own; [done|exact Hw|exact H1|]. intros a tr1 Ha Hw1. cbv zeta.
  apply alloc_or_destroy_wp with own; [done| |exact H1|].
  { eapply holding_perm; [exact Hw1|]. by rewrite (blocks_add_working32 _ _ _ _ _ _ (pointer a)). }
  intros b tr2 Hb Hw2. cbv zeta. rewrite (proj2 (Nat.eqb_neq _ _)) by lia.
  apply alloc_or_destroy_wp with own; [done| |exact H1|].
  { eapply holding_perm; [exact Hw2|]. by rewrite (blocks_add_working16 _ _ _ _ _ _ _ (pointer b)). }
  intros c tr3 Hc Hw3. cbv zeta. apply alloc_or_destroy_wp with own; [done| |exact H1|].
  { eapply holding_perm; [exact Hw3|]. by rewrite (blocks_add_output32 _ _ _ _ _ _ _ _ (pointer c)). }
  intros d tr4 Hd Hw4. apply wp_ret, H2; [by repeat constructor|].
  eapply holding_perm; [exact Hw4|]. by rewrite (blocks_add_output16 _ _ _ _ _ _ _ _ _ (pointer d)).
Qed.
(** The constructor once the taps are reversed. *)
Lemma create_taps_wp self taps own b taps_len max dec (Q : Z * option filter_memory -> record -> Prop) tr :
  let m := MkFilterMemory self 0 [] 0 [] taps 0 0 0 0 in
  taps <> 0 -> (0 < dec)%nat -> holding tr (b :: blocks m ++ own) ->
  (forall code tr', code <> 0 -> refused o -> holding tr' own -> Q (code, None) tr') ->
  (forall m' tr', original_taps m' = taps -> holding tr' (blocks m' ++ own) -> Q (0, Some m') tr') ->
  wp_or (create_taps m b taps_len max dec) Q (row_refused o) o tr.
Proof using Ho.
  intros m Ht Hdec Hw H1 H2. unfold create_taps. apply wp_or_bind. eapply create_aligned_taps_wp; [done|exact Hw|..].
  - intros a32 rows32 a16 rows16 tr3 H32 H16 Hw3. cbn [fst snd Z.eqb negb].
    apply wp_or_bind, wp_or_wp.
    eapply hold_free; [eapply holding_perm; [exact Hw3|]; rewrite app_assoc; symmetry; apply Permutation_middle|].
    intros _ tr4 Hw4. apply wp_or_wp. unfold with_taps, m. cbn.
    eapply (create_buffers_wp _ _ _ _ _ _ own); [done| | |].
    + eapply holding_perm; [exact Hw4|]. unfold blocks. cbn -[nonnull array_blocks]. rewrite nonnull_neq by done. cbn -[array_blocks].
      by rewrite <- !app_assoc.
    + intros tr5 Hr Hw5. by apply H1.
    + intros w w' c c' tr5 _ m' Hw5. by apply H2.
  - intros tr3 Hr Hw3. cbn [fst snd Z.eqb Pos.eqb negb]. apply wp_or_wp, wp_bind.
    eapply hold_free; [exact Hw3|]. intros _ tr4 Hw4. apply wp_bind.
    eapply destroy_wp; [exact Ho|exact Hw4|]. intros tr5 Hw5. apply wp_ret. by apply H1.
Qed.
End create.

(** ** Properties *)

(** C16. The constructor and the destructor of a filter leak nothing and free nothing
    twice, whatever the allocator answers: a constructor that succeeds owns its
    fourteen blocks and the taps it was given, all of which [destroy_xlating] frees;
    one that fails has freed all it allocated and the taps too, which it only leaves
    to its caller when there are no taps or the structure itself was refused; and
    it fails only if an allocation was refused.  The one undefined behaviour is
    the write to a row of taps whose [aligned_alloc] failed, which is not tested. *)
Theorem filter_memory_balanced o tr hs decimation taps taps_len max :
  opens_documented o -> holding tr (taps :: hs) -> (0 < decimation)%nat ->
  match create_frequency_xlating_filter decimation taps taps_len max o tr with
  | Some ((code, Some m), tr') => code = 0 /\ original_taps m = taps /\ holding tr' (blocks m ++ hs) /\
      wp (destroy_xlating (Some m)) (fun _ tr'' => holding tr'' hs) o tr'
  | Some ((code, None), tr') => code <> 0 /\ (taps_len = 0%nat \/ refused o) /\
      (holding tr' hs \/
       holding tr' (taps :: hs) /\ (taps_len = 0%nat \/ pointer (o tr (malloc sizeof_xlating)) = 0))
  | None => row_refused o
  end.
Proof.
  intros Ho Hw Hdec.
  assert (taps <> 0) as Ht0 by (destruct Hw as (l & _ & _ & _ & Hz); intros ->; apply Hz; left).
  set (Q := fun (r : Z * option filter_memory) (tr' : record) =>
    match r with
    | (code, Some m) => code = 0 /\ original_taps m = taps /\ holding tr' (blocks m ++ hs) /\
        wp (destroy_xlating (Some m)) (fun _ tr'' => holding tr'' hs) o tr'
    | (code, None) => code <> 0 /\ (taps_len = 0%nat \/ refused o) /\
        (holding tr' hs \/ holding tr' (taps :: hs) /\ (taps_len = 0%nat \/ pointer (o tr (malloc sizeof_xlating)) = 0))
    end).
  enough (wp_or (create_frequency_xlating_filter decimation taps taps_len max) Q (row_refused o) o tr) as H.
  { unfold wp_or, Q in H. destruct (create_frequency_xlating_filter _ _ _ _ o tr) as [[[code [m|]] tr']|]; done. }
  unfold create_frequency_xlating_filter. destruct (taps_len =? 0)%nat eqn:El.
  { apply Nat.eqb_eq in El. apply wp_or_wp, wp_ret. split; [done|]. split; [by left|]. right. split; [done|by left]. }
  apply wp_or_bind, wp_or_wp. eapply wp_alloc; [done|done|exact Hw|..].
  2: { intros a tr1 Ha Hr -> Hw1. rewrite (proj2 (Z.eqb_eq _ 0) Ha). apply wp_or_wp, wp_ret.
       split; [done|]. split; [by right|]. right. split; [done|by right]. }
  intros a tr1 Ha Hw1. rewrite (proj2 (Z.eqb_neq _ 0) Ha). cbv zeta.
  apply wp_or_bind, wp_or_wp. eapply wp_alloc; [done|done|exact Hw1|..].
  2: { intros b tr2 Hb Hr _ Hw2. rewrite (proj2 (Z.eqb_eq _ 0) Hb). apply wp_or_wp.
       apply (out_of_memory_wp o Ho _ hs); [by eapply holding_perm; [exact Hw2|rewrite blocks_initial]|].
       intros tr3 Hw3. split; [done|]. split; [by right|by left]. }
  intros b tr2 Hb Hw2. rewrite (proj2 (Z.eqb_neq _ 0) Hb). apply (create_taps_wp o Ho _ _ hs); [done|done|..].
  - by eapply holding_perm; [exact Hw2|rewrite blocks_initial].
  - intros code tr3 Hc Hr Hw3. split; [done|]. split; [by right|by left].
  - intros m tr3 <- Hw3. split_and!; [done|done|done|]. by eapply destroy_wp.
Qed.

(** ** The property on a concrete run

    The second working buffer is refused; the filter, allocated up to there, is
    destroyed with its taps. *)
Definition example_oracle : oracle (C := lib_call) :=
  simple_oracle (fun c => match c with aligned_alloc _ 96 => 12 | _ => 0 end).

Definition taps_given : record (C := lib_call) := [(malloc 12, (0, [77]))].

Lemma filter_memory_balanced_witness : exists r tr',
  create_frequency_xlating_filter 2 77 3 40 example_oracle taps_given = Some (r, tr') /\
  r = (- ENOMEM, None) /\ holding tr' [].
Proof.
  pose proof (filter_memory_balanced example_oracle taps_given [] 2 77 3 40 (simple_oracle_documented _)) as H.
  assert (holding taps_given [77]) as Hw.
  { exists [77]. split; [reflexivity|]. split; [done|]. split; [apply NoDup_singleton|].
    intros Hin. by apply list_elem_of_singleton in Hin. }
  specialize (H Hw ltac:(lia)).
  assert (option_map fst (create_frequency_xlating_filter 2 77 3 40 example_oracle taps_given)
    = Some (- ENOMEM, None)) as E by (vm_compute; reflexivity).
  assert (pointer (example_oracle taps_given (malloc sizeof_xlating)) <> 0) as Hp by (vm_compute; discriminate).
  destruct (create_frequency_xlating_filter 2 77 3 40 example_oracle taps_given) as [[r tr']|]; cbn [option_map fst] in E;
    [|discriminate]. injection E as ->.
  exists (- ENOMEM, None), tr'. destruct H as (_ & _ & [H|(_ & [H|H])]); [exact (conj eq_refl (conj eq_refl H))|discriminate|done].
Defined.

End FilterMemory.
