(* ===== verification/ConfigMemory.v ===== *)
(** * The memory of the configuration: src/config.c

    [Config] says which configuration a file gives; here are the allocations of
    create_server_config in order (the structure, the tables of libconfig, the
    strings) with every early return, and destroy_server_config. *)
From S2P Require Import Prelude Float Config Io Lib.
Import Float Io Lib.
#[local] Open Scope Z_scope.
#[local] Open Scope io_scope.

Module ConfigMemory.

Definition CONFIG_FALSE : Z := 0.

(** The pointers of [struct server_config], and its own address; 0 is NULL. *)
Record owned := MkOwned { self : Z; bind_address : Z; base_path : Z; device_serial : Z }.

Definition destroy_server_config (config : option owned) : io (C := lib_call) unit :=
  match config with
  | None => io_ret tt
  | Some c =>
      free_unless_null (bind_address c);;
      free_unless_null (base_path c);;
      free_unless_null (device_serial c);;
      call (free (self c));;
      io_ret tt
  end.

Section libconfig.
Context {setting : Type} (lookup : string -> option setting).
Context (get_int : setting -> Z) (get_float : setting -> float) (get_string : setting -> option string).

(** [read_and_copy_str]: the copy, or NULL. *)
Definition read_and_copy_str (setting : option setting) (default_value : option string) : io (C := lib_call) Z :=
  let copy value :=
    a <- call (malloc (Z.of_nat (String.length value) + 1));
    io_ret (pointer a) in
  match setting, default_value with
  | None, None => io_ret 0
  | None, Some value => copy value
  | Some setting, _ => match get_string setting with Some value => copy value | None => io_undefined end
  end.

(** The tests before the first string, which all have the same clean-up. *)
Definition settings_ok : bool :=
  let int := Config.config_read_int lookup get_int in
  negb (Config.outside (int "airspy_vga_gain" 5) 15) &&
  negb (Config.outside (int "airspy_mixer_gain" 0) 15) &&
  negb (Config.outside (int "airspy_lna_gain" 1) 14) &&
  negb (Config.outside (int "airspy_linearity_gain" 0) 21) &&
  negb (Config.outside (int "airspy_sensitivity_gain" 0) 21) &&
  negb (1 <? int "hackrf_amp" 0) &&
  negb (Config.outside (int "hackrf_lna_gain" 16) 40) &&
  negb (Config.outside (int "hackrf_vga_gain" 16) 62) &&
  negb (Config.outside (int "msisdr_gain" 40) 102) &&
  negb (int "queue_size" 64 <=? 0) &&
  match lookup "band_sampling_rate" with Some _ => true | None => false end.

(** [config_destroy(&libconfig); free(result); return code;] *)
Definition release (libconfig result code : Z) : io (C := lib_call) (Z * option owned) :=
  call (config_destroy libconfig);; call (free result);; io_ret (code, None).

(** [config_destroy(&libconfig); destroy_server_config(result); return code;] *)
Definition release_all (libconfig : Z) (result : owned) (code : Z) : io (C := lib_call) (Z * option owned) :=
  call (config_destroy libconfig);; destroy_server_config (Some result);; io_ret (code, None).

(** From the time-out on. *)
Definition read_base_path (tmpdir : option string) (libconfig result bind_address device_serial : Z)
    : io (C := lib_call) (Z * option owned) :=
  if Config.config_read_int lookup get_int "read_timeout_seconds" 5 <=? 0 then
    release_all libconfig (MkOwned result bind_address 0 device_serial) (-1)
  else
    base_path <- read_and_copy_str (lookup "base_path") (Some (default "/tmp" tmpdir));
    if base_path =? 0 then release_all libconfig (MkOwned result bind_address 0 device_serial) (- ENOMEM)
    else
      let owned := MkOwned result bind_address base_path device_serial in
      match Config.read_optimization lookup get_string with
      | None => io_undefined
      | Some optimization =>
          if optimization =? wrap 32 (-1) then release_all libconfig owned (-1)
          else call (config_destroy libconfig);; io_ret (0, Some owned)
      end.

(** The strings and what is checked between them. *)
Definition read_strings (tmpdir : option string) (libconfig result : Z) : io (C := lib_call) (Z * option owned) :=
  device_serial <- read_and_copy_str (lookup "device_serial") None;
  bind_address <- read_and_copy_str (lookup "bind_address") (Some "127.0.0.1");
  if bind_address =? 0 then release libconfig result (- ENOMEM)
  else read_base_path tmpdir libconfig result bind_address device_serial.

Definition create_server_config (path : string) (tmpdir : option string) : io (C := lib_call) (Z * option owned) :=
  a <- call (malloc 168);
  if pointer a =? 0 then io_ret (- ENOMEM, None)
  else
    let result := pointer a in
    c <- call config_init;
    if pointer c =? 0 then io_undefined
    else
      let libconfig := pointer c in
      code <- code_of (config_read_file libconfig path);
      if code =? CONFIG_FALSE then release libconfig result (-1)
      else
        match Config.read_gain lookup get_float with
        | None => io_undefined
        | Some _ =>
            if negb settings_ok then release libconfig result (-1)
            else read_strings tmpdir libconfig result
        end.
End libconfig.

(** ** Specification *)

(** The blocks of a configuration. *)
Definition blocks (c : owned) : list Z :=
  nonnull (bind_address c) ++ nonnull (base_path c) ++ nonnull (device_serial c) ++ [self c].

(** [config_init] never fails. *)
Definition libconfig_starts (o : oracle (C := lib_call)) : Prop := forall tr, pointer (o tr config_init) <> 0.

(** An allocation fails somewhere. *)
Definition refused (o : oracle (C := lib_call)) : Prop := exists tr c, use c = Opens /\ pointer (o tr c) = 0.

(** The file cannot be read. *)
Definition unreadable (o : oracle (C := lib_call)) (path : string) : Prop :=
  exists tr config, fst (o tr (config_read_file config path)) = CONFIG_FALSE.

(** The code of the part of the constructor that reads the strings, when their
    allocations succeed or not. *)
Definition strings_code {setting} (lookup : string -> option setting) (get_int : setting -> Z)
    (get_string : setting -> option string) (tmpdir : option string) (serial_ok bind_ok base_ok : bool) : option Z :=
  _ ← Config.read_and_copy_str get_string serial_ok (lookup "device_serial") None;
  addr ← Config.read_and_copy_str get_string bind_ok (lookup "bind_address") (Some "127.0.0.1");
  match addr with
  | None => Some (- ENOMEM)
  | Some _ =>
      if Config.config_read_int lookup get_int "read_timeout_seconds" 5 <=? 0 then Some (-1)
      else
        base ← Config.read_and_copy_str get_string base_ok (lookup "base_path") (Some (default "/tmp" tmpdir));
        match base with
        | None => Some (- ENOMEM)
        | Some _ =>
            o ← Config.read_optimization lookup get_string;
            Some (if o =? wrap 32 (-1) then -1 else 0)
        end
  end.

(** The answers of the four allocations of the structure and the strings. *)
Definition answers (structure serial bind base : bool) (k : nat) : bool := nth k [structure; serial; bind; base] true.

(** ** Lemmas *)

(** The code of the constructor, by what happens to it. *)
Lemma create_code {setting} (lookup : string -> option setting) get_int get_float get_bool get_string malloc_ok tmpdir gain :
  Config.read_gain lookup get_float = Some gain -> malloc_ok 0%nat = true ->
  fst <$> Config.create_server_config lookup get_int get_float get_bool get_string malloc_ok true tmpdir =
    if negb (settings_ok lookup get_int) then Some (-1)
    else
      strings_code lookup get_int get_string tmpdir (malloc_ok 1%nat) (malloc_ok 2%nat) (malloc_ok 3%nat).
Proof.
  intros Hg Hm. unfold Config.create_server_config, settings_ok, strings_code. rewrite Hm, Hg. cbn [negb mbind option_bind].
  repeat match goal with
  | |- context [if Config.outside ?x ?h then _ else _] => destruct (Config.outside x h); cbn [negb andb]; [done|]
  | |- context [if 1 <? ?x then _ else _] => destruct (1 <? x); cbn [negb andb]; [done|]
  end.
  destruct (_ <=? 0); cbn [negb andb]; [done|]. destruct (lookup "band_sampling_rate"); [|done]. cbn [negb].
  repeat (destruct (Config.read_and_copy_str _ _ _ _) as [[]|]; cbn [mbind option_bind fmap option_fmap]; try done;
    try (destruct (_ <=? 0); [done|])).
  all: destruct (Config.read_optimization lookup get_string) as [o|]; cbn [mbind option_bind]; [|done]; by destruct (o =? wrap 32 (-1)).
Qed.

Lemma settings_ok_acceptable {setting} (lookup : string -> option setting) get_int get_string :
  Config.acceptable lookup get_int get_string -> settings_ok lookup get_int = true.
Proof.
  intros (H1 & H2 & H3 & H4 & H5 & H6 & H7 & H8 & H9 & H10 & [st H11] & _). unfold settings_ok. rewrite H11.
  repeat match goal with H : Config.between 0 _ _ |- _ => apply Config.outside_spec in H; rewrite H; clear H end.
  rewrite (proj2 (Z.ltb_ge _ _) H6), (proj2 (Z.leb_gt _ _) H10). done.
Qed.

Lemma destroy_config_wp c hs (Q : unit -> record -> Prop) (o : oracle (C := lib_call)) tr :
  holding tr (blocks c ++ hs) -> (forall tr', holding tr' hs -> Q tt tr') -> wp (destroy_server_config (Some c)) Q o tr.
Proof.
  unfold blocks, destroy_server_config. rewrite <- !app_assoc. intros Hw HQ.
  do 3 (apply wp_bind; eapply free_unless_null_wp; [exact Hw|]; clear Hw; intros ? Hw).
  apply wp_bind. eapply hold_free; [exact Hw|]. intros _ tr9 Hw9. by apply wp_ret, HQ.
Qed.

Section create.
Context {setting : Type} (lookup : string -> option setting).
Context (get_int : setting -> Z) (get_float : setting -> float) (get_bool : setting -> Z) (get_string : setting -> option string).
Context (o : oracle (C := lib_call)) (path : string) (tmpdir : option string).
Hypothesis documented : opens_documented o.
Hypothesis starts : libconfig_starts o.
Hypothesis strings : Config.string_settings lookup get_string.

(** A copy of a string: its address, 0 when there is none. *)
Lemma read_and_copy_str_wp name default_value hs (Q : Z -> record -> Prop) tr :
  name ∈ ["device_serial"; "bind_address"; "base_path"; "cpu_optimization"] -> holding tr hs ->
  (forall p r tr', Config.read_and_copy_str get_string (negb (p =? 0)) (lookup name) default_value = Some r ->
     (p = 0 -> r = None /\ (lookup name = None /\ default_value = None \/ refused o)) -> (p <> 0 -> is_Some r) ->
     (p <> 0 -> is_Some (lookup name) \/ is_Some default_value) ->
     holding tr' (nonnull p ++ hs) -> Q p tr') ->
  wp (read_and_copy_str get_string (lookup name) default_value) Q o tr.
Proof using documented strings.
  clear get_int get_float get_bool starts. intros Hin Hw HQ. unfold read_and_copy_str.
  assert (forall value, (forall ok, Config.read_and_copy_str get_string ok (lookup name) default_value = Some (if ok : bool then Some value else None)) ->
    is_Some (lookup name) \/ is_Some default_value ->
    wp (a <- call (malloc (Z.of_nat (String.length value) + 1)); io_ret (pointer a)) Q o tr) as Hcopy.
  { intros value Hr Hsome. apply wp_bind. eapply hold_alloc; [done|exact Hw|done| |].
    - intros a tr' Ha _ Hw'. apply wp_ret. apply (HQ (pointer a) (Some value));
        [by rewrite Hr, (proj2 (Z.eqb_neq _ 0) Ha)|done|by eexists|done|by rewrite nonnull_neq].
    - intros a tr' Ha E Hw'. apply wp_ret. rewrite Ha. apply (HQ 0 _ _ (Hr _)); [|done|done|done].
      intros _. split; [done|]. right. exists tr, (malloc (Z.of_nat (String.length value) + 1)). by rewrite <- E. }
  destruct (lookup name) as [st|] eqn:E.
  - destruct (strings name st Hin E) as [value Ev]. rewrite Ev. apply Hcopy; [|eauto].
    intros ok. cbn. by rewrite Ev.
  - destruct default_value as [value|]; [by apply Hcopy; eauto|]. apply wp_ret.
    apply (HQ 0 None); [done|auto|done|done|done].
Qed.

Lemma release_wp libconfig result code hs (Q : Z * option owned -> record -> Prop) tr :
  holding tr (libconfig :: result :: hs) -> (forall tr', holding tr' hs -> Q (code, None) tr') ->
  wp (release libconfig result code) Q o tr.
Proof using Type.
  intros Hw HQ. unfold release. apply wp_bind. eapply hold_close; [done|exact Hw|]. intros _ tr1 Hw1 _.
  apply wp_bind. eapply hold_free; [exact Hw1|]. intros _ tr2 Hw2. by apply wp_ret, HQ.
Qed.

Lemma release_all_wp libconfig c code hs (Q : Z * option owned -> record -> Prop) tr :
  holding tr (libconfig :: blocks c ++ hs) -> (forall tr', holding tr' hs -> Q (code, None) tr') ->
  wp (release_all libconfig c code) Q o tr.
Proof using Type.
  intros Hw HQ. unfold release_all. apply wp_bind. eapply hold_close; [done|exact Hw|]. intros _ tr1 Hw1 _.
  apply wp_bind. eapply destroy_config_wp; [exact Hw1|]. intros tr2 Hw2. by apply wp_ret, HQ.
Qed.

(** The code of [read_strings] on a path. *)
Ltac strings :=
  unfold strings_code;
  repeat (match goal with H : ?x = _ |- context [?x] => rewrite H end; cbn [mbind option_bind]).

(** The codes of the strings' allocations. *)
Definition code_of_strings (serial addr base : Z) : option Z :=
  strings_code lookup get_int get_string tmpdir (negb (serial =? 0)) (negb (addr =? 0)) (negb (base =? 0)).

Lemma read_base_path_wp libconfig result addr serial rs va hs (Q : Z * option owned -> record -> Prop) tr :
  addr <> 0 -> holding tr (addr :: nonnull serial ++ libconfig :: result :: hs) ->
  Config.read_and_copy_str get_string (negb (serial =? 0)) (lookup "device_serial") None = Some rs ->
  Config.read_and_copy_str get_string (negb (addr =? 0)) (lookup "bind_address") (Some "127.0.0.1") = Some (Some va) ->
  (forall code base tr', code <> 0 -> code_of_strings serial addr base = Some code ->
     (refused o \/ ~ Config.acceptable lookup get_int get_string) -> holding tr' hs -> Q (code, None) tr') ->
  (forall c tr', code_of_strings (device_serial c) 1 1 = Some 0 -> holding tr' (blocks c ++ hs) -> Q (0, Some c) tr') ->
  wp (read_base_path lookup get_int get_string tmpdir libconfig result addr serial) Q o tr.
Proof using documented strings.
  clear starts. intros Ha Hw Es Eb Hno Hyes. unfold read_base_path. unfold code_of_strings in *.
  assert (forall tr base, holding tr (nonnull base ++ addr :: nonnull serial ++ libconfig :: result :: hs) ->
    holding tr (libconfig :: blocks (MkOwned result addr base serial) ++ hs)) as Hblocks.
  { intros tr1 base Hw1. unfold blocks. cbn [bind_address base_path device_serial self]. rewrite (nonnull_neq addr) by done.
    by reorder Hw1. }
  destruct (_ <=? 0) eqn:Et.
  { eapply (release_all_wp _ _ _ hs); [by apply Hblocks|]. intros tr1 Hw1.
    apply (Hno _ 0); [done|by strings| |done]. right. unfold Config.acceptable. apply Z.leb_le in Et. lia. }
  apply wp_bind. eapply read_and_copy_str_wp; [set_solver|exact Hw|].
  intros base rp tr3 Ep Hp0 Hp1 _ Hw3. apply Hblocks in Hw3. destruct (base =? 0) eqn:Eq.
  { apply Z.eqb_eq in Eq as ->. destruct (Hp0 eq_refl) as [-> [[_ ?]|Hr]]; [done|].
    eapply (release_all_wp _ _ _ hs); [exact Hw3|]. intros tr4 Hw4.
    apply (Hno _ 0); [done|change (0 =? 0) with true; by strings|by left|done]. }
  destruct (Hp1 (proj1 (Z.eqb_neq _ 0) Eq)) as [vp ->].
  destruct (Config.read_optimization_defined lookup get_string strings) as [opt Eo]. rewrite Eo.
  destruct (opt =? wrap 32 (-1)) eqn:Ei.
  - eapply (release_all_wp _ _ _ hs); [exact Hw3|]. intros tr4 Hw5.
    apply (Hno _ base); [done|rewrite Eq; by strings| |done]. right. unfold Config.acceptable. rewrite Eo.
    apply Z.eqb_eq in Ei as ->. tauto.
  - apply wp_bind. eapply hold_close; [done|exact Hw3|]. intros _ tr4 Hw5 _. apply wp_ret.
    rewrite (proj2 (Z.eqb_neq _ 0) Ha) in Eb. apply Hyes; [|done]. cbn [device_serial].
    change (1 =? 0) with false. cbn [negb] in Eb, Ep |- *. by strings.
Qed.

Lemma read_strings_wp libconfig result hs (Q : Z * option owned -> record -> Prop) tr :
  holding tr (libconfig :: result :: hs) ->
  (forall code serial addr base tr', code_of_strings serial addr base = Some code -> code <> 0 ->
     (refused o \/ ~ Config.acceptable lookup get_int get_string) ->
     (holding tr' hs \/ exists serial, code = - ENOMEM /\ is_Some (lookup "device_serial") /\ holding tr' (serial :: hs)) ->
     Q (code, None) tr') ->
  (forall c tr', code_of_strings (device_serial c) 1 1 = Some 0 -> holding tr' (blocks c ++ hs) -> Q (0, Some c) tr') ->
  wp (read_strings lookup get_int get_string tmpdir libconfig result) Q o tr.
Proof using documented strings.
  clear starts. intros Hw Hno Hyes. unfold read_strings. apply wp_bind.
  eapply read_and_copy_str_wp; [set_solver|exact Hw|]. intros serial rs tr1 Es _ _ Hserial Hw1.
  apply wp_bind. eapply read_and_copy_str_wp; [set_solver|exact Hw1|].
  intros addr rb tr2 Eb Hb0 Hb1 _ Hw2. destruct (addr =? 0) eqn:Ea.
  - apply Z.eqb_eq in Ea as ->. destruct (Hb0 eq_refl) as [-> [[_ ?]|Hr]]; [done|].
    eapply (release_wp _ _ _ (nonnull serial ++ hs)); [by reorder Hw2|]. intros tr3 Hw3.
    apply (Hno _ serial 0 0); [unfold code_of_strings; change (0 =? 0) with true; by strings|done|by left|].
    unfold nonnull in Hw3. destruct (serial =? 0) eqn:E; [by left|right]. exists serial.
    split; [done|]. split; [|done]. by destruct (Hserial (proj1 (Z.eqb_neq _ 0) E)) as [?|[? ?]].
  - apply Z.eqb_neq in Ea. destruct (Hb1 Ea) as [va ->]. rewrite nonnull_neq in Hw2 by done.
    eapply read_base_path_wp; [done|exact Hw2|exact Es|by rewrite (proj2 (Z.eqb_neq _ 0) Ea)|..].
    + intros code base tr3 Hc Hcode Hr Hw3. by eapply (Hno code serial addr base); [..|left].
    + done.
Qed.
End create.

(** The outcome of the parsing alone. *)
Lemma parsed {setting} (lookup : string -> option setting) get_int get_float get_bool get_string malloc_ok read_ok tmpdir code :
  Config.string_settings lookup get_string -> is_Some (Config.read_gain lookup get_float) ->
  fst <$> Config.create_server_config lookup get_int get_float get_bool get_string malloc_ok read_ok tmpdir = Some code ->
  exists config,
    Config.create_server_config lookup get_int get_float get_bool get_string malloc_ok read_ok tmpdir = Some (code, config) /\
    (code = 0 -> Config.acceptable lookup get_int get_string /\ exists parsed, config = Some parsed /\ Config.valid_config parsed) /\
    (code <> 0 -> config = None).
Proof.
  intros Hs Hg Hr.
  destruct (Config.create_server_config_correct lookup get_int get_float get_bool get_string malloc_ok read_ok tmpdir Hs Hg)
    as (code' & config & E & Hcases & _).
  rewrite E in Hr. injection Hr as <-. exists config. split; [done|].
  destruct Hcases as [(-> & Ha & parsed & -> & Hv)|[Hne ->]]; [split; [eauto|done]|].
  split; [|done]. intros ->. unfold ENOMEM in Hne. lia.
Qed.

Section whole.
Context {setting : Type} (lookup : string -> option setting).
Context (get_int : setting -> Z) (get_float : setting -> float) (get_bool : setting -> Z) (get_string : setting -> option string).
Context (o : oracle (C := lib_call)) (path : string) (tmpdir : option string) (hs : list Z).
Hypothesis documented : opens_documented o.
Hypothesis starts : libconfig_starts o.
Hypothesis strings : Config.string_settings lookup get_string.
Hypothesis gain : is_Some (Config.read_gain lookup get_float).

(** The parsed contents of the file. *)
Definition contents (malloc_ok : nat -> bool) (read_ok : bool) : option (Z * option Config.server_config) :=
  Config.create_server_config lookup get_int get_float get_bool get_string malloc_ok read_ok tmpdir.

(** What is known after a failure. *)
Definition failed (code : Z) (tr : record (C := lib_call)) : Prop :=
  code <> 0 /\ (exists malloc_ok read_ok, contents malloc_ok read_ok = Some (code, None)) /\
  (refused o \/ unreadable o path \/ ~ Config.acceptable lookup get_int get_string) /\
  (holding tr hs \/ exists serial, code = - ENOMEM /\ is_Some (lookup "device_serial") /\ holding tr (serial :: hs)).

Lemma failed_intro malloc_ok read_ok code tr :
  fst <$> contents malloc_ok read_ok = Some code -> code <> 0 ->
  (refused o \/ unreadable o path \/ ~ Config.acceptable lookup get_int get_string) ->
  (holding tr hs \/ exists serial, code = - ENOMEM /\ is_Some (lookup "device_serial") /\ holding tr (serial :: hs)) ->
  failed code tr.
Proof using strings gain.
  intros Hr Hne Hreason Hl. destruct (parsed _ _ _ _ _ _ _ _ _ strings gain Hr) as (config & E & _ & Hnone).
  rewrite Hnone in E by done. split; [done|]. split; [by exists malloc_ok, read_ok|done].
Qed.

Lemma create_server_config_wp (Q : Z * option owned -> record -> Prop) tr :
  holding tr hs -> (forall code tr', failed code tr' -> Q (code, None) tr') ->
  (forall c config tr', contents (answers true (negb (device_serial c =? 0)) true true) true = Some (0, Some config) ->
     Config.acceptable lookup get_int get_string -> Config.valid_config config -> holding tr' (blocks c ++ hs) -> Q (0, Some c) tr') ->
  wp (create_server_config lookup get_int get_float get_string path tmpdir) Q o tr.
Proof using documented starts strings gain.
  intros before Hno Hyes. pose proof gain as [g Hg]. unfold create_server_config. apply wp_bind.
  eapply hold_alloc; [done|exact before|done| |].
  2:{ intros a tr1 Ha E Hw1. rewrite Ha. apply wp_ret, Hno, (failed_intro (fun _ => false) true); [done|done| |by left].
      left. exists tr, (malloc 168). by rewrite <- E. }
  intros a tr1 Ha _ Hw1. rewrite (proj2 (Z.eqb_neq _ 0) Ha). apply wp_bind. eapply hold_alloc; [done|exact Hw1|done| |].
  2:{ intros c tr2 Hc E _. by destruct (starts tr1); rewrite <- E. }
  intros c tr2 Hc _ Hw2. rewrite (proj2 (Z.eqb_neq _ 0) Hc). apply wp_bind. unfold code_of. apply wp_bind, wp_answer.
  eapply hold_use; [done|exact Hw2|left|]. intros code tr3 Hw3 _ Ecode. apply wp_ret.
  destruct (_ =? CONFIG_FALSE) eqn:Ef.
  { eapply release_wp; [exact Hw3|]. intros tr4 Hw4. apply Hno, (failed_intro (fun _ => true) false); [done|done| |by left].
    right. left. exists tr2, (pointer c). rewrite <- Ecode. by apply Z.eqb_eq. }
  rewrite Hg. assert (forall s b p, fst <$> contents (answers true s b p) true =
    if negb (settings_ok lookup get_int) then Some (-1) else strings_code lookup get_int get_string tmpdir s b p) as Hcode.
  { intros s b p. by apply (create_code lookup get_int get_float get_bool get_string (answers true s b p) tmpdir g). }
  destruct (negb (settings_ok lookup get_int)) eqn:Es.
  { eapply release_wp; [exact Hw3|]. intros tr4 Hw4.
    apply Hno, (failed_intro (answers true true true true) true); [apply Hcode|done| |by left].
    right. right. intros Hacc. by rewrite (settings_ok_acceptable lookup get_int get_string) in Es. }
  eapply read_strings_wp; [done|done|exact Hw3| |].
  - intros code' serial addr base tr4 Hc4 Hne Hr Hl. eapply Hno, failed_intro; [by rewrite Hcode|done|tauto|done].
  - intros c' tr4 Hc4 Hw4. destruct (parsed lookup get_int get_float get_bool get_string
      (answers true (negb (device_serial c' =? 0)) true true) true tmpdir 0) as (config & E & H0 & _);
      [done|done|by fold (contents (answers true (negb (device_serial c' =? 0)) true true) true); rewrite Hcode|].
    destruct (H0 eq_refl) as [Hacc (config' & -> & Hv)]. by eapply Hyes.
Qed.
End whole.

(** ** Properties *)

(** C22. Reading the configuration, whatever the allocator answers: the code is
    that of the parsed file, 0 exactly with a valid configuration; a failure is due
    to a refused allocation, an unreadable file or settings that are not
    acceptable.  A configuration owns its structure and its strings, all of which
    [destroy_server_config] frees; a failed reading has freed everything, but for
    the serial number of the device when the allocation of the address fails. *)
Theorem configuration_owned {setting} (lookup : string -> option setting) get_int get_float get_bool get_string
    o path tmpdir hs tr
    (documented : opens_documented o) (starts : libconfig_starts o)
    (strings : Config.string_settings lookup get_string) (gain : is_Some (Config.read_gain lookup get_float))
    (before : holding tr hs) :
  let contents malloc_ok read_ok :=
    Config.create_server_config lookup get_int get_float get_bool get_string malloc_ok read_ok tmpdir in
  wp (create_server_config lookup get_int get_float get_string path tmpdir) (fun r tr' =>
    match r with
    | (code, Some c) => code = 0 /\ Config.acceptable lookup get_int get_string /\
        (exists config, contents (answers true (negb (device_serial c =? 0)) true true) true = Some (0, Some config) /\
           Config.valid_config config) /\
        holding tr' (blocks c ++ hs) /\ wp (destroy_server_config (Some c)) (fun _ tr'' => holding tr'' hs) o tr'
    | (code, None) => code <> 0 /\ (exists malloc_ok read_ok, contents malloc_ok read_ok = Some (code, None)) /\
        (refused o \/ unreadable o path \/ ~ Config.acceptable lookup get_int get_string) /\
        (holding tr' hs \/
         exists serial, code = - ENOMEM /\ is_Some (lookup "device_serial") /\ holding tr' (serial :: hs))
    end) o tr.
Proof.
  cbn zeta. eapply (create_server_config_wp lookup get_int get_float get_bool); [done|done|done|done|exact before|done|].
  intros c config tr' E Hacc Hv Hw. split_and!; [done|done|by exists config|done|]. by eapply destroy_config_wp.
Qed.

(** The address is refused, after the serial number was copied. *)
Definition serial_lookup (name : string) : option (Z + string) :=
  if String.eqb name "device_serial" then Some (inr "0001") else Config.example_lookup name.

Lemma configuration_owned_witness :
  let o := simple_oracle (fun c => match c with malloc 10 => 12 | config_read_file _ _ => 1 | _ => 0 end) in
  match create_server_config serial_lookup Config.example_int (fun _ => f_zero) Config.example_string "sdr.conf" None o [] with
  | Some (r, tr) => r = (- ENOMEM, None) /\ exists serial, holding tr [serial]
  | None => False
  end.
Proof.
  cbn zeta.
  pose proof (configuration_owned serial_lookup Config.example_int (fun _ => f_zero) Config.example_int Config.example_string
    (simple_oracle (fun c => match c with malloc 10 => 12 | config_read_file _ _ => 1 | _ => 0 end)) "sdr.conf" None [] []
    (simple_oracle_documented _)) as H.
  assert (libconfig_starts (simple_oracle (fun c => match c with malloc 10 => 12 | config_read_file _ _ => 1 | _ => 0 end))) as Hstart.
  { intros tr. cbn. pose proof (fresh_handle_pos tr). lia. }
  assert (Config.string_settings serial_lookup Config.example_string) as Hs.
  { intros name st Hin. repeat (apply elem_of_cons in Hin as [->|Hin]; [vm_compute; intros; simplify_eq; eauto|]).
    by apply not_elem_of_nil in Hin. }
  specialize (H Hstart Hs ltac:(by eexists) holding_nil). revert H. unfold wp.
  destruct (create_server_config _ _ _ _ _ _ _ []) as [[r tr]|] eqn:E; [|done].
  vm_compute in E. injection E as <- <-. intros (_ & _ & _ & [H|(serial & _ & _ & H)]).
  - apply holding_none in H. discriminate H.
  - split; [reflexivity|]. by exists serial.
Defined.

End ConfigMemory.
