(* ===== verification/SdrDevice.v ===== *)
(** * The receiver of the server: src/sdr_device.c

    [sdr_device_start], [sdr_device_stop] and [sdr_device_destroy] only know
    their driver through the interface [Driver]; [sdr_device_create] selects the
    driver from the type of the configuration, and the other operations follow
    that choice ([handle_new_client] gives every client the same type). *)
From S2P Require Import Prelude Float Config Io Lib Rtlsdr Airspy Hackrf Msisdr Driver.
Import Io Lib Driver.
#[local] Open Scope Z_scope.
#[local] Open Scope io_scope.

Module SdrDevice.

(** [struct sdr_device_t]: its address, the table of the library and the
    plugin. *)
Record sdr_device (D : Type) := MkSdrDevice { self : Z; lib : option library; plugin : option D }.
Arguments MkSdrDevice {D}.
Arguments self {D}.
Arguments lib {D}.
Arguments plugin {D}.

Section operations.
Context {D : Type} `{Driver D}.

(** The call of [start_rx] on the plugin. *)
Definition start_plugin (band_freq : Z) (p : D) (device : sdr_device D) : io (C := lib_call) (Z * sdr_device D) :=
  r <- device_start_rx band_freq p;
  io_ret (if fst r =? 0 then 0 else 4, MkSdrDevice (self device) (lib device) (Some (snd r))).

Definition sdr_device_start (band_freq : Z) (device : sdr_device D) : io (C := lib_call) (Z * sdr_device D) :=
  match plugin device with
  | Some p => start_plugin band_freq p device
  | None =>
      created <- device_create;
      match created with
      | (0, Some p) => start_plugin band_freq p device
      | _ => io_ret (4, device)
      end
  end.

Definition sdr_device_stop (device : sdr_device D) : io (C := lib_call) (sdr_device D) :=
  match plugin device with
  | Some p =>
      p' <- device_stop_rx p;
      io_ret (MkSdrDevice (self device) (lib device) (Some p'))
  | None => if stop_rx_checks_null then io_ret device else io_undefined
  end.

Definition sdr_device_destroy (device : sdr_device D) : io (C := lib_call) unit :=
  (match plugin device with Some p => device_destroy p | None => io_ret tt end);;
  (match lib device with Some l => lib_destroy l | None => io_ret tt end);;
  call (free (self device));;
  io_ret tt.

(** The part of [sdr_device_create] that is common to the four cases. *)
Definition create_with (lib_create : io (C := lib_call) (Z * option library)) (self : Z)
    : io (C := lib_call) (Z * option (sdr_device D)) :=
  r <- lib_create;
  match r with
  | (0, Some l) => io_ret (0, Some (MkSdrDevice self (Some l) None))
  | (code, _) => sdr_device_destroy (MkSdrDevice self None None);; io_ret (code, None)
  end.

(** What the server does with a device: each first client of a band starts it,
    and the shutdown thread stops it, also when the start has failed. *)
Fixpoint sessions (bands : list Z) (device : sdr_device D) : io (C := lib_call) (sdr_device D) :=
  match bands with
  | [] => io_ret device
  | band_freq :: bands' =>
      r <- sdr_device_start band_freq device;
      stopped <- sdr_device_stop (snd r);
      sessions bands' stopped
  end.
End operations.

Section device.
Context (config : Config.server_config) (int16_iq : Z).

Inductive any_device :=
| RtlDevice (d : sdr_device Rtlsdr.rtlsdr_device)
| AirspyDevice (d : sdr_device (option Airspy.airspy_device))
| HackrfDevice (d : sdr_device Hackrf.hackrf_wrapper)
| MsiDevice (d : sdr_device Msisdr.msisdr_device).

Definition created {D} (inject : sdr_device D -> any_device) (m : io (C := lib_call) (Z * option (sdr_device D)))
    : io (C := lib_call) (Z * option any_device) :=
  r <- m; io_ret (fst r, option_map inject (snd r)).

Definition sdr_device_create : io (C := lib_call) (Z * option any_device) :=
  result <- call (malloc 88);
  match result with
  | (0, [p]) =>
      let type := Config.sdr_type config in
      if type =? Config.SDR_TYPE_RTL then
        created RtlDevice (create_with (H := rtlsdr_driver config) rtlsdr_lib_create p)
      else if type =? Config.SDR_TYPE_AIRSPY then
        created AirspyDevice (create_with (H := airspy_driver config int16_iq) airspy_lib_create p)
      else if type =? Config.SDR_TYPE_HACKRF then
        created HackrfDevice (create_with (H := hackrf_driver config) hackrf_lib_create p)
      else if type =? Config.SDR_TYPE_MSI then
        created MsiDevice (create_with (H := msisdr_driver config) msisdr_lib_create p)
      else
        sdr_device_destroy (H := rtlsdr_driver config) (MkSdrDevice p None None);; io_ret (-1, None)
  | _ => io_ret (- ENOMEM, None)
  end.

(** The life of the device of a server that serves the bands in turn. *)
Definition sessions_any (bands : list Z) (device : any_device) : io (C := lib_call) any_device :=
  match device with
  | RtlDevice d => d' <- sessions (H := rtlsdr_driver config) bands d; io_ret (RtlDevice d')
  | AirspyDevice d => d' <- sessions (H := airspy_driver config int16_iq) bands d; io_ret (AirspyDevice d')
  | HackrfDevice d => d' <- sessions (H := hackrf_driver config) bands d; io_ret (HackrfDevice d')
  | MsiDevice d => d' <- sessions (H := msisdr_driver config) bands d; io_ret (MsiDevice d')
  end.

Definition destroy_any (device : any_device) : io (C := lib_call) unit :=
  match device with
  | RtlDevice d => sdr_device_destroy (H := rtlsdr_driver config) d
  | AirspyDevice d => sdr_device_destroy (H := airspy_driver config int16_iq) d
  | HackrfDevice d => sdr_device_destroy (H := hackrf_driver config) d
  | MsiDevice d => sdr_device_destroy (H := msisdr_driver config) d
  end.

Definition lifetime (bands : list Z) : io (C := lib_call) Z :=
  r <- sdr_device_create;
  match r with
  | (0, Some device) => d <- sessions_any bands device; destroy_any d;; io_ret 0
  | (code, _) => io_ret code
  end.
End device.

(** ** Lemmas *)

Definition lib_handles (l : library) : list Z := (if handle l =? 0 then [] else [handle l]) ++ [lib_self l].

(** The handles of a device whose plugin owns [own]. *)
Definition device_handles {D} (d : sdr_device D) (own : list Z) : list Z :=
  own ++ match lib d with Some l => lib_handles l | None => [] end ++ [self d].

Section libraries.
Context (o : oracle (C := lib_call)) (Ho : opens_documented o).

Lemma lib_destroy_wp l own hs (Q : unit -> record -> Prop) tr :
  owns tr (lib_handles l ++ own) hs -> (forall tr', owns tr' own hs -> Q tt tr') -> wp (lib_destroy l) Q o tr.
Proof using Type.
  intros Hw HQ. unfold lib_destroy, lib_handles in *. apply wp_bind.
  assert (forall tr', owns tr' (lib_self l :: own) hs -> wp (call (free (lib_self l));; io_ret tt) Q o tr') as Hfree.
  { intros tr1 Hw1. apply wp_bind. eapply (wp_release _ (lib_self l) []); [done|done|exact Hw1|].
    intros a tr2 Hw2. by apply wp_ret, HQ. }
  destruct (handle l =? 0) eqn:E.
  - apply wp_ret. by apply Hfree.
  - apply wp_bind. eapply (wp_release _ (handle l) []); [done|done|exact Hw|]. intros a tr1 Hw1.
    apply wp_ret. by apply Hfree.
Qed.

Lemma setup_functions_wp l names own hs (Q : bool -> record -> Prop) : handle l <> 0 -> forall tr,
  owns tr (lib_handles l ++ own) hs ->
  (forall tr', owns tr' (lib_handles l ++ own) hs -> Q true tr') ->
  (forall tr', owns tr' own hs -> Q false tr') ->
  wp (setup_functions l names) Q o tr.
Proof using Type.
  intros Hh. induction names as [|name names IH]; intros tr Hw H1 H2; [by apply wp_ret, H1|].
  cbn [setup_functions]. apply wp_bind. eapply (wp_with _ _ _ (handle l)); [done| |exact Hw|].
  { unfold lib_handles. rewrite (proj2 (Z.eqb_neq _ _)) by done. by left. }
  intros a tr1 Hw1.
  assert (wp (lib_destroy l;; io_ret false) Q o tr1) as Hd.
  { apply wp_bind. eapply lib_destroy_wp; [exact Hw1|]. intros tr2 Hw2. by apply wp_ret, H2. }
  destruct (snd a) as [|p ?]; [done|]. destruct (p =? 0); [done|]. by apply IH.
Qed.

Lemma lib_create_wp size file names version own hs (Q : Z * option library -> record -> Prop) tr :
  Forall (fun c => use c = Unrelated) version -> owns tr own hs ->
  (forall l tr', owns tr' (lib_handles l ++ own) hs -> Q (0, Some l) tr') ->
  (forall code tr', code <> 0 -> owns tr' own hs -> Q (code, None) tr') ->
  wp (lib_create size file names version) Q o tr.
Proof using Ho.
  intros Hv Hw H1 H2. unfold lib_create. apply wp_bind. eapply wp_acquire; [done|exact Hw|done| |].
  2:{ intros code out tr1 Hne Hw1. destruct code; [done|..]; by apply wp_ret, H2. }
  intros p tr1 Hp Hw1. apply wp_bind. eapply wp_acquire; [done|exact Hw1|done| |].
  - intros h tr2 Hh Hw2. apply wp_bind.
    assert (lib_handles (MkLibrary p h) = [h; p]) as Hl.
    { unfold lib_handles. cbn. by rewrite (proj2 (Z.eqb_neq _ _)). }
    eapply (setup_functions_wp (MkLibrary p h) names own hs); [done|by rewrite Hl| |].
    + intros tr3 Hw3. apply wp_bind. destruct version as [|c version]; [by apply wp_ret, wp_ret, H1|].
      apply Forall_cons in Hv as [Hc _]. apply wp_bind.
      eapply wp_unrelated; [exact Hc|apply Hw3|]. intros a tr4 Hl4 _ _. apply wp_ret, wp_ret, H1.
      by eapply owns_same.
    + intros tr3 Hw3. by apply wp_ret, H2.
  - intros code out tr2 Hne Hw2.
    assert (wp (lib_destroy (MkLibrary p 0);; io_ret (-1, @None library)) Q o tr2) as Hd.
    { apply wp_bind. eapply (lib_destroy_wp (MkLibrary p 0)); [exact Hw2|]. intros tr3 Hw3. by apply wp_ret, H2. }
    by destruct code.
Qed.
End libraries.

Section generic.
Context {D : Type} `{Driver D} (o : oracle (C := lib_call)) `{!DriverLaws D o}.

(** The handles of the plugin of a device that is stopped. *)
Definition resting (d : sdr_device D) (own : list Z) : Prop :=
  match plugin d with Some p => at_rest p own | None => own = [] end.

(** The same device with another plugin. *)
Definition same_device (d d' : sdr_device D) : Prop := self d' = self d /\ lib d' = lib d.

Definition started (r : Z * sdr_device D) (own : list Z) : Prop :=
  match plugin (snd r) with
  | Some p => (fst r = 0 /\ receiving p own) \/ (fst r = 4 /\ failed p own)
  | None => fst r = 4 /\ own = []
  end.

Lemma start_plugin_wp f p own d tr hs : at_rest p own -> owns tr own hs ->
  wp (start_plugin f p d) (fun r tr' => plugin (snd r) <> None /\
    exists own', owns tr' own' hs /\ same_device d (snd r) /\ started r own') o tr.
Proof.
  intros Hr Hw. unfold start_plugin. apply wp_bind.
  eapply wp_mono; [apply (start_law f tr p own hs Hr Hw)|]. intros [code p'] tr1 (own' & Hw1 & Hs).
  apply wp_ret. split; [done|]. exists own'. split; [done|]. split; [done|]. unfold started. cbn in *.
  destruct (code =? 0); auto.
Qed.

Lemma sdr_device_start_wp f d own tr hs : resting d own -> owns tr own hs ->
  wp (sdr_device_start f d) (fun r tr' =>
    exists own', owns tr' own' hs /\ same_device d (snd r) /\ started r own') o tr.
Proof.
  intros Hr Hw. unfold sdr_device_start, resting in *. destruct (plugin d) as [p|] eqn:Ep.
  - eapply wp_mono; [by apply (start_plugin_wp f p own)|]. by intros r tr' [_ ?].
  - subst own. apply wp_bind. eapply wp_mono; [apply (create_law tr hs Hw)|].
    intros [code [p|]] tr1 Hc.
    + destruct code; cbn in Hc; [|done..]. destruct Hc as (own & Hp & Hw1).
      eapply wp_mono; [by apply (start_plugin_wp f p own)|]. by intros r tr' [_ ?].
    + assert (code <> 0 /\ owns tr1 [] hs) as [Hne Hw1] by (by destruct code).
      assert (wp (io_ret (4, d)) (fun r tr' => exists own', owns tr' own' hs /\ same_device d (snd r) /\ started r own') o tr1)
        as Hx.
      { apply wp_ret. exists []. split; [done|]. split; [done|]. unfold started. cbn. by rewrite Ep. }
      by destruct code.
Qed.

Lemma sdr_device_destroy_wp d own tr hs (Q : unit -> record -> Prop) :
  resting d own -> owns tr (device_handles d own) hs ->
  (forall tr', owns tr' [] hs -> Q tt tr') -> wp (sdr_device_destroy d) Q o tr.
Proof.
  intros Hr Hw HQ. unfold sdr_device_destroy, device_handles, resting in *.
  set (rest := match lib d with Some l => lib_handles l | None => [] end ++ [self d]) in *.
  assert (forall tr1, owns tr1 rest hs ->
            wp ((match lib d with Some l => lib_destroy l | None => io_ret tt end);; call (free (self d));; io_ret tt) Q o tr1)
    as Hrest.
  { intros tr1 Hw1. apply wp_bind.
    assert (forall tr2, owns tr2 [self d] hs -> wp (call (free (self d));; io_ret tt) Q o tr2) as Hfree.
    { intros tr2 Hw2. apply wp_bind. eapply (wp_release _ (self d) [] []); [done|done|exact Hw2|].
      intros a tr3 Hw3. by apply wp_ret, HQ. }
    subst rest. destruct (lib d) as [l|].
    - eapply lib_destroy_wp; [exact Hw1|]. apply Hfree.
    - by apply wp_ret, Hfree. }
  apply wp_bind. destruct (plugin d) as [p|].
  - assert (owns tr own (rest ++ hs)) as Hw'.
    { destruct Hw as (Hl & Hnd & Hz). rewrite <- app_assoc in *. by split. }
    eapply wp_mono; [apply (destroy_law tr p own (rest ++ hs) Hr Hw')|]. intros [] tr1 Hw1. apply Hrest.
    destruct Hw1 as (? & ? & ?). by split.
  - subst own. apply wp_ret. by apply Hrest.
Qed.

Section sessions_lemmas.
Context `{!DriverSessions D o}
  (Hcreate : stop_rx_checks_null = true \/ forall tr hs, owns tr [] hs -> wp device_create (fun r _ => fst r = 0) o tr).

Lemma plugin_session_wp f p own d tr hs : at_rest p own -> owns tr own hs ->
  wp (r <- start_plugin f p d; sdr_device_stop (snd r))
     (fun d' tr' => exists own', owns tr' own' hs /\ same_device d d' /\ resting d' own') o tr.
Proof using DriverSessions0.
  clear Hcreate. intros Hr Hw. pose proof (session_law f tr p own hs Hr Hw) as Hs.
  unfold start_plugin, sdr_device_stop, wp, io_bind, io_ret in *.
  destruct (device_start_rx f p o tr) as [[[code p1] tr1]|]; [|done]. cbn [fst snd plugin lib self] in *.
  destruct (device_stop_rx p1 o tr1) as [[p2 tr2]|]; [|done]. destruct Hs as (own2 & Hp2 & Hw2). by exists own2.
Qed.

(** A start succeeds or fails, and the stop that follows leaves the device at rest
    in both cases. *)
Lemma session_wp f d own tr hs : resting d own -> owns tr own hs ->
  wp (r <- sdr_device_start f d; sdr_device_stop (snd r))
     (fun d' tr' => exists own', owns tr' own' hs /\ same_device d d' /\ resting d' own') o tr.
Proof.
  intros Hr Hw. unfold sdr_device_start. destruct (plugin d) as [p|] eqn:Ep.
  { apply (plugin_session_wp f p own); [|done]. unfold resting in Hr. by rewrite Ep in Hr. }
  unfold resting in Hr. rewrite Ep in Hr. subst own. pose proof (create_law tr hs Hw) as Hc.
  assert (stop_rx_checks_null = true \/ wp device_create (fun r _ => fst r = 0) o tr) as H0.
  { destruct Hcreate as [?|H0]; [by left|right; by apply (H0 tr hs)]. }
  unfold wp, io_bind in *. destruct (device_create o tr) as [[[code [p|]] tr1]|]; [| |done].
  - destruct code; [|done..]. destruct Hc as (own & Hp & Hw1). by apply (plugin_session_wp f p own).
  - assert (code <> 0 /\ owns tr1 [] hs) as [Hne Hw1] by (by destruct code). destruct H0 as [H0|?]; [|done].
    assert (match io_ret (4, d) o tr1 with Some (x, tr') => sdr_device_stop (snd x) o tr' | None => None end = Some (d, tr1)) as Hx.
    { unfold io_ret, sdr_device_stop. cbn [snd]. rewrite Ep, H0. done. }
    destruct code; [done|..]; rewrite Hx; exists []; (split; [done|]); (split; [done|]); unfold resting; by rewrite Ep.
Qed.

Lemma sessions_wp bands : forall d own tr hs, resting d own -> owns tr own hs ->
  wp (sessions bands d) (fun d' tr' => exists own', owns tr' own' hs /\ same_device d d' /\ resting d' own') o tr.
Proof.
  induction bands as [|f bands IH]; intros d own tr hs Hr Hw.
  - apply wp_ret. by exists own.
  - cbn [sessions]. pose proof (session_wp f d own tr hs Hr Hw) as Hs.
    unfold wp, io_bind in Hs |- *. destruct (sdr_device_start f d o tr) as [[r tr1]|]; [|done].
    destruct (sdr_device_stop (snd r) o tr1) as [[d1 tr2]|]; [|done].
    destruct Hs as (own1 & Hw1 & Hsame & Hr1). pose proof (IH d1 own1 tr2 hs Hr1 Hw1) as Hx. unfold wp in Hx.
    destruct (sessions bands d1 o tr2) as [[d2 tr3]|]; [|done].
    destruct Hx as (own2 & Hw2 & Hsame2 & Hr2). exists own2. split; [done|]. split; [|done].
    destruct Hsame, Hsame2. split; congruence.
Qed.
End sessions_lemmas.

(** A plugin that could not be created: the stop of the session dereferences the
    null pointer, unless the driver tests it. *)
Lemma refused_plugin_undefined f d tr :
  plugin d = None -> stop_rx_checks_null = false -> wp device_create (fun r _ => fst r <> 0) o tr ->
  (r <- sdr_device_start f d; sdr_device_stop (snd r)) o tr = None.
Proof using Type.
  clear. intros Hp Hn Hc. unfold sdr_device_start. rewrite Hp. unfold wp, io_bind in *.
  destruct (device_create o tr) as [[[code p] tr1]|]; [|done]. cbn [fst] in Hc.
  assert (sdr_device_stop d o tr1 = None) as Hs by (unfold sdr_device_stop; by rewrite Hp, Hn).
  by destruct code, p.
Qed.
End generic.

(** An allocation of [n] bytes never fails. *)
Definition grants (o : oracle (C := lib_call)) (n : Z) : Prop := forall tr, fst (o tr (malloc n)) = 0.

(** What the sessions need of a type of receiver: memory for the plugin, the start
    of libhackrf, a known gain mode of the Airspy; the starts of an RTL-SDR
    succeed. *)
Definition startable (config : Config.server_config) (o : oracle (C := lib_call)) : Prop :=
  let type := Config.sdr_type config in
  if type =? Config.SDR_TYPE_RTL then
    (exists gains, Rtlsdr.gains_documented o gains) /\ Rtlsdr.small (Config.gain config) /\ rtlsdr_starts config o
  else if type =? Config.SDR_TYPE_AIRSPY then grants o 48 /\ Airspy.known_gain_mode config
  else if type =? Config.SDR_TYPE_HACKRF then grants o 48 /\ forall tr, fst (o tr hackrf_init) = 0
  else if type =? Config.SDR_TYPE_MSI then grants o 56
  else True.

Lemma wp_granted o tr n own hs (Q : answer -> record -> Prop) :
  opens_documented o -> grants o n -> owns tr own hs ->
  (forall h tr', h <> 0 -> owns tr' (h :: own) hs -> Q (0, [h]) tr') -> wp (call (malloc n)) Q o tr.
Proof.
  intros Ho Hm Hw HQ. specialize (Hm tr).
  assert (wp (call (malloc n)) (fun a tr' => fst a = 0 -> Q a tr') o tr) as Hx.
  { eapply (wp_acquire (malloc n)); [done|exact Hw|exact Ho| |].
    - intros h tr' Hh Hw' _. by apply HQ.
    - intros code out tr' Hne _ Hz. by destruct Hne. }
  unfold wp, call in *. by apply Hx.
Qed.

Section creates_plugin.
Context (config : Config.server_config) (int16_iq : Z) (o : oracle (C := lib_call)) (Ho : opens_documented o).

Lemma creates_airspy tr hs : grants o 48 -> owns tr [] hs ->
  wp (@device_create _ (airspy_driver config int16_iq)) (fun r _ => fst r = 0) o tr.
Proof using Ho.
  intros Hm Hw. cbn [device_create airspy_driver]. unfold Airspy.airspy_device_create. apply wp_bind, wp_bind.
  eapply wp_granted; [done|done|exact Hw|]. intros h tr2 _ _. by apply wp_ret, wp_ret.
Qed.

Lemma creates_hackrf tr hs : grants o 48 -> (forall tr, fst (o tr hackrf_init) = 0) -> owns tr [] hs ->
  wp (@device_create _ (hackrf_driver config)) (fun r _ => fst r = 0) o tr.
Proof using Ho.
  intros Hm Hi Hw. cbn [device_create hackrf_driver]. unfold Hackrf.hackrf_device_create, code_of. apply wp_bind, wp_bind.
  eapply wp_unrelated; [done|apply Hw|]. intros a tr1 Hl1 _ ->. apply wp_ret. rewrite Hi. cbn [negb Z.eqb].
  apply wp_bind. eapply wp_granted; [done|done|by eapply owns_same|]. intros h tr2 _ _. by apply wp_ret.
Qed.

Lemma creates_msisdr tr hs : grants o 56 -> owns tr [] hs ->
  wp (@device_create _ (msisdr_driver config)) (fun r _ => fst r = 0) o tr.
Proof using Ho.
  intros Hm Hw. cbn [device_create msisdr_driver]. unfold Msisdr.msisdr_device_create. apply wp_bind.
  eapply wp_granted; [done|done|exact Hw|]. intros h tr2 _ _. by apply wp_ret.
Qed.
End creates_plugin.

(** [create_with] gives a device without plugin, or nothing at all. *)
Lemma create_with_wp {D} (Hd : Driver D) o tr (p : Z) hs0 lib_create
    (Q : Z * option (sdr_device D) -> record -> Prop) :
  (forall tr own hs (Q' : Z * option library -> record -> Prop), owns tr own hs ->
     (forall l tr', owns tr' (lib_handles l ++ own) hs -> Q' (0, Some l) tr') ->
     (forall code tr', code <> 0 -> owns tr' own hs -> Q' (code, None) tr') -> wp lib_create Q' o tr) ->
  owns tr [p] hs0 ->
  (forall d tr', plugin d = None -> owns tr' (device_handles d []) hs0 -> Q (0, Some d) tr') ->
  (forall code tr', code <> 0 -> owns tr' [] hs0 -> Q (code, None) tr') ->
  wp (create_with lib_create p) Q o tr.
Proof.
  intros Hlib Hw H1 H2. unfold create_with. apply wp_bind. eapply Hlib; [exact Hw| |].
  - intros l tr1 Hw1. by apply wp_ret, H1.
  - intros code tr1 Hne Hw1.
    assert (wp (sdr_device_destroy (MkSdrDevice p None None);; io_ret (code, @None (sdr_device D))) Q o tr1) as Hx.
    { apply wp_bind. unfold sdr_device_destroy. cbn [plugin lib self]. apply wp_bind, wp_ret, wp_bind, wp_ret, wp_bind.
      eapply (wp_release _ p [] [] _ hs0); [done|done|exact Hw1|]. intros a tr2 Hw2. by apply wp_ret, wp_ret, H2. }
    by destruct code.
Qed.

Lemma msisdr_lib_create_wp o tr own hs (Q : Z * option library -> record -> Prop) :
  opens_documented o -> owns tr own hs ->
  (forall l tr', owns tr' (lib_handles l ++ own) hs -> Q (0, Some l) tr') ->
  (forall code tr', code <> 0 -> owns tr' own hs -> Q (code, None) tr') ->
  wp msisdr_lib_create Q o tr.
Proof.
  intros Ho Hw H1 H2. unfold msisdr_lib_create. apply wp_bind. eapply wp_acquire; [done|exact Hw|done| |].
  - intros p tr1 Hp Hw1. by apply wp_ret, H1.
  - intros code out tr1 Hne Hw1. by destruct code; [done|..]; apply wp_ret, H2.
Qed.

(** ** Devices of any type, with other handles in between *)

(** The handles of a device without plugin. *)
Definition any_handles (device : any_device) : list Z :=
  match device with
  | RtlDevice d => device_handles d []
  | AirspyDevice d => device_handles d []
  | HackrfDevice d => device_handles d []
  | MsiDevice d => device_handles d []
  end.

Definition device_type (device : any_device) : Z :=
  match device with
  | RtlDevice _ => Config.SDR_TYPE_RTL
  | AirspyDevice _ => Config.SDR_TYPE_AIRSPY
  | HackrfDevice _ => Config.SDR_TYPE_HACKRF
  | MsiDevice _ => Config.SDR_TYPE_MSI
  end.

Definition never_started (device : any_device) : Prop :=
  match device with
  | RtlDevice d => plugin d = None
  | AirspyDevice d => plugin d = None
  | HackrfDevice d => plugin d = None
  | MsiDevice d => plugin d = None
  end.

(** A device that has just been created. *)
Definition new_device (config : Config.server_config) (device : any_device) : Prop :=
  never_started device /\ device_type device = Config.sdr_type config.

(** The plugin is stopped, owns [own] and can be destroyed. *)
Definition any_rest (config : Config.server_config) (int16_iq : Z) (o : oracle (C := lib_call)) (device : any_device)
    (own : list Z) : Prop :=
  match device with
  | RtlDevice d => let H := rtlsdr_driver config in resting d own /\ (plugin d = None \/ DriverLaws _ o)
  | AirspyDevice d => let H := airspy_driver config int16_iq in resting d own /\ (plugin d = None \/ DriverLaws _ o)
  | HackrfDevice d => let H := hackrf_driver config in resting d own /\ (plugin d = None \/ DriverLaws _ o)
  | MsiDevice d => let H := msisdr_driver config in resting d own /\ (plugin d = None \/ DriverLaws _ o)
  end.

Lemma never_started_rest config int16_iq o device : never_started device -> any_rest config int16_iq o device [].
Proof. destruct device as [d|d|d|d]; cbn; intros E; unfold resting; rewrite E; auto. Qed.

Lemma owns_holding tr own hs : owns tr own hs -> holding tr (own ++ hs).
Proof. intros (Hl & Hnd & Hz). by exists (own ++ hs). Qed.

Lemma holding_owns tr hs : holding tr hs -> exists l, l ≡ₚ hs /\ owns tr [] l.
Proof. intros (l & Hl & Hp & Hnd & Hz). exists l. split; [done|]. split; [done|]. cbn [app]. by rewrite Hp. Qed.

Lemma lib_destroy_hold o l hs (Q : unit -> record -> Prop) tr :
  holding tr (lib_handles l ++ hs) -> (forall tr', holding tr' hs -> Q tt tr') -> wp (lib_destroy l) Q o tr.
Proof.
  intros Hw HQ. unfold lib_destroy, lib_handles in *. apply wp_bind.
  assert (forall tr', holding tr' (lib_self l :: hs) -> wp (call (free (lib_self l));; io_ret tt) Q o tr') as Hfree.
  { intros tr1 Hw1. apply wp_bind. eapply hold_free; [exact Hw1|]. intros a tr2 Hw2. by apply wp_ret, HQ. }
  destruct (handle l =? 0); [by apply wp_ret, Hfree|].
  apply wp_bind. eapply hold_close; [done|exact Hw|]. intros a tr1 Hw1 _. by apply wp_ret, Hfree.
Qed.

Lemma sdr_device_destroy_hold {D} (Hd : Driver D) o d own l hs (Q : unit -> record -> Prop) tr :
  plugin d = None \/ DriverLaws D o -> resting d own -> owns tr own l -> l ≡ₚ device_handles d [] ++ hs ->
  (forall tr', holding tr' hs -> Q tt tr') -> wp (sdr_device_destroy d) Q o tr.
Proof.
  intros Hlaws Hr Hw Hl HQ. unfold sdr_device_destroy, device_handles, resting in *. cbn [app] in Hl.
  assert (forall tr1, holding tr1 l ->
    wp ((match lib d with Some l => lib_destroy l | None => io_ret tt end);; call (free (self d));; io_ret tt) Q o tr1) as Hrest.
  { intros tr1 Hw1. rewrite Hl, <- app_assoc in Hw1. apply wp_bind.
    assert (forall tr2, holding tr2 (self d :: hs) -> wp (call (free (self d));; io_ret tt) Q o tr2) as Hfree.
    { intros tr2 Hw2. apply wp_bind. eapply hold_free; [exact Hw2|]. intros a tr3 Hw3. by apply wp_ret, HQ. }
    destruct (lib d); [eapply lib_destroy_hold; [exact Hw1|]; by apply Hfree|by apply wp_ret, Hfree]. }
  apply wp_bind. destruct (plugin d) as [p|].
  - destruct Hlaws as [?|Hlaws]; [done|].
    eapply wp_mono; [apply (destroy_law tr p own l Hr Hw)|]. intros [] tr1 Hw1. by apply Hrest, (owns_holding _ [] l).
  - subst own. by apply wp_ret, Hrest, (owns_holding _ [] l).
Qed.

Section any_device.
Context (config : Config.server_config) (int16_iq : Z) (o : oracle (C := lib_call))
  (Ho : opens_documented o) (Hneg : Msisdr.opens_negative o) (Hcl : Airspy.open_clears o).

Lemma sessions_case {D} (Hd : Driver D) `{!DriverLaws D o} `{!DriverSessions D o} bands d own tr hs :
  stop_rx_checks_null = true \/ (forall tr hs, owns tr [] hs -> wp device_create (fun r _ => fst r = 0) o tr) ->
  resting d own -> owns tr own hs ->
  wp (sessions bands d) (fun d' tr' => exists own', owns tr' own' hs /\
    (resting d' own' /\ (plugin d' = None \/ DriverLaws D o)) /\ device_handles d' [] = device_handles d []) o tr.
Proof.
  intros Hc Hr Hw. eapply wp_mono; [by apply (sessions_wp o Hc bands d own tr hs Hr Hw)|].
  intros d' tr' (own' & Hw' & [Hs Hl] & Hr'). exists own'. split; [done|]. split; [by split; [|right]|].
  unfold device_handles. by rewrite Hs, Hl.
Qed.

Lemma sessions_any_wp bands device tr hs :
  new_device config device -> bands = [] \/ startable config o -> owns tr [] hs ->
  wp (sessions_any config int16_iq bands device) (fun d' tr' => exists own', owns tr' own' hs /\
    any_rest config int16_iq o d' own' /\ any_handles d' = any_handles device) o tr.
Proof using Ho Hneg Hcl.
  intros [Hn Ht] Hs Hw. pose proof (never_started_rest config int16_iq o device Hn) as Hr. destruct Hs as [-> |Hs].
  { destruct device as [d|d|d|d]; cbn [sessions_any sessions]; apply wp_bind, wp_ret, wp_ret; exists []; auto. }
  unfold startable in Hs. rewrite <- Ht in Hs.
  destruct device as [d|d|d|d]; cbn [device_type] in Hs; cbn in Hs; cbn [sessions_any any_rest any_handles] in *; apply wp_bind.
  - destruct Hs as ([gains Hg] & Hgain & Hstarts). pose proof (rtlsdr_laws config o Ho gains Hg Hgain).
    pose proof (rtlsdr_sessions config o Ho gains Hg Hgain Hstarts).
    eapply wp_mono; [apply (sessions_case (rtlsdr_driver config) bands d [] tr hs); [by left|apply Hr|done]|].
    intros d' tr' (own' & ?). apply wp_ret. by exists own'.
  - destruct Hs as [Hm Hmode]. pose proof (airspy_laws config o Ho int16_iq Hcl Hmode). pose proof (airspy_recovers config o int16_iq).
    eapply wp_mono; [apply (sessions_case (airspy_driver config int16_iq) bands d [] tr hs); [|apply Hr|done]|].
    { right. intros. by eapply creates_airspy. }
    intros d' tr' (own' & ?). apply wp_ret. by exists own'.
  - destruct Hs as [Hm Hi]. pose proof (hackrf_laws config o Ho). pose proof (hackrf_recovers config o).
    eapply wp_mono; [apply (sessions_case (hackrf_driver config) bands d [] tr hs); [|apply Hr|done]|].
    { right. intros. by eapply creates_hackrf. }
    intros d' tr' (own' & ?). apply wp_ret. by exists own'.
  - pose proof (msisdr_laws config o Ho Hneg). pose proof (msisdr_recovers config o).
    eapply wp_mono; [apply (sessions_case (msisdr_driver config) bands d [] tr hs); [|apply Hr|done]|].
    { right. intros. by eapply creates_msisdr. }
    intros d' tr' (own' & ?). apply wp_ret. by exists own'.
Qed.

Lemma destroy_any_wp device own l hs (Q : unit -> record -> Prop) tr :
  any_rest config int16_iq o device own -> owns tr own l -> l ≡ₚ any_handles device ++ hs ->
  (forall tr', holding tr' hs -> Q tt tr') -> wp (destroy_any config int16_iq device) Q o tr.
Proof using Type.
  intros Hr Hw Hl HQ. destruct device as [d|d|d|d]; cbn [destroy_any any_rest any_handles] in *; destruct Hr as [Hr Hlaws].
  - by apply (sdr_device_destroy_hold (rtlsdr_driver config) o d own l hs).
  - by apply (sdr_device_destroy_hold (airspy_driver config int16_iq) o d own l hs).
  - by apply (sdr_device_destroy_hold (hackrf_driver config) o d own l hs).
  - by apply (sdr_device_destroy_hold (msisdr_driver config) o d own l hs).
Qed.
End any_device.

(** ** From the creation to the destruction *)

Lemma created_wp {D} (Hd : Driver D) config (inject : sdr_device D -> any_device) o tr p hs lib_create
    (Q : Z * option any_device -> record -> Prop) :
  (forall tr own hs (Q' : Z * option library -> record -> Prop), owns tr own hs ->
     (forall l tr', owns tr' (lib_handles l ++ own) hs -> Q' (0, Some l) tr') ->
     (forall code tr', code <> 0 -> owns tr' own hs -> Q' (code, None) tr') -> wp lib_create Q' o tr) ->
  (forall d, any_handles (inject d) = device_handles d []) -> (forall d, plugin d = None -> new_device config (inject d)) ->
  owns tr [p] hs -> (forall d tr', new_device config d -> owns tr' (any_handles d) hs -> Q (0, Some d) tr') ->
  (forall code tr', code <> 0 -> owns tr' [] hs -> Q (code, None) tr') ->
  wp (created inject (create_with lib_create p)) Q o tr.
Proof.
  intros Hlib Hh Hn Hw H1 H2. unfold created. apply wp_bind. eapply create_with_wp; [exact Hlib|exact Hw| |].
  - intros d tr1 Hd1 Hw1. apply wp_ret. cbn. apply H1; [by apply Hn|by rewrite Hh].
  - intros code tr1 Hne Hw1. apply wp_ret. by apply H2.
Qed.

Lemma sdr_device_create_wp config int16_iq o tr hs (Q : Z * option any_device -> record -> Prop) :
  opens_documented o -> owns tr [] hs ->
  (forall d tr', new_device config d -> owns tr' (any_handles d) hs -> Q (0, Some d) tr') ->
  (forall code tr', code <> 0 -> owns tr' [] hs -> Q (code, None) tr') ->
  wp (sdr_device_create config int16_iq) Q o tr.
Proof.
  intros Ho Hw H1 H2. unfold sdr_device_create. apply wp_bind. eapply wp_acquire; [done|exact Hw|done| |].
  2:{ intros code out tr1 Hne Hw1. destruct code; [done|..]; by apply wp_ret, H2. }
  intros p tr1 Hp Hw1.
  cbv zeta. destruct (_ =? Config.SDR_TYPE_RTL) eqn:Ertl.
  { eapply (created_wp _ config); [|done|intros d Hd; split; [done|by symmetry; apply Z.eqb_eq]|exact Hw1|done|done]. intros tr2 own hs' Q' Hw2. by apply lib_create_wp; [done|repeat constructor|]. }
  destruct (_ =? Config.SDR_TYPE_AIRSPY) eqn:Eairspy.
  { eapply (created_wp _ config); [|done|intros d Hd; split; [done|by symmetry; apply Z.eqb_eq]|exact Hw1|done|done]. intros tr2 own hs' Q' Hw2. by apply lib_create_wp; [done|repeat constructor|]. }
  destruct (_ =? Config.SDR_TYPE_HACKRF) eqn:Ehackrf.
  { eapply (created_wp _ config); [|done|intros d Hd; split; [done|by symmetry; apply Z.eqb_eq]|exact Hw1|done|done]. intros tr2 own hs' Q' Hw2. by apply lib_create_wp; [done|repeat constructor|]. }
  destruct (_ =? Config.SDR_TYPE_MSI) eqn:Emsi.
  { eapply (created_wp _ config); [|done|intros d Hd; split; [done|by symmetry; apply Z.eqb_eq]|exact Hw1|done|done]. intros tr2 own hs' Q' Hw2. by apply msisdr_lib_create_wp. }
  apply wp_bind. unfold sdr_device_destroy. cbn [plugin lib self].
  apply wp_bind, wp_ret, wp_bind, wp_ret, wp_bind.
  eapply (wp_release _ p [] []); [done|done|exact Hw1|]. intros a tr2 Hw2. by apply wp_ret, wp_ret, H2.
Qed.

(** The life of a device that begins with no open handle. *)
Lemma lifetime_balanced config int16_iq bands o :
  opens_documented o -> Msisdr.opens_negative o -> Airspy.open_clears o -> bands = [] \/ startable config o ->
  wp (lifetime config int16_iq bands) (fun _ tr => live tr = Some []) o [].
Proof.
  intros Ho Hneg Hcl Hs. unfold lifetime. apply wp_bind. eapply (sdr_device_create_wp _ _ _ _ []); [done| | |].
  - split; [done|]. split; [apply NoDup_nil_2|by apply not_elem_of_nil].
  - intros d tr Hd Hw. apply wp_bind. apply (owns_assoc _ [] _ []) in Hw.
    eapply wp_mono; [by apply (sessions_any_wp config int16_iq o Ho Hneg Hcl bands d tr _ Hd Hs Hw)|].
    intros d' tr1 (own & Hw1 & Hr & Hh). apply wp_bind. eapply (destroy_any_wp _ _ _ _ _ _ []); [exact Hr|exact Hw1|by rewrite Hh|].
    intros tr2 Hw2. by apply wp_ret, holding_none.
  - intros code tr Hne [Hl _]. destruct code; [done|..]; by apply wp_ret.
Qed.

(** Between the two records the handles [own] have been opened and kept, and the
    receiver has been given the settings [l]. *)
Definition configured_by (tr tr' : record (C := lib_call)) (hs own : list Z) (l : list lib_call) : Prop :=
  live tr' = Some (own ++ hs) /\ settings tr' = settings tr ++ l.

(** ** Theorems *)


(** C33. A start that succeeds has set up the receiver as the configuration asks,
    with the calls the vendor library needs and in that order.  A start of a HackRF
    or an MSi receiver that fails leaves the device closed; so does one of an Airspy
    with a known gain mode, unless it is the last call, [airspy_start_rx], that
    failed: the device is then open and configured, and its code is the result. *)
Theorem receivers_configured config int16_iq o tr hs f
  (Ho : opens_documented o) (Hneg : Msisdr.opens_negative o) (Hcl : Airspy.open_clears o) (Hl : live tr = Some hs) :
  (forall w, Hackrf.dev w = 0 ->
     wp (Hackrf.hackrf_device_start_rx config f w) (fun r tr' =>
       (fst r <> 0 /\ live tr' = Some hs) \/
       (fst r = 0 /\ configured_by tr tr' hs [Hackrf.dev (snd r)] (Hackrf.configured config f (Hackrf.dev (snd r))))) o tr) /\
  (forall d, Msisdr.dev d = 0 ->
     wp (Msisdr.msisdr_device_start_rx config f d) (fun r tr' =>
       (fst r <> 0 /\ live tr' = Some hs) \/
       (fst r = 0 /\ configured_by tr tr' hs [Msisdr.rx_thread (snd r); Msisdr.dev (snd r)]
          (Msisdr.configured config f (Msisdr.dev (snd r))))) o tr) /\
  (Airspy.known_gain_mode config ->
   forall d, wp (Airspy.airspy_device_start_rx config int16_iq f (Some d)) (fun r tr' =>
       (fst r <> 0 /\ snd r = Some (Airspy.with_dev d 0) /\ live tr' = Some hs) \/
       (exists h, snd r = Some (Airspy.with_dev d h) /\
          configured_by tr tr' hs [h] (Airspy.configured config int16_iq f h) /\
          exists tr0, fst r = fst (o tr0 (Lib.airspy_start_rx h)))) o tr).
Proof.
  split; [|split].
  - intros w Hw. eapply Hackrf.hackrf_start_rx_wp; [done..| |]; intros; [by left|right]. done.
  - intros d Hd. eapply Msisdr.msisdr_start_rx_wp; [done..| |]; intros; [by left|right]. done.
  - intros Hmode d. eapply Airspy.airspy_start_rx_wp; [done..| |]; intros; [by left|right]. by exists h.
Qed.

(** ** Witnesses *)

Definition all_succeed : oracle (C := lib_call) := simple_oracle (fun _ => 0).


(** The starts of an RTL-SDR succeed when every call does. *)
Lemma rtlsdr_startable : startable (Config.MkServerConfig "127.0.0.1" 8090 5 None 0 0 0 0 420 0 0 262144 2016000 64 5 3 5 0 1 0 0 0 0 0 0 0
    0 0 0 0 "/tmp" false) all_succeed.
Proof.
  split; [exists []; by split|]. split; [by split|]. intros f tr d own hs _ _.
  unfold wp, Rtlsdr.rtlsdr_device_start_rx, Rtlsdr.device_index, io_bind, io_ret, call. cbn. reflexivity.
Qed.

Lemma receivers_configured_witness :
  wp (Hackrf.hackrf_device_start_rx (Airspy.example_config 1) 100000000 (Hackrf.MkHackrf 1 0)) (fun r tr' =>
    (fst r <> 0 /\ live tr' = Some []) \/
    (fst r = 0 /\ configured_by [] tr' [] [Hackrf.dev (snd r)]
        (Hackrf.configured (Airspy.example_config 1) 100000000 (Hackrf.dev (snd r)))))
    all_succeed [].
Proof.
  refine (proj1 (receivers_configured (Airspy.example_config 1) 2 all_succeed [] [] 100000000 _ _ _ _) _ _).
  - apply simple_oracle_documented.
  - intros tr i. cbn. lia.
  - apply Airspy.simple_oracle_clears.
  - reflexivity.
  - reflexivity.
Defined.

End SdrDevice.
