(* ===== verification/Startup.v ===== *)
(** * Start and end of the server: start_tcp_server, join_tcp_server_thread and
    stop_tcp_server of src/tcp_server.c, and src/main.c

    Sockets are handles as devices and memory are; [socket] gives -1 when it
    fails.  Of the acceptor, which the started thread runs, only the use of the
    receiver is here (its clients are in Lifecycle.v and TcpServer.v): [main] takes
    the bands it serves before a signal stops the server, and its calls are in one
    of their orders, the last stop of the receiver before the shutdown of the
    socket. *)
From S2P Require Import Prelude Float Config Io Lib Msisdr Airspy Driver SdrDevice ConfigMemory.
Import Float Io Lib Driver SdrDevice.
#[local] Open Scope Z_scope.
#[local] Open Scope io_scope.

Module Startup.

Definition SO_REUSEADDR : Z := 2.
Definition SO_REUSEPORT : Z := 15.
Definition EXIT_SUCCESS : Z := 0.
Definition EXIT_FAILURE : Z := 1.

(** What of [struct tcp_server_t] is set here; its address is [self]. *)
Record tcp_server := MkTcpServer {
  self : Z;
  device : any_device;
  server_socket : Z;
  acceptor_thread : Z;
}.

Section startup.
(** [reuseport] says whether the system has [SO_REUSEPORT]. *)
Context (config : Config.server_config) (int16_iq : Z) (reuseport : bool).

(** [free(result); return -1;] *)
Definition give_up_server (result : Z) : io (C := lib_call) (Z * option tcp_server) :=
  call (free result);; io_ret (-1, None).

(** The set-up of the socket, then the acceptor. *)
Definition start_listening (result : Z) (device : any_device) (server_socket : Z)
    : io (C := lib_call) (Z * option tcp_server) :=
  code <- code_of (setsockopt server_socket SO_REUSEADDR);
  if negb (code =? 0) then give_up_server result
  else
    code <- (if reuseport then code_of (setsockopt server_socket SO_REUSEPORT) else io_ret 0);
    if negb (code =? 0) then give_up_server result
    else
      code <- code_of (inet_pton (Config.bind_address config));
      if code <=? 0 then give_up_server result
      else
        code <- code_of (bind server_socket (wrap 16 (Config.port config)));
        if code <? 0 then give_up_server result
        else
          code <- code_of (listen server_socket 3);
          if code <? 0 then give_up_server result
          else
            thread <- call pthread_create;
            match thread with
            | (0, [t]) => io_ret (0, Some (MkTcpServer result device server_socket t))
            | _ => give_up_server result
            end.

Definition start_tcp_server : io (C := lib_call) (Z * option tcp_server) :=
  result <- call (malloc 200);
  match result with
  | (0, [p]) =>
      created <- sdr_device_create config int16_iq;
      match created with
      | (0, Some device) =>
          a <- call socket;
          let server_socket := match a with (0, h :: _) => h | _ => -1 end in
          if server_socket =? 0 then give_up_server p else start_listening p device server_socket
      | _ => give_up_server p
      end
  | _ => io_ret (- ENOMEM, None)
  end.

Definition stop_tcp_server (server : option tcp_server) : io (C := lib_call) unit :=
  match server with
  | None => io_ret tt
  | Some server =>
      code <- code_of (shutdown (server_socket server));
      if negb (code =? 0) then call (close (server_socket server));; io_ret tt else io_ret tt
  end.

Definition join_tcp_server_thread (server : option tcp_server) : io (C := lib_call) unit :=
  match server with
  | None => io_ret tt
  | Some server => call (pthread_join (acceptor_thread server));; call (free (self server));; io_ret tt
  end.

(** What happens to a server between its start and its join: the acceptor serves
    the clients of the bands, a signal calls [stop_tcp_server], and the acceptor
    destroys the device when it ends. *)
Definition run (bands : list Z) (server : tcp_server) : io (C := lib_call) unit :=
  device <- sessions_any config int16_iq bands (device server);
  stop_tcp_server (Some server);;
  destroy_any config int16_iq device.

(** [main] from the start of the server on: the exit status. *)
Definition serve (owned : ConfigMemory.owned) (bands : list Z) : io (C := lib_call) Z :=
  r <- start_tcp_server;
  match r with
  | (0, Some server) =>
      run bands server;;
      join_tcp_server_thread (Some server);;
      ConfigMemory.destroy_server_config (Some owned);;
      io_ret EXIT_SUCCESS
  | _ => ConfigMemory.destroy_server_config (Some owned);; io_ret EXIT_FAILURE
  end.
End startup.

Section main.
Context {setting : Type} (lookup : string -> option setting).
Context (get_int : setting -> Z) (get_float : setting -> float) (get_bool : setting -> Z) (get_string : setting -> option string).
Context (int16_iq : Z) (reuseport : bool).

(** The settings of a configuration whose strings are [owned]. *)
Definition settings_of (owned : ConfigMemory.owned) (tmpdir : option string) : option Config.server_config :=
  r ← Config.create_server_config lookup get_int get_float get_bool get_string
        (ConfigMemory.answers true (negb (ConfigMemory.device_serial owned =? 0)) true true) true tmpdir;
  snd r.

Definition main (argv : option string) (tmpdir : option string) (bands : list Z) : io (C := lib_call) Z :=
  match argv with
  | None => io_ret EXIT_FAILURE
  | Some path =>
      r <- ConfigMemory.create_server_config lookup get_int get_float get_string path tmpdir;
      match r with
      | (0, Some owned) =>
          match settings_of owned tmpdir with
          | Some config => serve config int16_iq reuseport owned bands
          | None => io_undefined
          end
      | _ => io_ret EXIT_FAILURE
      end
  end.
End main.

(** The descriptor -1 is never accepted. *)
Definition bad_descriptor (o : oracle (C := lib_call)) : Prop := forall tr option, fst (o tr (setsockopt (-1) option)) <> 0.

(** What a failed start leaves open: nothing, the device that was created, or the
    device and the socket. *)
Definition start_leak (own : list Z) : Prop :=
  own = [] \/ exists device, own = any_handles device \/ exists s, own = s :: any_handles device.

(** ** Lemmas *)

Section startup_lemmas.
Context (config : Config.server_config) (int16_iq : Z) (reuseport : bool) (o : oracle (C := lib_call))
  (Ho : opens_documented o) (Hbad : bad_descriptor o).

(** The structure is the last of the handles. *)
Lemma give_up_server_wp own p hs tr (Q : Z * option tcp_server -> record -> Prop) :
  owns tr (own ++ [p]) hs -> (forall tr', owns tr' own hs -> Q (-1, None) tr') -> wp (give_up_server p) Q o tr.
Proof using Type.
  intros Hw HQ. unfold give_up_server. apply wp_bind. eapply (wp_release _ p own []); [done|done|exact Hw|].
  intros a tr' Hw'. apply wp_ret, HQ. by rewrite app_nil_r in Hw'.
Qed.

(** A call on the socket, or on none, keeps the handles. *)
Lemma socket_call_wp c s own hs tr (Q : answer -> record -> Prop) :
  use c = (if s =? -1 then Unrelated else Uses s) \/ use c = Unrelated -> (s = -1 \/ s ∈ own) -> owns tr own hs ->
  (forall tr', owns tr' own hs -> Q (o tr c) tr') -> wp (call c) Q o tr.
Proof using Type.
  intros Hc Hs Hw HQ.
  assert (use c = Unrelated \/ use c = Uses s /\ s ∈ own) as [Hu|[Hu Hin]].
  { destruct Hc as [Hc|Hc]; [|by left]. destruct (s =? -1) eqn:E; [by left|]. apply Z.eqb_neq in E. right. split; [done|]. by destruct Hs. }
  - eapply wp_unrelated; [exact Hu|apply Hw|]. intros a tr' Hl' _ ->. apply HQ. by eapply owns_same.
  - eapply wp_use; [exact Hu|apply Hw|apply elem_of_app; by left|]. intros a tr' Hl' _ ->. apply HQ. by eapply owns_same.
Qed.

(** One of the checked calls of [start_listening]. *)
Lemma checked_socket_wp c s p own hs tr (failed : Z -> bool) k (Q : Z * option tcp_server -> record -> Prop) :
  use c = (if s =? -1 then Unrelated else Uses s) \/ use c = Unrelated -> (s = -1 \/ s ∈ own) -> owns tr (own ++ [p]) hs ->
  (forall tr', owns tr' own hs -> Q (-1, None) tr') ->
  (forall tr', owns tr' (own ++ [p]) hs -> failed (fst (o tr c)) = false -> wp k Q o tr') ->
  wp (code <- code_of c; if failed code then give_up_server p else k) Q o tr.
Proof using Type.
  intros Hc Hs Hw Hf Hk. unfold code_of. apply wp_bind, wp_bind. eapply (socket_call_wp c s); [exact Hc| |exact Hw|].
  { destruct Hs; [by left|right]. apply elem_of_app. by left. }
  intros tr' Hw'. apply wp_ret. destruct (failed (fst (o tr c))) eqn:E; [by eapply give_up_server_wp|by apply Hk].
Qed.

Lemma start_listening_wp d (s p : Z) own hs tr (Q : Z * option tcp_server -> record -> Prop) :
  s = -1 \/ s ∈ own -> owns tr (own ++ [p]) hs ->
  (forall tr', owns tr' own hs -> Q (-1, None) tr') ->
  (forall t tr', s <> -1 -> owns tr' (t :: own ++ [p]) hs -> Q (0, Some (MkTcpServer p d s t)) tr') ->
  wp (start_listening config reuseport p d s) Q o tr.
Proof using Ho Hbad.
  intros Hs Hw Hfail Hok. unfold start_listening.
  apply (checked_socket_wp (setsockopt s SO_REUSEADDR) s p own hs _ (fun code => negb (code =? 0))); [by left|done|done|done|].
  intros tr1 Hw1 E1. assert (s <> -1) as Hne.
  { intros ->. apply negb_false_iff, Z.eqb_eq in E1. by apply (Hbad tr SO_REUSEADDR). }
  assert (forall tr2, owns tr2 (own ++ [p]) hs -> wp
    (code <- code_of (inet_pton (Config.bind_address config));
     if code <=? 0 then give_up_server p
     else code <- code_of (bind s (wrap 16 (Config.port config)));
          if code <? 0 then give_up_server p
          else code <- code_of (listen s 3);
               if code <? 0 then give_up_server p
               else thread <- call pthread_create;
                    match thread with
                    | (0, [t]) => io_ret (0, Some (MkTcpServer p d s t))
                    | _ => give_up_server p
                    end) Q o tr2) as Hrest.
  { intros tr2 Hw2.
    apply (checked_socket_wp (inet_pton (Config.bind_address config)) s p own hs _ (fun code => code <=? 0)); [by right|done|done|done|].
    intros tr3 Hw3 _.
    apply (checked_socket_wp (bind s (wrap 16 (Config.port config))) s p own hs _ (fun code => code <? 0)); [by left|done|done|done|].
    intros tr4 Hw4 _.
    apply (checked_socket_wp (listen s 3) s p own hs _ (fun code => code <? 0)); [by left|done|done|done|].
    intros tr5 Hw5 _. apply wp_bind. eapply wp_acquire; [done|exact Hw5|done| |].
    - intros t tr6 _ Hw6. apply wp_ret. by apply Hok.
    - intros code out tr6 Hc Hw6. assert (wp (give_up_server p) Q o tr6) as Hg by (by eapply give_up_server_wp).
      by destruct code. }
  destruct reuseport.
  - by apply (checked_socket_wp (setsockopt s SO_REUSEPORT) s p own hs _ (fun code => negb (code =? 0))); [left| | | |intros; apply Hrest].
  - apply wp_bind, wp_ret. by apply Hrest.
Qed.

Lemma start_tcp_server_wp hs tr (Q : Z * option tcp_server -> record -> Prop) :
  owns tr [] hs ->
  (forall code own tr', code <> 0 -> start_leak own -> owns tr' own hs -> Q (code, None) tr') ->
  (forall s tr', owns tr' (acceptor_thread s :: server_socket s :: any_handles (device s) ++ [self s]) hs ->
     server_socket s <> -1 -> new_device config (device s) -> Q (0, Some s) tr') ->
  wp (start_tcp_server config int16_iq reuseport) Q o tr.
Proof using Ho Hbad.
  intros Hw Hfail Hok. unfold start_tcp_server. apply wp_bind. eapply wp_acquire; [done|exact Hw|done| |].
  2:{ intros code out tr1 Hne Hw1. assert (Q (- ENOMEM, None) tr1) by (eapply Hfail; [done|by left|done]).
      destruct code; [done|..]; by apply wp_ret. }
  intros p tr1 Hp Hw1. apply wp_bind. eapply (sdr_device_create_wp _ _ _ _ (p :: hs)); [done|exact Hw1| |].
  2:{ intros code tr2 Hne Hw2. assert (wp (give_up_server p) Q o tr2) as Hg.
      { eapply (give_up_server_wp []); [exact Hw2|]. intros tr3 Hw3. eapply Hfail; [done|by left|done]. }
      by destruct code. }
  intros d tr2 Hd Hw2. assert (owns tr2 (any_handles d ++ [p]) hs) as Hw2'.
  { destruct Hw2 as (H1 & H2 & H3). unfold owns. by rewrite <- app_assoc. }
  apply wp_bind. pose proof Hw2' as (Hl2 & _). eapply wp_open; [done|exact Hl2|done| |].
  - intros s tr3 Hs Hfr Hl3 Hc3. rewrite (proj2 (Z.eqb_neq s 0)) by done.
    pose proof (owns_open _ _ _ _ Hw2' Hs Hfr _ Hl3) as Hw3.
    eapply (start_listening_wp d s p (s :: any_handles d) hs); [right; left|exact Hw3| |].
    + intros tr4 Hw4. eapply Hfail; [done| |exact Hw4]. right. exists d. right. by exists s.
    + intros t tr4 Hs1 Hw4. by apply Hok.
  - intros code out tr3 Ea Hne Hout Hl3 _. assert (owns tr3 (any_handles d ++ [p]) hs) as Hw3 by (by eapply owns_same).
    assert (wp (start_listening config reuseport p d (-1)) Q o tr3) as Hg.
    { eapply (start_listening_wp d (-1) p (any_handles d) hs); [by left|exact Hw3| |done].
      intros tr4 Hw4. eapply Hfail; [done| |exact Hw4]. right. exists d. by left. }
    by destruct code.
Qed.

(** The socket is left when [shutdown] succeeded. *)
Definition left_open (s : Z) (left : list Z) : Prop :=
  left = [] \/ left = [s] /\ exists tr, fst (o tr (shutdown s)) = 0.

Lemma stop_tcp_server_wp s own hs tr (Q : unit -> record -> Prop) :
  owns tr own (server_socket s :: hs) ->
  (forall left tr', left_open (server_socket s) left -> owns tr' own (left ++ hs) -> Q tt tr') ->
  wp (stop_tcp_server (Some s)) Q o tr.
Proof using Type.
  intros Hw HQ. unfold stop_tcp_server, code_of. apply (owns_assoc _ own [server_socket s] hs) in Hw.
  assert (server_socket s ∈ own ++ [server_socket s]) as Hin by (apply elem_of_app; right; left).
  apply wp_bind, wp_bind. eapply (socket_call_wp (shutdown (server_socket s)) (server_socket s)); [by left|by right|exact Hw|].
  intros tr1 Hw1. apply wp_ret. destruct (negb _) eqn:E.
  - apply wp_bind. eapply (wp_release _ (server_socket s) own []); [done|done|exact Hw1|]. intros a tr2 Hw2. apply wp_ret.
    rewrite app_nil_r in Hw2. by apply (HQ []); [left|].
  - apply wp_ret, (HQ [server_socket s]); [|by apply owns_assoc]. right. split; [done|]. exists tr.
    by apply negb_false_iff, Z.eqb_eq in E.
Qed.
End startup_lemmas.

Section whole.
Context (int16_iq : Z) (reuseport : bool) (o : oracle (C := lib_call)).
Context (documented : opens_documented o) (negative : Msisdr.opens_negative o) (clears : Airspy.open_clears o)
  (bad : bad_descriptor o).

Lemma run_wp config bands s hs tr (Q : unit -> record -> Prop) :
  new_device config (device s) -> bands = [] \/ startable config o ->
  owns tr (acceptor_thread s :: server_socket s :: any_handles (device s) ++ [self s]) hs ->
  (forall left tr', left_open o (server_socket s) left -> holding tr' (acceptor_thread s :: self s :: left ++ hs) -> Q tt tr') ->
  wp (run config int16_iq bands s) Q o tr.
Proof using documented negative clears.
  intros Hn Hs Hw HQ. unfold run. set (rest := any_handles (device s) ++ [self s]) in *.
  apply wp_bind. eapply wp_mono; [by eapply sessions_any_wp; [..|exact (proj1 (owns_assoc _ [] _ hs) Hw)]|].
  intros d tr1 (own & Hw1 & Hr & Hh).
  apply (owns_assoc _ own [acceptor_thread s] (server_socket s :: rest ++ hs)) in Hw1.
  apply wp_bind. eapply stop_tcp_server_wp; [exact Hw1|]. intros left tr2 Hleft Hw2. apply (owns_assoc _ own [_]) in Hw2.
  eapply (destroy_any_wp config int16_iq o); [exact Hr|exact Hw2| |].
  - rewrite Hh. subst rest. instantiate (1 := acceptor_thread s :: self s :: left ++ hs). clear. solve_Permutation.
  - intros tr3 Hw3. by eapply HQ.
Qed.

(** How [serve] ends: the socket may be left, or what a failed start left. *)
Definition ended (hs : list Z) (status : Z) (tr : record) : Prop :=
  (status = EXIT_SUCCESS /\ exists s left, left_open o s left /\ holding tr (left ++ hs)) \/
  (status = EXIT_FAILURE /\ exists own, start_leak own /\ holding tr (own ++ hs)).

Lemma server_ends_wp config owned bands hs tr :
  bands = [] \/ startable config o -> holding tr (ConfigMemory.blocks owned ++ hs) ->
  wp (serve config int16_iq reuseport owned bands) (ended hs) o tr.
Proof using documented negative clears bad.
  intros Hbands Hw. destruct (holding_owns _ _ Hw) as (l & Hl & Hw0). unfold serve. apply wp_bind.
  eapply start_tcp_server_wp; [done|done|exact Hw0| |].
  - intros code own tr1 Hne Hleak Hw1. apply owns_holding in Hw1. rewrite Hl in Hw1.
    assert (wp (ConfigMemory.destroy_server_config (Some owned);; io_ret EXIT_FAILURE) (ended hs) o tr1) as Hx; [|by destruct code].
    apply wp_bind. eapply (ConfigMemory.destroy_config_wp _ (own ++ hs)); [by reorder Hw1|].
    intros tr2 Hw2. apply wp_ret. right. eauto.
  - intros s tr1 Hw1 _ Hnew. apply wp_bind. eapply run_wp; [exact Hnew|exact Hbands|exact Hw1|].
    intros left tr2 Hleft Hw2. apply wp_bind. unfold join_tcp_server_thread.
    apply wp_bind. eapply hold_close; [done|exact Hw2|]. intros _ tr3 Hw3 _.
    apply wp_bind. eapply hold_free; [exact Hw3|]. intros _ tr4 Hw4. rewrite Hl in Hw4.
    apply wp_ret, wp_bind. eapply (ConfigMemory.destroy_config_wp _ (left ++ hs)); [by reorder Hw4|].
    intros tr5 Hw5. apply wp_ret. left. eauto.
Qed.
End whole.

(** ** Properties *)


(** The answers of a system where [bind] gives [code], and two clients are served. *)
Definition example_codes (code : Z) (c : lib_call) : Z :=
  match c with
  | bind _ _ => code
  | inet_pton _ => 1
  | config_read_file _ _ => 1
  | setsockopt (-1) _ => -1
  | _ => 0
  end.

Definition example_main : io (C := lib_call) Z :=
  main Config.example_lookup Config.example_int (fun _ => f_zero) Config.example_int Config.example_string 1 true
    (Some "sdr.conf") None [100000000; 433000000].


End Startup.
