(* ===== verification/RtlTcp.v ===== *)
(** * The rtl_tcp server: src/rtltcp_server.c

    What two of its threads do: a command thread applies the commands of its client to
    the state [g_dev] and to the receiver; the callback of libmsisdr removes the
    DC offset of the samples and converts them to bytes.  RtlTcpServer.v has the
    slots of the clients, the threads and the shutdown, RtlTcpMain.v the device,
    the USB thread and [main]. *)
From S2P Require Import Prelude Float FloatBounds Api Io Lib.
Import Float Io Lib FloatBounds.
#[local] Open Scope Z_scope.

Module RtlTcp.

Definition U8BUF_MAX : nat := Z.to_nat 262144.

(** [device_state_t] without the averages, and with the NULL pointer as 0. *)
Record device_state := MkDeviceState {
  dev : Z;
  center_freq : Z;
  sample_rate : Z;
  gain_mode : Z;
  gain : Z;
}.

(** ** Commands *)

(** [rtltcp_cmd_t], packed; [param] as it is in memory. *)
Record rtltcp_cmd := MkCmd { cmd : Z; param : Z }.

Definition cmd_bytes (c : rtltcp_cmd) : list Z := cmd c :: Api.le32 (param c).
Definition bytes_cmd (bs : list Z) : rtltcp_cmd := MkCmd (nth 0 bs 0) (Api.of_le32 (drop 1 bs)).

(** One turn of the switch of [client_cmd_thread]: the new state and the calls
    to libmsisdr. *)
Definition handle_command (s : device_state) (c : rtltcp_cmd) : device_state * list lib_call :=
  let p := Api.ntohl (param c) in
  let opened := negb (dev s =? 0) in
  if cmd c =? 0x01 then
    (MkDeviceState (dev s) p (sample_rate s) (gain_mode s) (gain s),
     if opened then [msisdr_set_center_freq (dev s) p] else [])
  else if cmd c =? 0x02 then
    if negb (p =? sample_rate s) && opened then
      let applied := if p <? 1300000 then 1300000 else p in
      let applied := if 15000000 <? applied then 15000000 else applied in
      (MkDeviceState (dev s) (center_freq s) applied (gain_mode s) (gain s),
       [msisdr_set_sample_rate (dev s) applied])
    else (s, [])
  else if cmd c =? 0x03 then
    let mode := swrap 32 p in
    (MkDeviceState (dev s) (center_freq s) (sample_rate s) mode (gain s),
     if opened then [msisdr_set_tuner_gain_mode (dev s) mode] else [])
  else if cmd c =? 0x04 then
    let g := swrap 32 (p / 10) in
    (MkDeviceState (dev s) (center_freq s) (sample_rate s) (gain_mode s) g,
     if opened && (gain_mode s =? 1) then [msisdr_set_tuner_gain (dev s) g] else [])
  else if cmd c =? 0x08 then
    let mode := if p =? 0 then 1 else 0 in
    (MkDeviceState (dev s) (center_freq s) (sample_rate s) mode (gain s),
     if opened then [msisdr_set_tuner_gain_mode (dev s) mode] else [])
  else (s, []).

(** [client_cmd_thread] on the bytes a client sends until it disconnects:
    [recv] with [MSG_WAITALL] gives five bytes, or less at the end. *)
Fixpoint client_cmd_thread (fuel : nat) (s : device_state) (input : list Z) : device_state * list lib_call :=
  match fuel with
  | O => (s, [])
  | S fuel' =>
      if decide (length input < 5)%nat then (s, [])
      else
        let '(s1, calls1) := handle_command s (bytes_cmd (take 5 input)) in
        let '(s2, calls2) := client_cmd_thread fuel' s1 (drop 5 input) in
        (s2, calls1 ++ calls2)
  end.

(** ** The USB callback *)

Definition f0_998 : float := f32_div (f32_of_Z 998) (f32_of_Z 1000).
Definition f0_002 : float := f32_div (f32_of_Z 2) (f32_of_Z 1000).

Definition clamp_int16 (x : Z) : Z := if 32767 <? x then 32767 else if x <? -32768 then -32768 else x.

(** One step of the DC filter on one of the two channels. *)
Definition dc_step (avg : float) (sample : Z) : option (float * Z) :=
  let s := f32_of_Z sample in
  let avg' := f32_add (f32_mul f0_998 avg) (f32_mul f0_002 s) in
  c ← to_int 32 (f32_sub s avg');
  Some (avg', clamp_int16 c).

Fixpoint dc_correct (avg_i avg_q : float) (samples : list Z) : option (float * float * list Z) :=
  match samples with
  | i :: q :: rest =>
      '(avg_i', ci) ← dc_step avg_i i;
      '(avg_q', cq) ← dc_step avg_q q;
      '(avgs, rest') ← dc_correct avg_i' avg_q' rest;
      Some (avgs, ci :: cq :: rest')
  | _ => Some (avg_i, avg_q, samples)
  end.

(** [(uint8_t)((samples[i] >> 8) + 128)] *)
Definition to_u8 (sample : Z) : Z := wrap 8 (Z.shiftr sample 8 + 128).

Definition convert (samples : list Z) : list Z := map to_u8 (take U8BUF_MAX samples).

(** [(uint32_t) len / sizeof(int16_t)] samples of a transfer: the bytes are little-endian. *)
Fixpoint samples_of (buf : list Z) : list Z :=
  match buf with
  | lo :: hi :: rest => swrap 16 (lo + 256 * hi) :: samples_of rest
  | _ => []
  end.

(** ** Specifications *)

(** The value of the last command [k] of a sequence. *)
Definition last_param (k : Z) (cmds : list (Z * Z)) (default : Z) : Z :=
  foldl (fun v c => if fst c =? k then snd c else v) default cmds.

Definition clamp_rate (r : Z) : Z := Z.min 15000000 (Z.max 1300000 r).

Definition last_gain (cmds : list (Z * Z)) (default : Z) : Z :=
  foldl (fun v c => if fst c =? 4 then snd c / 10 else v) default cmds.

(** What a client puts on the wire for the command [k] with parameter [p]. *)
Definition encode (c : Z * Z) : list Z := cmd_bytes (MkCmd (fst c) (Api.htonl (snd c))).

Definition last_mode (cmds : list (Z * Z)) (default : Z) : Z :=
  foldl (fun v c => if fst c =? 3 then swrap 32 (snd c) else if fst c =? 8 then (if snd c =? 0 then 1 else 0) else v) default cmds.

Definition valid_command (c : Z * Z) : Prop := is_unsigned 8 (fst c) /\ is_unsigned 32 (snd c).

(** What the receiver is set to after some calls. *)
Definition applied_freq (calls : list lib_call) (default : Z) : Z :=
  foldl (fun v c => match c with msisdr_set_center_freq _ f => f | _ => v end) default calls.
Definition applied_rate (calls : list lib_call) (default : Z) : Z :=
  foldl (fun v c => match c with msisdr_set_sample_rate _ r => r | _ => v end) default calls.
Definition applied_mode (calls : list lib_call) (default : Z) : Z :=
  foldl (fun v c => match c with msisdr_set_tuner_gain_mode _ m => m | _ => v end) default calls.

Definition applied_gain (calls : list lib_call) (default : Z) : Z :=
  foldl (fun v c => match c with msisdr_set_tuner_gain _ g => g | _ => v end) default calls.

(** The gain of the last command [4] that came in manual mode. *)
Fixpoint last_manual_gain (cmds : list (Z * Z)) (mode default : Z) : Z :=
  match cmds with
  | [] => default
  | c :: cmds' =>
      last_manual_gain cmds' (last_mode [c] mode) (if (fst c =? 4) && (mode =? 1) then snd c / 10 else default)
  end.

(** The rate of the last command [2], brought into the range of the receiver; a
    command that repeats the current rate changes nothing. *)
Definition last_rate (cmds : list (Z * Z)) (default : Z) : Z :=
  foldl (fun v c => if fst c =? 2 then (if snd c =? v then v else clamp_rate (snd c)) else v) default cmds.

(** The call that a command stands for, on the receiver [h] when the rate and the
    gain mode are [rate] and [mode]. *)
Definition command_call (h rate mode : Z) (c : Z * Z) : list lib_call :=
  if fst c =? 1 then [msisdr_set_center_freq h (snd c)]
  else if fst c =? 2 then if snd c =? rate then [] else [msisdr_set_sample_rate h (clamp_rate (snd c))]
  else if fst c =? 4 then if mode =? 1 then [msisdr_set_tuner_gain h (snd c / 10)] else []
  else if (fst c =? 3) || (fst c =? 8) then [msisdr_set_tuner_gain_mode h (last_mode [c] mode)]
  else [].

Fixpoint command_calls (h rate mode : Z) (cmds : list (Z * Z)) : list lib_call :=
  match cmds with
  | [] => []
  | c :: cmds' => command_call h rate mode c ++ command_calls h (last_rate [c] rate) (last_mode [c] mode) cmds'
  end.

(** A command as the server has read it. *)
Definition wire_cmd (c : Z * Z) : rtltcp_cmd := MkCmd (fst c) (Api.htonl (snd c) `mod` 2 ^ 32).

Definition in_range (r : Z) : Prop := 1300000 <= r <= 15000000.

(** The state after the commands, and the calls to the receiver, if there is one. *)
Definition commanded (cmds : list (Z * Z)) (s : device_state) : device_state * list lib_call :=
  (MkDeviceState (dev s) (last_param 1 cmds (center_freq s))
     (if dev s =? 0 then sample_rate s else last_rate cmds (sample_rate s))
     (last_mode cmds (gain_mode s)) (last_gain cmds (gain s)),
   if dev s =? 0 then [] else command_calls (dev s) (sample_rate s) (gain_mode s) cmds).

(** A range for the averages of the DC filter, in units of 2^-149. *)
Definition dc_bounded (avg : float) : Prop := bounded (40000 * 2 ^ 149) avg.

(** ** Lemmas: commands *)

Lemma bytes_cmd_encode c rest : valid_command c ->
  bytes_cmd (take 5 (encode c ++ rest)) = MkCmd (fst c) (Api.htonl (snd c) `mod` 2 ^ 32) /\
  drop 5 (encode c ++ rest) = rest /\ (5 <= length (encode c ++ rest))%nat.
Proof.
  intros Hc. unfold encode, cmd_bytes. cbn [cmd param].
  pose proof (Api.length_le32 (Api.htonl (snd c))) as Hlen.
  pose proof (Api.of_le32_le32 (Api.htonl (snd c))) as Hof.
  destruct (Api.le32 (Api.htonl (snd c))) as [|b0 [|b1 [|b2 [|b3 [|? ?]]]]]; try discriminate Hlen.
  split; [|split; [done|cbn; lia]].
  change (MkCmd (fst c) (Api.of_le32 [b0; b1; b2; b3]) = MkCmd (fst c) (Api.htonl (snd c) `mod` 2 ^ 32)). by rewrite Hof.
Qed.

Lemma param_wire c : valid_command c -> Api.ntohl (param (wire_cmd c)) = snd c.
Proof. intros [_ Hc]. by apply Api.ntohl_wire. Qed.

Lemma client_cmd_thread_cons fuel s c cmds tail : valid_command c ->
  client_cmd_thread (S fuel) s (concat (map encode (c :: cmds)) ++ tail) =
  let '(s1, calls1) := handle_command s (wire_cmd c) in
  let '(s2, calls2) := client_cmd_thread fuel s1 (concat (map encode cmds) ++ tail) in
  (s2, calls1 ++ calls2).
Proof.
  intros Hc. cbn [client_cmd_thread map concat]. rewrite <- app_assoc.
  destruct (bytes_cmd_encode c (concat (map encode cmds) ++ tail) Hc) as (-> & -> & Hl).
  by rewrite decide_False by lia.
Qed.

Lemma handle_command_commanded s c : valid_command c -> handle_command s (wire_cmd c) = commanded [c] s.
Proof.
  intros Hc. pose proof (param_wire c Hc) as Hp. destruct Hc as [_ Hc].
  unfold handle_command. cbn [cmd wire_cmd]. rewrite Hp.
  unfold commanded, last_param, last_gain, last_mode, last_rate, is_unsigned in *. cbn [foldl command_calls].
  unfold command_call, last_mode. cbn [foldl]. rewrite !app_nil_r.
  assert (swrap 32 (snd c / 10) = snd c / 10) as Hg.
  { apply swrap_small; [|lia]. unfold is_signed.
    pose proof (Z.div_pos (snd c) 10). pose proof (Z.div_lt_upper_bound (snd c) 10 429496730). lia. }
  assert ((let applied := if snd c <? 1300000 then 1300000 else snd c in if 15000000 <? applied then 15000000 else applied)
    = clamp_rate (snd c)) as Hr by (cbv zeta; unfold clamp_rate; repeat case_match; lia).
  cbv zeta in Hr. rewrite Hr, Hg.
  destruct (fst c =? 1) eqn:E1; [apply Z.eqb_eq in E1; rewrite E1; cbn; by destruct (dev s =? 0)|].
  destruct (fst c =? 2) eqn:E2.
  { apply Z.eqb_eq in E2. rewrite E2. cbn. destruct (snd c =? sample_rate s), (dev s =? 0), s; cbn; reflexivity. }
  destruct (fst c =? 3) eqn:E3; [apply Z.eqb_eq in E3; rewrite E3; cbn; by destruct (dev s =? 0)|].
  destruct (fst c =? 4) eqn:E4; [apply Z.eqb_eq in E4; rewrite E4; cbn; by destruct (dev s =? 0), (gain_mode s =? 1)|].
  destruct (fst c =? 8); cbn; by destruct (dev s =? 0), s.
Qed.

Lemma client_cmd_thread_commanded cmds : forall fuel s tail,
  Forall valid_command cmds -> (length tail < 5)%nat -> (length cmds <= fuel)%nat ->
  client_cmd_thread fuel s (concat (map encode cmds) ++ tail) = commanded cmds s.
Proof.
  induction cmds as [|c cmds IH]; intros fuel s tail Hv Ht Hf.
  - cbn [map concat app]. assert (client_cmd_thread fuel s tail = (s, [])) as ->.
    { destruct fuel; [done|]. cbn [client_cmd_thread]. by rewrite decide_True. }
    unfold commanded. cbn. by destruct (dev s =? 0), s.
  - destruct fuel as [|fuel]; [cbn in Hf; lia|]. apply Forall_cons in Hv as [Hc Hv].
    rewrite client_cmd_thread_cons, handle_command_commanded by done. unfold commanded at 1.
    rewrite IH by (done || (cbn in Hf; lia)). unfold commanded.
    cbn [dev center_freq sample_rate gain_mode gain command_calls]. by destruct (dev s =? 0); rewrite ?app_nil_r.
Qed.

(** What the calls leave the receiver set to. *)
Lemma command_calls_applied h cmds : forall rate mode f g,
  applied_freq (command_calls h rate mode cmds) f = last_param 1 cmds f /\
  applied_rate (command_calls h rate mode cmds) rate = last_rate cmds rate /\
  applied_mode (command_calls h rate mode cmds) mode = last_mode cmds mode /\
  applied_gain (command_calls h rate mode cmds) g = last_manual_gain cmds mode g.
Proof.
  induction cmds as [|c cmds IH]; intros rate mode f g; [done|]. cbn [command_calls last_manual_gain].
  destruct (IH (last_rate [c] rate) (last_mode [c] mode) (last_param 1 [c] f)
    (if (fst c =? 4) && (mode =? 1) then snd c / 10 else g)) as (H1 & H2 & H3 & H4).
  unfold applied_freq, applied_rate, applied_mode, applied_gain in *. rewrite !foldl_app.
  change (last_param 1 (c :: cmds) f) with (last_param 1 cmds (last_param 1 [c] f)).
  change (last_rate (c :: cmds) rate) with (last_rate cmds (last_rate [c] rate)).
  change (last_mode (c :: cmds) mode) with (last_mode cmds (last_mode [c] mode)).
  rewrite <- H1, <- H2, <- H3, <- H4. clear. unfold command_call, last_param, last_rate, last_mode. cbn [foldl].
  destruct (fst c =? 1) eqn:E1; [apply Z.eqb_eq in E1; rewrite E1; done|].
  destruct (fst c =? 2) eqn:E2; [apply Z.eqb_eq in E2; rewrite E2; by destruct (snd c =? rate)|].
  destruct (fst c =? 4) eqn:E4; [apply Z.eqb_eq in E4; rewrite E4; by destruct (mode =? 1)|].
  destruct (fst c =? 3); [done|]. by destruct (fst c =? 8).
Qed.

Lemma last_rate_clamped cmds : forall r, in_range r -> last_rate cmds r = clamp_rate (last_param 2 cmds r).
Proof.
  assert (forall r, in_range (clamp_rate r)) as Hc by (intros; unfold in_range, clamp_rate; lia).
  assert (forall r, in_range r -> clamp_rate r = r) as Hi by (intros; unfold in_range, clamp_rate in *; lia).
  assert (forall cmds a b, clamp_rate a = clamp_rate b -> clamp_rate (last_param 2 cmds a) = clamp_rate (last_param 2 cmds b)) as Hl.
  { clear. induction cmds as [|c cmds IH]; intros a b H; [done|]. cbn. destruct (fst c =? 2); [done|by apply IH]. }
  induction cmds as [|c cmds IH]; intros r Hr; [by rewrite Hi|].
  change (last_rate (c :: cmds) r) with (last_rate cmds (last_rate [c] r)).
  change (last_param 2 (c :: cmds) r) with (last_param 2 cmds (last_param 2 [c] r)).
  unfold last_rate at 2, last_param at 2. cbn [foldl]. destruct (fst c =? 2); [|by apply IH].
  destruct (snd c =? r) eqn:E; [apply Z.eqb_eq in E as ->; by apply IH|].
  rewrite IH by done. apply Hl. by rewrite Hi.
Qed.

(** ** Lemmas: the stream *)

Lemma clamp_int16_range x : is_signed 16 (clamp_int16 x).
Proof. unfold clamp_int16, is_signed. repeat case_match; lia. Qed.

Lemma dc_correct_shape : forall samples avg_i avg_q avgs out, Forall (is_signed 16) samples ->
  dc_correct avg_i avg_q samples = Some (avgs, out) -> length out = length samples /\ Forall (is_signed 16) out.
Proof.
  fix IH 1. intros samples avg_i avg_q avgs out Hs H. destruct samples as [|i [|q samples]].
  - injection H as <- <-. done.
  - injection H as <- <-. done.
  - cbn [dc_correct] in H. apply bind_Some in H as ([ai ci] & Hi & H). apply bind_Some in H as ([aq cq] & Hq & H).
    apply bind_Some in H as ([avgs' out'] & Hr & H). injection H as <- <-.
    apply Forall_cons in Hs as [_ Hs]. apply Forall_cons in Hs as [_ Hs].
    destruct (IH samples _ _ _ _ Hs Hr) as [Hl Ho]. unfold dc_step in Hi, Hq.
    apply bind_Some in Hi as (z1 & _ & [= _ <-]). apply bind_Some in Hq as (z2 & _ & [= _ <-]). split; [cbn; lia|].
    constructor; [apply clamp_int16_range|]. by constructor; [apply clamp_int16_range|].
Qed.

(** The conversion does not wrap around. *)
Lemma to_u8_exact x : is_signed 16 x -> to_u8 x = (x + 32768) / 256 /\ is_unsigned 8 (to_u8 x).
Proof.
  unfold is_signed, to_u8. intros Hx. rewrite Z.shiftr_div_pow2 by lia. change (2 ^ 8) with 256.
  assert ((x + 32768) / 256 = x / 256 + 128) as -> by (replace (x + 32768) with (x + 128 * 256) by lia; by rewrite Z.div_add).
  assert (is_unsigned 8 (x / 256 + 128)) as Hu.
  { unfold is_unsigned. pose proof (Z.div_le_lower_bound x 256 (-128)). pose proof (Z.div_lt_upper_bound x 256 128). lia. }
  by rewrite wrap_small.
Qed.

Lemma convert_exact out : Forall (is_signed 16) out ->
  convert out = map (fun s => (s + 32768) / 256) (take U8BUF_MAX out) /\ Forall (is_unsigned 8) (convert out).
Proof.
  intros Hs. unfold convert. apply (Forall_take _ U8BUF_MAX) in Hs. induction Hs as [|x xs Hx Hxs [IH1 IH2]]; [done|].
  destruct (to_u8_exact x Hx) as [E Hu]. cbn [map]. rewrite E in *. split; [by f_equal|by constructor].
Qed.

(** ** Lemmas: the DC filter stays in range *)

Lemma dc_bounded_zero : dc_bounded f_zero.
Proof. done. Qed.

Lemma weights_bounded : bounded (998 * 2 ^ 149 / 1000 + 2 ^ 130) f0_998 /\ bounded (2 * 2 ^ 149 / 1000 + 2 ^ 130) f0_002.
Proof. by vm_compute. Qed.

Lemma dc_step_defined avg sample : dc_bounded avg -> is_signed 16 sample ->
  exists avg' c, dc_step avg sample = Some (avg', c) /\ dc_bounded avg' /\ is_signed 16 c.
Proof.
  intros Ha Hs. destruct weights_bounded as [H998 H002]. unfold dc_step.
  assert (bounded (32768 * 2 ^ 149) (f32_of_Z sample)) as Hb.
  { apply of_Z_bounded; [unfold is_signed in Hs; cbn in Hs; lia|done]. }
  generalize dependent f0_002. generalize dependent f0_998. generalize dependent (f32_of_Z sample).
  intros s Hb w1 H998 w2 H002.
  pose proof (mul_bounded_check _ _ (39921 * 2 ^ 149) _ _ H998 Ha eq_refl) as H1.
  pose proof (mul_bounded_check _ _ (66 * 2 ^ 149) _ _ H002 Hb eq_refl) as H2.
  destruct (add_bounded_check _ _ (40000 * 2 ^ 149) _ _ H1 H2 eq_refl) as [H3 _].
  destruct (add_bounded_check _ _ (73000 * 2 ^ 149) _ _ Hb H3 eq_refl) as [_ H4].
  destruct (to_int_bounded 32 73000 _ ltac:(lia) H4) as (z & -> & _).
  eexists _, _. split; [reflexivity|]. split; [exact H3|apply clamp_int16_range].
Qed.

Lemma dc_correct_defined : forall samples avg_i avg_q, dc_bounded avg_i -> dc_bounded avg_q -> Forall (is_signed 16) samples ->
  exists avg_i' avg_q' out, dc_correct avg_i avg_q samples = Some (avg_i', avg_q', out) /\
    dc_bounded avg_i' /\ dc_bounded avg_q'.
Proof.
  fix IH 1. intros samples avg_i avg_q Hi Hq Hs. destruct samples as [|i [|q samples]].
  - by exists avg_i, avg_q, [].
  - by exists avg_i, avg_q, [i].
  - apply Forall_cons in Hs as [Hsi Hs]. apply Forall_cons in Hs as [Hsq Hs]. cbn [dc_correct].
    destruct (dc_step_defined avg_i i Hi Hsi) as (ai & ci & -> & Hai & _).
    destruct (dc_step_defined avg_q q Hq Hsq) as (aq & cq & -> & Haq & _).
    destruct (IH samples ai aq Hai Haq Hs) as (ai' & aq' & out & Hr & H1 & H2). cbn [mbind option_bind]. rewrite Hr.
    by exists ai', aq', (ci :: cq :: out).
Qed.

Lemma samples_of_range : forall buf, Forall (is_signed 16) (samples_of buf) /\ length (samples_of buf) = (length buf / 2)%nat.
Proof.
  fix IH 1. intros buf. destruct buf as [|lo [|hi rest]]; [by split|by split|]. destruct (IH rest) as [H1 H2]. split.
  - constructor; [by apply swrap_range|done].
  - cbn [samples_of length]. rewrite H2. replace (S (S (length rest))) with (length rest + 1 * 2)%nat by lia.
    by rewrite Nat.div_add, Nat.add_1_r.
Qed.

(** ** Properties *)

(** C34. Whatever sequence of commands a client sends, an incomplete one at its
    end included, its thread ends, and the frequency, the gain and the gain mode of
    [g_dev] are those of the last command for each.  With a receiver (the pointer in
    [g_dev] is not null during the run), the rate is that of the last command that
    changed it, brought into the range of the receiver, and the calls are exactly
    those the commands stand for, in order: a gain only in manual mode, a rate only
    when it changes.  So the receiver was last set to the frequency, the rate and the
    mode of [g_dev], and to the last gain that came in manual mode.  Without a
    receiver the rate stays and no call is made. *)
Theorem commands_applied cmds s tail fuel (sent : Forall valid_command cmds)
    (incomplete : (length tail < 5)%nat) (enough : (length (concat (map encode cmds) ++ tail) <= fuel)%nat) :
  let '(s', calls) := client_cmd_thread fuel s (concat (map encode cmds) ++ tail) in
  dev s' = dev s /\ center_freq s' = last_param 1 cmds (center_freq s) /\
  gain s' = last_gain cmds (gain s) /\ gain_mode s' = last_mode cmds (gain_mode s) /\
  if dev s =? 0 then sample_rate s' = sample_rate s /\ calls = []
  else
    sample_rate s' = last_rate cmds (sample_rate s) /\
    (in_range (sample_rate s) -> sample_rate s' = clamp_rate (last_param 2 cmds (sample_rate s))) /\
    calls = command_calls (dev s) (sample_rate s) (gain_mode s) cmds /\
    applied_freq calls (center_freq s) = center_freq s' /\ applied_rate calls (sample_rate s) = sample_rate s' /\
    applied_mode calls (gain_mode s) = gain_mode s' /\
    forall g, applied_gain calls g = last_manual_gain cmds (gain_mode s) g.
Proof.
  rewrite client_cmd_thread_commanded; [|done|done|].
  - unfold commanded. cbn [dev center_freq sample_rate gain_mode gain]. destruct (dev s =? 0); [done|].
    pose proof (last_rate_clamped cmds (sample_rate s)).
    pose proof (fun g => command_calls_applied (dev s) cmds (sample_rate s) (gain_mode s) (center_freq s) g) as Happ.
    destruct (Happ 0) as (H1 & H2 & H3 & _). split_and!; try done. intros g. by destruct (Happ g) as (_ & _ & _ & ?).
  - assert (length cmds <= length (concat (map encode cmds)))%nat; [|rewrite length_app in enough; lia].
    clear. induction cmds as [|c cmds IH]; [done|]. cbn [map concat length]. rewrite length_app.
    unfold encode at 1, cmd_bytes. cbn [length]. lia.
Qed.

Lemma commands_applied_witness :
  let s := MkDeviceState 7 100000000 2400000 1 40 in
  let '(s', calls) := client_cmd_thread 50 s (concat (map encode [(2, 1000000); (1, 93300000); (4, 400); (8, 1); (4, 100)]) ++ [1; 2]) in
  center_freq s' = 93300000 /\ sample_rate s' = 1300000 /\ gain_mode s' = 0 /\ gain s' = 10 /\
  calls = [msisdr_set_sample_rate 7 1300000; msisdr_set_center_freq 7 93300000; msisdr_set_tuner_gain 7 40;
           msisdr_set_tuner_gain_mode 7 0].
Proof.
  assert (Forall valid_command [(2, 1000000); (1, 93300000); (4, 400); (8, 1); (4, 100)]) as Hv.
  { repeat constructor; cbn; lia. }
  pose proof (commands_applied [(2, 1000000); (1, 93300000); (4, 400); (8, 1); (4, 100)] (MkDeviceState 7 100000000 2400000 1 40)
    [1; 2] 50 Hv ltac:(cbn; lia) ltac:(cbn; lia)) as H.
  cbn zeta. revert H. vm_compute. tauto.
Defined.

(** C35. The DC filter never leaves the range of [int32_t]: on any transfer, with
    averages that started from zero, the conversions of the filter are defined,
    the averages stay within 40000, the corrected samples are 16-bit, and the
    byte sent for each is (sample + 32768) / 256, without wrapping around. *)
Theorem dc_filter_in_range (avg_i avg_q : float) (buf : list Z)
    (bounded_i : dc_bounded avg_i) (bounded_q : dc_bounded avg_q) :
  exists avg_i' avg_q' out, dc_correct avg_i avg_q (samples_of buf) = Some (avg_i', avg_q', out) /\
    dc_bounded avg_i' /\ dc_bounded avg_q' /\ length out = (length buf / 2)%nat /\ Forall (is_signed 16) out /\
    convert out = map (fun s => (s + 32768) / 256) (take U8BUF_MAX out) /\ Forall (is_unsigned 8) (convert out).
Proof.
  destruct (samples_of_range buf) as [Hs Hl].
  destruct (dc_correct_defined (samples_of buf) avg_i avg_q bounded_i bounded_q Hs) as (ai & aq & out & Hd & Hi & Hq).
  destruct (dc_correct_shape _ _ _ _ _ Hs Hd) as [Hlen Hout]. exists ai, aq, out.
  split; [done|]. split; [done|]. split; [done|]. split; [by rewrite Hlen|]. split; [done|].
  by apply convert_exact.
Qed.

Lemma dc_filter_in_range_witness :
  exists avg_i avg_q out, dc_correct f_zero f_zero (samples_of [255; 127; 0; 128; 255; 127; 0; 128]) = Some (avg_i, avg_q, out) /\
    convert out = [255; 0; 255; 0] /\ Forall (is_signed 16) out.
Proof.
  destruct (dc_filter_in_range f_zero f_zero [255; 127; 0; 128; 255; 127; 0; 128]) as (ai & aq & out & H & _ & _ & _ & Hs & _);
    [apply dc_bounded_zero|apply dc_bounded_zero|].
  exists ai, aq, out. split; [exact H|]. split; [|exact Hs].
  vm_compute in H. injection H as _ _ <-. unfold convert. rewrite take_ge; [reflexivity|].
  unfold U8BUF_MAX. apply Nat2Z.inj_le. rewrite Z2Nat.id by lia. cbn. lia.
Defined.

End RtlTcp.
