(* ===== verification/RtlTcpServer.v ===== *)
(** * The clients of the rtl_tcp server: src/rtltcp_server.c

    [g_clients] and [g_client_fds] are one list of slots.  The callback, the two
    places that change a slot and the signal handler run as one step each (all
    but the handler hold [g_clients_mtx]); a command thread is the pair of its
    slot and its socket, and [tid] is the socket of the last thread a slot had.
    The USB thread and its join are in RtlTcpMain.v. *)
From S2P Require Import Prelude Float FloatBounds Lib RtlTcp.
Import Float Lib RtlTcp.
#[local] Open Scope Z_scope.

Module RtlTcpServer.

Definition TUNER_TYPE : Z := 5.
Definition GAIN_STEPS : Z := 29.
Definition MAX_CLIENTS : nat := 4.

(** [client_slot_t] with the descriptor in [g_client_fds]. *)
Record slot := MkSlot { sock : Z; client_fd : Z; tid : option Z }.

Definition empty_slot : slot := MkSlot (-1) (-1) None.

(** [g_clients[i].sock = -1; g_client_fds[i] = -1;] *)
Definition clear_slot (s : slot) : slot := MkSlot (-1) (-1) (tid s).

(** ** The broadcast *)

(** What the socket does with a [send]: room for some bytes, or an error. *)
Inductive send_answer := Room (n : nat) | WouldBlock | SendError.

(** The send loop of one client: the bytes that were accepted, and whether the
    client keeps its slot.  [None] when there are fewer answers than calls. *)
Fixpoint send_loop (data : list Z) (answers : list send_answer) : option (list Z * bool) :=
  match data with
  | [] => Some ([], true)
  | _ =>
      match answers with
      | [] => None
      | WouldBlock :: _ => Some ([], true)
      | SendError :: _ | Room O :: _ => Some ([], false)
      | Room n :: answers' =>
          '(sent, keep) ← send_loop (drop n data) answers';
          Some (take n data ++ sent, keep)
      end
  end.

(** The loop over the slots: the slots afterwards, and what each socket got. *)
Fixpoint broadcast (data : list Z) (before : list slot) (answers : list (list send_answer))
    : option (list slot * list (Z * list Z)) :=
  match before, answers with
  | [], _ => Some ([], [])
  | s :: before', a :: answers' =>
      if sock s <? 0 then
        '(rest, sent) ← broadcast data before' answers';
        Some (s :: rest, sent)
      else
        '(bytes, keep) ← send_loop data a;
        '(rest, sent) ← broadcast data before' answers';
        Some ((if keep : bool then s else clear_slot s) :: rest, (sock s, bytes) :: sent)
  | _ :: _, [] => None
  end.

(** [msisdr_callback]: the averages, the slots, what was sent, and the calls to
    libmsisdr. *)
Definition msisdr_callback (g_stop : bool) (dev : Z) (avgs : float * float) (buf : list Z) (before : list slot)
    (answers : list (list send_answer)) : option ((float * float) * list slot * list (Z * list Z) * list lib_call) :=
  if g_stop then Some (avgs, before, [], [msisdr_cancel_async dev])
  else
    '(avgs', corrected) ← dc_correct (fst avgs) (snd avgs) (samples_of buf);
    '(after, sent) ← broadcast (convert corrected) before answers;
    Some (avgs', after, sent, []).

(** ** The threads *)

(** The first free slot. *)
Fixpoint free_slot (before : list slot) : option nat :=
  match before with
  | [] => None
  | s :: before' => if sock s <? 0 then Some O else S <$> free_slot before'
  end.

(** ["RTL0"], the tuner and the number of gains. *)
Definition header : list Z := [82; 84; 76; 48; 0; 0; 0; TUNER_TYPE; 0; 0; 0; GAIN_STEPS].

(** Where [main] is: in the accept loop, in the loop that joins the command
    threads, or after it. *)
Inductive main_pc := Serving | Joining (i : nat) | Done.

(** The server: the slots, the command threads (slot and socket), the sockets
    that are open, those that were shut down, [g_stop] and [main]. *)
Record server := MkServer {
  slots : list slot;
  threads : list (nat * Z);
  sockets : list Z;
  shut : list Z;
  g_stop : bool;
  main : main_pc;
}.

Definition initial : server := MkServer (replicate MAX_CLIENTS empty_slot) [] [] [] false Serving.

(** The test of [g_stop] at the head of the accept loop. *)
Definition next_accept (s : server) : main_pc := if g_stop s then Joining 0 else Serving.

(** The body of the accept loop for a new socket; [header_ok] says whether the
    header was written.  A client that is not served is closed. *)
Definition accept_client (csock : Z) (header_ok : bool) (s : server) : server :=
  match free_slot (slots s) with
  | None => MkServer (slots s) (threads s) (sockets s) (shut s) (g_stop s) (next_accept s)
  | Some i =>
      if header_ok then
        MkServer (<[i := MkSlot csock csock (Some csock)]> (slots s)) (threads s ++ [(i, csock)]) (csock :: sockets s)
          (shut s) (g_stop s) (next_accept s)
      else MkServer (slots s) (threads s) (sockets s) (shut s) (g_stop s) (next_accept s)
  end.

(** The errors of [accept] that end the loop, as a signal or a closed socket. *)
Definition interrupted (errno : Z) : bool := (errno =? EINTR) || (errno =? EBADF) || (errno =? EINVAL).

(** Where [main] goes when [accept] failed: [break] or [continue]. *)
Definition accept_failed (errno : Z) (s : server) : main_pc :=
  if g_stop s || interrupted errno then Joining 0 else next_accept s.

(** The end of [client_cmd_thread]. *)
Definition command_end (i : nat) (csock : Z) (s : server) : server :=
  MkServer (alter clear_slot i (slots s)) (filter (fun t => t <> (i, csock)) (threads s))
    (filter (fun c => c <> csock) (sockets s)) (filter (fun c => c <> csock) (shut s)) (g_stop s) (main s).

(** [on_signal] *)
Definition on_signal (s : server) : server :=
  MkServer (slots s) (threads s) (sockets s)
    (shut s ++ List.filter (fun fd => negb (fd <? 0)) (map client_fd (slots s))) true (main s).

(** One turn of the loop that joins; [None] while the thread runs. *)
Definition join_slot (i : nat) (s : server) : option server :=
  sl ← slots s !! i;
  _ ← ensure (match tid sl with Some c => bool_decide ((i, c) ∉ threads s) | None => true end);
  Some (MkServer (<[i := MkSlot (sock sl) (client_fd sl) None]> (slots s)) (threads s) (sockets s) (shut s) (g_stop s)
          (if decide (S i < MAX_CLIENTS)%nat then Joining (S i) else Done)).

(** The steps of the threads.  The operating system gives an accepted connection
    a descriptor that is not in use; [accept] is interrupted, or finds the
    listening socket closed, only after the handler has run. *)
Inductive event :=
| Accepts (csock : Z) (header_ok : bool)
| AcceptFails (errno : Z)
| Broadcasts (data : list Z) (answers : list (list send_answer))
| CommandEnds (i : nat) (csock : Z)
| Signal
| Join.

Definition exec (s : server) (e : event) : option server :=
  match e with
  | Accepts csock header_ok =>
      match main s with
      | Serving => _ ← ensure (bool_decide (0 <= csock /\ csock ∉ sockets s)); Some (accept_client csock header_ok s)
      | _ => None
      end
  | AcceptFails errno =>
      match main s with
      | Serving =>
          _ ← ensure (g_stop s || negb (interrupted errno));
          Some (MkServer (slots s) (threads s) (sockets s) (shut s) (g_stop s) (accept_failed errno s))
      | _ => None
      end
  | Broadcasts data answers =>
      '(after, _) ← broadcast data (slots s) answers;
      Some (MkServer after (threads s) (sockets s) (shut s) (g_stop s) (main s))
  | CommandEnds i csock =>
      _ ← ensure (bool_decide ((i, csock) ∈ threads s));
      Some (command_end i csock s)
  | Signal => Some (on_signal s)
  | Join => match main s with Joining i => join_slot i s | _ => None end
  end.

Definition step (s : server) (e : event) (s' : server) : Prop := exec s e = Some s'.

(** ** Specifications *)

(** An answer after which a client loses its slot. *)
Definition is_failure (a : send_answer) : bool := match a with SendError | Room O => true | _ => false end.

Definition no_failure (answers : list (list send_answer)) : Prop :=
  forall a, a ∈ answers -> forallb (fun x => negb (is_failure x)) a = true.

(** No send fails. *)
Definition gentle (e : event) : Prop :=
  match e with Broadcasts _ answers => no_failure answers | _ => True end.

Definition gentle_step (s : server) (e : event) (s' : server) : Prop := step s e s' /\ gentle e.

(** The sockets that a broadcast serves. *)
Definition occupied (before : list slot) : list Z := map sock (List.filter (fun s => negb (sock s <? 0)) before).

(** The steps that the shutdown waits for and that need no client to leave: the
    thread of a socket that was shut down ends. *)
Definition forced (s : server) (e : event) : Prop :=
  match e with
  | AcceptFails _ | Join => True
  | CommandEnds _ c => c ∈ shut s
  | _ => False
  end.

Definition forced_step (s : server) (e : event) (s' : server) : Prop := step s e s' /\ forced s e.

Record slots_inv (s : server) : Prop := {
  si_length : length (slots s) = MAX_CLIENTS;
  si_fd : forall i sl, slots s !! i = Some sl -> client_fd sl = sock sl;
  si_thread : forall i sl, slots s !! i = Some sl -> 0 <= sock sl -> (i, sock sl) ∈ threads s;
  si_open : forall i c, (i, c) ∈ threads s -> c ∈ sockets s /\ 0 <= c /\ (i < MAX_CLIENTS)%nat;
  si_unique : forall i j c, (i, c) ∈ threads s -> (j, c) ∈ threads s -> i = j;
  si_main : match main s with Joining i => (i < MAX_CLIENTS)%nat | _ => True end;
  si_running : g_stop s = false -> main s = Serving /\ shut s = [];
}.

(** Every command thread has the slot of its client. *)
Definition all_served (s : server) : Prop :=
  forall i c, (i, c) ∈ threads s -> exists t, slots s !! i = Some (MkSlot c c t).

(** What is left of the joins. *)
Definition joins_left (pc : main_pc) : nat :=
  match pc with Serving => S MAX_CLIENTS | Joining i => MAX_CLIENTS - i | Done => 0 end.

(** After the signal every socket with a thread is shut down. *)
Definition all_shut (s : server) : Prop := g_stop s = true /\ forall i c, (i, c) ∈ threads s -> c ∈ shut s.

(** The thread of a client that lost its slot, and the join that waits for it. *)
Definition stuck (i : nat) (c : Z) (s : server) : Prop :=
  slots_inv s /\ (i, c) ∈ threads s /\ (c ∉ shut s) /\ (exists sl, (slots s !! i = Some sl) /\ (tid sl = Some c)) /\
  match main s with Serving => True | Joining j => (j <= i)%nat | Done => False end.

(** An example: the client with socket 10 is evicted, and the one with socket 11
    takes its slot. *)
Definition evicted : server :=
  MkServer [MkSlot (-1) (-1) (Some 10); empty_slot; empty_slot; empty_slot] [(0%nat, 10)] [10] [] false Serving.

Definition replaced : server :=
  MkServer [MkSlot 11 11 (Some 11); empty_slot; empty_slot; empty_slot] [(0%nat, 10); (0%nat, 11)] [11; 10] [] false Serving.

(** ** Lemmas: the broadcast *)

Lemma send_loop_spec : forall answers data sent keep, send_loop data answers = Some (sent, keep) ->
  sent `prefix_of` data /\
  (keep = false -> existsb is_failure answers = true) /\
  (keep = true -> sent = data \/ WouldBlock ∈ answers).
Proof.
  induction answers as [|a answers IH]; intros data sent keep H.
  - destruct data; [|done]. injection H as <- <-. split; [done|]. split; [done|by left].
  - destruct data as [|d data]; [injection H as <- <-; split; [done|]; split; [done|by left]|].
    cbn [send_loop] in H. destruct a as [[|n]| |].
    + injection H as <- <-. split; [apply prefix_nil|]. done.
    + apply bind_Some in H as ([sent' keep'] & Hr & H). injection H as <- <-.
      destruct (IH _ _ _ Hr) as ([tail Ht] & Hf & Hk). split; [|split].
      * exists tail. simpl in *. by rewrite <- app_assoc, <- Ht, firstn_skipn.
      * intros E. cbn. by rewrite (Hf E).
      * intros E. destruct (Hk E) as [-> | ?]; [left; simpl; by rewrite firstn_skipn|right; by right].
    + injection H as <- <-. split; [apply prefix_nil|]. split; [done|right; left].
    + injection H as <- <-. split; [apply prefix_nil|]. done.
Qed.

(** The loop ends: every turn sends a byte, or is the last. *)
Lemma send_loop_total : forall answers data, (length data <= length answers)%nat -> is_Some (send_loop data answers).
Proof.
  induction answers as [|a answers IH]; intros data Hl; (destruct data as [|d data]; [by eexists|]); [cbn in Hl; lia|].
  cbn [send_loop]. destruct a as [[|n]| |]; try (by eexists).
  destruct (IH (drop (S n) (d :: data))) as [[sent keep] ->]; [rewrite length_drop; cbn in *; lia|by eexists].
Qed.

Lemma broadcast_total data : forall before answers, (length before <= length answers)%nat ->
  Forall (fun a => length data <= length a)%nat answers -> is_Some (broadcast data before answers).
Proof.
  induction before as [|s before IH]; intros answers Hl Ha; cbn [broadcast]; [by eexists|].
  destruct answers as [|a answers]; [cbn in Hl; lia|]. apply Forall_cons in Ha as [Ha Has].
  destruct (IH answers ltac:(cbn in Hl; lia) Has) as [[rest sent] Hr].
  destruct (send_loop_total a data Ha) as [[bytes keep] Hb].
  rewrite Hr, Hb. by destruct (sock s <? 0); eexists.
Qed.

Lemma broadcast_spec data : forall before answers after sent, broadcast data before answers = Some (after, sent) ->
  map fst sent = occupied before /\ Forall (fun cb => snd cb `prefix_of` data) sent /\
  Forall2 (fun s s' => s' = s \/ (s' = clear_slot s /\ 0 <= sock s)) before after /\
  (no_failure answers ->
     after = before /\ ((forall a, a ∈ answers -> WouldBlock ∉ a) -> Forall (fun cb => snd cb = data) sent)).
Proof.
  induction before as [|s before IH]; intros answers after sent H; cbn [broadcast] in H.
  { injection H as <- <-. repeat split; constructor. }
  destruct answers as [|a answers]; [done|]. unfold occupied. cbn [List.filter].
  assert (forall x, no_failure (x :: answers) -> no_failure answers) as Htail.
  { intros x Hx y Hy. apply Hx. by right. }
  destruct (sock s <? 0) eqn:E; cbn [negb].
  - apply bind_Some in H as ([rest sent'] & Hr & H). injection H as <- <-.
    destruct (IH _ _ _ Hr) as (Hf & Hp & Hs & Hg). split; [done|]. split; [done|]. split; [by constructor; [left|]|].
    intros Ha. destruct Hg as [-> Hg]; [by eapply Htail|]. split; [done|]. intros Hb. apply Hg.
    intros x Hx. apply Hb. by right.
  - apply Z.ltb_ge in E. apply bind_Some in H as ([bytes keep] & Hl & H).
    apply bind_Some in H as ([rest sent'] & Hr & H). injection H as <- <-.
    destruct (IH _ _ _ Hr) as (Hf & Hp & Hs & Hg). destruct (send_loop_spec _ _ _ _ Hl) as (Hpre & Hfail & Hk).
    cbn [map fst]. split; [by rewrite Hf|]. split; [by constructor|]. split.
    { constructor; [|done]. destruct keep; [by left|by right]. }
    intros Ha. assert (keep = true) as ->.
    { destruct keep; [done|]. specialize (Hfail eq_refl). apply existsb_exists in Hfail as (x & Hx & Hxf).
      pose proof (Ha a ltac:(left)) as Hall. rewrite forallb_forall in Hall. specialize (Hall x Hx).
      by rewrite Hxf in Hall. }
    destruct Hg as [-> Hg]; [by eapply Htail|]. split; [done|]. intros Hb. constructor.
    + destruct (Hk eq_refl) as [?|Hw]; [done|]. by destruct (Hb a ltac:(left)).
    + apply Hg. intros x Hx. apply Hb. by right.
Qed.

Lemma elem_of_occupied before c : c ∈ occupied before <-> exists i sl, before !! i = Some sl /\ sock sl = c /\ 0 <= c.
Proof.
  unfold occupied. rewrite list_elem_of_In, in_map_iff. split.
  - intros (sl & <- & Hin). apply filter_In in Hin as [Hin Hs]. apply list_elem_of_In, list_elem_of_lookup in Hin as [i Hi].
    exists i, sl. split; [done|]. split; [done|]. apply negb_true_iff, Z.ltb_ge in Hs. done.
  - intros (i & sl & Hi & <- & Hc). exists sl. split; [done|]. apply filter_In. split.
    + apply list_elem_of_In. by eapply list_elem_of_lookup_2.
    + by apply negb_true_iff, Z.ltb_ge.
Qed.

(** ** Lemmas: the slots *)

Lemma ensure_Some b u : ensure b = Some u -> b = true.
Proof. by destruct b. Qed.

Lemma free_slot_spec before i : free_slot before = Some i ->
  exists s, before !! i = Some s /\ sock s < 0.
Proof.
  revert i. induction before as [|s before IH]; intros i H; [done|]. cbn [free_slot] in H.
  destruct (sock s <? 0) eqn:E; [injection H as <-; exists s; split; [done|by apply Z.ltb_lt]|].
  apply fmap_Some in H as (j & Hj & ->). by apply IH.
Qed.

Lemma initial_slots : slots_inv initial /\ all_served initial.
Proof.
  split; [|intros i c Hi; by apply not_elem_of_nil in Hi]. split; cbn [initial slots threads sockets main g_stop shut]; try done.
  - intros i sl H. by apply lookup_replicate in H as [-> _].
  - intros i sl H. apply lookup_replicate in H as [-> _]. cbn. lia.
  - intros i c Hi. by apply not_elem_of_nil in Hi.
  - intros i j c Hi. by apply not_elem_of_nil in Hi.
Qed.

(** A step that only moves [main]. *)
Lemma move_main s pc : slots_inv s -> match pc with Joining i => (i < MAX_CLIENTS)%nat | _ => True end ->
  (g_stop s = false -> pc = Serving) ->
  slots_inv (MkServer (slots s) (threads s) (sockets s) (shut s) (g_stop s) pc).
Proof. intros [] Hpc Hg. split; try done. cbn. intros Hs. split; [auto|]. by destruct si_running0. Qed.

Lemma next_accept_spec s : match next_accept s with Joining i => (i < MAX_CLIENTS)%nat | _ => True end /\
  (g_stop s = false -> next_accept s = Serving).
Proof. unfold next_accept. destruct (g_stop s); split; try done. unfold MAX_CLIENTS. lia. Qed.

Lemma accept_slots csock ok s s' : slots_inv s -> exec s (Accepts csock ok) = Some s' ->
  slots_inv s' /\ (all_served s -> all_served s').
Proof.
  intros Hi H. cbn [exec] in H. destruct (main s) eqn:Em; try done.
  apply bind_Some in H as ([] & Hg & [= <-]). apply ensure_Some, bool_decide_eq_true in Hg as [Hc Hfr].
  destruct (next_accept_spec s) as [Hn1 Hn2].
  unfold accept_client. destruct (free_slot (slots s)) as [i|] eqn:Ef; [|by split; [apply move_main|]].
  destruct ok; [|by split; [apply move_main|]].
  destruct (free_slot_spec _ _ Ef) as (s0 & Hs0 & Hneg). destruct Hi.
  assert (i < length (slots s))%nat as Hil by (by eapply lookup_lt_Some).
  split; [split; cbn [slots threads sockets main g_stop shut]|].
  - by rewrite length_insert.
  - intros j sl Hj. apply list_lookup_insert_Some in Hj as [(-> & <- & _)|[_ Hj]]; [done|eauto].
  - intros j sl Hj Hp. apply elem_of_app. apply list_lookup_insert_Some in Hj as [(-> & <- & _)|[_ Hj]].
    + right. cbn. by left.
    + left. eauto.
  - intros j c Hj. apply elem_of_app in Hj as [Hj|Hj].
    + destruct (si_open0 j c Hj) as (? & ? & ?). split; [by right|done].
    + apply list_elem_of_singleton in Hj as [= -> ->]. split; [by left|]. split; [done|lia].
  - intros j k c Hj Hk. apply elem_of_app in Hj as [Hj|Hj], Hk as [Hk|Hk].
    + eauto.
    + apply list_elem_of_singleton in Hk as [= -> ->]. by destruct (si_open0 j csock Hj).
    + apply list_elem_of_singleton in Hj as [= -> ->]. by destruct (si_open0 k csock Hk).
    + apply list_elem_of_singleton in Hj as [= -> ->], Hk as [= ->]. done.
  - done.
  - intros Hs. split; [auto|]. by destruct si_running0.
  - intros Hall j c Hj. cbn [slots threads] in *. apply elem_of_app in Hj as [Hj|Hj].
    + destruct (Hall j c Hj) as [t Ht]. exists t. rewrite list_lookup_insert_ne; [done|]. intros <-.
      rewrite Ht in Hs0. injection Hs0 as <-. cbn in Hneg. destruct (si_open0 i c Hj) as (_ & ? & _). lia.
    + apply list_elem_of_singleton in Hj as [= -> ->]. eexists. by apply list_lookup_insert_eq.
Qed.

Lemma broadcast_slots data answers s s' : slots_inv s -> exec s (Broadcasts data answers) = Some s' ->
  slots_inv s' /\ (no_failure answers -> all_served s -> all_served s').
Proof.
  intros Hi H. cbn [exec] in H. apply bind_Some in H as ([after sent] & Hb & H). injection H as <-.
  destruct (broadcast_spec _ _ _ _ _ Hb) as (_ & _ & Hs & Hg). destruct Hi.
  split; [split; cbn [slots threads sockets main g_stop shut]; try done|].
  - by rewrite <- (Forall2_length _ _ _ Hs).
  - intros i sl Hl. destruct (Forall2_lookup_r _ _ _ _ _ Hs Hl) as (sl0 & Hl0 & [-> | [-> _]]); [eauto|done].
  - intros i sl Hl Hp. destruct (Forall2_lookup_r _ _ _ _ _ Hs Hl) as (sl0 & Hl0 & [-> | [-> _]]); [eauto|]. cbn in Hp. lia.
  - intros Hgen Hall i c Hic. destruct (Hg Hgen) as [-> _]. by apply Hall.
Qed.

Lemma lookup_cleared (before : list slot) i j sl : alter clear_slot i before !! j = Some sl ->
  (exists sl0, sl = clear_slot sl0) \/ (i <> j /\ before !! j = Some sl).
Proof.
  rewrite list_lookup_alter. destruct (decide (i = j)) as [<-|Hne]; [|auto].
  intros (sl0 & _ & ->)%fmap_Some. eauto.
Qed.

Lemma command_end_slots i csock s s' : slots_inv s -> exec s (CommandEnds i csock) = Some s' ->
  slots_inv s' /\ (all_served s -> all_served s').
Proof.
  intros Hi H. cbn [exec] in H. apply bind_Some in H as ([] & Hg & [= <-]).
  apply ensure_Some, bool_decide_eq_true in Hg as Hin.
  destruct Hi. split; [split; cbn [command_end slots threads sockets main g_stop shut]|].
  - by rewrite length_alter.
  - intros j sl Hj. apply lookup_cleared in Hj as [[sl0 ->]|[_ Hj]]; [done|eauto].
  - intros j sl Hj Hp. apply lookup_cleared in Hj as [[sl0 ->]|[Hne Hj]]; [cbn in Hp; lia|].
    apply list_elem_of_filter. split; [congruence|eauto].
  - intros j c Hj. apply list_elem_of_filter in Hj as [Hne Hj]. destruct (si_open0 j c Hj) as (? & ? & ?).
    split; [|done]. apply list_elem_of_filter. split; [|done]. intros ->. apply Hne. f_equal. eauto.
  - intros j k c Hj Hk. apply list_elem_of_filter in Hj as [_ Hj], Hk as [_ Hk]. eauto.
  - done.
  - intros Hs. destruct (si_running0 Hs) as [? ->]. done.
  - intros Hall j c Hj. cbn [command_end slots threads] in *. apply list_elem_of_filter in Hj as [Hne Hj].
    destruct (Hall _ _ Hj) as [t Ht]. exists t.
    rewrite list_lookup_alter_ne; [done|]. intros <-. destruct (Hall _ _ Hin) as [t' Ht']. congruence.
Qed.

Lemma signal_slots s : slots_inv s -> slots_inv (on_signal s) /\ (all_served s -> all_served (on_signal s)).
Proof. intros []. by split. Qed.

Lemma join_slots i s s' : slots_inv s -> main s = Joining i -> join_slot i s = Some s' ->
  slots_inv s' /\ (all_served s -> all_served s').
Proof.
  intros Hi Hm H. unfold join_slot in H. apply bind_Some in H as (sl & Hsl & H). apply bind_Some in H as ([] & _ & [= <-]).
  destruct Hi. split; [split; cbn [slots threads sockets main g_stop shut]; try done|].
  - by rewrite length_insert.
  - intros j sl' Hj. apply list_lookup_insert_Some in Hj as [(-> & <- & _)|[_ Hj]]; [|eauto]. cbn. eauto.
  - intros j sl' Hj Hp. apply list_lookup_insert_Some in Hj as [(-> & <- & _)|[_ Hj]]; [|eauto]. cbn in *. eauto.
  - case_decide; [done|done].
  - intros Hs. destruct (si_running0 Hs). congruence.
  - intros Hall j c Hj. cbn [slots threads] in *. destruct (Hall j c Hj) as [t Ht]. destruct (decide (i = j)) as [<-|Hne].
    + rewrite Ht in Hsl. injection Hsl as <-. eexists. apply list_lookup_insert_eq. by eapply lookup_lt_Some.
    + exists t. by rewrite list_lookup_insert_ne.
Qed.

Lemma step_slots s e s' : slots_inv s -> step s e s' -> slots_inv s' /\ (gentle e -> all_served s -> all_served s').
Proof.
  intros Hi Hs. destruct e as [csock ok|errno|data answers|i csock| |].
  - destruct (accept_slots _ _ _ _ Hi Hs). auto.
  - unfold step in Hs. cbn [exec] in Hs. destruct (main s); try done. apply bind_Some in Hs as ([] & Hg & [= <-]).
    apply ensure_Some in Hg. split; [|done]. unfold accept_failed. destruct (next_accept_spec s) as [Hn1 Hn2].
    destruct (g_stop s) eqn:Eg; cbn [orb] in *.
    + rewrite <- Eg. apply move_main; [done|unfold MAX_CLIENTS; lia|congruence].
    + apply negb_true_iff in Hg as ->. rewrite <- Eg. by apply move_main; [..|auto].
  - by eapply broadcast_slots.
  - destruct (command_end_slots _ _ _ _ Hi Hs). auto.
  - injection Hs as <-. destruct (signal_slots s Hi). auto.
  - unfold step in Hs. cbn [exec] in Hs. destruct (main s) eqn:Em; try done. destruct (join_slots _ _ _ Hi Em Hs). auto.
Qed.

Lemma reachable_slots tr s : run step initial tr s -> slots_inv s.
Proof.
  intros H. eapply run_invariant; [|exact H|apply initial_slots]. intros s0 e s1 Hi Hs. by eapply step_slots.
Qed.

Lemma reachable_served tr s : run gentle_step initial tr s -> slots_inv s /\ all_served s.
Proof.
  intros H. eapply (run_invariant gentle_step (fun s => slots_inv s /\ all_served s)); [|exact H|apply initial_slots].
  intros s0 e s1 [Hi Hall] [Hs Hg]. destruct (step_slots _ _ _ Hi Hs) as [? Hx]. auto.
Qed.

(** ** Lemmas: the shutdown *)

Lemma forced_slots s e s' : slots_inv s -> forced_step s e s' -> slots_inv s'.
Proof. intros Hi [Hs _]. by eapply step_slots. Qed.

Lemma signal_shuts s : slots_inv s -> all_served s -> all_shut (on_signal s).
Proof.
  intros Hi Hall. split; [done|]. intros i c Hic. cbn [on_signal shut threads] in *. apply elem_of_app. right.
  destruct (Hall i c Hic) as [t Ht]. destruct (si_open s Hi i c Hic) as (_ & Hc & _).
  apply list_elem_of_In, filter_In. split; [|by apply negb_true_iff, Z.ltb_ge].
  apply in_map_iff. exists (MkSlot c c t). split; [done|]. apply list_elem_of_In. by eapply list_elem_of_lookup_2.
Qed.

Lemma length_filter_member {A} (P : A -> Prop) `{forall x, Decision (P x)} (l : list A) x :
  x ∈ l -> ~ P x -> (length (filter P l) < length l)%nat.
Proof.
  intros Hx HP. induction Hx as [x l|x y l Hx IH]; rewrite filter_cons.
  - rewrite decide_False by done. cbn. apply Nat.lt_succ_r, length_filter.
  - specialize (IH HP). destruct (decide (P y)); cbn; lia.
Qed.

(** A forced step is progress, and keeps the sockets shut down. *)
Lemma forced_progress s e s' : slots_inv s -> all_shut s -> forced_step s e s' ->
  all_shut s' /\ (length (threads s') + joins_left (main s') < length (threads s) + joins_left (main s))%nat.
Proof.
  intros Hi [Hg Hsh] [Hs Hf]. unfold step in Hs. destruct e as [csock ok|errno|data answers|i csock| |]; try done; cbn [exec] in Hs.
  - destruct (main s) eqn:Em; try done. apply bind_Some in Hs as ([] & _ & [= <-]). split; [by split|]. cbn. unfold accept_failed. rewrite Hg. cbn. unfold MAX_CLIENTS. lia.
  - apply bind_Some in Hs as ([] & Hin & [= <-]). apply ensure_Some, bool_decide_eq_true in Hin. split.
    + split; [done|]. intros j c Hj. cbn [command_end threads shut] in *. apply list_elem_of_filter in Hj as [Hne Hj].
      apply list_elem_of_filter. split; [|eauto]. intros ->. apply Hne. f_equal. by eapply (si_unique s Hi).
    + cbn [command_end threads main]. pose proof (length_filter_member (fun t => t <> (i, csock)) _ _ Hin (fun H => H eq_refl)). lia.
  - destruct (main s) as [|i|] eqn:Em; try done. unfold join_slot in Hs.
    apply bind_Some in Hs as (sl & _ & Hs). apply bind_Some in Hs as ([] & _ & [= <-]). split; [by split|].
    pose proof (si_main s Hi) as Hm. rewrite Em in Hm. cbn [threads main]. unfold MAX_CLIENTS in *. case_decide; cbn; lia.
Qed.

(** Unless everything is over, there is a forced step. *)
Lemma forced_available s : slots_inv s -> all_shut s -> (main s = Done /\ threads s = []) \/ exists e s', forced_step s e s'.
Proof.
  intros Hi [Hg Hsh]. destruct (threads s) as [|[i c] rest] eqn:Et.
  - destruct (main s) as [|i|] eqn:Em; [| |by left]; right.
    + exists (AcceptFails EBADF). eexists. split; [|done]. unfold step. cbn [exec]. rewrite Em, Hg. reflexivity.
    + pose proof (si_main s Hi) as Hm. rewrite Em in Hm. rewrite <- (si_length s Hi) in Hm.
      apply lookup_lt_is_Some_2 in Hm as [sl Hsl]. exists Join. eexists. split; [|done]. unfold step. cbn [exec].
      rewrite Em. unfold join_slot. rewrite Hsl. cbn [mbind option_bind]. rewrite Et.
      assert ((match tid sl with Some c => bool_decide ((i, c) ∉ []) | None => true end) = true) as ->; [|done].
      destruct (tid sl); [|done]. apply bool_decide_eq_true, not_elem_of_nil.
  - right. assert ((i, c) ∈ threads s) as Hin by (rewrite Et; left).
    exists (CommandEnds i c). eexists. split; [|apply (Hsh i); left]. unfold step. cbn [exec].
    rewrite bool_decide_eq_true_2 by done. reflexivity.
Qed.

Lemma forced_run tr : forall s s', slots_inv s -> all_shut s -> run forced_step s tr s' ->
  slots_inv s' /\ all_shut s' /\
  (length tr + (length (threads s') + joins_left (main s')) <= length (threads s) + joins_left (main s))%nat.
Proof.
  intros s s' Hi Hsh H. induction H as [|s1 ls s2 l s3 H1 IH H2]; [split; [done|]; split; [done|cbn; lia]|].
  destruct (IH Hi Hsh) as (Hi2 & Hsh2 & Hl). destruct (forced_progress _ _ _ Hi2 Hsh2 H2) as [Hsh3 Hl3].
  split; [by eapply forced_slots|]. split; [done|]. rewrite length_app. cbn. lia.
Qed.

Lemma stuck_forced i c s e s' : stuck i c s -> forced_step s e s' -> stuck i c s'.
Proof.
  intros (Hi & Hin & Hsh & (sl & Hsl & Ht) & Hm) Hfs. pose proof (forced_slots _ _ _ Hi Hfs) as Hi'.
  destruct Hfs as [Hs Hf]. split; [done|]. clear Hi'. unfold step in Hs.
  destruct e as [csock ok|errno|data answers|j csock| |]; try done; cbn [exec] in Hs.
  - destruct (main s) eqn:Em; try done. apply bind_Some in Hs as ([] & _ & [= <-]).
    split; [done|]. split; [done|]. split; [by exists sl|]. cbn. unfold accept_failed, next_accept. repeat case_match; simplify_eq; done || lia.
  - apply bind_Some in Hs as ([] & Hj & [= <-]). cbn [forced] in Hf. assert (c <> csock) as Hne by (by intros <-).
    cbn [command_end slots threads shut main]. split; [|split; [|split; [|done]]].
    + apply list_elem_of_filter. split; [congruence|done].
    + intros Hc. by apply list_elem_of_filter in Hc as [_ Hc].
    + rewrite list_lookup_alter. destruct (decide (j = i)) as [->|]; rewrite Hsl; [by exists (clear_slot sl)|by exists sl].
  - destruct (main s) as [|j|] eqn:Em; try done. unfold join_slot in Hs.
    apply bind_Some in Hs as (slj & Hslj & Hs). apply bind_Some in Hs as ([] & He & [= <-]). apply ensure_Some in He.
    assert (j <> i) as Hne.
    { intros ->. rewrite Hsl in Hslj. injection Hslj as <-. rewrite Ht in He. by apply bool_decide_eq_true in He. }
    cbn [slots threads shut main]. split; [done|]. split; [done|]. split.
    + exists sl. by rewrite list_lookup_insert_ne.
    + destruct (si_open s Hi i c Hin) as (_ & _ & Hb). rewrite decide_True by lia. lia.
Qed.

(** A client that has a thread but no slot is never served again. *)
Lemma unserved_step i c s e s' : slots_inv s -> step s e s' -> e <> CommandEnds i c ->
  (i, c) ∈ threads s -> c ∉ occupied (slots s) -> (i, c) ∈ threads s' /\ c ∉ occupied (slots s').
Proof.
  intros Hi Hs Hne Hin Ho. destruct (si_open s Hi i c Hin) as (Hopen & Hc & _).
  assert (forall j sl, slots s !! j = Some sl -> sock sl <> c) as Hno.
  { intros j sl Hj <-. apply Ho, elem_of_occupied. eauto. }
  assert (forall after, (forall j sl, after !! j = Some sl -> sock sl <> c) -> c ∉ occupied after) as Hyes.
  { intros after Ha Hx. apply elem_of_occupied in Hx as (j & sl & Hj & Hx & _). by eapply Ha. }
  unfold step in Hs. destruct e as [csock ok|errno|data answers|j csock| |]; cbn [exec] in Hs.
  - destruct (main s) eqn:Em; try done. apply bind_Some in Hs as ([] & Hg & [= <-]).
    apply ensure_Some, bool_decide_eq_true in Hg as [_ Hfr]. unfold accept_client.
    destruct (free_slot (slots s)) as [k|]; [|done]. destruct ok; [|done]. cbn [slots threads]. split; [apply elem_of_app; by left|].
    apply Hyes. intros k' sl Hk. apply list_lookup_insert_Some in Hk as [(-> & <- & _)|[_ Hk]]; [|eauto]. cbn. by intros ->.
  - destruct (main s) eqn:Em; try done. apply bind_Some in Hs as ([] & _ & [= <-]). done.
  - apply bind_Some in Hs as ([after sent] & Hb & [= <-]). cbn [slots threads]. split; [done|]. apply Hyes.
    destruct (broadcast_spec _ _ _ _ _ Hb) as (_ & _ & H2 & _).
    intros k sl Hk. destruct (Forall2_lookup_r _ _ _ _ _ H2 Hk) as (sl0 & Hl0 & [-> | [-> _]]); [eauto|]. cbn. lia.
  - apply bind_Some in Hs as ([] & _ & [= <-]). cbn [command_end slots threads]. split.
    + apply list_elem_of_filter. split; [congruence|done].
    + apply Hyes. intros k sl Hk. apply lookup_cleared in Hk as [[sl0 ->]|[_ Hk]]; [cbn; lia|eauto].
  - by injection Hs as <-.
  - destruct (main s) as [|j|]; try done. unfold join_slot in Hs.
    apply bind_Some in Hs as (slj & Hslj & Hs). apply bind_Some in Hs as ([] & _ & [= <-]). cbn [slots threads]. split; [done|].
    apply Hyes. intros k sl Hk. apply list_lookup_insert_Some in Hk as [(-> & <- & _)|[_ Hk]]; [|eauto]. cbn. eauto.
Qed.

Lemma occupied_threads s : slots_inv s -> all_served s -> forall c, c ∈ occupied (slots s) <-> exists i, (i, c) ∈ threads s.
Proof.
  intros Hi Hall c. rewrite elem_of_occupied. split.
  - intros (i & sl & Hsl & <- & Hc). exists i. by eapply si_thread.
  - intros [i Hic]. destruct (Hall i c Hic) as [t Ht]. exists i, (MkSlot c c t). split; [done|]. split; [done|].
    by destruct (si_open s Hi i c Hic) as (_ & ? & _).
Qed.

(** Every open connection has its command thread. *)
Definition sockets_owned (s : server) : Prop := forall c, c ∈ sockets s -> exists i, (i, c) ∈ threads s.

Lemma step_sockets s e s' : step s e s' -> sockets_owned s -> sockets_owned s'.
Proof.
  intros Hs Ho. unfold step in Hs. destruct e as [csock ok|errno|data answers|i csock| |]; cbn [exec] in Hs.
  - destruct (main s); try done. apply bind_Some in Hs as ([] & _ & [= <-]). unfold accept_client.
    destruct (free_slot (slots s)) as [k|]; [|done]. destruct ok; [|done]. intros c Hc. cbn [sockets threads] in *.
    apply elem_of_cons in Hc as [-> |Hc]; [exists k; apply elem_of_app; right; left|].
    destruct (Ho c Hc) as [j Hj]. exists j. apply elem_of_app. by left.
  - destruct (main s); try done. by apply bind_Some in Hs as ([] & _ & [= <-]).
  - by apply bind_Some in Hs as ([after sent] & _ & [= <-]).
  - apply bind_Some in Hs as ([] & _ & [= <-]). intros c Hc. cbn [command_end sockets threads] in *.
    apply list_elem_of_filter in Hc as [Hne Hc]. destruct (Ho c Hc) as [j Hj]. exists j. apply list_elem_of_filter.
    split; [congruence|done].
  - by injection Hs as <-.
  - destruct (main s) as [|j|]; try done. unfold join_slot in Hs.
    apply bind_Some in Hs as (sl & _ & Hs). by apply bind_Some in Hs as ([] & _ & [= <-]).
Qed.

(** The end of the shutdown: the server whose sends all succeeded is through with
    every client. *)
Lemma shutdown_ends before clients after last :
  run step initial before clients -> run forced_step (on_signal clients) after last ->
  (forall e s, ~ forced_step last e s) -> Forall gentle before ->
  main last = Done /\ threads last = [] /\ sockets last = [].
Proof.
  intros Hb Ha Hmax Hg.
  assert (run gentle_step initial before clients) as Hbg.
  { clear Ha Hmax. induction Hb as [|s0 ls s1 l s2 Hb IH Hs]; [constructor|].
    apply Forall_app in Hg as [Hg Hl]. apply (proj1 (Forall_singleton _ _)) in Hl. eapply run_snoc; [by apply IH|by split]. }
  destruct (reachable_served _ _ Hbg) as [Hi Hall]. destruct (signal_slots clients Hi) as [Hi1 _].
  destruct (forced_run _ _ _ Hi1 (signal_shuts clients Hi Hall) Ha) as (Hi2 & Hsh & _).
  destruct (forced_available last Hi2 Hsh) as [[Hm Ht]|(e & s'' & He)]; [|by destruct (Hmax e s'')].
  split; [done|]. split; [done|].
  assert (sockets_owned last) as Ho.
  { eapply (run_invariant forced_step sockets_owned); [|exact Ha|].
    - intros s0 e s1 H0 [Hs _]. by eapply step_sockets.
    - change (sockets_owned clients). eapply (run_invariant step sockets_owned); [|exact Hb|].
      + intros s0 e s1 H0 Hs. by eapply step_sockets.
      + intros c Hc. by apply not_elem_of_nil in Hc. }
  destruct (sockets last) as [|c l] eqn:El; [done|]. destruct (Ho c) as [j Hj]; [rewrite El; left|].
  rewrite Ht in Hj. by apply not_elem_of_nil in Hj.
Qed.

(** ** Properties *)

(** C37. While no send fails, every transfer of the receiver reaches exactly the
    clients that have a command thread: the callback is defined, it serves each of
    them, what a client gets is a prefix of the corrected and converted samples,
    and it is all of them unless a send would have blocked. *)
Theorem clients_receive_stream tr s dev avgs buf answers
    (reachable : run gentle_step initial tr s) (bounded_i : dc_bounded (fst avgs)) (bounded_q : dc_bounded (snd avgs))
    (answered : (MAX_CLIENTS <= length answers)%nat)
    (enough : Forall (fun a => length buf / 2 <= length a)%nat answers) (no_error : no_failure answers) :
  exists avg_i avg_q out sent,
    dc_correct (fst avgs) (snd avgs) (samples_of buf) = Some (avg_i, avg_q, out) /\
    msisdr_callback false dev avgs buf (slots s) answers = Some (avg_i, avg_q, slots s, sent, []) /\
    (forall c, c ∈ map fst sent <-> exists i, (i, c) ∈ threads s) /\
    (forall c bytes, (c, bytes) ∈ sent -> bytes `prefix_of` convert out) /\
    ((forall a, a ∈ answers -> WouldBlock ∉ a) -> forall c bytes, (c, bytes) ∈ sent -> bytes = convert out).
Proof.
  destruct (reachable_served _ _ reachable) as [Hi Hall]. destruct (samples_of_range buf) as [Hs Hlen].
  destruct (dc_correct_defined _ _ _ bounded_i bounded_q Hs) as (ai & aq & out & Hd & _ & _).
  destruct (dc_correct_shape _ _ _ _ _ Hs Hd) as [Hlo _].
  assert (length (convert out) <= length buf / 2)%nat as Hc.
  { unfold convert. rewrite length_map, length_take. lia. }
  destruct (broadcast_total (convert out) (slots s) answers) as [[after sent] Hb].
  { by rewrite (si_length s Hi). }
  { eapply Forall_impl; [exact enough|]. intros a Ha. cbv beta in Ha. lia. }
  destruct (broadcast_spec _ _ _ _ _ Hb) as (Hf & Hp & _ & Hg). destruct (Hg no_error) as [-> Hfull].
  exists ai, aq, out, sent. split; [done|]. split; [|split; [|split]].
  - unfold msisdr_callback. rewrite Hd. cbn [mbind option_bind]. by rewrite Hb.
  - rewrite Hf. by apply occupied_threads.
  - intros c bytes Hin. rewrite Forall_forall in Hp. by apply (Hp (c, bytes)).
  - intros Hnb c bytes Hin. specialize (Hfull Hnb). rewrite Forall_forall in Hfull. by apply (Hfull (c, bytes)).
Qed.

Lemma clients_receive_stream_witness :
  exists out sent, msisdr_callback false 7 (f_zero, f_zero) [0; 64; 0; 192]
      [MkSlot 10 10 (Some 10); MkSlot 11 11 (Some 11); empty_slot; empty_slot] (replicate 4 [Room 1; Room 1]) =
    Some (out, sent, []) /\ map fst sent = [10; 11].
Proof.
  assert (run gentle_step initial [Accepts 10 true; Accepts 11 true]
    (MkServer [MkSlot 10 10 (Some 10); MkSlot 11 11 (Some 11); empty_slot; empty_slot] [(0%nat, 10); (1%nat, 11)] [11; 10] [] false Serving)) as Hr.
  { apply (run_snoc _ _ [Accepts 10 true] (MkServer [MkSlot 10 10 (Some 10); empty_slot; empty_slot; empty_slot] [(0%nat, 10)] [10] [] false Serving)).
    - apply (run_snoc _ _ [] initial); [constructor|]. split; [by vm_compute|done].
    - split; [by vm_compute|done]. }
  destruct (clients_receive_stream _ _ 7 (f_zero, f_zero) [0; 64; 0; 192] (replicate 4 [Room 1; Room 1]) Hr)
    as (ai & aq & out & sent & _ & Hcb & _); [done|done|unfold MAX_CLIENTS; cbn; lia| | |].
  - cbn. repeat constructor.
  - intros a Ha. apply elem_of_replicate in Ha as [-> _]. done.
  - exists (ai, aq, [MkSlot 10 10 (Some 10); MkSlot 11 11 (Some 11); empty_slot; empty_slot]), sent.
    split; [exact Hcb|]. cbn [slots] in Hcb. unfold msisdr_callback in Hcb. cbn [fst snd] in Hcb.
    apply bind_Some in Hcb as ([avgs corrected] & _ & Hcb). apply bind_Some in Hcb as ([after sent'] & Hb & [= _ _ <-]).
    by destruct (broadcast_spec _ _ _ _ _ Hb) as (-> & _).
Defined.

(** A command thread empties its slot when it ends, whoever has it: when a
    client lost its slot to a failed send and another client has taken the slot
    since, the departure of the first ends the stream of the second.  From then on
    no broadcast serves the second client, although its connection stays open and
    its commands are still obeyed, until it leaves. *)
Theorem stale_thread_evicts tr s i c c' tr' s1 s2
    (reachable : run step initial tr s) (stale : (i, c) ∈ threads s) (current : (i, c') ∈ threads s) (other : c <> c')
    (served : c' ∈ occupied (slots s)) (departs : step s (CommandEnds i c) s1)
    (later : run (fun a e b => step a e b /\ e <> CommandEnds i c') s1 tr' s2) :
  (i, c') ∈ threads s2 /\ c' ∈ sockets s2 /\ c' ∉ occupied (slots s2).
Proof.
  pose proof (reachable_slots _ _ reachable) as Hi. destruct (step_slots _ _ _ Hi departs) as [Hi1 _].
  assert ((i, c') ∈ threads s1 /\ c' ∉ occupied (slots s1)) as H1.
  { unfold step in departs. cbn [exec] in departs. apply bind_Some in departs as ([] & _ & [= <-]).
    cbn [command_end slots threads]. split; [apply list_elem_of_filter; split; [congruence|done]|].
    intros Ho. apply elem_of_occupied in Ho as (j & sl & Hj & Hs & Hc). apply lookup_cleared in Hj as [[sl0 ->]|[Hne Hj]].
    - cbn in Hs. lia.
    - apply Hne. eapply (si_unique s Hi i j c'); [done|]. rewrite <- Hs. by apply (si_thread s Hi); [|rewrite Hs]. }
  assert (slots_inv s2 /\ (i, c') ∈ threads s2 /\ c' ∉ occupied (slots s2)) as (Hi2 & Hin & Ho).
  { eapply (run_invariant _ (fun s => slots_inv s /\ (i, c') ∈ threads s /\ c' ∉ occupied (slots s))); [|exact later|done].
    intros a e b (Ha & Hin & Ho) [Hs Hne]. split; [by eapply step_slots|]. by eapply unserved_step. }
  split; [done|]. split; [|done]. by destruct (si_open s2 Hi2 i c' Hin).
Qed.

Lemma evicted_reachable : run step initial [Accepts 10 true; Broadcasts [128] [[SendError]; []; []; []]] evicted.
Proof.
  apply (run_snoc _ _ [Accepts 10 true] (MkServer [MkSlot 10 10 (Some 10); empty_slot; empty_slot; empty_slot] [(0%nat, 10)] [10] [] false Serving)).
  - apply (run_snoc _ _ [] initial); [constructor|by vm_compute].
  - by vm_compute.
Qed.

Lemma stale_thread_evicts_witness :
  exists s1, step replaced (CommandEnds 0 10) s1 /\ (0%nat, 11) ∈ threads s1 /\ 11 ∉ occupied (slots s1).
Proof.
  exists (command_end 0 10 replaced). split; [by vm_compute|].
  destruct (stale_thread_evicts [Accepts 10 true; Broadcasts [128] [[SendError]; []; []; []]; Accepts 11 true] replaced 0 10 11
    [] (command_end 0 10 replaced) (command_end 0 10 replaced)) as (H1 & _ & H2); [| | | | | | |by split].
  - apply (run_snoc _ _ [Accepts 10 true; Broadcasts [128] [[SendError]; []; []; []]] evicted); [apply evicted_reachable|by vm_compute].
  - left.
  - right. left.
  - done.
  - left.
  - by vm_compute.
  - constructor.
Defined.

(** C38. When the signal comes to a server none of whose sends failed (and [main] is
    not in the middle of an accepted connection), all of it ends without any client
    leaving by itself: at most one step per client, the end of the accept loop and
    the four joins follow, they cannot stop before [main] is through, and then no
    command thread is left. *)
Theorem signal_stops_server tr s tr' s'
    (reachable : run gentle_step initial tr s) (after : run forced_step (on_signal s) tr' s') :
  (length tr' <= length (threads s) + joins_left (main s))%nat /\
  ((forall e s'', ~ forced_step s' e s'') -> main s' = Done /\ threads s' = []).
Proof.
  destruct (reachable_served _ _ reachable) as [Hi Hall]. destruct (signal_slots s Hi) as [Hi1 _].
  destruct (forced_run _ _ _ Hi1 (signal_shuts s Hi Hall) after) as (Hi2 & Hsh & Hl). cbn [on_signal threads main] in Hl.
  split; [lia|]. intros Hno. destruct (forced_available s' Hi2 Hsh) as [?|(e & s'' & He)]; [done|]. by destruct (Hno e s'').
Qed.

Lemma signal_stops_server_witness :
  exists s', run forced_step (on_signal initial) [AcceptFails EBADF; Join; Join; Join; Join] s' /\ main s' = Done /\ threads s' = [].
Proof.
  assert (forall s e s', forced s e -> exec s e = Some s' -> forced_step s e s') as Hf by (intros s e s' H1 H2; by split).
  pose (s' := MkServer (replicate 4 empty_slot) [] [] [] true Done).
  assert (run forced_step (on_signal initial) [AcceptFails EBADF; Join; Join; Join; Join] s') as Hr.
  { pose (at_ pc := MkServer (replicate 4 empty_slot) [] [] [] true pc).
    apply (run_snoc _ _ [AcceptFails EBADF; Join; Join; Join] (at_ (Joining 3))); [|by apply Hf].
    apply (run_snoc _ _ [AcceptFails EBADF; Join; Join] (at_ (Joining 2))); [|by apply Hf].
    apply (run_snoc _ _ [AcceptFails EBADF; Join] (at_ (Joining 1))); [|by apply Hf].
    apply (run_snoc _ _ [AcceptFails EBADF] (at_ (Joining 0))); [|by apply Hf].
    apply (run_snoc _ _ [] (on_signal initial)); [constructor|by apply Hf]. }
  exists s'. split; [exact Hr|].
  destruct (signal_stops_server [] initial _ s' (run_nil _ initial) Hr) as [_ H]. apply H.
  intros e s'' [Hs Hfe]. destruct e as [csock ok|errno|data answers|i c| |]; try done.
Defined.

(** A client whose send failed has lost the descriptor that the signal handler
    would shut down: while its thread is still the last of its slot, the shutdown
    never gets past the join of that thread, whatever the other threads do, until
    the client leaves by itself. *)
Theorem evicted_client_blocks_shutdown tr s i c sl tr' s'
    (reachable : run step initial tr s) (not_stopped : g_stop s = false)
    (connected : (i, c) ∈ threads s) (slot : slots s !! i = Some sl) (lost : sock sl < 0) (last : tid sl = Some c)
    (after : run forced_step (on_signal s) tr' s') :
  main s' <> Done /\ (i, c) ∈ threads s' /\ c ∉ shut s'.
Proof.
  pose proof (reachable_slots _ _ reachable) as Hi. destruct (signal_slots s Hi) as [Hi1 _].
  destruct (si_running s Hi not_stopped) as [Hm Hsh].
  assert (stuck i c (on_signal s)) as H0.
  { split; [done|]. cbn [on_signal threads shut slots main]. split; [done|]. split; [|split; [by exists sl|by rewrite Hm]].
    rewrite Hsh. cbn [app]. intros Hin. apply list_elem_of_In, filter_In in Hin as [Hin Hc].
    apply in_map_iff in Hin as (sl' & Hfd & Hin). apply list_elem_of_In, list_elem_of_lookup in Hin as [j Hj].
    rewrite (si_fd s Hi j sl' Hj) in Hfd. apply negb_true_iff, Z.ltb_ge in Hc.
    assert ((j, c) ∈ threads s) as Hjc by (rewrite <- Hfd; apply (si_thread s Hi); [done|lia]).
    pose proof (si_unique s Hi i j c connected Hjc). subst j. rewrite slot in Hj. injection Hj as <-. lia. }
  pose proof (run_invariant forced_step (stuck i c) (fun a e b => stuck_forced i c a e b) _ _ _ after H0) as (_ & Hin & Hns & _ & Hpc).
  split; [|done]. intros E. by rewrite E in Hpc.
Qed.

Lemma evicted_client_blocks_shutdown_witness :
  let s' := MkServer (slots evicted) [(0%nat, 10)] [10] [] true (Joining 0) in
  run forced_step (on_signal evicted) [AcceptFails EBADF] s' /\ exec s' Join = None /\ main s' <> Done /\ 10 ∉ shut s'.
Proof.
  cbn zeta. pose (s' := MkServer (slots evicted) [(0%nat, 10)] [10] [] true (Joining 0)).
  assert (run forced_step (on_signal evicted) [AcceptFails EBADF] s') as Hr.
  { apply (run_snoc _ _ [] (on_signal evicted)); [constructor|by split]. }
  destruct (evicted_client_blocks_shutdown [Accepts 10 true; Broadcasts [128] [[SendError]; []; []; []]] evicted 0 10
    (MkSlot (-1) (-1) (Some 10)) [AcceptFails EBADF] s') as (H1 & _ & H2); try done.
  - apply evicted_reachable.
  - left.
Defined.

End RtlTcpServer.
