(* ===== verification/RtlTcpMain.v ===== *)
(** * main of the rtl_tcp server, its device and its USB thread:
    src/rtltcp_server.c

    The options, the listening socket, the address that is shown, the device with
    its attempts and its configuration, the USB thread that streams and reopens,
    and the end.  The accept loop, the command threads and their joins are the
    machine of RtlTcpServer.v: [main] is given the state in which they come to rest
    after the signal.  [log_init] and [log_close] are in Logger.v.

    The signal comes after some number of calls, [stopped_after].  What the
    handler does to the listening socket and the device is recorded where the
    code next depends on it: at the failure of the first opening, or after the
    USB thread. *)
From Stdlib Require Import Ascii.
From S2P Require Import Prelude Io Lib Driver Startup RtlTcp RtlTcpServer.
Import Io Lib Driver RtlTcp.
#[local] Open Scope Z_scope.
#[local] Open Scope io_scope.

Module RtlTcpMain.

Definition DEFAULT_PORT : Z := 1234.
Definition DEFAULT_DEVICE_INDEX : Z := 0.
Definition DEFAULT_GAIN : Z := 40.
Definition DEFAULT_SAMPLE_RATE : Z := 2400000.
Definition DEFAULT_CENTER_FREQ : Z := 100000000.
Definition SEND_BUF_SAMPLES : Z := 16384.

(** ** Options *)

(** The initial state, before the options. *)
Definition default_state : device_state :=
  MkDeviceState 0 DEFAULT_CENTER_FREQ DEFAULT_SAMPLE_RATE 1 DEFAULT_GAIN.

(** One turn of the [getopt] loop: the port, the index of the device, the state;
    [value] is [atoi(optarg)].  [None] is the usage message. *)
Definition main_option (acc : Z * Z * device_state) (opt : ascii) (value : Z) : option (Z * Z * device_state) :=
  let '(port, dev_idx, s) := acc in
  match opt with
  | "p"%char => Some (value, dev_idx, s)
  | "d"%char => Some (port, value, s)
  | "g"%char => Some (port, dev_idx, MkDeviceState (dev s) (center_freq s) (sample_rate s) (gain_mode s) value)
  | "r"%char => Some (port, dev_idx, MkDeviceState (dev s) (center_freq s) (wrap 32 value) (gain_mode s) (gain s))
  | "f"%char => Some (port, dev_idx, MkDeviceState (dev s) (wrap 32 value) (sample_rate s) (gain_mode s) (gain s))
  | "l"%char => Some acc
  | _ => None
  end.

Fixpoint main_options (acc : Z * Z * device_state) (options : list (ascii * Z)) : option (Z * Z * device_state) :=
  match options with
  | [] => Some acc
  | (opt, value) :: options' => acc' ← main_option acc opt value; main_options acc' options'
  end.

Definition parse_options : list (ascii * Z) -> option (Z * Z * device_state) :=
  main_options (DEFAULT_PORT, DEFAULT_DEVICE_INDEX, default_state).

(** ** The address that is shown *)

Definition NEWLINE : Z := 10.

(** "(run 'ifconfig' to find your IP)" *)
Definition no_address : list Z :=
  [40; 114; 117; 110; 32; 39; 105; 102; 99; 111; 110; 102; 105; 103; 39; 32;
   116; 111; 32; 102; 105; 110; 100; 32; 121; 111; 117; 114; 32; 73; 80; 41].

(** A line of text, with its newline. *)
Fixpoint first_line (text : list Z) : list Z :=
  match text with
  | [] => []
  | c :: text' => c :: (if c =? NEWLINE then [] else first_line text')
  end.

(** [fgets]: at most [size - 1] bytes of a line, and a 0; nothing at the end of
    the file. *)
Definition fgets (buf : list Z) (size : nat) (text : list Z) : option (list Z) :=
  match take (size - 1) (first_line text) with
  | [] => Some buf
  | line => write_at buf 0 (line ++ [0])
  end.

(** [strcspn(s, "\n")] *)
Fixpoint strcspn_newline (s : list Z) : option nat :=
  match s with
  | [] => UB
  | c :: s' => if (c =? NEWLINE) || (c =? 0) then Some O else S <$> strcspn_newline s'
  end.

(** [local_ip], when the search printed [output], or could not be started. *)
Definition local_ip (output : option (list Z)) : option (list Z) :=
  let buf := replicate 64 0 in
  buf ← match output with
        | Some text => buf ← fgets buf 64 text; n ← strcspn_newline buf; write_at buf n [0]
        | None => Some buf
        end;
  if nth 0 buf 0 =? 0 then write_at buf 0 (no_address ++ [0]) else Some buf.

(** ** The device *)

(** Reading a volatile variable: its value depends on what happened so far. *)
Definition peek {A} (var : record (C := lib_call) -> A) : io A := fun _ tr => Some (var tr, tr).

Section device.
(** The variables that other threads and the signal handler change: [g_stop] and
    the settings in [g_dev] (the pointer in it is only set by the code below). *)
Context (g_stop : record (C := lib_call) -> bool) (g_dev : record (C := lib_call) -> device_state).

(** The loop of [device_open_and_configure] from an attempt on: [g_dev.dev]. *)
Fixpoint open_attempts (attempts : nat) (dev_idx dev : Z) : io Z :=
  match attempts with
  | O => io_ret dev
  | S attempts' =>
      stop <- peek g_stop;
      if stop : bool then io_ret dev
      else
        opened <- call (msisdr_open (wrap 32 dev_idx));
        if fst opened =? 0 then io_ret (match snd opened with h :: _ => h | [] => dev end)
        else call (sleep 1);; open_attempts attempts' dev_idx 0
  end.

(** The code and [g_dev.dev]. *)
Definition device_open_and_configure (dev_idx dev : Z) : io (Z * Z) :=
  h <- open_attempts 5 dev_idx dev;
  if h =? 0 then io_ret (-1, h)
  else
    call (msisdr_rsp1a_gpio_init h);;
    call (msisdr_set_hw_flavour h 0);;
    call (msisdr_set_sample_format h "AUTO");;
    call (msisdr_set_if_freq h 0);;
    call (msisdr_set_bandwidth h 8000000);;
    s <- peek g_dev;
    call (msisdr_set_sample_rate h (sample_rate s));;
    s <- peek g_dev;
    call (msisdr_set_center_freq h (center_freq s));;
    s <- peek g_dev;
    call (msisdr_set_tuner_gain_mode h (gain_mode s));;
    s <- peek g_dev;
    call (msisdr_set_tuner_gain h (gain s));;
    call (msisdr_reset_buffer h);;
    io_ret (0, h).

(** The loop that reopens the device, [attempts] turns before its end. *)
Fixpoint reopen (attempts : nat) (wait dev_idx dev : Z) : io Z :=
  match attempts with
  | O => io_ret dev
  | S attempts' =>
      stop <- peek g_stop;
      if stop : bool then io_ret dev
      else
        call (sleep wait);;
        r <- device_open_and_configure dev_idx dev;
        if fst r =? 0 then io_ret (snd r)
        else call (msisdr_close (snd r));; reopen attempts' (wait + 1) dev_idx 0
  end.

(** [usb_stream_thread]: [g_dev.dev] at the end, or nothing when the thread is
    still streaming after [fuel] turns. *)
Fixpoint usb_stream_thread (fuel : nat) (dev_idx dev : Z) : io (option Z) :=
  match fuel with
  | O => io_ret None
  | S fuel' =>
      stop <- peek g_stop;
      if stop : bool then io_ret (Some dev)
      else
        call (msisdr_read_async dev 1 (SEND_BUF_SAMPLES * 2));;
        stop <- peek g_stop;
        if stop : bool then io_ret (Some dev)
        else
          call (msisdr_close dev);;
          dev' <- reopen 10 1 dev_idx 0;
          usb_stream_thread fuel' dev_idx dev'
  end.
End device.

(** ** main *)

(** Where [main] returned. *)
Inductive outcome :=
| Usage
| NoSocket
| NotListening (lsock : Z)
(* the device was not found; whether the signal had come when the handler was
   given the socket, and when the device was given up *)
| NoDevice (before after : bool)
| Served
(* the USB thread cannot be started: a null pointer is written, or a thread that
   never was will be joined *)
| Undefined
(* [main] waits for a command thread that does not end *)
| Blocked (dev : Z)
(* still serving after [fuel] turns of the USB thread *)
| Serving.

Definition exit_code (o : outcome) : option Z :=
  match o with Served => Some 0 | Undefined | Blocked _ | Serving => None | _ => Some 1 end.

(** The part of [on_signal] that is not in RtlTcpServer.v: [dev] is [g_dev.dev]
    and [lsock] is [g_lsock_for_signal]. *)
Definition signal_handler (dev lsock : Z) : io (C := lib_call) unit :=
  (if dev =? 0 then io_ret tt else call (msisdr_cancel_async dev);; io_ret tt);;
  if lsock <? 0 then io_ret tt else call (close lsock);; io_ret tt.

(** The listening socket; [reuseport] says whether the system has [SO_REUSEPORT]. *)
Definition listening_socket (reuseport : bool) (port : Z) : io (C := lib_call) (outcome + Z) :=
  a <- call socket;
  let lsock := match a with (0, h :: _) => h | _ => -1 end in
  if lsock <? 0 then io_ret (inl NoSocket)
  else
    call (setsockopt lsock Startup.SO_REUSEADDR);;
    (if reuseport then call (setsockopt lsock Startup.SO_REUSEPORT);; io_ret tt else io_ret tt);;
    code <- code_of (bind lsock (wrap 16 port));
    if code <? 0 then io_ret (inl (NotListening lsock))
    else
      code <- code_of (listen lsock (Z.of_nat RtlTcpServer.MAX_CLIENTS));
      if code <? 0 then io_ret (inl (NotListening lsock)) else io_ret (inr lsock).

Section main.
(** The signal comes after [signal] calls; [g_dev] gives the settings, which
    start as the options say; [output] is what the search for the address prints. *)
Context (signal : nat) (g_dev : device_state -> record (C := lib_call) -> device_state) (reuseport : bool)
  (output : option (list Z)).
(** Where the accept loop and the joins of the command threads come to rest. *)
Context (clients : RtlTcpServer.server).

Definition stopped_after (tr : record (C := lib_call)) : bool := (signal <=? length tr)%nat.

(** [main] from the creation of the USB thread on. *)
Definition serve (fuel : nat) (dev_idx lsock dev : Z) (s : device_state) : io outcome :=
  a <- call (malloc 4);
  match a with
  | (0, [dev_idx_arg]) =>
      t <- call pthread_create;
      match t with
      | (0, [usb_tid]) =>
          call (free dev_idx_arg);;
          d <- usb_stream_thread stopped_after (g_dev s) fuel dev_idx dev;
          match d with
          | None => io_ret Serving
          | Some dev =>
              signal_handler dev lsock;;
              call (pthread_join usb_tid);;
              match RtlTcpServer.main clients with
              | RtlTcpServer.Done => call (msisdr_close dev);; io_ret Served
              | _ => io_ret (Blocked dev)
              end
          end
      | _ => io_ret Undefined
      end
  | _ => io_ret Undefined
  end.

Definition main (fuel : nat) (options : list (ascii * Z)) : io outcome :=
  match parse_options options with
  | None => io_ret Usage
  | Some (port, dev_idx, s) =>
      l <- listening_socket reuseport port;
      match l with
      | inl o => io_ret o
      | inr lsock =>
          before <- peek stopped_after;
          match local_ip output with
          | None => io_undefined
          | Some _ =>
              r <- device_open_and_configure stopped_after (g_dev s) dev_idx 0;
              if fst r <? 0 then
                after <- peek stopped_after;
                (if negb before && after then signal_handler (snd r) lsock else io_ret tt);;
                call (close lsock);;
                io_ret (NoDevice before after)
              else serve fuel dev_idx lsock (snd r) s
          end
      end
  end.
End main.

(** ** Specifications *)

(** The calls that configure an opened device for the state [s]. *)
Definition configured (h : Z) (s : device_state) : list lib_call :=
  [msisdr_rsp1a_gpio_init h; msisdr_set_hw_flavour h 0; msisdr_set_sample_format h "AUTO"; msisdr_set_if_freq h 0;
   msisdr_set_bandwidth h 8000000; msisdr_set_sample_rate h (sample_rate s); msisdr_set_center_freq h (center_freq s);
   msisdr_set_tuner_gain_mode h (gain_mode s); msisdr_set_tuner_gain h (gain s); msisdr_reset_buffer h].

(** The handles that are open when [g_dev.dev] is [dev]. *)
Definition holds (dev : Z) : list Z := if dev =? 0 then [] else [dev].

(** The calls of one record are the first of another. *)
Definition extends (tr tr' : record (C := lib_call)) : Prop := calls tr `prefix_of` calls tr'.

(** [socket] gives a descriptor, which is not negative. *)
Definition descriptors (o : oracle (C := lib_call)) : Prop := forall tr, Forall (fun h => 0 <= h) (snd (o tr socket)).

(** The last call started the USB thread, and was refused. *)
Definition thread_refused (o : oracle (C := lib_call)) (tr : record (C := lib_call)) : Prop :=
  exists c, last (calls tr) = Some c /\ (c = malloc 4 \/ c = pthread_create) /\ exists tr0, fst (o tr0 c) <> 0.

(** The first line of a text without its newline. *)
Fixpoint line_of (text : list Z) : list Z :=
  match text with
  | [] => []
  | c :: text' => if c =? NEWLINE then [] else c :: line_of text'
  end.

(** A string in a buffer. *)
Fixpoint c_string (buf : list Z) : list Z :=
  match buf with
  | [] => []
  | c :: buf' => if c =? 0 then [] else c :: c_string buf'
  end.

(** The last value given for an option. *)
Definition last_option (opt : ascii) (options : list (ascii * Z)) (default : Z) : Z :=
  foldl (fun v ov => if decide (fst ov = opt) then snd ov else v) default options.

Definition known_option (opt : ascii) : bool :=
  match opt with "p" | "d" | "g" | "r" | "f" | "l" => true | _ => false end%char.

(** ** Lemmas: records *)

Lemma extends_length tr tr' : extends tr tr' -> (length tr <= length tr')%nat.
Proof. intros H%prefix_length. unfold calls in H. by rewrite !length_map in H. Qed.

Lemma extends_settings tr tr' : extends tr tr' -> settings tr `prefix_of` settings tr'.
Proof. intros [l H]. exists (List.filter is_setting l). unfold settings. by rewrite H, List.filter_app. Qed.

Lemma extends_snoc (tr tr' : record (C := lib_call)) c : calls tr' = calls tr ++ [c] -> extends tr tr'.
Proof. intros H. by exists [c]. Qed.

Lemma calls_length (tr tr' : record (C := lib_call)) c : calls tr' = calls tr ++ [c] -> length tr' = S (length tr).
Proof.
  intros H. apply (f_equal length) in H. unfold calls in H. rewrite length_app, !length_map in H. cbn in H. lia.
Qed.

#[local] Instance extends_preorder : PreOrder extends.
Proof. split; unfold extends; [intros tr; reflexivity|intros x y z; apply transitivity]. Qed.

Ltac extend :=
  repeat match goal with H : calls ?b = calls ?a ++ [_] |- _ => apply extends_snoc in H end;
  unfold extends in *; repeat (eassumption || reflexivity || (etransitivity; [eassumption|])).

(** ** Lemmas: the device *)

Lemma wp_peek {A B} (var : record -> A) (k : A -> io B) (Q : B -> record -> Prop) o tr :
  wp (k (var tr)) Q o tr -> wp (io_bind (peek var) k) Q o tr.
Proof. intros H. by apply wp_bind. Qed.

(** A call on the device, or on none. *)
Lemma wp_dev {B} c dev (k : io B) (Q : B -> record -> Prop) o tr hs :
  holding tr (holds dev ++ hs) -> use c = (if dev =? 0 then Unrelated else Uses dev) \/ use c = Unrelated ->
  (forall tr', holding tr' (holds dev ++ hs) -> calls tr' = calls tr ++ [c] -> wp k Q o tr') ->
  wp (call c;; k) Q o tr.
Proof.
  intros Hw Hc Hk. apply wp_bind.
  assert (use c = Unrelated \/ use c = Uses dev /\ dev ∈ holds dev ++ hs) as [Hu|[Hu Hin]].
  { unfold holds. destruct (dev =? 0); [tauto|]. destruct Hc as [Hc|Hc]; [right; split; [done|by left]|by left]. }
  - eapply hold_unrelated; [exact Hu|exact Hw|]. auto.
  - eapply hold_use; [exact Hu|exact Hw|exact Hin|]. auto.
Qed.

Lemma wp_close_dev {B} dev (k : io B) (Q : B -> record -> Prop) o tr hs :
  holding tr (holds dev ++ hs) ->
  (forall tr', holding tr' hs -> calls tr' = calls tr ++ [msisdr_close dev] -> wp k Q o tr') ->
  wp (call (msisdr_close dev);; k) Q o tr.
Proof.
  intros Hw Hk. apply wp_bind. unfold holds in Hw. destruct (dev =? 0) eqn:E.
  - eapply hold_unrelated; [cbn; by rewrite E|exact Hw|]. auto.
  - apply Z.eqb_neq in E. eapply hold_close; [by apply use_close_device|exact Hw|]. auto.
Qed.

Section device_lemmas.
Context (g_stop : record (C := lib_call) -> bool) (g_dev : record (C := lib_call) -> device_state) (o : oracle (C := lib_call)).
Context (hs : list Z).
Hypothesis documented : opens_documented o.

Lemma open_attempts_wp (Q : Z -> record -> Prop) n dev_idx : forall tr, holding tr hs ->
  (forall h tr', holding tr' (holds h ++ hs) -> extends tr tr' -> settings tr' = settings tr ->
     (g_stop tr = true -> h = 0) -> Q h tr') ->
  wp (open_attempts g_stop n dev_idx 0) Q o tr.
Proof using documented.
  induction n as [|n IH]; intros tr Hw HQ; cbn [open_attempts]; [by apply wp_ret, HQ|].
  apply wp_peek. destruct (g_stop tr) eqn:Es; [by apply wp_ret, HQ|]. apply wp_bind. eapply hold_open; [done|exact Hw|exact documented| |].
  - intros h tr' Hh Hw' Hc'. cbn [fst snd Z.eqb]. apply wp_ret, HQ; [|extend| |congruence].
    + unfold holds. rewrite (proj2 (Z.eqb_neq h 0)) by done. done.
    + by rewrite (settings_snoc _ _ _ Hc'), app_nil_r.
  - intros code out tr' Hcode Hw' Hc'. cbn [fst]. rewrite (proj2 (Z.eqb_neq code 0)) by done.
    eapply (wp_dev (sleep 1) 0); [exact Hw'|by right|]. intros tr2 Hw2 Hc2. apply IH; [done|].
    intros h tr3 Hw3 He3 Hs3 _. apply HQ; [done|extend| |congruence].
    by rewrite Hs3, (settings_snoc _ _ _ Hc2), (settings_snoc _ _ _ Hc'), !app_nil_r.
Qed.

(** The device is open and configured, or there is none. *)
Lemma device_open_wp (Q : Z * Z -> record -> Prop) dev_idx tr : holding tr hs ->
  (forall tr', holding tr' hs -> extends tr tr' -> Q (-1, 0) tr') ->
  (forall h tr', h <> 0 -> holding tr' (holds h ++ hs) -> extends tr tr' -> g_stop tr = false ->
     (forall s, (forall tr2, g_dev tr2 = s) -> settings tr' = settings tr ++ configured h s) -> Q (0, h) tr') ->
  wp (device_open_and_configure g_stop g_dev dev_idx 0) Q o tr.
Proof using documented.
  intros Hw Hno Hyes. unfold device_open_and_configure. apply wp_bind, open_attempts_wp; [done|].
  intros h tr' Hw' He' Hs' Hstop. destruct (h =? 0) eqn:E.
  { apply Z.eqb_eq in E as ->. by apply wp_ret, Hno. }
  assert (h <> 0) as Hh by (by apply Z.eqb_neq).
  repeat first
    [ eapply wp_dev; [eassumption|cbn; rewrite E; by left|]; intros ? ? ?
    | apply wp_peek ].
  apply wp_ret, Hyes; [done|done|extend| |].
  - destruct (g_stop tr); [|done]. by destruct Hh; apply Hstop.
  - intros s Hs. unfold configured, settings in *.
    repeat match goal with H : calls ?t = _ |- context [calls ?t] => rewrite H end.
    rewrite !List.filter_app, Hs'. cbn. rewrite !Hs, <- !app_assoc. done.
Qed.

Lemma reopen_wp (Q : Z -> record -> Prop) n dev_idx : forall wait tr, holding tr hs ->
  (forall h tr', holding tr' (holds h ++ hs) -> extends tr tr' -> Q h tr') ->
  wp (reopen g_stop g_dev n wait dev_idx 0) Q o tr.
Proof using documented.
  induction n as [|n IH]; intros wait tr Hw HQ; cbn [reopen]; [by apply wp_ret, HQ|].
  apply wp_peek. destruct (g_stop tr); [by apply wp_ret, HQ|].
  eapply (wp_dev (sleep wait) 0); [exact Hw|by right|]. intros tr1 Hw1 Hc1.
  apply wp_bind, device_open_wp; [done| |].
  - intros tr2 Hw2 He2. cbn [fst snd Z.eqb]. eapply wp_close_dev; [exact Hw2|]. intros tr3 Hw3 Hc3. apply IH; [done|].
    intros h tr4 Hw4 He4. apply HQ; [done|extend].
  - intros h tr2 Hh Hw2 He2 _ _. cbn [fst snd Z.eqb]. apply wp_ret, HQ; [done|extend].
Qed.

Lemma usb_stream_thread_wp N (Q : option Z -> record -> Prop) dev_idx : forall fuel dev tr,
  (forall tr, (N <= length tr)%nat -> g_stop tr = true) -> (0 < fuel)%nat -> (N < fuel + length tr)%nat -> holding tr (holds dev ++ hs) ->
  (forall dev' tr', holding tr' (holds dev' ++ hs) -> extends tr tr' -> g_stop tr' = true -> Q (Some dev') tr') ->
  wp (usb_stream_thread g_stop g_dev fuel dev_idx dev) Q o tr.
Proof using documented.
  intros fuel dev tr Hstop. revert dev tr. induction fuel as [|fuel IH]; intros dev tr Hpos Hf Hw HQ; cbn [usb_stream_thread].
  - lia.
  - apply wp_peek. destruct (g_stop tr) eqn:E; [by apply wp_ret, HQ|].
    eapply wp_dev; [exact Hw|left; done|]. intros tr1 Hw1 Hc1. apply wp_peek.
    destruct (g_stop tr1) eqn:E1; [apply wp_ret, HQ; [done|extend|done]|].
    assert (length tr1 < N)%nat.
    { destruct (decide (N <= length tr1)%nat); [|lia]. by rewrite Hstop in E1. }
    eapply wp_close_dev; [exact Hw1|]. intros tr2 Hw2 Hc2.
    apply wp_bind, reopen_wp; [done|]. intros h tr3 Hw3 He3.
    pose proof (calls_length _ _ _ Hc1). pose proof (calls_length _ _ _ Hc2). pose proof (extends_length _ _ He3).
    apply IH; [lia|lia|done|]. intros dev' tr4 Hw4 He4 Hs4. apply HQ; [done|extend|done].
Qed.
End device_lemmas.

(** ** Lemmas: main *)

Section main_lemmas.
Context (o : oracle (C := lib_call)).
Hypothesis documented : opens_documented o.

(** A call on the listening socket. *)
Lemma wp_socket c s hs tr (Q : answer -> record -> Prop) :
  use c = (if s =? -1 then Unrelated else Uses s) -> holding tr (s :: hs) ->
  (forall a tr', holding tr' (s :: hs) -> calls tr' = calls tr ++ [c] -> Q a tr') -> wp (call c) Q o tr.
Proof using Type.
  intros Hc Hw HQ. destruct (s =? -1); [by eapply hold_unrelated|]. eapply hold_use; [exact Hc|exact Hw|left|done].
Qed.

Lemma listening_socket_wp reuseport port hs (Q : outcome + Z -> record -> Prop) :
  descriptors o -> forall tr, holding tr hs ->
  (forall tr', holding tr' hs -> Q (inl NoSocket) tr') ->
  (forall s tr', holding tr' (s :: hs) -> Q (inl (NotListening s)) tr') ->
  (forall s tr', 0 <= s -> holding tr' (s :: hs) -> settings tr' = settings tr -> Q (inr s) tr') ->
  wp (listening_socket reuseport port) Q o tr.
Proof using documented.
  intros Hdesc tr Hw H1 H2 H3. unfold listening_socket, code_of. apply wp_bind, wp_answer.
  eapply hold_open; [done|exact Hw|done| |].
  2:{ intros code out tr1 Hne Hw1 _ _. destruct code; [done|..]; by apply wp_ret, H1. }
  intros s tr1 _ Hw1 Hc1 Ha. pose proof (Hdesc tr) as Hs. rewrite <- Ha in Hs. apply Forall_cons in Hs as [Hs _].
  rewrite (proj2 (Z.ltb_ge s 0)) by done.
  apply wp_bind. eapply wp_socket; [done|exact Hw1|]. intros _ tr2 Hw2 Hc2.
  assert (forall tr3, holding tr3 (s :: hs) -> settings tr3 = settings tr2 -> wp
    (code <- io_bind (call (bind s (wrap 16 port))) (fun a => io_ret (fst a));
     if code <? 0 then io_ret (inl (NotListening s))
     else code <- io_bind (call (listen s (Z.of_nat RtlTcpServer.MAX_CLIENTS))) (fun a => io_ret (fst a));
          if code <? 0 then io_ret (inl (NotListening s)) else io_ret (inr s)) Q o tr3) as Hrest.
  { intros tr3 Hw3 Hs3. apply wp_bind, wp_bind. eapply wp_socket; [done|exact Hw3|]. intros a4 tr4 Hw4 Hc4. apply wp_ret.
    destruct (fst a4 <? 0); [by apply wp_ret, H2|].
    apply wp_bind, wp_bind. eapply wp_socket; [done|exact Hw4|]. intros a5 tr5 Hw5 Hc5. apply wp_ret.
    destruct (fst a5 <? 0); [by apply wp_ret, H2|]. apply wp_ret, H3; [done|done|].
    by rewrite (settings_snoc _ _ _ Hc5), (settings_snoc _ _ _ Hc4), Hs3, (settings_snoc _ _ _ Hc2),
      (settings_snoc _ _ _ Hc1), !app_nil_r. }
  apply wp_bind. destruct reuseport; [|by apply wp_ret, Hrest].
  apply wp_bind. eapply wp_socket; [done|exact Hw2|]. intros _ tr3 Hw3 Hc3. apply wp_ret, Hrest; [done|].
  by rewrite (settings_snoc _ _ _ Hc3), app_nil_r.
Qed.

Lemma signal_handler_wp dev lsock hs tr (Q : unit -> record -> Prop) :
  0 <= lsock -> holding tr (lsock :: holds dev ++ hs) ->
  (forall tr', holding tr' (holds dev ++ hs) -> extends tr tr' -> Q tt tr') ->
  wp (signal_handler dev lsock) Q o tr.
Proof using Type.
  intros Hs Hw HQ. unfold signal_handler. rewrite (proj2 (Z.ltb_ge lsock 0)) by done. apply wp_bind.
  assert (forall tr1, holding tr1 (lsock :: holds dev ++ hs) -> extends tr tr1 ->
    wp (call (close lsock);; io_ret tt) Q o tr1) as Hclose.
  { intros tr1 Hw1 He1. apply wp_bind. eapply hold_close; [done|exact Hw1|]. intros a tr2 Hw2 Hc2. apply wp_ret, HQ; [done|extend]. }
  unfold holds in *. destruct (dev =? 0); [by apply wp_ret, Hclose|]. apply wp_bind.
  eapply hold_use; [done|exact Hw|right; left|]. intros a tr1 Hw1 Hc1. apply wp_ret, Hclose; [done|extend].
Qed.

(** Closing a handle that is not open. *)
Lemma wp_close_again {B} c h (k : B) (Q : B -> record -> Prop) tr hs :
  use c = Closes h -> holding tr hs -> h ∉ hs -> (forall tr', live tr' = None -> Q k tr') ->
  wp (call c;; io_ret k) Q o tr.
Proof using Type.
  intros Hc (l & Hl & Hp & _) Hh HQ. apply wp_bind, wp_call, wp_ret, HQ. rewrite live_snoc, Hl. unfold live_step.
  cbn [fst mbind option_bind]. rewrite Hc. unfold close_handle. by rewrite decide_False by (by rewrite Hp).
Qed.

Lemma serve_wp signal g_dev clients fuel dev_idx lsock dev s (Q : outcome -> record -> Prop) :
  forall tr, (signal < fuel)%nat -> 0 <= lsock -> dev <> 0 -> holding tr (dev :: [lsock]) ->
  (forall tr', thread_refused o tr' -> Q Undefined tr') ->
  (forall dev' tr', RtlTcpServer.main clients <> RtlTcpServer.Done -> holding tr' (holds dev') -> Q (Blocked dev') tr') ->
  (forall tr', RtlTcpServer.main clients = RtlTcpServer.Done -> holding tr' [] -> extends tr tr' -> Q Served tr') ->
  wp (serve signal g_dev clients fuel dev_idx lsock dev s) Q o tr.
Proof using documented.
  intros tr Hf Hs Hd Hw Hno Hblock HQ. unfold serve.
  assert (forall c tr tr' code out, calls tr' = calls tr ++ [c] -> (c = malloc 4 \/ c = pthread_create) -> code <> 0 ->
    (code, out) = o tr c -> thread_refused o tr') as Href.
  { intros c tr0 tr' code out Hc Hcase Hne Ha. exists c. split; [by rewrite Hc, last_snoc|]. split; [done|].
    exists tr0. by rewrite <- Ha. }
  apply wp_bind, wp_answer. eapply hold_open; [done|exact Hw|done| |].
  2:{ intros code out tr1 Hne _ Hc1 Ha. assert (Q Undefined tr1) by (eapply Hno, Href; eauto). by destruct code. }
  intros arg tr1 _ Hw1 Hc1 _. apply wp_bind, wp_answer. eapply hold_open; [done|exact Hw1|done| |].
  2:{ intros code out tr2 Hne _ Hc2 Ha. assert (Q Undefined tr2) by (eapply Hno, Href; eauto). by destruct code. }
  intros tid tr2 _ Hw2 Hc2 _. apply wp_bind. eapply (hold_close _ arg _ _ _ [tid; dev; lsock]); [done| |].
  { reorder Hw2. }
  intros _ tr3 Hw3 Hc3. apply wp_bind. eapply (usb_stream_thread_wp _ _ _ [tid; lsock]) with (N := signal); [done| |lia|lia| |].
  { intros tr' Hn. by apply Nat.leb_le. }
  { unfold holds. rewrite (proj2 (Z.eqb_neq dev 0)) by done. reorder Hw3. }
  intros dev' tr4 Hw4 He4 _. apply wp_bind, (signal_handler_wp dev' lsock [tid]); [done| |].
  { reorder Hw4. }
  intros tr5 Hw5 He5. apply wp_bind. eapply (hold_close _ tid _ _ _ (holds dev' ++ [])); [done| |].
  { reorder Hw5. }
  intros _ tr6 Hw6 Hc6. destruct (RtlTcpServer.main clients) eqn:Em;
    [apply wp_ret, Hblock; [done|by rewrite app_nil_r in Hw6]..|].
  eapply wp_close_dev; [exact Hw6|]. intros tr7 Hw7 Hc7. apply wp_ret, HQ; [done|done|extend].
Qed.
End main_lemmas.

(** ** Lemmas: the address *)

Lemma first_line_of : forall text, first_line text = line_of text \/ first_line text = line_of text ++ [NEWLINE].
Proof.
  induction text as [|c text IH]; [by left|]. cbn [first_line line_of]. destruct (c =? NEWLINE) eqn:E.
  - apply Z.eqb_eq in E as ->. by right.
  - destruct IH as [-> | ->]; [by left|by right].
Qed.

Lemma line_of_clean text : Forall (fun c => c <> 0) text -> Forall (fun c => c <> NEWLINE /\ c <> 0) (line_of text).
Proof.
  induction 1 as [|c text Hc Ht IH]; [done|]. cbn [line_of]. destruct (c =? NEWLINE) eqn:E; [done|].
  constructor; [|done]. by apply Z.eqb_neq in E.
Qed.

(** The end of a string that is followed by a newline or a 0. *)
Lemma strcspn_clean line c rest : Forall (fun c => c <> NEWLINE /\ c <> 0) line -> c = NEWLINE \/ c = 0 ->
  strcspn_newline (line ++ c :: rest) = Some (length line).
Proof.
  intros Hl Hc. induction Hl as [|x line [Hn Hz] _ IH]; cbn [app strcspn_newline length].
  - by destruct Hc as [-> | ->].
  - by rewrite (proj2 (Z.eqb_neq x NEWLINE)), (proj2 (Z.eqb_neq x 0)), IH by done.
Qed.

Lemma c_string_clean line rest : Forall (fun c => c <> 0) line -> c_string (line ++ 0 :: rest) = line.
Proof.
  induction 1 as [|x line Hz _ IH]; [done|]. cbn [app c_string]. by rewrite (proj2 (Z.eqb_neq x 0)), IH by done.
Qed.

(** What [fgets] keeps of a line. *)
Lemma fgets_line text : exists kept, take 63 (first_line text) = kept /\
  (kept = take 63 (line_of text) \/ kept = take 63 (line_of text) ++ [NEWLINE]).
Proof.
  eexists. split; [done|]. destruct (first_line_of text) as [-> | ->]; [by left|].
  destruct (decide (length (line_of text) < 63)%nat).
  - right. by rewrite !take_ge by (rewrite ?length_app; cbn; lia).
  - left. by rewrite take_app_le by lia.
Qed.

Lemma fgets_stored t : line_of t <> [] ->
  exists c rest, fgets (replicate 64 0) 64 t = Some (take 63 (line_of t) ++ c :: rest) /\ (c = NEWLINE \/ c = 0) /\
    length (take 63 (line_of t) ++ c :: rest) = 64%nat.
Proof.
  intros Hne. unfold fgets. change (64 - 1)%nat with 63%nat. destruct (fgets_line t) as (kept & Hk & Hcases).
  assert (length kept <= 63)%nat as Hlen by (rewrite <- Hk, length_take; lia).
  assert (fgets (replicate 64 0) 64 t = Some (kept ++ 0 :: drop (length kept + 1) (replicate 64 0))) as Hf.
  { unfold fgets. change (64 - 1)%nat with 63%nat. rewrite Hk. destruct kept as [|k kept].
    - destruct (line_of t); [done|]. by destruct Hcases.
    - rewrite write_at_is_Some by (rewrite length_app, length_replicate; cbn in *; lia).
      rewrite take_0, Nat.add_0_l, length_app. cbn [app length]. by rewrite <- app_assoc. }
  unfold fgets in Hf. change (64 - 1)%nat with 63%nat in Hf. rewrite Hf.
  destruct Hcases as [-> | ->].
  - do 2 eexists. split; [reflexivity|]. split; [by right|].
    rewrite length_app. cbn [length]. rewrite length_drop, length_replicate. lia.
  - do 2 eexists. split; [by rewrite <- app_assoc|]. split; [by left|].
    rewrite length_app in *. cbn [length] in *. rewrite length_drop, length_replicate, length_app. cbn. lia.
Qed.

(** The address that is shown: the buffer of 64 bytes is never overrun, and holds
    the first line that was printed, cut at 63 bytes, or a text when there is
    none. *)
Theorem local_ip_correct output (text : forall t, output = Some t -> Forall (fun c => c <> 0) t) :
  exists buf, local_ip output = Some buf /\ length buf = 64%nat /\
    c_string buf = match output with
                   | Some t => if decide (line_of t = []) then no_address else take 63 (line_of t)
                   | None => no_address
                   end.
Proof.
  destruct output as [t|]; [|eexists; split; [reflexivity|by vm_compute]]. specialize (text t eq_refl).
  pose proof (line_of_clean t text) as Hclean. unfold local_ip. case_decide as Hempty.
  { unfold fgets. change (64 - 1)%nat with 63%nat. destruct (fgets_line t) as (kept & -> & Hcases). rewrite Hempty in Hcases.
    destruct Hcases as [-> | ->]; eexists; by vm_compute. }
  destruct (fgets_stored t Hempty) as (c & rest & -> & Hc & Hlen). cbn [mbind option_bind].
  assert (Forall (fun c => c <> NEWLINE /\ c <> 0) (take 63 (line_of t))) as Ht by (by apply Forall_take).
  rewrite strcspn_clean by done. cbn [mbind option_bind]. set (line := take 63 (line_of t)) in *.
  assert (line <> []) as Hl by (unfold line; by destruct (line_of t)).
  rewrite length_app in Hlen. cbn [length] in Hlen.
  rewrite write_at_is_Some by (rewrite length_app; cbn; lia). rewrite take_app_length.
  replace (drop (length line + length [0]) (line ++ c :: rest)) with rest.
  2:{ by rewrite <- drop_drop, drop_app_length. }
  exists (line ++ [0] ++ rest). destruct line as [|x line]; [done|]. apply Forall_cons in Ht as [[_ Hx] Ht].
  cbn [mbind option_bind app nth] in *. rewrite (proj2 (Z.eqb_neq x 0)) by done. split; [done|]. split.
  - cbn [length] in *. rewrite length_app. cbn. lia.
  - cbn [c_string]. rewrite (proj2 (Z.eqb_neq x 0)) by done. f_equal. apply c_string_clean.
    eapply Forall_impl; [exact Ht|]. by intros y [_ ?].
Qed.

(** ** Lemmas: the options *)

Lemma main_option_known port dev_idx s opt value :
  match main_option (port, dev_idx, s) opt value with
  | Some (port', dev_idx', s') => known_option opt = true /\
      port' = last_option "p" [(opt, value)] port /\ dev_idx' = last_option "d" [(opt, value)] dev_idx /\
      s' = MkDeviceState (dev s) (if decide (opt = "f"%char) then wrap 32 value else center_freq s)
             (if decide (opt = "r"%char) then wrap 32 value else sample_rate s) (gain_mode s)
             (last_option "g" [(opt, value)] (gain s))
  | None => known_option opt = false
  end.
Proof. destruct s, opt as [[] [] [] [] [] [] [] []]; cbn; auto. Qed.

(** A setting that is converted when it is stored. *)
Lemma last_option_wrap opt options v :
  wrap 32 (last_option opt options (wrap 32 v)) = wrap 32 (last_option opt options v).
Proof.
  unfold last_option. revert v. induction options as [|[opt' v'] options IH]; intros v; [apply wrap_wrap|]. cbn.
  case_decide; [done|apply IH].
Qed.

Lemma main_options_spec options : forall port dev_idx s, is_unsigned 32 (center_freq s) -> is_unsigned 32 (sample_rate s) ->
  match main_options (port, dev_idx, s) options with
  | Some (port', dev_idx', s') => forallb (fun ov => known_option (fst ov)) options = true /\
      port' = last_option "p" options port /\ dev_idx' = last_option "d" options dev_idx /\
      s' = MkDeviceState (dev s) (wrap 32 (last_option "f" options (center_freq s)))
             (wrap 32 (last_option "r" options (sample_rate s))) (gain_mode s) (last_option "g" options (gain s))
  | None => forallb (fun ov => known_option (fst ov)) options = false
  end.
Proof.
  induction options as [|[opt v] options IH]; intros port dev_idx s Hf Hr; cbn [main_options forallb fst].
  - split; [done|]. split; [done|]. split; [done|]. cbn. rewrite !wrap_small by done. by destruct s.
  - pose proof (main_option_known port dev_idx s opt v) as H. destruct (main_option _ opt v) as [[[port1 idx1] s1]|]; [|by rewrite H].
    destruct H as (-> & -> & -> & ->). cbn [mbind option_bind andb].
    specialize (IH (last_option "p" [(opt, v)] port) (last_option "d" [(opt, v)] dev_idx) (MkDeviceState (dev s)
      (if decide (opt = "f"%char) then wrap 32 v else center_freq s) (if decide (opt = "r"%char) then wrap 32 v else sample_rate s)
      (gain_mode s) (last_option "g" [(opt, v)] (gain s)))).
    cbn [center_freq sample_rate dev gain_mode gain] in IH.
    assert (forall (P : Prop) `{Decision P} x, is_unsigned 32 x -> is_unsigned 32 (if decide P then wrap 32 v else x)) as Hu.
    { intros P HP x Hx. destruct (decide P); [by apply wrap_range|done]. }
    destruct (main_options _ options) as [[[port2 idx2] s2]|]; [|by apply IH; apply Hu].
    destruct IH as (Hk & -> & -> & ->); [by apply Hu..|]. split; [done|]. split; [done|]. split; [done|].
    cbn. f_equal; case_decide; [apply last_option_wrap|done|apply last_option_wrap|done].
Qed.

(** ** Properties *)

(** The options: the last value of each counts, the rate and the frequency modulo
    2^32, and any other option ends the program. *)
Theorem options_parsed options :
  match parse_options options with
  | Some (port, dev_idx, s) => forallb (fun ov => known_option (fst ov)) options = true /\
      port = last_option "p" options DEFAULT_PORT /\ dev_idx = last_option "d" options DEFAULT_DEVICE_INDEX /\
      s = MkDeviceState 0 (wrap 32 (last_option "f" options DEFAULT_CENTER_FREQ))
            (wrap 32 (last_option "r" options DEFAULT_SAMPLE_RATE)) 1 (last_option "g" options DEFAULT_GAIN)
  | None => forallb (fun ov => known_option (fst ov)) options = false
  end.
Proof. by apply (main_options_spec options DEFAULT_PORT DEFAULT_DEVICE_INDEX default_state). Qed.


(** The device is found, and streams once to a client before the signal comes. *)
Definition one_client (threads : list (nat * Z)) (sockets shut : list Z) (stop : bool) (pc : RtlTcpServer.main_pc)
    (first : RtlTcpServer.slot) : RtlTcpServer.server :=
  RtlTcpServer.MkServer [first; RtlTcpServer.empty_slot; RtlTcpServer.empty_slot; RtlTcpServer.empty_slot] threads sockets shut stop pc.


End RtlTcpMain.
